(* ===== verification/_CoqProject ===== *)
-Q . S2P
Prelude.v
GoStd.v
Encoding.v
Json.v
Libs.v
Abi.v
JsonCodec.v
Tokens.v
ChainConfig.v
Confirmations.v
Price.v
Eip712.v
Topology.v
Comm.v
Subscriptions.v
P2P.v
PeerSort.v
TssCommon.v
Keyshare.v
TssCoordinator.v
Signing.v
Network.v
Session.v
Keygen.v
Resharing.v
KeySessions.v
Sessions.v
Listener.v
KeyshareLock.v
KeyEvents.v
KeyEpochs.v
Handlers.v
Across.v
Lifi.v
Sprinter.v
Lighter.v
Contracts.v
Relay.v
Requests.v
Cache.v
Delivery.v
Metrics.v
RelayerConfig.v
Config.v
Api.v
Server.v
App.v
Cli.v
