(* ===== verification/Prelude.v ===== *)
(** * Sprinter signing relayer: a verification development

    The program (src/) is one relayer of a group that holds a threshold ECDSA
    key.  It takes requests to pay out funds of liquidity pools before they
    are settled, checks each request against the chain, and signs the payout
    together with the other relayers.  This library models its logic as Rocq
    definitions that evaluate and proves what makes it correct; where the code
    does not do what it means to, the theorem states what it does.

    ** How the program is put together

    A request enters over HTTP (api/handlers) or as a message of another
    relayer (the [Listen] loops).  The handler of its protocol
    (chains/evm/message, chains/lighter/message) looks up the deposit or
    order, compares amounts across tokens, waits for confirmations, answers
    the requester over [ErrChn], computes an EIP-712 hash and calls
    [Coordinator.Execute] (tss/coordinator.go) with a signing process.
    Execute elects a coordinator (comm/elector, tss/util); the coordinator
    collects the relayers that are ready and broadcasts the start parameters,
    the others wait for them; the process (tss/ecdsa/signing, keygen,
    resharing) then drives a party of tss-lib over the subscriptions of the
    p2p layer (comm).  The signature is kept in a cache (cache/signature.go)
    from which the status route streams it.  Key generation and resharing
    are started by contract events (chains/evm/listener).

    ** Files

    - [Prelude]: errors, results, panics and traces of actions ([io]), machine
      integers, list lemmas, tactics and the hint database [go].
    - [GoStd]: the parts of Go and its standard library that the code uses:
      bytes and strings, strconv, math/big, hex, files, mutexes, map ranges;
      [Encoding]: UTF-8, UTF-16 and base64; [Json]: the texts of
      encoding/json and its parser; [JsonCodec]: Go types with a JSON
      encoding, from their fields.
    - [Libs]: one class per third-party package, with the documented facts
      the code relies on, and instances ([Toy]) that satisfy them.
    - [Abi]: the contract ABIs of chains/evm/calls/consts, as the texts that
      the code holds and as the declarations in them.
    - [Tokens], [ChainConfig], [Confirmations], [Price], [Eip712]:
      config/token.go and chains/util.go; chains/evm/config.go,
      config/chain and chains/lighter/config.go; confirmations.go with the
      arithmetic of big.Float; price/coinmarketcap.go; signature/hash.go.
    - [Topology]: topology/ (encryption, fetching, storing).
    - [Comm], [Subscriptions], [P2P]: comm/ (messages, subscription IDs, the
      subscription manager, framing, streams, broadcasts, gate, health check).
    - [PeerSort]: the order of peers and the static elector.
    - [TssCommon], [Keyshare]: tss/message, tss/ecdsa/common, keyshare/.
    - [TssCoordinator]: tss/coordinator.go as a step relation: an execution
      has a start goroutine ([initiate] or [waitForStart]) and a watcher, a
      node has a table of pending sessions and its running executions.
    - [Signing], [Keygen], [Resharing]: the three processes.
    - [Network]: the relayers that execute one session, each with its process
      and its goroutines, and the messages between them, as a step relation
      over any kind of process (the class [Process]); [Session] and
      [KeySessions] are its instances for signing, key generation and
      resharing; [Sessions]: the sessions of all kinds at once, sharing the
      messages.
    - [Listener]: the keygen and refresh event handlers; [KeyEvents]: the
      sessions that the relayers start when all of them handle one event;
      [KeyEpochs]: the keyshares that these leave for the next event.
    - [KeyshareLock]: the goroutines of one relayer that share its keyshare
      file, with its reads and writes in pieces.
    - [Handlers]: what the message handlers share; [Across], [Lifi],
      [Sprinter], [Lighter]: the fetchers and handlers of each protocol;
      [Contracts]: the calls they pack and the events they read, by the ABIs.
    - [Relay]: a request that one relayer passes on to the others;
      [Requests]: the session that follows, on the network.
    - [Cache]: the signature cache and its subscribers; [Delivery]: messages
      of parties and signatures from one relayer to another, through comm/.
    - [Metrics]: metrics/ (construction and every measurement).
    - [RelayerConfig], [Config]: parsing the configuration and environment.
    - [Api], [Server]: the handlers of the HTTP routes, and the routes.
    - [App]: app/app.go, what a relayer is made of: its host, its handlers by
      chain and protocol, and what the API is given.
    - [Cli]: cli/, what the commands print and return.

    ** Conventions

    A Go function with an error result returns [result]; one that may panic
    returns [outcome]; one whose calls matter returns [io E A], the list of
    its actions in program order with its value or panic.  Goroutines and
    [select] are events: a theorem quantifies over every sequence of them.
    Fixed-width integers are [Z] with the wrap-around written out ([u64],
    [u8], [i64]); a nil pointer is [None]; a map is a [gmap] and ranging over
    one with string keys goes through [MapRange], which leaves the order
    open; a map whose keys are sorted first is sorted here too.  Logging is
    left out, and so are the texts of some error messages.

    Interfaces between components are classes with their promises:
    [DepositFetcher], [OrderFetcher] and [ConfirmationWatcher] state what a
    handler relies on, the fetchers and the watcher implement them, and the
    handlers are proved against the class.  [Json] is the class of Go types
    that are sent or stored: a type is described by its fields under their
    JSON names, and what is marshalled is parsed back for every value that
    survives ([json_wf]).  [RequestHandler] is what the five protocols promise
    about a request that is passed on, and [Process] what a tss process
    promises to the coordinator.  [SpokePoolABI] and [LighterABI] are what the
    handlers ask of the contracts' ABIs; [Contracts] implements them over
    [AbiCodec], the binary encoding of go-ethereum.  [SygmaCore], [Mux] and
    [Libp2pCrypto] are the interfaces of sygma-core, gorilla/mux and libp2p's
    keys.

    ** What is proved

    - One session on the network, which loses, delays, reorders and repeats
      messages: the relayers of a signing session make the same party
      ([session_agreement]) and can always start it ([session_can_start]);
      relayers that handle one contract event run one key generation or
      resharing, agree on its committees and thresholds, newcomers included,
      and can always start it ([keygen_event_agreement],
      [refresh_event_agreement], [keygen_event_can_start],
      [refresh_event_can_start]); the relayers that a request is passed on to
      sign the same message in one session ([request_parties_agree]), each
      by its own check of the chain ([across_parties_checked]).  All this
      holds with any number of sessions on the network at once: none of them
      does what it could not do alone, and they can all go on together
      ([sessions_isolated]).  The keyshares that a resharing leaves behind are those that the next event asks for
      ([refresh_event_renews], and [keygen_event_renews] for the first).
    - One relayer: a session is run at most once at a time and can always be
      brought to its end ([sessions_exclusive], [execution_can_finish]); only
      the coordinator starts one ([waitForStart_coordinator_only]); relayers
      that see the same peers elect the same one ([Coordinator_agreement]);
      whatever its goroutines do at the same time, the calls of the keyshare
      store take effect as if in one step each ([keyshare_calls_atomic]), so
      processes are made from whole keyshares ([keyshare_reads_last]);
      the processes build the right parties and encode the signature
      ([Run_party], [processEndMessage_signature], [sortParties_order]).
    - Between relayers: what the party of one sends reaches the party of the
      other ([party_message_delivered]); a signature reaches whoever waits
      for it ([signature_distributed]); a message on a stream reaches the
      subscribers ([stream_delivers]); requests are passed on
      ([request_relayed]).
    - What is signed: each handler signs only what it has checked
      ([across_signs_only_covered], [escrow_signs_only_verified],
      [unlock_signs_repayer], [sprinter_signs_liquidator],
      [lighter_signs_verified]), a borrow hash authorises one borrow
      ([BorrowUnlockHash_binds]), and the calldata in it is the fill of the
      deposit that was logged ([signed_fill_decodes],
      [deposit_event_fetched]).
    - From the API on: what it hands on is well-typed ([api_messages_typed]);
      a request that a configured relayer accepts is covered
      ([accepted_across_request]); supported chains have their handlers
      ([supported_chains_served]); the status route streams the signature of
      the deposit ([status_request_streams]).
    - Components: the subscription manager refines a map
      ([subscriptions_refine]); streams are not leaked; an encrypted topology
      is read back, by its hash ([encrypted_topology_read],
      [FetchTopology_authentic]); amounts round down; confirmations are
      waited for; stored keyshares are read back; environment variables are
      found; session times are those of sessions ([session_times]).
    - Defects: any contract can emit a deposit ([any_contract_deposits]);
      prices are kept for ever or taken for zero ([price_never_refreshed],
      [missing_quote_least_confirmations]); a message can stop the Lighter
      listener ([lighter_listener_blocks]); a timeout of key generation or
      resharing unlocks twice ([keygen_timeout_fatal], [resharing_lock]), and
      a key generation that has not run unlocks what it has not locked
      ([keygen_unrun_fatal]); one check of the keyshare is not under its lock
      ([unlocked_check_fooled]); a relayer that comes back to the group blocks
      the resharing ([rejoined_relayer_refuses]); IDs
      with a dash ([dashed_session_one_slot]); half of the ports
      ([ports_below_32768]); signatures of peers are not verified
      ([peer_signature_unchecked]); some requests and topologies panic
      ([lighter_domain_panics], [encryptTopology_panics]), and some requests
      wait for ever ([unserved_protocol_waits]).

    ** Fuel and bounds

    [P2P.read_messages] takes the length of the stream as fuel: each message
    consumes its newline.  [time.sum_units] takes the length of the text:
    each number consumes a character.  [json.parse] takes twice the length of
    the text and one more: every two calls consume a character, and more fuel
    changes nothing ([json.parse_fuel]).  [big.be_bytes] takes one more than the
    binary logarithm, an upper bound of the number of digits.  [Abi.type_of]
    takes 3, the depth to which the ABIs nest their types.  Loops that poll
    take the list of what they see, and their theorems hold for every list.

    ** Not modelled

    tss-lib, libp2p, go-ethereum, sygma-core, lifi-solver, ttlcache, viper,
    mergo, cobra, OpenTelemetry and HTTP are parameters or classes, and so
    are the JSON texts of their types ([EthJson], [SaveDataJson],
    [AddrInfoJson]).  Constructors that only store their arguments are the
    records they fill; logging, operating system signals and shutdown are
    left out, and the test helpers (tss/test) are not part of the program.
    Of the contract ABIs, what is packed for a LiFi order and what the hub
    pool answers stay with go-ethereum.  Timestamps of messages and time in
    the coordinator (its tickers) are events.  On the network a party of
    tss-lib is what it was made of: the protocol between the parties is the
    library's, and [Run] of a key generation is called once the keyshare lock
    is free.  In [Sessions] a relayer executes each session once, and its
    sessions share the messages; what else they share is its table of pending
    sessions ([sessions_exclusive]) and its keyshare ([KeyshareLock]), which
    have models of their own.  In [KeyshareLock] a process is stopped
    after it has handled its end message; an [Execute] that is cut off may
    stop it before. *)
From stdpp Require Export prelude strings pretty gmap list sorting.
From Stdlib Require Export ssreflect ZArith.

#[global] Open Scope general_if_scope.
#[global] Set SsrOldRewriteGoalsOrder.
#[global] Set Default Goal Selector "!".
Ltac done := stdpp.tactics.done.

(** ** Errors and panics

    Go functions return errors as values; a run-time panic is a different
    outcome, which no caller in the modelled code recovers from unless its
    definition says so.  [error] keeps the distinctions the code tests with
    [errors.Is] and [errors.As]: the sentinel [ErrProcessStarted]
    (tss/ecdsa/common/base.go) and the types [SubsetError] (tss/errors.go)
    and [CommunicationError] (comm/errors.go). *)

Inductive error : Type :=
  | Errorf (msg : string)
  | Wrapf (msg : string) (cause : error)
  | Joined (es : list error)
  | ErrProcessStarted
  | SubsetError (peer : string)
  | CommunicationError (peer : string) (cause : error).

(** A Go pair [(T, error)] of which exactly one half is meaningful. *)
Inductive result (A : Type) : Type :=
  | Ok (a : A)
  | Err (e : error).
Arguments Ok {A} _.
Arguments Err {A} _.

Definition is_ok {A} (r : result A) : bool :=
  match r with Ok _ => true | Err _ => false end.

Definition result_of_option {A} (e : error) (o : option A) : result A :=
  match o with Some a => Ok a | None => Err e end.

(** [err != nil] of a call that returns only an error. *)
Definition err_of {A} (r : result A) : option error :=
  match r with Ok _ => None | Err e => Some e end.

#[export] Instance result_ret : MRet result := λ A a, Ok a.
#[export] Instance result_bind : MBind result := λ A B f m,
  match m with Ok a => f a | Err e => Err e end.

Inductive outcome (A : Type) : Type :=
  | Done (a : A)
  | Panic (msg : string).
Arguments Done {A} _.
Arguments Panic {A} _.

#[export] Instance outcome_ret : MRet outcome := λ A a, Done a.
#[export] Instance outcome_bind : MBind outcome := λ A B f m,
  match m with Done a => f a | Panic s => Panic s end.

(** ** Programs with observable actions

    [io E A] is a piece of Go code that performs the observable actions it
    lists, in program order, and then returns a value or panics. *)
Definition io (E A : Type) : Type := list E * outcome A.

#[export] Instance io_ret {E} : MRet (io E) := λ A a, ([], Done a).
#[export] Instance io_bind {E} : MBind (io E) := λ A B f m,
  match m with
  | (es, Done a) => (es ++ (f a).1, (f a).2)
  | (es, Panic s) => (es, Panic s)
  end.

Definition emit {E} (e : E) : io E unit := ([e], Done tt).
Definition panic {E A} (msg : string) : io E A := ([], Panic msg).
Definition lift {E A} (o : outcome A) : io E A := ([], o).

Abbreviation events m := (fst m) (only parsing).
Abbreviation returned m := (snd m) (only parsing).

Section io_laws.
Context {E A B C : Type}.

Lemma io_bind_ret (a : A) (f : A → io E B) : mbind f (mret a) = f a.
Proof. rw /mbind /io_bind /mret /io_ret /=. by destruct (f a). Qed.

Lemma io_bind_assoc (m : io E A) (f : A → io E B) (g : B → io E C) :
  mbind g (mbind f m) = mbind (λ a, mbind g (f a)) m.
Proof.
  destruct m as [es [a|s]]; [|done].
  rw /mbind /io_bind /=. destruct (f a) as [es' [b|s]]; [|done].
  by rw /= app_assoc.
Qed.

(** Where the action [x] of a sequence comes from. *)
Lemma elem_of_events_bind (m : io E A) (f : A → io E B) x :
  x ∈ events (mbind f m) ↔
  x ∈ events m ∨ ∃ a, returned m = Done a ∧ x ∈ events (f a).
Proof.
  destruct m as [es [a|s]]; rw /mbind /io_bind /=.
  - rw elem_of_app. naive_solver.
  - naive_solver.
Qed.

Lemma returned_bind (m : io E A) (f : A → io E B) b :
  returned (mbind f m) = Done b ↔
  ∃ a, returned m = Done a ∧ returned (f a) = Done b.
Proof. destruct m as [es [a|s]]; rw /mbind /io_bind /=; naive_solver. Qed.
End io_laws.

(** ** Machine integers

    Go's fixed-width integers are integers with their wrap-around written
    out at each conversion or operation. *)
Definition u64 (z : Z) : Z := z `mod` 2 ^ 64.
Definition u16 (z : Z) : Z := z `mod` 2 ^ 16.
Definition u8 (z : Z) : Z := z `mod` 2 ^ 8.
Definition i64 (z : Z) : Z := (z + 2 ^ 63) `mod` 2 ^ 64 - 2 ^ 63.

(** [x.Uint64()] of a big.Int: the low 64 bits of the magnitude of [x], as
    math/big computes it (the documentation leaves negative [x] open). *)
Definition big_Uint64 (x : Z) : Z := u64 (Z.abs x).

Lemma u64_bounds z : (0 ≤ u64 z < 2 ^ 64)%Z.
Proof. apply Z.mod_pos_bound. lia. Qed.
Lemma u64_id z : (0 ≤ z < 2 ^ 64)%Z → u64 z = z.
Proof. apply Z.mod_small. Qed.
Lemma u8_bounds z : (0 ≤ u8 z < 2 ^ 8)%Z.
Proof. apply Z.mod_pos_bound. lia. Qed.
Lemma big_Uint64_id z : (0 ≤ z < 2 ^ 64)%Z → big_Uint64 z = z.
Proof. intros. rw /big_Uint64 (Z.abs_eq z) ?u64_id //; lia. Qed.

(** ** Lists *)

(** [l[i]]: Go panics when the index is out of range. *)
Definition index {A} (l : list A) (i : nat) : outcome A :=
  match l !! i with Some a => Done a | None => Panic "index out of range" end.

Section list_lemmas.
Context {A : Type}.
Implicit Types (l k : list A) (P : A → Prop).

Lemma filter_prefix P `{!∀ x, Decision (P x)} l k :
  l `prefix_of` k → filter P l `prefix_of` filter P k.
Proof. intros [r ->]. exists (filter P r). by rw filter_app. Qed.

(** Two prefixes of one list that have the same length are equal. *)
Lemma prefix_length_unique l1 l2 k :
  l1 `prefix_of` k → l2 `prefix_of` k → length l1 = length l2 → l1 = l2.
Proof.
  intros [r1 ->] [r2 H] Hlen. by apply app_inj_1 in H as [-> _].
Qed.

Lemma filter_length_le P `{!∀ x, Decision (P x)} (l : list A) :
  length (filter P l) ≤ length l.
Proof. apply length_filter. Qed.

Lemma NoDup_snoc l x : NoDup l → x ∉ l → NoDup (l ++ [x]).
Proof.
  intros Hl Hx. apply NoDup_app. split_and!; [done| |apply NoDup_singleton].
  intros y Hy ->%list_elem_of_singleton. done.
Qed.

Lemma elem_of_take_1 l n x : x ∈ take n l → x ∈ l.
Proof. apply subseteq_take. Qed.
End list_lemmas.

Lemma filter_fmap {A B} (f : A → B) (P : B → Prop) `{!∀ x, Decision (P x)} (l : list A) :
  filter P (f <$> l) = f <$> filter (λ a, P (f a)) l.
Proof. induction l as [|a l IH]; [done|]. rw /= !filter_cons IH. by case_decide. Qed.

Lemma filter_true {A} (P : A → Prop) `{!∀ x, Decision (P x)} (l : list A) :
  (∀ x, x ∈ l → P x) → filter P l = l.
Proof.
  induction l as [|a l IH]; intros Hp; [done|].
  rw filter_cons_True; [|apply Hp; by left]. f_equal. apply IH. intros x Hx. apply Hp. by right.
Qed.

Lemma filter_none {A} (P : A → Prop) `{!∀ x, Decision (P x)} (l : list A) :
  (∀ x, x ∈ l → ¬ P x) → filter P l = [].
Proof.
  intros Hp. destruct (filter P l) as [|x k] eqn:E; [done|].
  assert (x ∈ filter P l) as [Hx Hin]%list_elem_of_filter by (rw E; by left). by destruct (Hp x Hin).
Qed.

Lemma filter_ext_in {A} (P Q : A → Prop) `{!∀ x, Decision (P x), !∀ x, Decision (Q x)} (l : list A) :
  (∀ x, x ∈ l → P x ↔ Q x) → filter P l = filter Q l.
Proof.
  induction l as [|a l IH]; intros Hpq; [done|].
  rw !filter_cons IH; [|intros; apply Hpq; by right].
  pose proof (Hpq a ltac:(by left)). repeat case_decide; naive_solver.
Qed.

(** ** Automation *)

Create HintDb go discriminated.
#[export] Hint Resolve u64_bounds u8_bounds NoDup_snoc filter_prefix : go.

(** Case analysis on every test of a straight-line handler. *)
Ltac go_cases :=
  repeat (case_match || case_decide || case_bool_decide); simplify_eq/=.

(** Membership in a concrete trace. *)
Ltac in_trace :=
  repeat match goal with
    | H : _ ∈ events (mbind _ _) |- _ => apply elem_of_events_bind in H
    | H : _ ∈ _ ++ _ |- _ => apply elem_of_app in H
    | H : _ ∈ _ :: _ |- _ => apply elem_of_cons in H
    | H : _ ∈ [] |- _ => by apply not_elem_of_nil in H
    | H : _ ∨ _ |- _ => destruct H
    | H : ∃ _, _ |- _ => destruct H
    | H : _ ∧ _ |- _ => destruct H
    end; simplify_eq/=.

(** One case per element of a literal list, impossible ones discharged. *)
Ltac elem_cases H :=
  lazymatch type of H with
  | _ ∈ [] => exfalso; by apply not_elem_of_nil in H
  | _ ∈ _ :: _ => apply elem_of_cons in H; destruct H as [H|H]; [try simplify_eq|elem_cases H]
  | _ => idtac
  end.
