(* ===== verification/GoStd.v ===== *)
(** * The parts of Go's standard library the relayer computes with

    Text is [string] (Go strings are byte strings); [[]byte] values are
    [bytes].  Modelled here: [strings.Split]/[Trim]/[TrimSuffix], [%d],
    [strconv.ParseInt], [big.Int.SetString]/[SetBytes]/[Bytes],
    [encoding/hex], [binary.BigEndian.Uint64]. *)
From S2P Require Import Prelude.
From Stdlib Require Import Ascii.
From Stdlib.Strings Require Export Byte.

Abbreviation bytes := (list Byte.byte).

#[export] Instance byte_eq_dec : EqDecision Byte.byte := Byte.byte_eq_dec.
#[export] Instance byte_countable : Countable Byte.byte :=
  inj_countable Byte.to_N Byte.of_N Byte.of_to_N.

(** A byte as a number and back ([byte(z)] truncates). *)
Definition byte_val (x : Byte.byte) : Z := Z.of_N (Byte.to_N x).
Definition byte_of (z : Z) : Byte.byte := default Byte.x00 (Byte.of_N (Z.to_N (u8 z))).

Lemma byte_val_bounds x : (0 ≤ byte_val x < 256)%Z.
Proof. rw /byte_val. pose proof (Byte.to_N_bounded x). lia. Qed.
Lemma byte_of_val x : byte_of (byte_val x) = x.
Proof.
  pose proof (byte_val_bounds x) as Hx. rw /byte_of /u8 Z.mod_small //.
  rw /byte_val N2Z.id Byte.of_to_N. done.
Qed.
Lemma byte_val_of z : byte_val (byte_of z) = u8 z.
Proof.
  pose proof (u8_bounds z) as Hz. rw /byte_of.
  destruct (Byte.of_N (Z.to_N (u8 z))) as [x|] eqn:E.
  - apply Byte.to_of_N in E. rw /byte_val /= E. lia.
  - apply Byte.of_N_None_iff in E. lia.
Qed.

(** [[]byte(s)] and [string(b)]. *)
Definition bytes_of (s : string) : bytes := String.list_byte_of_string s.
Definition string_of (b : bytes) : string := String.string_of_list_byte b.

Lemma string_of_bytes_of s : string_of (bytes_of s) = s.
Proof. apply String.string_of_list_byte_of_string. Qed.
Lemma bytes_of_string_of b : bytes_of (string_of b) = b.
Proof. apply String.list_byte_of_string_of_list_byte. Qed.

(** Conversions print with [%d]. *)
Definition fmt_d (z : Z) : string := pretty z.

(** ** strings *)
Module strings.
(** [c] does not occur in [s]. *)
Fixpoint free (c : ascii) (s : string) : bool :=
  match s with
  | EmptyString => true
  | String a s' => bool_decide (a ≠ c) && free c s'
  end.

Fixpoint count (c : ascii) (s : string) : nat :=
  match s with
  | EmptyString => 0
  | String a s' => (if bool_decide (a = c) then 1 else 0) + count c s'
  end.

(** [strings.Split(s, sep)] for a one-byte separator. *)
Fixpoint Split (s : string) (sep : ascii) : list string :=
  match s with
  | EmptyString => [""]
  | String a s' =>
      if bool_decide (a = sep) then "" :: Split s' sep
      else match Split s' sep with
           | [] => [String a ""]
           | p :: ps => String a p :: ps
           end
  end.

Fixpoint trim_left (c : ascii) (s : string) : string :=
  match s with
  | EmptyString => ""
  | String a s' => if bool_decide (a = c) then trim_left c s' else s
  end.

Fixpoint trim_right (c : ascii) (s : string) : string :=
  match s with
  | EmptyString => ""
  | String a s' =>
      match trim_right c s' with
      | EmptyString => if bool_decide (a = c) then "" else String a ""
      | t => String a t
      end
  end.

(** [strings.Trim(s, cutset)] for a one-byte cutset. *)
Definition Trim (s : string) (c : ascii) : string := trim_left c (trim_right c s).

(** [strings.TrimSuffix(s, suffix)] for a one-byte suffix. *)
Fixpoint TrimSuffix (s : string) (c : ascii) : string :=
  match s with
  | EmptyString => ""
  | String a EmptyString => if bool_decide (a = c) then "" else s
  | String a s' => String a (TrimSuffix s' c)
  end.

Lemma free_app c s t : free c (s +:+ t) = free c s && free c t.
Proof. induction s as [|a s IH]; simpl; [done|]. by rw IH andb_assoc. Qed.

Lemma count_free c s : free c s = true ↔ count c s = 0.
Proof.
  induction s as [|a s IH]; simpl; [done|].
  rw andb_true_iff IH. repeat case_bool_decide; naive_solver lia.
Qed.

Lemma count_app c s t : count c (s +:+ t) = count c s + count c t.
Proof. induction s as [|a s IH]; simpl; [done|]. rw IH. lia. Qed.

Lemma Split_nonempty s sep : Split s sep ≠ [].
Proof. destruct s; simpl; repeat case_match; done. Qed.

Lemma length_Split s sep : length (Split s sep) = S (count sep s).
Proof.
  induction s as [|a s IH]; simpl; [done|].
  case_bool_decide; simpl; [by rw IH|].
  destruct (Split s sep) eqn:E; [by destruct (Split_nonempty s sep)|done].
Qed.

Lemma Split_free s sep : free sep s = true → Split s sep = [s].
Proof.
  induction s as [|a s IH]; simpl; [done|].
  intros [Ha Hs]%andb_true_iff. apply bool_decide_eq_true in Ha.
  rw bool_decide_false //. by rw IH.
Qed.

(** The first field ends at the first separator. *)
Lemma Split_field a b sep :
  free sep a = true → Split (a +:+ String sep b) sep = a :: Split b sep.
Proof.
  induction a as [|x a IH]; simpl.
  - intros _. by rw bool_decide_true.
  - intros [Hx Ha]%andb_true_iff. apply bool_decide_eq_true in Hx.
    rw bool_decide_false //. by rw IH.
Qed.

Lemma trim_left_free c s : free c s = true → trim_left c s = s.
Proof. destruct s; simpl; [done|]. intros [?%bool_decide_eq_true _]%andb_true_iff.
  by rw bool_decide_false. Qed.

Lemma trim_right_snoc c s :
  free c s = true → trim_right c (s +:+ String c "") = s.
Proof.
  induction s as [|a s IH]; simpl; [by rw bool_decide_true|].
  intros [Ha%bool_decide_eq_true Hs]%andb_true_iff. rw IH //.
  destruct s; [by rw bool_decide_false|done].
Qed.

Lemma trim_right_free c s : free c s = true → trim_right c s = s.
Proof.
  induction s as [|a s IH]; simpl; [done|]. intros [Ha%bool_decide_eq_true Hs]%andb_true_iff.
  rw IH //. destruct s; [by rw bool_decide_false|done].
Qed.

(** Trimming gives back a text to which one separator was appended. *)
Lemma Trim_snoc c s : free c s = true → Trim (s +:+ String c "") c = s.
Proof. intros. rw /Trim trim_right_snoc //. by apply trim_left_free. Qed.
Lemma append_nil_r s : s +:+ "" = s.
Proof. induction s as [|a s IH]; [done|]. change (String a (s +:+ "") = String a s). by rw IH. Qed.

Lemma append_assoc s t u : (s +:+ t) +:+ u = s +:+ (t +:+ u).
Proof. induction s as [|a s IH]; [done|]. change (String a ((s +:+ t) +:+ u) = String a (s +:+ (t +:+ u))). by rw IH. Qed.

Lemma TrimSuffix_free c s : free c s = true → TrimSuffix s c = s.
Proof.
  induction s as [|a s IH]; simpl; [done|]. intros [Ha Hs]%andb_true_iff.
  destruct s as [|b s]; [|by rw IH].
  case_bool_decide; [|done]. by case_bool_decide.
Qed.

Lemma TrimSuffix_snoc c s : TrimSuffix (s +:+ String c "") c = s.
Proof.
  induction s as [|a s IH]; simpl; [by rw bool_decide_true|].
  destruct (s +:+ String c "") as [|b r] eqn:E; [by destruct s|]. by rw IH.
Qed.
End strings.

(** ** strconv and math/big: reading integers *)
Module strconv.
(** The value of a digit in bases up to 36, of either case. *)
Definition digit_val (c : ascii) : option Z :=
  let n := Z.of_N (N_of_ascii c) in
  let l := Z.lor n 32 in
  if ((48 <=? n) && (n <=? 57))%Z then Some (n - 48)%Z
  else if ((97 <=? l) && (l <=? 122))%Z then Some (l - 97 + 10)%Z
  else None.

Definition is_sign (c : ascii) : bool :=
  bool_decide (c = "+"%char) || bool_decide (c = "-"%char).

Definition lower_is (c : ascii) (x : ascii) : bool :=
  (Z.lor (Z.of_N (N_of_ascii c)) 32 =? Z.of_N (N_of_ascii x))%Z.

(** The digit loop of [ParseUint]; an overflow shows as a value out of the
    range the caller tests. *)
Fixpoint digits (base : Z) (base0 : bool) (acc : Z) (s : string) : option Z :=
  match s with
  | EmptyString => Some acc
  | String c s' =>
      if base0 && bool_decide (c = "_"%char) then digits base base0 acc s'
      else match digit_val c with
           | Some d => if (d <? base)%Z then digits base base0 (acc * base + d)%Z s' else None
           | None => None
           end
  end.

(** [underscoreOK] without its sign case ([ParseUint] sees no sign): [prev]
    is ['0'], ['_'], ['^'] or ['!'], as in strconv. *)
Fixpoint underscore_loop (hex : bool) (prev : ascii) (s : string) : bool :=
  match s with
  | EmptyString => negb (bool_decide (prev = "_"%char))
  | String c s' =>
      let n := Z.of_N (N_of_ascii c) in
      let l := Z.lor n 32 in
      if ((48 <=? n) && (n <=? 57) || (hex && (97 <=? l) && (l <=? 102)))%Z
      then underscore_loop hex "0"%char s'
      else if bool_decide (c = "_"%char)
      then bool_decide (prev = "0"%char) && underscore_loop hex "_"%char s'
      else negb (bool_decide (prev = "_"%char)) && underscore_loop hex "!"%char s'
  end.

Definition underscoreOK (s : string) : bool :=
  match s with
  | String "0" (String p s') =>
      if lower_is p "b" || lower_is p "o" || lower_is p "x"
      then underscore_loop (lower_is p "x") "0"%char s'
      else underscore_loop false "^"%char s
  | _ => underscore_loop false "^"%char s
  end.

(** The base-0 prefix rule of [ParseUint]: the base and the digits left. *)
Definition base_prefix (s : string) : Z * string :=
  match s with
  | String "0" s' =>
      match s' with
      | String p (String _ _ as ds) =>
          if lower_is p "b" then (2%Z, ds)
          else if lower_is p "o" then (8%Z, ds)
          else if lower_is p "x" then (16%Z, ds)
          else (8%Z, s')
      | _ => (8%Z, s')
      end
  | _ => (10%Z, s)
  end.

(** [ParseUint(s, base, _)] before its range test, for [base] 0 or 10. *)
Definition parse_magnitude (s : string) (base : Z) : option Z :=
  match s with
  | EmptyString => None
  | _ =>
      if (base =? 0)%Z then
        let '(b, ds) := base_prefix s in
        if underscoreOK s then digits b true 0 ds else None
      else digits base false 0 s
  end.

(** [ParseInt(s, base, bitSize)]; [None] is a non-nil error. *)
Definition ParseInt (s : string) (base bitSize : Z) : option Z :=
  let bits := if (bitSize =? 0)%Z then 64%Z else bitSize in
  let '(neg, digits) :=
    match s with
    | String c s' => if is_sign c then (bool_decide (c = "-"%char), s') else (false, s)
    | EmptyString => (false, s)
    end in
  n ← parse_magnitude digits base;
  let cutoff := (2 ^ (bits - 1))%Z in
  if negb neg && (cutoff <=? n)%Z then None
  else if neg && (cutoff <? n)%Z then None
  else Some (if neg then (- n)%Z else n).

Lemma digits_nonneg base b0 acc s n :
  (0 ≤ base)%Z → (0 ≤ acc)%Z → digits base b0 acc s = Some n → (0 ≤ n)%Z.
Proof.
  intros Hbase. revert acc. induction s as [|c s IH]; intros acc Hacc; simpl; [by intros [= <-]|].
  destruct (b0 && _); [by apply IH|]. destruct (digit_val c) as [d|] eqn:Ed; simpl; [|done].
  assert (0 ≤ d)%Z.
  { rw /digit_val in Ed. repeat case_match; simplify_eq; lia. }
  destruct (d <? base)%Z; [|done]. apply IH. nia.
Qed.

Lemma ParseInt_bounds s base bitSize n :
  (0 < bitSize)%Z → ParseInt s base bitSize = Some n →
  (- 2 ^ (bitSize - 1) ≤ n < 2 ^ (bitSize - 1))%Z.
Proof.
  intros Hb. rw /ParseInt (proj2 (Z.eqb_neq bitSize 0)); last lia.
  assert (0 < 2 ^ (bitSize - 1))%Z by (apply Z.pow_pos_nonneg; lia).
  assert (∀ ds b m, parse_magnitude ds b = Some m → (0 ≤ m)%Z) as Hpos.
  { assert (∀ ds b b0 acc m, (0 ≤ b)%Z → (0 ≤ acc)%Z →
      digits b b0 acc ds = Some m → (0 ≤ m)%Z) as Hd.
    { induction ds as [|c ds IH]; simpl; intros b b0 acc m Hb0 Hacc; [naive_solver|].
      case_match; [by apply IH|]. rw /digit_val.
      repeat case_match; try done; intros; simplify_eq;
        (eapply IH; [| |eassumption]; nia). }
    intros ds b m. destruct ds as [|c ds]; [done|]. rw /parse_magnitude.
    case_match eqn:Hz.
    - destruct (base_prefix _) as [b' ds'] eqn:Hp. case_match; [|done].
      apply Hd; [|done]. rw /base_prefix in Hp.
      repeat case_match; simplify_eq; lia.
    - destruct (Z.le_ge_cases 0 b); [by apply Hd|].
      intros Hs; exfalso; simpl in Hs.
      destruct (digit_val c) as [d|] eqn:Hd'; [|done].
      assert (0 ≤ d)%Z.
      { rw /digit_val in Hd'. repeat case_match; simplify_eq; lia. }
      rw (proj2 (Z.ltb_ge d b)) in Hs; [done|lia]. }
  destruct s as [|c s]; simpl; [done|]. destruct (is_sign c).
  all: destruct (parse_magnitude _ base) as [m|] eqn:Hm; [|done].
  all: specialize (Hpos _ _ _ Hm).
  all: simpl; repeat case_bool_decide; simpl; repeat case_match; intros; simplify_eq; lia.
Qed.

(** ParseInt reads back what [%d] prints, if it is in range. *)
Lemma digit_val_pretty (n : N) :
  (n < 10)%N → digit_val (pretty_N_char n) = Some (Z.of_N n).
Proof.
  intros. assert (n = 0 ∨ n = 1 ∨ n = 2 ∨ n = 3 ∨ n = 4 ∨ n = 5 ∨ n = 6
    ∨ n = 7 ∨ n = 8 ∨ n = 9)%N as Hn by lia.
  by repeat destruct Hn as [->|Hn]; subst.
Qed.

Lemma pretty_N_go_digits n s :
  digits 10 false 0 (pretty_N_go n s) = digits 10 false (Z.of_N n) s.
Proof.
  revert s. induction (N.lt_wf_0 n) as [n _ IH]; intros s.
  destruct (decide (n = 0)%N) as [->|]; [by rw pretty_N_go_0|].
  rw pretty_N_go_step; last lia. rw IH; last (apply N.div_lt; lia).
  cbn [digits andb]. rw digit_val_pretty; last by apply N.mod_lt.
  rw (proj2 (Z.ltb_lt _ _)); last (pose proof (N.mod_lt n 10); lia).
  f_equal. rw {3}(N.div_mod n 10) //. lia.
Qed.

Lemma pretty_N_go_free c n s :
  digit_val c = None → strings.free c (pretty_N_go n s) = strings.free c s.
Proof.
  intros Hc. revert s. induction (N.lt_wf_0 n) as [n _ IH]; intros s.
  destruct (decide (n = 0)%N) as [->|]; [by rw pretty_N_go_0|].
  rw pretty_N_go_step; last lia. rw IH; last (apply N.div_lt; lia).
  simpl. rw bool_decide_true //. intros Heq.
  pose proof (digit_val_pretty (n `mod` 10)) as Hd.
  rw Heq Hc in Hd. ospecialize (Hd _); [by apply N.mod_lt|done].
Qed.

Lemma fmt_d_pos p : fmt_d (Z.pos p) = pretty_N_go (N.pos p) "".
Proof.
  change (fmt_d (Z.pos p)) with (pretty_N (N.pos p)). unfold pretty_N.
  by destruct (decide (N.pos p = 0%N)).
Qed.

(** [%d] of a number that is not negative prints digits only. *)
Lemma fmt_d_free c z :
  (0 ≤ z)%Z → digit_val c = None → strings.free c (fmt_d z) = true.
Proof.
  intros Hz Hc. destruct z as [|p|p]; [|by rw fmt_d_pos pretty_N_go_free|lia].
  simpl. rw bool_decide_true //. by intros <-.
Qed.

Lemma digits_fmt_d z : (0 ≤ z)%Z → digits 10 false 0 (fmt_d z) = Some z.
Proof.
  intros Hz. destruct z as [|p|p]; [done|by rw fmt_d_pos pretty_N_go_digits|lia].
Qed.

Lemma fmt_d_nonempty z : fmt_d z ≠ "".
Proof.
  destruct z as [|p|p]; [done| |done].
  intros H. pose proof (digits_fmt_d (Z.pos p)) as Hd. rw H /= in Hd.
  ospecialize (Hd _); [lia|done].
Qed.

(** Reading back in base 10 what [%d] printed, within [bitSize] bits. *)
Lemma ParseInt_fmt_d z bitSize :
  (0 < bitSize)%Z → (0 ≤ z < 2 ^ (bitSize - 1))%Z →
  ParseInt (fmt_d z) 10 bitSize = Some z.
Proof.
  intros Hb Hz. pose proof (digits_fmt_d z) as Hd.
  pose proof (fmt_d_free "-" z) as Hm. pose proof (fmt_d_free "+" z) as Hp.
  pose proof (fmt_d_nonempty z) as Hne.
  rw /ParseInt (proj2 (Z.eqb_neq bitSize 0)); last lia.
  destruct (fmt_d z) as [|c s] eqn:Hs; [done|].
  assert (is_sign c = false) as ->.
  { ospecialize (Hm _ _); [lia|done|]. ospecialize (Hp _ _); [lia|done|].
    simpl in Hm, Hp. apply andb_true_iff in Hm as [Hm _], Hp as [Hp _].
    apply bool_decide_eq_true in Hm, Hp. rw /is_sign.
    by rw !bool_decide_false. }
  rw /parse_magnitude [(10 =? 0)%Z]/= Hd; last lia. simpl.
  rw (proj2 (Z.leb_gt _ _)); [done|lia].
Qed.
(** A string of decimal digits. *)
Fixpoint all_digits (s : string) : bool :=
  match s with
  | EmptyString => true
  | String c s' =>
      let n := Z.of_N (N_of_ascii c) in ((48 <=? n) && (n <=? 57))%Z && all_digits s'
  end.

Lemma pretty_N_char_digit (n : N) :
  (n < 10)%N → N_of_ascii (pretty_N_char n) = (48 + n)%N.
Proof.
  intros. assert (n = 0 ∨ n = 1 ∨ n = 2 ∨ n = 3 ∨ n = 4 ∨ n = 5 ∨ n = 6
    ∨ n = 7 ∨ n = 8 ∨ n = 9)%N as Hn by lia.
  by repeat destruct Hn as [->|Hn]; subst.
Qed.

Lemma pretty_N_go_all_digits n s : all_digits (pretty_N_go n s) = all_digits s.
Proof.
  revert s. induction (N.lt_wf_0 n) as [n _ IH]; intros s.
  destruct (decide (n = 0)%N) as [->|]; [by rw pretty_N_go_0|].
  rw pretty_N_go_step; last lia. rw IH; last (apply N.div_lt; lia).
  cbn [all_digits]. pose proof (N.mod_lt n 10 ltac:(lia)). rw pretty_N_char_digit; [|done].
  assert (∀ m b, (m < 10)%N → ((48 <=? Z.of_N (48 + m)) && (Z.of_N (48 + m) <=? 57))%Z && b = b) as Hm.
  { intros m b Hm. assert ((48 <=? Z.of_N (48 + m)) && (Z.of_N (48 + m) <=? 57) = true)%Z as ->; [|done].
    apply andb_true_iff. split; apply Z.leb_le; lia. }
  by apply Hm.
Qed.

(** No leading zero is printed. *)
Lemma pretty_N_go_head n s :
  n ≠ 0%N → ∃ d t, (1 ≤ d < 10)%N ∧ pretty_N_go n s = String (pretty_N_char d) t.
Proof.
  revert s. induction (N.lt_wf_0 n) as [n _ IH]; intros s Hn.
  rw pretty_N_go_step; last lia.
  destruct (decide (n / 10 = 0)%N) as [Hd|Hd].
  - rw Hd pretty_N_go_0. exists (n `mod` 10)%N, s. split; [|done].
    pose proof (N.mod_lt n 10 ltac:(lia)). pose proof (N.div_mod n 10 ltac:(lia)). lia.
  - apply IH; [apply N.div_lt; lia|done].
Qed.

Lemma underscore_loop_digits prev s :
  all_digits s = true → prev ≠ "_"%char → underscore_loop false prev s = true.
Proof.
  revert prev. induction s as [|c s IH]; intros prev Hs Hp; simpl; [by rw bool_decide_false|].
  simpl in Hs. apply andb_true_iff in Hs as [Hc Hs].
  rw Hc /=. by apply IH.
Qed.

Lemma digits_underscores base acc s :
  all_digits s = true → digits base true acc s = digits base false acc s.
Proof.
  revert acc. induction s as [|c s IH]; intros acc Hs; [done|]. simpl in Hs |- *.
  apply andb_true_iff in Hs as [Hc Hs].
  rw bool_decide_false; [|by intros ->]. destruct (digit_val c); [|done].
  by rw IH.
Qed.

(** Reading in base 0 what [%d] printed: the number, unless it is out of range. *)
Lemma ParseInt_fmt_d_base0 z bitSize :
  (0 < bitSize)%Z → (0 ≤ z)%Z →
  ParseInt (fmt_d z) 0 bitSize = if (z <? 2 ^ (bitSize - 1))%Z then Some z else None.
Proof.
  intros Hb Hz. assert (0 < 2 ^ (bitSize - 1))%Z by (apply Z.pow_pos_nonneg; lia).
  rw /ParseInt (proj2 (Z.eqb_neq bitSize 0)); last lia.
  destruct z as [|p|p]; [|pose proof (digits_fmt_d (Z.pos p) Hz) as Hd|lia].
  { simpl. rw (proj2 (Z.leb_gt _ _)); [|lia]. by rw (proj2 (Z.ltb_lt _ _)). }
  rw fmt_d_pos in Hd |- *. destruct (pretty_N_go_head (N.pos p) "" ltac:(done)) as (d & t & Hdr & Heq).
  pose proof (pretty_N_go_all_digits (N.pos p) "") as Hall. rw Heq in Hall. rw Heq in Hd |- *.
  pose proof (pretty_N_char_digit d ltac:(lia)) as Hc.
  assert (is_sign (pretty_N_char d) = false) as ->.
  { rw /is_sign !bool_decide_false; [done| |]; intros He; rw He in Hc; simpl in Hc; lia. }
  assert (∀ c, N_of_ascii c = (48 + d)%N → base_prefix (String c t) = (10%Z, String c t) ∧
    underscoreOK (String c t) = underscore_loop false "^" (String c t)) as Hpre.
  { intros c Hcd. assert (c ≠ "0"%char) as Hne by (intros ->; simpl in Hcd; lia).
    clear Hcd. split; destruct c as [[] [] [] [] [] [] [] []]; try done; by destruct Hne. }
  destruct (Hpre _ Hc) as [Hbp Huo]. simpl all_digits in Hall.
  rw /parse_magnitude [(0 =? 0)%Z]/= Hbp Huo underscore_loop_digits; [|exact Hall|done].
  rw digits_underscores; [|exact Hall]. rw Hd /=.
  destruct (Z.ltb_spec (Z.pos p) (2 ^ (bitSize - 1))).
  - by rw (proj2 (Z.leb_gt _ _)).
  - by rw (proj2 (Z.leb_le _ _)).
Qed.
End strconv.

(** ** math/big *)
Module big.
(** The digit loop of [nat.scan] without fractions.  [prev] is ['_'], ['0']
    (a digit) or ['.'], [cnt] counts digits; the text must be used up. *)
Fixpoint scan (b : Z) (base0 : bool) (prev : ascii) (inval : bool)
    (cnt : nat) (acc : Z) (s : string) : option (Z * nat) :=
  match s with
  | EmptyString =>
      if inval || bool_decide (prev = "_"%char) then None else Some (acc, cnt)
  | String c s' =>
      if base0 && bool_decide (c = "_"%char)
      then scan b base0 "_"%char (inval || negb (bool_decide (prev = "0"%char))) cnt acc s'
      else match strconv.digit_val c with
           | Some d =>
               if (d <? b)%Z then scan b base0 "0"%char inval (S cnt) (acc * b + d)%Z s'
               else None
           | None => None
           end
  end.

(** The magnitude read by [SetString(s, base)] for base 0 or 10. *)
Definition scan_magnitude (s : string) (base : Z) : option Z :=
  let decimal b0 := '(n, cnt) ← scan 10 b0 "."%char false 0 0 s;
                    if (cnt =? 0)%nat then None else Some n in
  if (base =? 0)%Z then
    match s with
    | String "0" s' =>
        match s' with
        | String p ds =>
            if strconv.lower_is p "b" || strconv.lower_is p "o" || strconv.lower_is p "x"
            then
              let b := if strconv.lower_is p "b" then 2%Z
                       else if strconv.lower_is p "o" then 8%Z else 16%Z in
              '(n, cnt) ← scan b true "0"%char false 0 0 ds;
              if (cnt =? 0)%nat then None else Some n
            else fst <$> scan 8 true "0"%char false 0 0 s'
        | EmptyString => Some 0%Z
        end
    | _ => decimal true
    end
  else decimal false.

(** [new(big.Int).SetString(s, base)]; [None] is [ok = false]. *)
Definition SetString (s : string) (base : Z) : option Z :=
  match s with
  | String c s' =>
      if strconv.is_sign c
      then n ← scan_magnitude s' base;
           Some (if bool_decide (c = "-"%char) then (- n)%Z else n)
      else scan_magnitude s base
  | EmptyString => None
  end.

(** [SetBytes]: big-endian, unsigned. *)
Definition SetBytes (b : bytes) : Z :=
  foldl (λ acc x, acc * 256 + byte_val x)%Z 0%Z b.

(** [x.Bytes()] of a magnitude, as a fuelled loop over its digits. *)
Fixpoint be_bytes (fuel : nat) (z : Z) (acc : bytes) : bytes :=
  match fuel with
  | O => acc
  | S fuel =>
      if (z <=? 0)%Z then acc
      else be_bytes fuel (z / 256) (byte_of z :: acc)
  end.
Definition Bytes (z : Z) : bytes :=
  be_bytes (S (Z.to_nat (Z.log2 (Z.abs z)))) (Z.abs z) [].

Lemma SetBytes_snoc b x : SetBytes (b ++ [x]) = (SetBytes b * 256 + byte_val x)%Z.
Proof. by rw /SetBytes foldl_snoc. Qed.

Lemma SetBytes_app a b :
  SetBytes (a ++ b) = (SetBytes a * 256 ^ Z.of_nat (length b) + SetBytes b)%Z.
Proof.
  induction b as [|x b IH] using rev_ind; [rw app_nil_r /SetBytes /=; lia|].
  rw app_assoc !SetBytes_snoc IH length_app /=.
  rw Nat2Z.inj_add Z.pow_add_r; [|lia..]. rw [Z.of_nat 1]/= Z.pow_1_r. nia.
Qed.

Lemma SetBytes_bounds b : (0 ≤ SetBytes b < 256 ^ Z.of_nat (length b))%Z.
Proof.
  induction b as [|x b IH] using rev_ind; [by rw /SetBytes /=|].
  pose proof (byte_val_bounds x). rw SetBytes_snoc length_app /=.
  rw Nat2Z.inj_add Z.pow_add_r; [|lia..]. rw [Z.of_nat 1]/= Z.pow_1_r. nia.
Qed.

(** Leading zeros do not count. *)
Lemma SetBytes_zeros n b : SetBytes (replicate n Byte.x00 ++ b) = SetBytes b.
Proof.
  rw SetBytes_app. assert (SetBytes (replicate n Byte.x00) = 0%Z) as ->; [|lia].
  induction n as [|n IH]; [done|].
  rw replicate_S_end SetBytes_snoc IH. done.
Qed.

Lemma be_bytes_spec fuel z acc :
  (0 ≤ z < 256 ^ Z.of_nat fuel)%Z →
  ∃ b, be_bytes fuel z acc = b ++ acc ∧ SetBytes b = z ∧
       ∀ n, (z < 256 ^ Z.of_nat n)%Z → length b ≤ n.
Proof.
  revert z acc. induction fuel as [|fuel IH]; intros z acc Hz.
  { exists []. simpl in *. split_and!; [done|rw /SetBytes /=; lia|intros; simpl; lia]. }
  rw /=. destruct (Z.leb_spec z 0).
  { exists []. split_and!; [done|rw /SetBytes /=; lia|intros; simpl; lia]. }
  rw Nat2Z.inj_succ Z.pow_succ_r in Hz; [|lia].
  destruct (IH (z / 256)%Z (byte_of z :: acc)) as (b & -> & Hb & Hl).
  { split; [apply Z.div_pos; lia|apply Z.div_lt_upper_bound; lia]. }
  exists (b ++ [byte_of z]). split_and!; [by rw -app_assoc| |].
  - rw SetBytes_snoc Hb byte_val_of /u8. change (2 ^ 8)%Z with 256%Z.
    pose proof (Z.div_mod z 256 ltac:(lia)). lia.
  - intros [|n] Hn; [simpl in Hn; lia|]. rw length_app /=.
    rw Nat2Z.inj_succ Z.pow_succ_r in Hn; [|lia].
    specialize (Hl n). assert (z / 256 < 256 ^ Z.of_nat n)%Z by (apply Z.div_lt_upper_bound; lia).
    specialize (Hl ltac:(done)). lia.
Qed.

Lemma Bytes_spec z :
  (0 ≤ z)%Z → SetBytes (Bytes z) = z ∧
  ∀ n, (z < 256 ^ Z.of_nat n)%Z → length (Bytes z) ≤ n.
Proof.
  intros Hz. rw /Bytes Z.abs_eq //.
  destruct (be_bytes_spec (S (Z.to_nat (Z.log2 z))) z []) as (b & -> & ? & ?).
  - split; [done|]. destruct (decide (z = 0%Z)) as [->|]; [done|].
    rw Nat2Z.inj_succ Z2Nat.id; [|apply Z.log2_nonneg].
    pose proof (Z.log2_spec z ltac:(lia)) as [_ Hlt]. pose proof (Z.log2_nonneg z).
    eapply Z.lt_le_trans; [exact Hlt|]. apply Z.pow_le_mono_l. lia.
  - by rw app_nil_r.
Qed.

Lemma scan_digits b acc cnt prev s n :
  strconv.digits b false acc s = Some n → prev ≠ "_"%char →
  scan b false prev false cnt acc s = Some (n, cnt + String.length s).
Proof.
  revert acc cnt prev. induction s as [|c s IH]; simpl; intros acc cnt prev Hd Hp.
  - simplify_eq. rw bool_decide_false //. by rw Nat.add_0_r.
  - repeat case_match; try done. rw (IH _ _ _ Hd) //. by rw Nat.add_succ_r.
Qed.

(** [SetString] in base 10 reads back what [%d] prints. *)
Lemma SetString_fmt_d z : (0 ≤ z)%Z → SetString (fmt_d z) 10 = Some z.
Proof.
  intros Hz. pose proof (strconv.digits_fmt_d z Hz) as Hd.
  pose proof (strconv.fmt_d_free "-" z Hz eq_refl) as Hm.
  pose proof (strconv.fmt_d_free "+" z Hz eq_refl) as Hp.
  pose proof (strconv.fmt_d_nonempty z) as Hne.
  destruct (fmt_d z) as [|c s]; [done|]. simpl in Hm, Hp.
  apply andb_true_iff in Hm as [Hm%bool_decide_eq_true _],
    Hp as [Hp%bool_decide_eq_true _].
  rw /SetString /strconv.is_sign !bool_decide_false //.
  rw /scan_magnitude [(10 =? 0)%Z]/=. rw (scan_digits _ _ _ _ _ _ Hd) //.
Qed.

Lemma scan_base0 b prev cnt acc s :
  strconv.all_digits s = true → scan b true prev false cnt acc s = scan b false prev false cnt acc s.
Proof.
  revert prev cnt acc. induction s as [|c s IH]; intros prev cnt acc Hs; [done|]. simpl in Hs |- *.
  apply andb_true_iff in Hs as [Hc Hs].
  rw bool_decide_false; [|by intros ->]. destruct (strconv.digit_val c); [|done]. by rw IH.
Qed.

(** In base 0 as well, since no leading zero is printed. *)
Lemma SetString_fmt_d_base0 z : (0 ≤ z)%Z → SetString (fmt_d z) 0 = Some z.
Proof.
  intros Hz. destruct z as [|p|p]; [done| |lia].
  rw -(SetString_fmt_d (Z.pos p) Hz) strconv.fmt_d_pos.
  destruct (strconv.pretty_N_go_head (N.pos p) "" ltac:(done)) as (d & t & Hdr & Heq).
  pose proof (strconv.pretty_N_go_all_digits (N.pos p) "") as Hall. rw Heq in Hall. rw Heq.
  pose proof (strconv.pretty_N_char_digit d ltac:(lia)) as Hc. rw /SetString.
  assert (strconv.is_sign (pretty_N_char d) = false) as ->.
  { rw /strconv.is_sign !bool_decide_false; [done| |]; intros He; rw He in Hc; simpl in Hc; lia. }
  rw /scan_magnitude [(0 =? 0)%Z]/= [(10 =? 0)%Z]/= -(scan_base0 _ _ _ _ _ Hall).
  revert Hc. generalize (pretty_N_char d). intros c Hc.
  assert (c ≠ "0"%char) as Hn by (intros ->; simpl in Hc; lia). clear Hc.
  destruct c as [[] [] [] [] [] [] [] []]; try done; by destruct Hn.
Qed.

(** Negative numbers are printed with their sign. *)
Lemma SetString_fmt_d_any z base :
  base = 0%Z ∨ base = 10%Z → SetString (fmt_d z) base = Some z.
Proof.
  intros Hbase. assert (∀ y, (0 ≤ y)%Z → SetString (fmt_d y) base = Some y) as Hpos.
  { intros y Hy. destruct Hbase as [->| ->]; [by apply SetString_fmt_d_base0|by apply SetString_fmt_d]. }
  destruct (decide (0 ≤ z)%Z) as [|Hz]; [by apply Hpos|]. destruct z as [|p|p]; [lia..|].
  specialize (Hpos (Z.pos p) ltac:(lia)).
  pose proof (strconv.fmt_d_free "-" (Z.pos p) ltac:(lia) eq_refl) as Hm.
  pose proof (strconv.fmt_d_free "+" (Z.pos p) ltac:(lia) eq_refl) as Hp.
  assert (fmt_d (Z.neg p) = String "-" (fmt_d (Z.pos p))) as -> by done.
  destruct (fmt_d (Z.pos p)) as [|c s]; [done|]. simpl in Hm, Hp.
  apply andb_true_iff in Hm as [Hm%bool_decide_eq_true _], Hp as [Hp%bool_decide_eq_true _].
  rw /SetString /strconv.is_sign !bool_decide_false // [false || false]/= in Hpos.
  change (SetString (String "-" (String c s)) base) with
    (n ← scan_magnitude (String c s) base; Some (- n)%Z). by rw Hpos.
Qed.
End big.

(** ** encoding/binary and encoding/hex *)
Module binary.
(** [binary.BigEndian.Uint64(b)]: the first eight bytes; shorter slices
    panic, which no caller can reach (they pass 32-byte digests). *)
Definition BigEndian_Uint64 (b : bytes) : Z := big.SetBytes (take 8 b).
End binary.

Module hex.
Definition digit (n : N) : ascii :=
  match n with
  | 0 => "0" | 1 => "1" | 2 => "2" | 3 => "3" | 4 => "4" | 5 => "5" | 6 => "6"
  | 7 => "7" | 8 => "8" | 9 => "9" | 10 => "a" | 11 => "b" | 12 => "c"
  | 13 => "d" | 14 => "e" | _ => "f"
  end%char%N.

Definition value (c : ascii) : option N :=
  match strconv.digit_val c with
  | Some d => if (d <? 16)%Z then Some (Z.to_N d) else None
  | None => None
  end.

(** [hex.EncodeToString]. *)
Fixpoint EncodeToString (b : bytes) : string :=
  match b with
  | [] => ""
  | x :: b' =>
      String (digit (Byte.to_N x / 16)) (String (digit (Byte.to_N x mod 16)) (EncodeToString b'))
  end.

(** [hex.DecodeString]: pairs of digits of either case. *)
Fixpoint DecodeString (s : string) : option bytes :=
  match s with
  | EmptyString => Some []
  | String a (String b s') =>
      h ← value a; l ← value b; x ← Byte.of_N (h * 16 + l);
      rest ← DecodeString s'; Some (x :: rest)
  | String _ EmptyString => None
  end.

Lemma value_digit n : (n < 16)%N → value (digit n) = Some n.
Proof.
  intros. assert (n = 0 ∨ n = 1 ∨ n = 2 ∨ n = 3 ∨ n = 4 ∨ n = 5 ∨ n = 6 ∨ n = 7
    ∨ n = 8 ∨ n = 9 ∨ n = 10 ∨ n = 11 ∨ n = 12 ∨ n = 13 ∨ n = 14 ∨ n = 15)%N as Hn by lia.
  by repeat destruct Hn as [->|Hn]; subst.
Qed.

Lemma DecodeString_EncodeToString b : DecodeString (EncodeToString b) = Some b.
Proof.
  induction b as [|x b IH]; simpl; [done|].
  assert (Byte.to_N x < 256)%N by (pose proof (Byte.to_N_bounded x); lia).
  rw !value_digit; [|apply N.Div0.div_lt_upper_bound; lia|apply N.mod_lt; lia].
  simpl. replace (Byte.to_N x / 16 * 16 + Byte.to_N x mod 16)%N with (Byte.to_N x).
  2:{ rw {1}(N.div_mod (Byte.to_N x) 16) //. lia. }
  by rw Byte.of_to_N /= IH.
Qed.
End hex.

(** ** os: one file

    What the file system answers: errors of opening, of writing (after some
    bytes) and of reading. *)
Record fs_answers := {
  open_error : option error;
  write_error : option (nat * error);
  read_error : option error;
}.

(** [OpenFile(O_RDWR|O_CREATE|O_TRUNC)], encoding, [Write]: the file is
    truncated before the value is encoded. *)
Definition TruncWrite (fs : fs_answers) (file : option bytes) (encoded : result bytes)
    : option error * option bytes :=
  match open_error fs with
  | Some e => (Some e, file)
  | None =>
      match encoded with
      | Err e => (Some e, Some [])
      | Ok kb =>
          match write_error fs with
          | Some (n, e) => (Some e, Some (take n kb))
          | None => (None, Some kb)
          end
      end
  end.

Definition ReadFile (fs : fs_answers) (file : option bytes) : result bytes :=
  match read_error fs with
  | Some e => Err e
  | None => result_of_option (Errorf "no such file or directory") file
  end.

Lemma TruncWrite_ReadFile fs fs' file encoded file' :
  TruncWrite fs file encoded = (None, file') → read_error fs' = None →
  ∃ kb, encoded = Ok kb ∧ ReadFile fs' file' = Ok kb.
Proof.
  rw /TruncWrite /ReadFile. destruct (open_error fs); [done|].
  destruct encoded as [kb|]; [|done]. destruct (write_error fs) as [[n e]|]; [done|].
  intros [= <-] ->. by exists kb.
Qed.

(** ** slices.Sort on strings: bytewise order

    The order is total and antisymmetric, so every sorting algorithm gives
    this list. *)
Module slices.
Definition Sort (l : list string) : list string := merge_sort String.le l.

Lemma perm_Sort l : Sort l ≡ₚ l.
Proof. apply merge_sort_Permutation. Qed.

Lemma sorted_Sort l : StronglySorted String.le (Sort l).
Proof. apply (StronglySorted_merge_sort String.le). Qed.

Lemma Sort_unique l k : StronglySorted String.le k → k ≡ₚ l → k = Sort l.
Proof.
  intros Hk Hp. apply (StronglySorted_unique String.le); [done|apply sorted_Sort|].
  by rw perm_Sort.
Qed.

Lemma Sort_eq_perm l k : Sort l = Sort k ↔ l ≡ₚ k.
Proof.
  split; [intros Heq; by rw -(perm_Sort l) Heq perm_Sort|].
  intros Hp. apply Sort_unique; [apply sorted_Sort|by rw perm_Sort].
Qed.

Lemma StronglySorted_filter (P : string → Prop) `{!∀ x, Decision (P x)} l :
  StronglySorted String.le l → StronglySorted String.le (filter P l).
Proof.
  induction 1 as [|x l Hl IH Hx]; [constructor|]. rw filter_cons. case_decide; [|done].
  constructor; [done|]. rewrite Forall_forall in Hx. apply Forall_forall.
  intros y [_ ?]%list_elem_of_filter. by apply Hx.
Qed.
End slices.

(** ** sync.Mutex

    The state is whether it is locked.  [Lock] blocks while it is ([None]);
    unlocking an unlocked mutex is a fatal error, which nothing recovers. *)
Module Mutex.
Definition Lock (locked : bool) : option bool := if locked then None else Some true.
Definition Unlock (locked : bool) : outcome bool :=
  if locked then Done false else Panic "fatal error: sync: unlock of unlocked mutex".

Inductive op := OpLock | OpUnlock.

#[export] Instance op_eq_dec : EqDecision op.
Proof. solve_decision. Defined.

(** Operations in the order they take effect; [None] if one blocks for
    ever. *)
Fixpoint exec (locked : bool) (ops : list op) : option (outcome bool) :=
  match ops with
  | [] => Some (Done locked)
  | OpLock :: ops' => locked' ← Lock locked; exec locked' ops'
  | OpUnlock :: ops' =>
      match Unlock locked with
      | Done locked' => exec locked' ops'
      | Panic msg => Some (Panic msg)
      end
  end.

Definition locks (ops : list op) : nat := length (filter (λ o, o = OpLock) ops).
Definition unlocks (ops : list op) : nat := length (filter (λ o, o = OpUnlock) ops).

Lemma locks_cons o ops :
  locks (o :: ops) = match o with OpLock => S (locks ops) | OpUnlock => locks ops end.
Proof. by destruct o. Qed.
Lemma unlocks_cons o ops :
  unlocks (o :: ops) = match o with OpLock => unlocks ops | OpUnlock => S (unlocks ops) end.
Proof. by destruct o. Qed.

(** A mutex that is unlocked more often than it is locked is a fatal error,
    in whatever order that happens, unless some lock blocks. *)
Lemma exec_excess locked ops :
  locks ops + Nat.b2n locked < unlocks ops →
  exec locked ops = None ∨ ∃ msg, exec locked ops = Some (Panic msg).
Proof.
  revert locked. induction ops as [|[] ops IH]; intros locked; rw ?locks_cons ?unlocks_cons /=; [unfold locks, unlocks; simpl; lia|..].
  - destruct locked; simpl; [by left|]. intros. apply IH. simpl. lia.
  - destruct locked; simpl; [|eauto]. intros. apply IH. simpl. lia.
Qed.

(** A single lock of a free mutex blocks nobody. *)
Lemma exec_one_lock locked ops :
  locks ops + Nat.b2n locked ≤ 1 → exec locked ops ≠ None.
Proof.
  revert locked. induction ops as [|[] ops IH]; intros locked; rw ?locks_cons /=; [done|..].
  - destruct locked; simpl; [lia|]. intros. apply IH. simpl. lia.
  - destruct locked; simpl; [|done]. intros. apply IH. simpl. lia.
Qed.
End Mutex.

(** ** Ranging over a map

    Go leaves the order open; the code that ranges over a map is written
    against this interface. *)
Class MapRange := {
  map_range {A} : gmap string A → list (string * A);
  map_range_perm {A} (m : gmap string A) : map_range m ≡ₚ map_to_list m;
}.

Lemma elem_of_map_range `{MapRange} {A} (m : gmap string A) k a :
  (k, a) ∈ map_range m ↔ m !! k = Some a.
Proof. by rw map_range_perm elem_of_map_to_list. Qed.

(** [Mod] and [Div] of big.Int are Euclidean; a zero divisor panics. *)
Definition big_Mod (x y : Z) : outcome Z :=
  if bool_decide (y = 0%Z) then Panic "division by zero" else Done (x `mod` Z.abs y)%Z.

(** Sorting integers. *)
Definition sort_Z (l : list Z) : list Z := merge_sort Z.le l.
