(* ===== verification/Encoding.v ===== *)
(** * Text encodings of the standard library: unicode/utf8, unicode/utf16,
      encoding/base64

    Go strings are byte strings.  [utf8.runes] splits one into the valid
    sequences and the stray bytes that [utf8.DecodeRune] finds;
    [base64.EncodeToString] and [base64.DecodeString] are those of
    [base64.StdEncoding]. *)
From Stdlib Require Import Ascii.
From S2P Require Import Prelude GoStd.

(** ** unicode/utf8 *)
Module utf8.
Definition code (c : ascii) : N := N_of_ascii c.

Definition within (c : ascii) (lo hi : N) : bool := (lo <=? code c)%N && (code c <=? hi)%N.
Definition cont (c : ascii) : bool := within c 128 191.

(** The well-formed sequences of two, three and four bytes. *)
Definition two (c c1 : ascii) : bool := within c 194 223 && cont c1.
Definition three (c c1 c2 : ascii) : bool :=
  ((code c =? 224)%N && within c1 160 191
   || (within c 225 236 || within c 238 239) && cont c1
   || (code c =? 237)%N && within c1 128 159) && cont c2.
Definition four (c c1 c2 c3 : ascii) : bool :=
  ((code c =? 240)%N && within c1 144 191
   || within c 241 243 && cont c1
   || (code c =? 244)%N && within c1 128 143) && cont c2 && cont c3.

(** The runes of a string; [None] is a byte that starts no sequence. *)
Fixpoint runes (s : string) : list (option string) :=
  match s with
  | EmptyString => []
  | String c r =>
      if (code c <? 128)%N then Some (String c "") :: runes r else
      match r with
      | String c1 r1 =>
          if two c c1 then Some (String c (String c1 "")) :: runes r1 else
          match r1 with
          | String c2 r2 =>
              if three c c1 c2 then Some (String c (String c1 (String c2 ""))) :: runes r2 else
              match r2 with
              | String c3 r3 =>
                  if four c c1 c2 c3
                  then Some (String c (String c1 (String c2 (String c3 "")))) :: runes r3
                  else None :: runes r
              | EmptyString => None :: runes r
              end
          | EmptyString => None :: runes r
          end
      | EmptyString => None :: runes r
      end
  end.

Definition Valid (s : string) : bool := forallb (λ r, if r is Some _ then true else false) (runes s).

(** [utf8.AppendRune] to the empty string; surrogates and numbers out of
    range become U+FFFD. *)
Definition EncodeRune (r : N) : string :=
  let byte n := ascii_of_N n in
  if (r <? 128)%N then String (byte r) ""
  else if (r <? 2048)%N
  then String (byte (192 + r / 64)%N) (String (byte (128 + r mod 64)%N) "")
  else if (1114111 <? r)%N || ((55296 <=? r) && (r <=? 57343))%N
  then String (byte 239%N) (String (byte 191%N) (String (byte 189%N) ""))
  else if (r <? 65536)%N
  then String (byte (224 + r / 4096)%N)
         (String (byte (128 + r / 64 mod 64)%N) (String (byte (128 + r mod 64)%N) ""))
  else String (byte (240 + r / 262144)%N) (String (byte (128 + r / 4096 mod 64)%N)
         (String (byte (128 + r / 64 mod 64)%N) (String (byte (128 + r mod 64)%N) ""))).

(** U+FFFD *)
Definition RuneError : string := EncodeRune 65533.

(** The valid sequences. *)
Inductive sequence : string → Prop :=
  | seq1 c : (code c < 128)%N → sequence (String c "")
  | seq2 c c1 : (code c <? 128)%N = false → two c c1 = true → sequence (String c (String c1 ""))
  | seq3 c c1 c2 : (code c <? 128)%N = false → two c c1 = false → three c c1 c2 = true →
      sequence (String c (String c1 (String c2 "")))
  | seq4 c c1 c2 c3 : (code c <? 128)%N = false → two c c1 = false → three c c1 c2 = false →
      four c c1 c2 c3 = true → sequence (String c (String c1 (String c2 (String c3 "")))).

Definition concat_runes (l : list (option string)) : string :=
  foldr (λ r s, default "" r +:+ s) "" l.

(** Every rune that is found is a valid sequence, and those of a valid
    string are the string. *)
Lemma runes_spec s :
  Forall (λ r, ∀ p, r = Some p → sequence p) (runes s) ∧
  (Valid s = true → concat_runes (runes s) = s).
Proof.
  rw /Valid. remember (String.length s) as n eqn:Hn.
  revert s Hn. induction (lt_wf n) as [n _ IH]; intros s ->.
  assert (∀ t, String.length t < String.length s →
    Forall (λ r, ∀ p, r = Some p → sequence p) (runes t) ∧
    (forallb (λ r, if r is Some _ then true else false) (runes t) = true → concat_runes (runes t) = t)) as Ht.
  { intros t Hl. by eapply IH. }
  clear IH. destruct s as [|c r]; [by split|]. cbn [runes].
  destruct (code c <? 128)%N eqn:E1.
  { destruct (Ht r) as [HF Hc]; [simpl; lia|]. split.
    - constructor; [|done]. intros p [= <-]. constructor. by apply N.ltb_lt.
    - simpl. intros Hv. by rw Hc. }
  assert (Forall (λ r, ∀ p, r = Some p → sequence p) (None :: runes r)) as Hbad.
  { constructor; [done|]. apply Ht. simpl. lia. }
  destruct r as [|c1 r1]; [by split|].
  destruct (two c c1) eqn:E2.
  { destruct (Ht r1) as [HF Hc]; [simpl; lia|]. split.
    - constructor; [|done]. intros p [= <-]. by constructor.
    - simpl. intros Hv. by rw Hc. }
  destruct r1 as [|c2 r2]; [by split|].
  destruct (three c c1 c2) eqn:E3.
  { destruct (Ht r2) as [HF Hc]; [simpl; lia|]. split.
    - constructor; [|done]. intros p [= <-]. by constructor.
    - simpl. intros Hv. by rw Hc. }
  destruct r2 as [|c3 r3]; [by split|].
  destruct (four c c1 c2 c3) eqn:E4; [|by split].
  destruct (Ht r3) as [HF Hc]; [simpl; lia|]. split.
  - constructor; [|done]. intros p [= <-]. by constructor.
  - simpl. intros Hv. by rw Hc.
Qed.

(** A valid sequence before a text is one more rune. *)
Lemma Valid_sequence p t : sequence p → Valid (p +:+ t) = Valid t.
Proof.
  rw /Valid. destruct 1 as [c Hc|c c1 E1 E2|c c1 c2 E1 E2 E3|c c1 c2 c3 E1 E2 E3 E4].
  - by rw /= (proj2 (N.ltb_lt _ _) Hc).
  - by rw /= E1 E2.
  - by rw /= E1 E2 E3.
  - by rw /= E1 E2 E3 E4.
Qed.

Lemma code_ascii n : (n < 256)%N → code (ascii_of_N n) = n.
Proof. apply N_ascii_embedding. Qed.

Lemma within_ascii n lo hi : (n < 256)%N → within (ascii_of_N n) lo hi = ((lo <=? n) && (n <=? hi))%N.
Proof. intros Hn. by rw /within code_ascii. Qed.

(** Comparisons of numbers by cases, impossible ones discarded. *)
Ltac compare_bytes :=
  repeat match goal with
    | |- context [(?x <=? ?y)%N] => destruct (N.leb_spec x y); try (exfalso; lia)
    | |- context [(?x <? ?y)%N] => destruct (N.ltb_spec x y); try (exfalso; lia)
    | |- context [(?x =? ?y)%N] => destruct (N.eqb_spec x y); try (exfalso; lia)
    end; done.

Lemma sequence2 a b :
  (194 <= a <= 223)%N → (128 <= b <= 191)%N → sequence (String (ascii_of_N a) (String (ascii_of_N b) "")).
Proof.
  intros Ha Hb. apply seq2.
  - rewrite code_ascii; [|lia..]; compare_bytes.
  - rewrite /two /cont !within_ascii; [|lia..]; compare_bytes.
Qed.

Lemma sequence3 a b c :
  (a = 224 /\ 160 <= b <= 191 \/ 225 <= a <= 239 /\ a <> 237 /\ 128 <= b <= 191 \/ a = 237 /\ 128 <= b <= 159)%N →
  (128 <= c <= 191)%N → sequence (String (ascii_of_N a) (String (ascii_of_N b) (String (ascii_of_N c) ""))).
Proof.
  intros Hab Hc. apply seq3.
  - rewrite code_ascii; [|lia..]; compare_bytes.
  - rewrite /two /cont !within_ascii; [|lia..]; compare_bytes.
  - rewrite /three /cont !within_ascii ?code_ascii; [|lia..]; compare_bytes.
Qed.

Lemma sequence4 a b c d :
  (a = 240 /\ 144 <= b <= 191 \/ 241 <= a <= 243 /\ 128 <= b <= 191 \/ a = 244 /\ 128 <= b <= 143)%N →
  (128 <= c <= 191)%N → (128 <= d <= 191)%N →
  sequence (String (ascii_of_N a) (String (ascii_of_N b) (String (ascii_of_N c) (String (ascii_of_N d) "")))).
Proof.
  intros Hab Hc Hd. apply seq4.
  - rewrite code_ascii; [|lia..]; compare_bytes.
  - rewrite /two /cont !within_ascii; [|lia..]; compare_bytes.
  - rewrite /three /cont !within_ascii ?code_ascii; [|lia..]; compare_bytes.
  - rewrite /four /cont !within_ascii ?code_ascii; [|lia..]; compare_bytes.
Qed.

(** Every number is encoded as a valid sequence. *)
Lemma sequence_EncodeRune r : sequence (EncodeRune r).
Proof.
  rw /EncodeRune. destruct (N.ltb_spec r 128) as [H1|H1].
  { apply seq1. by rw code_ascii; [|lia]. }
  destruct (N.ltb_spec r 2048) as [H2|H2].
  { apply sequence2; zify; Z.to_euclidean_division_equations; lia. }
  destruct ((1114111 <? r)%N || _) eqn:E; [by apply sequence3; lia|].
  apply orb_false_iff in E as [H3%N.ltb_ge H4].
  rewrite andb_false_iff !N.leb_gt in H4.
  destruct (N.ltb_spec r 65536) as [H5|H5].
  - apply sequence3; zify; Z.to_euclidean_division_equations; lia.
  - apply sequence4; zify; Z.to_euclidean_division_equations; lia.
Qed.

(** ASCII text is valid. *)
Fixpoint ASCII (s : string) : bool :=
  match s with EmptyString => true | String c r => (code c <? 128)%N && ASCII r end.

Lemma Valid_ASCII s : ASCII s = true → Valid s = true.
Proof.
  rw /Valid. induction s as [|c r IH]; [done|]. simpl. intros [Hc Hr]%andb_true_iff.
  rw Hc /=. by apply IH.
Qed.
End utf8.

(** ** unicode/utf16 *)
Module utf16.
Definition IsSurrogate (r : N) : bool := ((55296 <=? r) && (r <? 57344))%N.

(** [utf16.DecodeRune]; [None] is U+FFFD. *)
Definition DecodeRune (r1 r2 : N) : option N :=
  if ((55296 <=? r1) && (r1 <? 56320) && (56320 <=? r2) && (r2 <? 57344))%N
  then Some (65536 + (r1 - 55296) * 1024 + (r2 - 56320))%N else None.
End utf16.

(** ** encoding/base64 *)
Module base64.
Definition digit (n : N) : ascii :=
  if (n <? 26)%N then ascii_of_N (65 + n)
  else if (n <? 52)%N then ascii_of_N (71 + n)
  else if (n <? 62)%N then ascii_of_N (n - 4)
  else if (n =? 62)%N then "+"%char else "/"%char.

Definition value (c : ascii) : option N :=
  let n := N_of_ascii c in
  if ((65 <=? n) && (n <=? 90))%N then Some (n - 65)%N
  else if ((97 <=? n) && (n <=? 122))%N then Some (n - 71)%N
  else if ((48 <=? n) && (n <=? 57))%N then Some (n + 4)%N
  else if (n =? 43)%N then Some 62%N
  else if (n =? 47)%N then Some 63%N else None.

(** The four digits of a group of three bytes. *)
Definition group (a b c : N) : N * N * N * N :=
  (a / 4, a mod 4 * 16 + b / 16, b mod 16 * 4 + c / 64, c mod 64)%N.

(** [StdEncoding.EncodeToString]. *)
Fixpoint EncodeToString (l : bytes) : string :=
  match l with
  | [] => ""
  | [a] =>
      let '(w, x, _, _) := group (Byte.to_N a) 0 0 in
      String (digit w) (String (digit x) "==")
  | [a; b] =>
      let '(w, x, y, _) := group (Byte.to_N a) (Byte.to_N b) 0 in
      String (digit w) (String (digit x) (String (digit y) "="))
  | a :: b :: c :: l' =>
      let '(w, x, y, z) := group (Byte.to_N a) (Byte.to_N b) (Byte.to_N c) in
      String (digit w) (String (digit x) (String (digit y) (String (digit z) (EncodeToString l'))))
  end.

(** [decodeQuantum] skips line ends wherever they are. *)
Fixpoint strip_newlines (s : string) : string :=
  match s with
  | EmptyString => ""
  | String c r =>
      if bool_decide (c = "010"%char ∨ c = "013"%char) then strip_newlines r
      else String c (strip_newlines r)
  end.

Definition byte1 (w x : N) : Byte.byte := byte_of (Z.of_N (w * 4 + x / 16)).
Definition byte2 (x y : N) : Byte.byte := byte_of (Z.of_N (x mod 16 * 16 + y / 4)).
Definition byte3 (y z : N) : Byte.byte := byte_of (Z.of_N (y mod 4 * 64 + z)).

(** Quanta of four characters, the last of which may be padded; the bits
    that padding leaves over are not looked at. *)
Fixpoint decode (s : string) : option bytes :=
  match s with
  | EmptyString => Some []
  | String c0 (String c1 (String c2 (String c3 r))) =>
      w ← value c0; x ← value c1;
      if bool_decide (c2 = "="%char) then
        if bool_decide (c3 = "="%char ∧ r = "") then Some [byte1 w x] else None
      else
        y ← value c2;
        if bool_decide (c3 = "="%char) then
          if bool_decide (r = "") then Some [byte1 w x; byte2 x y] else None
        else
          z ← value c3;
          rest ← decode r; Some (byte1 w x :: byte2 x y :: byte3 y z :: rest)
  | _ => None
  end.

(** [StdEncoding.DecodeString]. *)
Definition DecodeString (s : string) : option bytes := decode (strip_newlines s).

Lemma digit_cases n :
  (n < 64)%N →
  value (digit n) = Some n ∧ digit n ≠ "="%char ∧ digit n ≠ "010"%char ∧ digit n ≠ "013"%char ∧
  (N_of_ascii (digit n) <? 128)%N = true.
Proof.
  intros Hn.
  assert (forallb (λ k, bool_decide (value (digit k) = Some k ∧ digit k ≠ "="%char ∧
    digit k ≠ "010"%char ∧ digit k ≠ "013"%char ∧ (N_of_ascii (digit k) <? 128)%N = true))
    (N.of_nat <$> seq 0 64) = true) as Hall by by vm_compute.
  rw forallb_forall in Hall. apply (bool_decide_unpack _).
  rw Hall //. apply list_elem_of_In, list_elem_of_fmap. exists (N.to_nat n).
  split; [lia|]. apply elem_of_seq. lia.
Qed.

Lemma byte_of_to_N x n : n = Byte.to_N x → byte_of (Z.of_N n) = x.
Proof. intros ->. apply byte_of_val. Qed.

Lemma pack_div k m r : (r < m)%N → ((k * m + r) / m = k ∧ (k * m + r) mod m = r)%N.
Proof.
  intros Hr. split.
  - rw N.div_add_l; [|lia]. rw (N.div_small r) //. lia.
  - rw N.add_comm N.Div0.mod_add. by apply N.mod_small.
Qed.

Lemma split_div a m : (0 < m)%N → (a = a / m * m + a mod m ∧ a mod m < m)%N.
Proof. intros Hm. split; [|apply N.mod_lt; lia]. rw {1}(N.div_mod a m); lia. Qed.

Lemma group_bounds a b c w x y z :
  (a < 256)%N → (b < 256)%N → (c < 256)%N → group a b c = (w, x, y, z) →
  (w < 64 ∧ x < 64 ∧ y < 64 ∧ z < 64)%N ∧
  a = (w * 4 + x / 16)%N ∧ b = (x mod 16 * 16 + y / 4)%N ∧ c = (y mod 4 * 64 + z)%N.
Proof.
  intros Ha Hb Hc [= <- <- <- <-].
  destruct (split_div a 4) as [Ea ?]; [done|]. destruct (split_div b 16) as [Eb ?]; [done|].
  destruct (split_div c 64) as [Ec ?]; [done|].
  assert (a / 4 < 64)%N by (apply N.Div0.div_lt_upper_bound; lia).
  assert (b / 16 < 16)%N by (apply N.Div0.div_lt_upper_bound; lia).
  assert (c / 64 < 4)%N by (apply N.Div0.div_lt_upper_bound; lia).
  rw !(proj1 (pack_div _ _ _ _)) // !(proj2 (pack_div _ _ _ _)) //. split_and!; lia.
Qed.

Lemma strip_newlines_cons c r :
  c ≠ "010"%char → c ≠ "013"%char → strip_newlines (String c r) = String c (strip_newlines r).
Proof. intros. simpl. rw bool_decide_false //. naive_solver. Qed.

(** Encoded bytes hold no line ends, and are read back. *)
Lemma DecodeString_base64 l : DecodeString (EncodeToString l) = Some l.
Proof.
  rw /DecodeString. remember (length l) as n eqn:Hn.
  revert l Hn. induction (lt_wf n) as [n _ IH]; intros l ->.
  assert (∀ x, (Byte.to_N x < 256)%N) as Hx by (intros x; pose proof (Byte.to_N_bounded x); lia).
  destruct l as [|a [|b [|c l]]]; [done|..]; cbn [EncodeToString].
  - destruct (group (Byte.to_N a) 0 0) as [[[w x] y] z] eqn:E.
    apply group_bounds in E as ((Hw & Hxx & _) & Ha & _); [|apply Hx|lia..].
    destruct (digit_cases w Hw) as (Hvw & ? & ? & ? & _), (digit_cases x Hxx) as (Hvx & ? & ? & ? & _).
    rewrite !strip_newlines_cons //. simpl. rw Hvw Hvx /=. by rw /byte1 (byte_of_to_N a).
  - destruct (group (Byte.to_N a) (Byte.to_N b) 0) as [[[w x] y] z] eqn:E.
    apply group_bounds in E as ((Hw & Hxx & Hy & _) & Ha & Hb & _); [|apply Hx|apply Hx|lia].
    destruct (digit_cases w Hw) as (Hvw & ? & ? & ? & _), (digit_cases x Hxx) as (Hvx & ? & ? & ? & _),
      (digit_cases y Hy) as (Hvy & ? & ? & ? & _).
    rewrite !strip_newlines_cons //. simpl. rw Hvw Hvx /= bool_decide_false // Hvy /=.
    by rw /byte1 /byte2 (byte_of_to_N a) // (byte_of_to_N b).
  - destruct (group (Byte.to_N a) (Byte.to_N b) (Byte.to_N c)) as [[[w x] y] z] eqn:E.
    apply group_bounds in E as ((Hw & Hxx & Hy & Hz) & Ha & Hb & Hc); [|apply Hx..].
    destruct (digit_cases w Hw) as (Hvw & ? & ? & ? & _), (digit_cases x Hxx) as (Hvx & ? & ? & ? & _),
      (digit_cases y Hy) as (Hvy & ? & ? & ? & _), (digit_cases z Hz) as (Hvz & ? & ? & ? & _).
    rewrite !strip_newlines_cons //. simpl.
    rw Hvw Hvx /= bool_decide_false // Hvy /= bool_decide_false // Hvz /=.
    rw (IH (length l)) //=; [|lia].
    by rw /byte1 /byte2 /byte3 (byte_of_to_N a) // (byte_of_to_N b) // (byte_of_to_N c).
Qed.

Lemma base64_ASCII l : utf8.ASCII (EncodeToString l) = true.
Proof.
  remember (length l) as n eqn:Hn. revert l Hn. induction (lt_wf n) as [n _ IH]; intros l ->.
  assert (∀ x, (Byte.to_N x < 256)%N) as Hx by (intros x; pose proof (Byte.to_N_bounded x); lia).
  assert (∀ k, (k < 64)%N → (utf8.code (digit k) <? 128)%N = true) as Hd by (intros; by apply digit_cases).
  destruct l as [|a [|b [|c l]]]; [done|..]; cbn [EncodeToString].
  all: destruct (group _ _ _) as [[[w x] y] z] eqn:E.
  all: apply group_bounds in E as ((Hw & Hxx & Hy & Hz) & _); try apply Hx; try lia.
  all: cbn [utf8.ASCII]; rewrite !Hd //. simpl. apply (IH (length l)); simpl; lia.
Qed.
End base64.
