(* ===== verification/Json.v ===== *)
(** * encoding/json

    The JSON values, the text [json.Marshal] writes for them (compact, with
    the HTML characters and U+2028/U+2029 escaped, invalid UTF-8 replaced)
    and the parser behind [json.Unmarshal] (scanner, nesting limit and
    [unquote]); what is printed is parsed to the same value, and holds no
    control character.  How Go values are encoded is in [JsonCodec]. *)
From Stdlib Require Import Ascii.
From S2P Require Import Prelude GoStd Encoding.

Module json.
Import utf8.

(** A string value is kept as the raw contents of its literal, which some
    decoders look at. *)
Inductive value : Type :=
  | Null
  | Bool (b : bool)
  | Num (literal : string)
  | Str (raw : string)
  | Arr (l : list value)
  | Obj (members : list (string * value)).

Fixpoint value_ind' (P : value → Prop)
    (HNull : P Null) (HBool : ∀ b, P (Bool b)) (HNum : ∀ s, P (Num s)) (HStr : ∀ s, P (Str s))
    (HArr : ∀ l, Forall P l → P (Arr l))
    (HObj : ∀ l, Forall (λ kv, P kv.2) l → P (Obj l)) (v : value) : P v :=
  let rec := value_ind' P HNull HBool HNum HStr HArr HObj in
  match v with
  | Null => HNull
  | Bool b => HBool b
  | Num s => HNum s
  | Str s => HStr s
  | Arr l => HArr l ((fix go l := match l return Forall _ l with
                                  | [] => @List.Forall_nil _ _
                                  | w :: l => @List.Forall_cons _ _ w _ (rec w) (go l)
                                  end) l)
  | Obj l => HObj l ((fix go l := match l return Forall _ l with
                                  | [] => @List.Forall_nil _ _
                                  | w :: l => @List.Forall_cons _ _ w _ (rec w.2) (go l)
                                  end) l)
  end.

(** ** Printing *)
Definition dquote : ascii := ascii_of_nat 34.
Definition backslash : ascii := ascii_of_nat 92.

Definition is_html (c : ascii) : bool :=
  bool_decide (c = "<"%char) || bool_decide (c = ">"%char) || bool_decide (c = "&"%char).

(** [appendString] on a byte below 0x80. *)
Definition escape_ascii (c : ascii) : string :=
  let n := code c in
  if (n =? 92)%N || (n =? 34)%N then String backslash (String c "")
  else if (n =? 8)%N then "\b"
  else if (n =? 12)%N then "\f"
  else if (n =? 10)%N then "\n"
  else if (n =? 13)%N then "\r"
  else if (n =? 9)%N then "\t"
  else if (n <? 32)%N || is_html c
  then "\u00" +:+ String (hex.digit (n / 16)) (String (hex.digit (n mod 16)) "")
  else String c "".

Definition escape_rune (r : option string) : string :=
  match r with
  | None => "\ufffd"
  | Some p =>
      match p with
      | String c EmptyString => escape_ascii c
      | _ => if bool_decide (p = EncodeRune 8232) then "\u2028"
             else if bool_decide (p = EncodeRune 8233) then "\u2029" else p
      end
  end.

Definition quote_body (s : string) : string :=
  foldr (λ r t, escape_rune r +:+ t) "" (runes s).

Definition quote (s : string) : string :=
  String dquote (quote_body s +:+ String dquote "").

Fixpoint commas (l : list string) : string :=
  match l with
  | [] => ""
  | [x] => x
  | x :: l' => x +:+ String ","%char (commas l')
  end.

Fixpoint print (v : value) : string :=
  match v with
  | Null => "null"
  | Bool b => if b then "true" else "false"
  | Num literal => literal
  | Str raw => String dquote (raw +:+ String dquote "")
  | Arr l => String "["%char (commas (map print l) +:+ "]")
  | Obj l => String "{"%char (commas (map (λ kv, quote kv.1 +:+ String ":"%char (print kv.2)) l) +:+ "}")
  end.

(** ** Strings of the input *)
Definition hex4 (a b c d : ascii) : option N :=
  w ← hex.value a; x ← hex.value b; y ← hex.value c; z ← hex.value d;
  Some (((w * 16 + x) * 16 + y) * 16 + z)%N.

(** What follows a backslash, [u] apart. *)
Definition simple_escape (e : ascii) : option ascii :=
  if bool_decide (e = dquote) then Some dquote
  else if bool_decide (e = backslash) then Some backslash
  else if bool_decide (e = "/"%char) then Some "/"%char
  else if bool_decide (e = "b"%char) then Some "008"%char
  else if bool_decide (e = "f"%char) then Some "012"%char
  else if bool_decide (e = "n"%char) then Some "010"%char
  else if bool_decide (e = "r"%char) then Some "013"%char
  else if bool_decide (e = "t"%char) then Some "009"%char
  else None.

(** The scanner in a string literal: its raw contents, and what follows the
    closing quote. *)
Fixpoint scan_string (s : string) : option (string * string) :=
  match s with
  | EmptyString => None
  | String c r =>
      if bool_decide (c = dquote) then Some ("", r)
      else if bool_decide (c = backslash) then
        match r with
        | String e r1 =>
            if bool_decide (e = "u"%char) then
              match r1 with
              | String a1 (String a2 (String a3 (String a4 r5))) =>
                  match hex4 a1 a2 a3 a4 with
                  | Some _ =>
                      '(raw, rest) ← scan_string r5;
                      Some (String c (String e (String a1 (String a2 (String a3 (String a4 raw))))), rest)
                  | None => None
                  end
              | _ => None
              end
            else
              match simple_escape e with
              | Some _ => '(raw, rest) ← scan_string r1; Some (String c (String e raw), rest)
              | None => None
              end
        | EmptyString => None
        end
      else if (code c <? 32)%N then None
      else '(raw, rest) ← scan_string r; Some (String c raw, rest)
  end.

(** [unquote] on the contents of a literal that the scanner accepted. *)
Fixpoint unquote (s : string) : string :=
  match s with
  | EmptyString => ""
  | String c r =>
      if bool_decide (c = backslash) then
        match r with
        | String e r1 =>
            if bool_decide (e = "u"%char) then
              match r1 with
              | String a1 (String a2 (String a3 (String a4 r5))) =>
                  let rr := default 0%N (hex4 a1 a2 a3 a4) in
                  if utf16.IsSurrogate rr then
                    match r5 with
                    | String c' (String e' (String b1 (String b2 (String b3 (String b4 r6))))) =>
                        match
                          (if bool_decide (c' = backslash ∧ e' = "u"%char)
                           then rr1 ← hex4 b1 b2 b3 b4; utf16.DecodeRune rr rr1 else None)
                        with
                        | Some dec => EncodeRune dec +:+ unquote r6
                        | None => RuneError +:+ unquote r5
                        end
                    | _ => RuneError +:+ unquote r5
                    end
                  else EncodeRune rr +:+ unquote r5
              | _ => ""
              end
            else match simple_escape e with Some x => String x (unquote r1) | None => "" end
        | EmptyString => ""
        end
      else if (code c <? 128)%N then String c (unquote r)
      else
      match r with
      | String c1 r1 =>
          if two c c1 then String c (String c1 (unquote r1)) else
          match r1 with
          | String c2 r2 =>
              if three c c1 c2 then String c (String c1 (String c2 (unquote r2))) else
              match r2 with
              | String c3 r3 =>
                  if four c c1 c2 c3
                  then String c (String c1 (String c2 (String c3 (unquote r3))))
                  else RuneError +:+ unquote r
              | EmptyString => RuneError +:+ unquote r
              end
          | EmptyString => RuneError +:+ unquote r
          end
      | EmptyString => RuneError +:+ unquote r
      end
  end.

(** ** Numbers of the input *)
Definition is_digit (c : ascii) : bool := within c 48 57.

Definition number_char (c : ascii) : bool :=
  is_digit c || bool_decide (c ∈ ["+"; "-"; "."; "e"; "E"]%char).

Fixpoint span_number (s : string) : string * string :=
  match s with
  | String c r =>
      if number_char c then let '(lit, rest) := span_number r in (String c lit, rest) else ("", s)
  | EmptyString => ("", "")
  end.

Fixpoint skip_digits (s : string) : string :=
  match s with
  | String c r => if is_digit c then skip_digits r else s
  | EmptyString => ""
  end.

Definition starts_digit (s : string) : bool :=
  match s with String c _ => is_digit c | EmptyString => false end.

Definition exponent_ok (s : string) : bool :=
  match s with
  | EmptyString => true
  | String c r =>
      bool_decide (c = "e"%char ∨ c = "E"%char) &&
      let r := match r with
               | String d r' => if bool_decide (d = "+"%char ∨ d = "-"%char) then r' else r
               | EmptyString => r
               end in
      starts_digit r && bool_decide (skip_digits r = "")
  end.

Definition fraction_ok (s : string) : bool :=
  match s with
  | String "." r => starts_digit r && exponent_ok (skip_digits r)
  | _ => exponent_ok s
  end.

(** The scanner on a number literal. *)
Definition number_ok (s : string) : bool :=
  let s := match s with String "-" r => r | _ => s end in
  match s with
  | String c r =>
      if bool_decide (c = "0"%char) then fraction_ok r
      else is_digit c && fraction_ok (skip_digits r)
  | EmptyString => false
  end.

(** ** Values of the input *)
Definition is_space (c : ascii) : bool := bool_decide (c ∈ [" "; "009"; "013"; "010"]%char).

Fixpoint skip_space (s : string) : string :=
  match s with
  | String c r => if is_space c then skip_space r else s
  | EmptyString => ""
  end.

Fixpoint strip (p s : string) : option string :=
  match p, s with
  | EmptyString, _ => Some s
  | String a p', String b s' => if bool_decide (a = b) then strip p' s' else None
  | String _ _, EmptyString => None
  end.

Definition maxNestingDepth : N := 10000.

(** One value, one list of elements (after the opening bracket) and one of
    members, given the parsers of what they contain. *)
Definition parser (A : Type) : Type := N → string → option (A * string).

Definition value_step (elements : parser (list value)) (members : parser (list (string * value)))
    : parser value := λ depth s,
  match skip_space s with
  | EmptyString => None
  | String c r =>
      if bool_decide (c = dquote) then
        '(raw, rest) ← scan_string r; Some (Str raw, rest)
      else if bool_decide (c = "{"%char) then
        if (maxNestingDepth <=? depth)%N then None else
        match strip "}" (skip_space r) with
        | Some rest => Some (Obj [], rest)
        | None => '(l, rest) ← members (depth + 1)%N r; Some (Obj l, rest)
        end
      else if bool_decide (c = "["%char) then
        if (maxNestingDepth <=? depth)%N then None else
        match strip "]" (skip_space r) with
        | Some rest => Some (Arr [], rest)
        | None => '(l, rest) ← elements (depth + 1)%N r; Some (Arr l, rest)
        end
      else if bool_decide (c = "t"%char) then rest ← strip "rue" r; Some (Bool true, rest)
      else if bool_decide (c = "f"%char) then rest ← strip "alse" r; Some (Bool false, rest)
      else if bool_decide (c = "n"%char) then rest ← strip "ull" r; Some (Null, rest)
      else
        let '(literal, rest) := span_number (String c r) in
        if number_ok literal then Some (Num literal, rest) else None
  end.

Definition elements_step (value_ : parser value) (elements : parser (list value))
    : parser (list value) := λ depth s,
  '(v, r) ← value_ depth s;
  match skip_space r with
  | String "," r => '(l, rest) ← elements depth r; Some (v :: l, rest)
  | String "]" r => Some ([v], r)
  | _ => None
  end.

Definition members_step (value_ : parser value) (members : parser (list (string * value)))
    : parser (list (string * value)) := λ depth s,
  r ← strip (String dquote "") (skip_space s);
  '(raw, r) ← scan_string r;
  r ← strip ":" (skip_space r);
  '(v, r) ← value_ depth r;
  match skip_space r with
  | String "," r => '(l, rest) ← members depth r; Some ((unquote raw, v) :: l, rest)
  | String "}" r => Some ([(unquote raw, v)], r)
  | _ => None
  end.

(** [fuel] bounds the number of nested calls. *)
Fixpoint parse_value (fuel : nat) (depth : N) (s : string) : option (value * string) :=
  match fuel with
  | O => None
  | S fuel => value_step (λ d r, parse_elements fuel d r) (λ d r, parse_members fuel d r) depth s
  end
with parse_elements (fuel : nat) (depth : N) (s : string) : option (list value * string) :=
  match fuel with
  | O => None
  | S fuel => elements_step (λ d r, parse_value fuel d r) (λ d r, parse_elements fuel d r) depth s
  end
with parse_members (fuel : nat) (depth : N) (s : string)
    : option (list (string * value) * string) :=
  match fuel with
  | O => None
  | S fuel => members_step (λ d r, parse_value fuel d r) (λ d r, parse_members fuel d r) depth s
  end.

(** A whole text; two nested calls for each byte are enough ([parse_fuel]). *)
Definition parse (s : string) : option value :=
  '(v, rest) ← parse_value (2 * String.length s + 1) 0%N s;
  if bool_decide (skip_space rest = "") then Some v else None.

(** [json.Decoder] on a stream: the first value, which unless it is an array
    or an object ends at a space or with the text. *)
Definition parse_first (s : string) : option value :=
  '(v, rest) ← parse_value (2 * String.length s + 1) 0%N s;
  match v, rest with
  | (Arr _ | Obj _), _ | _, EmptyString => Some v
  | _, String c _ => if is_space c then Some v else None
  end.

Lemma parse_value_S fuel :
  parse_value (S fuel) = value_step (parse_elements fuel) (parse_members fuel).
Proof. done. Qed.
Lemma parse_elements_S fuel :
  parse_elements (S fuel) = elements_step (parse_value fuel) (parse_elements fuel).
Proof. done. Qed.
Lemma parse_members_S fuel :
  parse_members (S fuel) = members_step (parse_value fuel) (parse_members fuel).
Proof. done. Qed.

(** ** Strings are read back *)
Lemma code_ne c d : code c ≠ code d → c ≠ d.
Proof. by intros H ->. Qed.

Lemma high_byte c :
  (code c <? 128)%N = false →
  bool_decide (c = dquote) = false ∧ bool_decide (c = backslash) = false ∧ (code c <? 32)%N = false.
Proof.
  intros Hc%N.ltb_ge. split_and!; try (apply bool_decide_eq_false, code_ne; rw {2}/code /=; lia).
  apply N.ltb_ge. lia.
Qed.

Lemma cont_high c : cont c = true → (code c <? 128)%N = false.
Proof. rw /cont /within. intros [Hc%N.leb_le _]%andb_true_iff. by apply N.ltb_ge. Qed.

Lemma within_high c lo hi : within c lo hi = true → (128 <= lo)%N → (code c <? 128)%N = false.
Proof. rw /within. intros [Hc%N.leb_le _]%andb_true_iff ?. apply N.ltb_ge. lia. Qed.

(** All bytes of a sequence of several bytes are high. *)
Lemma sequence_high p c s :
  sequence p → p = String c s → s ≠ "" → (code c <? 128)%N = false ∧
  ∀ rest, scan_string (s +:+ rest) = '(raw, t) ← scan_string rest; Some (s +:+ raw, t).
Proof.
  assert (∀ d r, (code d <? 128)%N = false →
    scan_string (String d r) = '(raw, t) ← scan_string r; Some (String d raw, t)) as Hd.
  { intros d r Hd. destruct (high_byte d Hd) as (E1 & E2 & E3). by rw /= E1 E2 E3. }
  intros Hseq Heq Hne. destruct Hseq as [d|d d1 ? H2|d d1 d2 ? _ H3|d d1 d2 d3 ? _ _ H4]; simplify_eq;
    (split; [done|]; intros rest).
  - apply andb_true_iff in H2 as [_ H2]. simpl String.append. rw Hd; [done|by apply cont_high].
  - apply andb_true_iff in H3 as [H3 H3']. simpl String.append. rewrite !Hd; [|by apply cont_high|].
    + by destruct (scan_string rest) as [[??]|].
    + apply orb_true_iff in H3 as [[H3|H3]%orb_true_iff|H3]; apply andb_true_iff in H3 as [_ H3];
        [by eapply within_high|by apply cont_high|by eapply within_high].
  - apply andb_true_iff in H4 as [[H4 H4']%andb_true_iff H4'']. simpl String.append.
    rewrite !Hd; [|by apply cont_high|by apply cont_high|].
    + by destruct (scan_string rest) as [[??]|].
    + apply orb_true_iff in H4 as [[H4|H4]%orb_true_iff|H4]; apply andb_true_iff in H4 as [_ H4];
        [by eapply within_high|by apply cont_high|by eapply within_high].
Qed.

Lemma escape_rune_high p c s :
  p = String c s → s ≠ "" →
  escape_rune (Some p) = "\u2028" ∧ p = EncodeRune 8232 ∨
  escape_rune (Some p) = "\u2029" ∧ p = EncodeRune 8233 ∨ escape_rune (Some p) = p.
Proof.
  intros -> Hs. destruct s as [|c1 s]; [done|]. cbn [escape_rune].
  case_bool_decide as E1; [by left; rw -E1|]. case_bool_decide as E2; [by right; left; rw -E2|].
  by right; right.
Qed.

(** The scanner passes over the text of one rune. *)
Lemma scan_escape_rune r rest :
  (∀ p, r = Some p → sequence p) →
  scan_string (escape_rune r +:+ rest) =
  '(raw, t) ← scan_string rest; Some (escape_rune r +:+ raw, t).
Proof.
  intros Hr. destruct r as [p|]; [specialize (Hr p eq_refl)|by destruct (scan_string rest) as [[??]|] eqn:E; simpl; rw E].
  destruct p as [|c s]; [by inversion Hr|]. destruct (decide (s = "")) as [->|Hs].
  { assert (code c < 128)%N as Hc by by inversion Hr. clear Hr.
    cbn [escape_rune]. destruct (scan_string rest) as [[raw t]|] eqn:E.
    - destruct c as [[] [] [] [] [] [] [] []]; try done; simpl; by rw E.
    - destruct c as [[] [] [] [] [] [] [] []]; try done; simpl; by rw E. }
  destruct (sequence_high _ c s Hr eq_refl Hs) as [Hc Hscan].
  destruct (escape_rune_high _ c s eq_refl Hs) as [[-> _]|[[-> _]| ->]].
  - by destruct (scan_string rest) as [[??]|] eqn:E; rw /= E.
  - by destruct (scan_string rest) as [[??]|] eqn:E; rw /= E.
  - destruct (high_byte c Hc) as (E1 & E2 & E3). rw /= E1 E2 E3 Hscan.
    by destruct (scan_string rest) as [[??]|].
Qed.

Lemma scan_quote_body s rest :
  scan_string (quote_body s +:+ String dquote rest) = Some (quote_body s, rest).
Proof.
  rw /quote_body. destruct (runes_spec s) as [HF _].
  induction HF as [|r l Hr _ IH]; [done|]. simpl.
  rw strings.append_assoc scan_escape_rune // IH. done.
Qed.

(** And [unquote] gives the rune back. *)
Lemma unquote_escape_rune p rest :
  sequence p → unquote (escape_rune (Some p) +:+ rest) = p +:+ unquote rest.
Proof.
  intros Hseq. destruct p as [|c s]; [by inversion Hseq|]. destruct (decide (s = "")) as [->|Hs].
  { assert (code c < 128)%N as Hc by by inversion Hseq. clear Hseq.
    cbn [escape_rune]. by destruct c as [[] [] [] [] [] [] [] []]. }
  destruct (escape_rune_high _ c s eq_refl Hs) as [[-> ->]|[[-> ->]| ->]]; [done|done|].
  assert (∀ d, (code d <? 128)%N = false → bool_decide (d = backslash) = false) as Hb.
  { intros d Hd. by apply high_byte. }
  inversion Hseq as [|d d1 H1 H2|d d1 d2 H1 H2 H3|d d1 d2 d3 H1 H2 H3 H4]; simplify_eq/=;
    by rw Hb // H1 H2 ?H3 ?H4.
Qed.

Lemma unquote_quote_body s : Valid s = true → unquote (quote_body s) = s.
Proof.
  intros Hv. destruct (runes_spec s) as [HF Hs]. specialize (Hs Hv).
  rw -{2}Hs /quote_body. rw /Valid in Hv. clear Hs.
  induction HF as [|r l Hr _ IH]; [done|]. simpl in Hv |- *.
  apply andb_true_iff in Hv as [Hp Hv]. destruct r as [p|]; [|done].
  rw unquote_escape_rune; [|by apply Hr]. by rw IH.
Qed.

(** What is read is valid, whatever the literal holds. *)
Lemma Valid_unquote s : Valid (unquote s) = true.
Proof.
  remember (String.length s) as n eqn:Hn. revert s Hn.
  induction (lt_wf n) as [n _ IH]; intros s ->.
  assert (∀ t, String.length t < String.length s → Valid (unquote t) = true) as Ht.
  { intros t Hl. by eapply IH. }
  clear IH. assert (∀ p t, sequence p → String.length t < String.length s →
    Valid (p +:+ unquote t) = true) as Hseq by (intros p t Hp Hl; rw Valid_sequence //; by apply Ht).
  pose proof (λ r t, Hseq (EncodeRune r) t (sequence_EncodeRune r)) as Hrune.
  assert (∀ e x, simple_escape e = Some x → sequence (String x "")) as Hesc.
  { intros e x He. apply seq1. rw /simple_escape in He. by repeat case_bool_decide; simplify_eq. }
  destruct s as [|c r]; [done|]. cbn [unquote]. case_bool_decide.
  - destruct r as [|e r1]; [done|]. case_bool_decide.
    + destruct r1 as [|a1 [|a2 [|a3 [|a4 r5]]]]; try done.
      destruct (utf16.IsSurrogate _); [|apply Hrune; simpl; lia].
      destruct r5 as [|c' [|e' [|b1 [|b2 [|b3 [|b4 r6]]]]]]; try (apply Hrune; simpl; lia).
      destruct (if bool_decide _ then _ else _) as [dec|]; apply Hrune; simpl; lia.
    + destruct (simple_escape e) as [x|] eqn:E; [|done].
      apply (Hseq (String x "") r1); [by eapply Hesc|simpl; lia].
  - destruct (code c <? 128)%N eqn:E1.
    { apply (Hseq (String c "") r); [by apply seq1, N.ltb_lt|simpl; lia]. }
    destruct r as [|c1 r1]; [apply Hrune; simpl; lia|].
    destruct (two c c1) eqn:E2; [apply (Hseq (String c (String c1 "")) r1); [by apply seq2|simpl; lia]|].
    destruct r1 as [|c2 r2]; [apply Hrune; simpl; lia|].
    destruct (three c c1 c2) eqn:E3;
      [apply (Hseq (String c (String c1 (String c2 ""))) r2); [by apply seq3|simpl; lia]|].
    destruct r2 as [|c3 r3]; [apply Hrune; simpl; lia|].
    destruct (four c c1 c2 c3) eqn:E4;
      [apply (Hseq (String c (String c1 (String c2 (String c3 "")))) r3); [by apply seq4|simpl; lia]|].
    apply Hrune; simpl; lia.
Qed.

(** ** Values are read back *)
Fixpoint numbers_ok (v : value) : bool :=
  match v with
  | Num literal => number_ok literal
  | Arr l => forallb numbers_ok l
  | Obj l => forallb (λ kv, numbers_ok kv.2) l
  | _ => true
  end.

(** The contents of a literal: what the scanner takes up to a quote. *)
Definition raw_ok (raw : string) : bool :=
  bool_decide (scan_string (raw +:+ String dquote "") = Some (raw, "")).

Fixpoint strings_ok (v : value) : bool :=
  match v with
  | Str raw => raw_ok raw
  | Arr l => forallb strings_ok l
  | Obj l => forallb (λ kv, Valid kv.1 && strings_ok kv.2) l
  | _ => true
  end.

Fixpoint nesting (v : value) : N :=
  match v with
  | Arr l => 1 + foldr N.max 0 (map nesting l)
  | Obj l => 1 + foldr N.max 0 (map (λ kv, nesting kv.2) l)
  | _ => 0
  end%N.

Lemma raw_ok_quote_body s : raw_ok (quote_body s) = true.
Proof. apply bool_decide_eq_true, scan_quote_body. Qed.

(** All characters of a string satisfy [f]. *)
Fixpoint all_chars (f : ascii → bool) (s : string) : bool :=
  match s with EmptyString => true | String c r => f c && all_chars f r end.

Lemma all_chars_app f s t : all_chars f (s +:+ t) = all_chars f s && all_chars f t.
Proof. induction s as [|c s IH]; [done|]. by rw /= IH andb_assoc. Qed.

Lemma slength_app s t : String.length (s +:+ t) = String.length s + String.length t.
Proof. induction s as [|c s IH]; [done|]. by rw /= IH. Qed.

(** *** What the scanner takes in one turn *)
Definition printable (c : ascii) : bool := negb (code c <? 32)%N.

Record token (p : string) : Prop := {
  token_nonempty : 0 < String.length p;
  token_printable : all_chars printable p = true;
  token_scan u : scan_string (p +:+ u) = '(raw, r) ← scan_string u; Some (p +:+ raw, r);
}.

Lemma scan_string_inv s raw r :
  scan_string s = Some (raw, r) →
  (s = String dquote r ∧ raw = "") ∨
  ∃ p s' raw', token p ∧ s = p +:+ s' ∧ raw = p +:+ raw' ∧ scan_string s' = Some (raw', r).
Proof.
  assert (∀ c, is_Some (hex.value c) → printable c = true) as Hhex.
  { intros c [n Hc]. by destruct c as [[] [] [] [] [] [] [] []]. }
  assert (∀ c, is_Some (simple_escape c) → printable c = true) as Hesc.
  { intros c [n Hc]. by destruct c as [[] [] [] [] [] [] [] []]. }
  assert (∀ p s', token p → s = p +:+ s' → scan_string s = Some (raw, r) →
    ∃ p s' raw', token p ∧ s = p +:+ s' ∧ raw = p +:+ raw' ∧ scan_string s' = Some (raw', r)) as Htok.
  { intros p s' Hp -> Hs. rw (token_scan _ Hp) in Hs. exists p, s'.
    destruct (scan_string s') as [[raw' r']|]; [|done]. simplify_eq/=. by exists raw'. }
  intros Hs. destruct s as [|c s]; [done|]. pose proof Hs as Hs'. simpl in Hs'.
  case_bool_decide as Hq; [left; by simplify_eq|right]. case_bool_decide as Hb; last first.
  { destruct (code c <? 32)%N eqn:E32; [done|]. eapply (Htok (String c "") s); [|done..].
    split; [simpl; lia|by rw /= /printable E32|]. intros u. simpl.
    by rw (bool_decide_false _ Hq) (bool_decide_false _ Hb) E32. }
  subst c. destruct s as [|e s]; [done|]. case_bool_decide as He.
  - subst e. do 4 (destruct s as [|? s]; [done|]).
    destruct (hex4 a a0 a1 a2) eqn:E4; [|done].
    eapply (Htok (String backslash (String "u" (String a (String a0 (String a1 (String a2 ""))))))); [|done..].
    split; [simpl; lia| |intros u; by rw /= E4]. rw /hex4 in E4.
    repeat match type of E4 with
    | context [hex.value ?a] =>
        let E := fresh "E" in destruct (hex.value a) eqn:E; [|done]; simpl in E4
    end.
    cbn [all_chars]. rewrite (Hhex a) ?(Hhex a0) ?(Hhex a1) ?(Hhex a2); [done|by eexists..].
  - destruct (simple_escape e) eqn:Ee; [|done].
    eapply (Htok (String backslash (String e "")) s); [|done..].
    split; [simpl; lia| |intros u; by rw /= (bool_decide_false _ He) Ee].
    cbn [all_chars]. rw (Hesc e); [done|by eexists].
Qed.

Lemma scan_string_ind (P : string → string → string → Prop) :
  (∀ r, P (String dquote r) "" r) →
  (∀ p s raw r, token p → P s raw r → P (p +:+ s) (p +:+ raw) r) →
  ∀ s raw r, scan_string s = Some (raw, r) → P s raw r.
Proof.
  intros H0 Hp s. remember (String.length s) as n eqn:Hn. revert s Hn.
  induction (lt_wf n) as [n _ IH]; intros s -> raw r Hs.
  apply scan_string_inv in Hs as [[-> ->]|(p & s' & raw' & Htok & -> & -> & Hs)]; [done|].
  apply Hp; [done|]. eapply IH; [|done..]. rw slength_app. pose proof (token_nonempty _ Htok). lia.
Qed.

(** The scanner does not look beyond the literal. *)
Lemma scan_string_app s t raw r :
  scan_string s = Some (raw, r) → scan_string (s +:+ t) = Some (raw, r +:+ t).
Proof.
  revert s raw r. apply scan_string_ind; [done|]. intros p s raw r Hp IH.
  by rw strings.append_assoc (token_scan _ Hp) IH.
Qed.

Lemma scan_raw raw rest :
  raw_ok raw = true → scan_string (raw +:+ String dquote rest) = Some (raw, rest).
Proof.
  intros Hs%bool_decide_eq_true. apply (scan_string_app _ rest) in Hs.
  by rw strings.append_assoc in Hs.
Qed.

Lemma skip_digits_chars s :
  all_chars number_char (skip_digits s) = true → all_chars number_char s = true.
Proof.
  induction s as [|c s IH]; [done|]. simpl. destruct (is_digit c) eqn:E; [|done].
  intros Hs. rw /number_char E /=. by apply IH.
Qed.

Lemma exponent_chars s : exponent_ok s = true → all_chars number_char s = true.
Proof.
  destruct s as [|c r]; [done|]. cbn [exponent_ok]. intros [Hc%bool_decide_eq_true Hr]%andb_true_iff.
  assert (number_char c = true) as Hn by by destruct Hc as [-> | ->]. rw /= Hn /=. clear Hn Hc.
  destruct r as [|d r]; [done|]. apply andb_true_iff in Hr as [_ Hr%bool_decide_eq_true].
  apply skip_digits_chars. case_bool_decide as Hd.
  - assert (skip_digits (String d r) = String d r) as ->; [by destruct Hd as [-> | ->]|].
    assert (number_char d = true) as Hn by by destruct Hd as [-> | ->]. rw /= Hn /=.
    apply skip_digits_chars. by rw Hr.
  - by rw Hr.
Qed.

Lemma fraction_chars s : fraction_ok s = true → all_chars number_char s = true.
Proof.
  rw /fraction_ok. destruct s as [|c r]; [done|]. destruct (decide (c = "."%char)) as [->|Hc].
  - intros [_ Hr]%andb_true_iff. simpl. by apply skip_digits_chars, exponent_chars.
  - intros Hr. apply exponent_chars. by destruct c as [[] [] [] [] [] [] [] []].
Qed.

(** A number starts with a digit or a minus sign, which starts nothing else. *)
Lemma number_head s :
  number_ok s = true →
  all_chars number_char s = true ∧ ∃ c r, s = String c r ∧ number_char c = true.
Proof.
  intros Hok. assert (∀ t, (match t with
    | String c r => if bool_decide (c = "0"%char) then fraction_ok r
                    else is_digit c && fraction_ok (skip_digits r)
    | EmptyString => false end) = true → all_chars number_char t = true ∧ t ≠ "") as Ht.
  { intros [|c r] Ht; [done|]. split; [|done]. case_bool_decide as Hc.
    - subst c. simpl. by apply fraction_chars.
    - apply andb_true_iff in Ht as [Hd Ht]. rw /= {1}/number_char Hd /=.
      by apply skip_digits_chars, fraction_chars. }
  assert (all_chars number_char s = true ∧ s ≠ "") as [Hall Hne].
  { destruct s as [|c r]; [done|]. destruct (decide (c = "-"%char)) as [->|Hc].
    - destruct (Ht r Hok) as [? _]. by split.
    - apply Ht. rw /number_ok in Hok. by destruct c as [[] [] [] [] [] [] [] []]. }
  split; [done|]. destruct s as [|c r]; [done|]. exists c, r. split; [done|].
  simpl in Hall. by apply andb_true_iff in Hall as [? _].
Qed.

Lemma number_char_head c :
  number_char c = true →
  is_space c = false ∧ bool_decide (c = dquote) = false ∧ bool_decide (c = "{"%char) = false ∧
  bool_decide (c = "["%char) = false ∧ bool_decide (c = "t"%char) = false ∧
  bool_decide (c = "f"%char) = false ∧ bool_decide (c = "n"%char) = false ∧ c ≠ "]"%char.
Proof. destruct c as [[] [] [] [] [] [] [] []]; done. Qed.

(** What may follow a value: nothing that continues a number. *)
Definition ends (rest : string) : bool :=
  match rest with String c _ => negb (number_char c) | EmptyString => true end.

Lemma span_number_app lit rest :
  all_chars number_char lit = true → ends rest = true → span_number (lit +:+ rest) = (lit, rest).
Proof.
  intros Hlit Hr. induction lit as [|c lit IH].
  { destruct rest as [|c rest]; [done|]. simpl in Hr |- *. by apply negb_true_iff in Hr as ->. }
  simpl in Hlit |- *. apply andb_true_iff in Hlit as [-> Hlit]. by rw IH.
Qed.

Lemma print_head v :
  numbers_ok v = true → ∃ c t, print v = String c t ∧ is_space c = false ∧ c ≠ "]"%char.
Proof.
  destruct v as [|[]|lit|s|l|l]; simpl; intros Hok; try by do 2 eexists.
  destruct (number_head lit Hok) as (_ & c & r & -> & Hc). apply number_char_head in Hc.
  exists c, r. naive_solver.
Qed.

Lemma skip_space_head c t : is_space c = false → skip_space (String c t) = String c t.
Proof. by intros Hc; rw /= Hc. Qed.

(** [v] is read back in front of any [rest]. *)
Definition reads_back (v : value) : Prop :=
  ∀ fuel d rest, numbers_ok v = true → strings_ok v = true →
    (d + nesting v <= maxNestingDepth)%N → ends rest = true →
    2 * String.length (print v) ≤ fuel →
    parse_value fuel d (print v +:+ rest) = Some (v, rest).

Lemma foldr_max_le (l : list N) n : (foldr N.max 0 l <= n)%N ↔ Forall (λ m, (m <= n)%N) l.
Proof.
  induction l as [|m l IH]; simpl; [split; [constructor|lia]|]. rw List.Forall_cons_iff -IH. lia.
Qed.

Lemma parse_elements_print l fuel d rest :
  Forall reads_back l → l ≠ [] → forallb numbers_ok l = true → forallb strings_ok l = true →
  (d + foldr N.max 0 (map nesting l) <= maxNestingDepth)%N →
  2 * String.length (commas (map print l)) < fuel →
  parse_elements fuel d (commas (map print l) +:+ String "]" rest) = Some (l, rest).
Proof.
  intros HF. revert fuel. induction HF as [|v l Hv _ IH]; intros fuel Hne Hn Hs Hd Hfuel; [done|].
  destruct fuel as [|fuel]; [lia|]. simpl in Hn, Hs, Hd.
  apply andb_true_iff in Hn as [Hn1 Hn2], Hs as [Hs1 Hs2]. rw parse_elements_S /elements_step.
  destruct l as [|w l].
  - simpl in Hfuel |- *. by rw Hv //; lia.
  - remember (w :: l) as l' eqn:El'.
    assert (commas (map print (v :: l')) = print v +:+ String "," (commas (map print l'))) as Hc.
    { by rw El'. }
    rw Hc slength_app /= in Hfuel. rw Hc strings.append_assoc /=.
    rw Hv //; [|lia..]. simpl. rw IH //; [by rw El'|lia|lia].
Qed.

Lemma parse_members_print l fuel d rest :
  Forall (λ kv, reads_back kv.2) l → l ≠ [] →
  forallb (λ kv, numbers_ok kv.2) l = true → forallb (λ kv, Valid kv.1 && strings_ok kv.2) l = true →
  (d + foldr N.max 0 (map (λ kv, nesting kv.2) l) <= maxNestingDepth)%N →
  let text := commas (map (λ kv, quote kv.1 +:+ String ":"%char (print kv.2)) l) in
  2 * String.length text < fuel →
  parse_members fuel d (text +:+ String "}" rest) = Some (l, rest).
Proof.
  intros HF. revert fuel. induction HF as [|[k v] l Hv _ IH]; intros fuel Hne Hn Hs Hd text Hfuel; [done|].
  destruct fuel as [|fuel]; [lia|]. simpl in Hn, Hs, Hd, Hv.
  apply andb_true_iff in Hn as [Hn1 Hn2], Hs as [[Hk Hs1]%andb_true_iff Hs2].
  rw parse_members_S /members_step.
  destruct l as [|w l].
  - rw /text /= slength_app /= slength_app /= in Hfuel. rw /text /=.
    rw !strings.append_assoc /= scan_quote_body /= Hv //; [|lia..]. by rw /= unquote_quote_body.
  - remember (w :: l) as l' eqn:El'.
    assert (text = quote k +:+ String ":" (print v) +:+ String ","
      (commas (map (λ kv, quote kv.1 +:+ String ":"%char (print kv.2)) l'))) as Hc.
    { rw /text El'. cbn [map commas fst snd]. by rw strings.append_assoc. }
    rw Hc /= !slength_app /= in Hfuel. rw Hc /=.
    rw !strings.append_assoc /= scan_quote_body /= Hv //; [|lia..].
    simpl. rw IH //; [by rw /= unquote_quote_body|by rw El'|lia|lia].
Qed.

Lemma parse_value_array fuel d r :
  (d < maxNestingDepth)%N →
  parse_value (S fuel) d (String "[" r) =
  match strip "]" (skip_space r) with
  | Some rest => Some (Arr [], rest)
  | None => '(l, rest) ← parse_elements fuel (d + 1)%N r; Some (Arr l, rest)
  end.
Proof. intros Hd. rw parse_value_S /value_step /=. by rw (proj2 (N.leb_gt _ _)). Qed.

Lemma parse_value_object fuel d r :
  (d < maxNestingDepth)%N →
  parse_value (S fuel) d (String "{" r) =
  match strip "}" (skip_space r) with
  | Some rest => Some (Obj [], rest)
  | None => '(l, rest) ← parse_members fuel (d + 1)%N r; Some (Obj l, rest)
  end.
Proof. intros Hd. rw parse_value_S /value_step /=. by rw (proj2 (N.leb_gt _ _)). Qed.

Lemma elements_not_empty v l s :
  numbers_ok v = true → strip "]" (skip_space (commas (map print (v :: l)) +:+ s)) = None.
Proof.
  intros (c & t & Hv & Hsp & Hc)%print_head.
  assert (∃ t', commas (map print (v :: l)) +:+ s = String c t') as [t' ->].
  { destruct l as [|w l]; cbn [map commas]; rw Hv; by eexists. }
  rw skip_space_head //=. rewrite bool_decide_false; [done|congruence].
Qed.

Lemma members_not_empty (l : list (string * value)) s :
  l ≠ [] →
  strip "}" (skip_space
    (commas (map (λ kv, quote kv.1 +:+ String ":"%char (print kv.2)) l) +:+ s)) = None.
Proof. by destruct l as [|[k v] [|w l]]. Qed.

Lemma append_cons c s t : String c s +:+ t = String c (s +:+ t).
Proof. done. Qed.

Lemma print_array l : print (Arr l) = String "[" (commas (map print l) +:+ "]").
Proof. done. Qed.
Lemma print_object l : print (Obj l) =
  String "{" (commas (map (λ kv, quote kv.1 +:+ String ":"%char (print kv.2)) l) +:+ "}").
Proof. done. Qed.

Lemma print_reads_back v : reads_back v.
Proof.
  induction v as [|b|lit|s|l HF|l HF] using value_ind'; intros fuel d rest Hn Hs Hd Hends Hfuel;
    (destruct fuel as [|fuel]; [simpl in Hfuel; try (destruct b; simpl in Hfuel); try lia|]).
  - done.
  - by destruct b.
  - destruct (number_head lit Hn) as (_ & c & r & -> & _). simpl in Hfuel. lia.
  - destruct (number_head lit Hn) as (Hall & c & r & -> & Hc).
    destruct (number_char_head c Hc) as (H1 & H2 & H3 & H4 & H5 & H6 & H7 & _).
    pose proof (span_number_app _ _ Hall Hends) as Hspan. cbn [numbers_ok] in Hn.
    cbn [print]. rw parse_value_S /value_step. simpl String.append in Hspan |- *.
    by rw skip_space_head // H2 H3 H4 H5 H6 H7 Hspan Hn.
  - cbn [print]. rw append_cons strings.append_assoc parse_value_S /value_step /=.
    by rw scan_raw.
  - cbn [nesting] in Hd. rw (print_array l) in Hfuel |- *.
    rw append_cons parse_value_array; [|lia]. destruct l as [|v l]; [done|].
    rw strings.append_assoc elements_not_empty; [|by apply andb_true_iff in Hn as [? _]].
    change ("]" +:+ rest) with (String "]" rest).
    rw parse_elements_print //; [lia|].
    cbn [String.length] in Hfuel. rw slength_app in Hfuel. cbn [String.length] in Hfuel. lia.
  - cbn [nesting] in Hd. rw (print_object l) in Hfuel |- *.
    rw append_cons parse_value_object; [|lia]. destruct (decide (l = [])) as [->|Hl]; [done|].
    rw strings.append_assoc members_not_empty //.
    change ("}" +:+ rest) with (String "}" rest).
    rw parse_members_print //; [lia|].
    cbn [String.length] in Hfuel. rw slength_app in Hfuel. cbn [String.length] in Hfuel. lia.
Qed.

(** What [Marshal] writes is parsed to the value it was written for. *)
Lemma parse_print v :
  numbers_ok v = true → strings_ok v = true → (nesting v <= maxNestingDepth)%N →
  parse (print v) = Some v.
Proof.
  intros Hn Hs Hd. rw /parse -{2}(strings.append_nil_r (print v)) print_reads_back //; lia.
Qed.

Lemma parse_first_print v :
  numbers_ok v = true → strings_ok v = true → (nesting v <= maxNestingDepth)%N →
  parse_first (print v) = Some v.
Proof.
  intros Hn Hs Hd. rw /parse_first -{2}(strings.append_nil_r (print v)) print_reads_back //; last lia.
  by destruct v.
Qed.

(** ** The fuel is enough *)
Lemma length_skip_space s : String.length (skip_space s) ≤ String.length s.
Proof. induction s as [|c s IH]; [done|]. simpl. destruct (is_space c); simpl; lia. Qed.

Lemma length_strip p s r : strip p s = Some r → String.length s = String.length p + String.length r.
Proof.
  revert s. induction p as [|a p IH]; intros s; [by intros [= ->]|]. destruct s as [|b s]; [done|].
  simpl. case_bool_decide; [|done]. intros ->%IH. done.
Qed.

Lemma length_scan_string s raw r : scan_string s = Some (raw, r) → String.length r < String.length s.
Proof.
  revert s raw r. apply (scan_string_ind (λ s _ r, String.length r < String.length s)).
  - intros r. simpl. lia.
  - intros p s raw r _ IH. rw slength_app. lia.
Qed.

Lemma length_span_number s lit r :
  span_number s = (lit, r) → String.length s = String.length lit + String.length r.
Proof.
  revert lit r. induction s as [|c s IH]; intros lit r; simpl; [by intros [= <- <-]|].
  destruct (number_char c); [|by intros [= <- <-]].
  destruct (span_number s) as [l r']. intros [= <- <-]. rw (IH l r') //.
Qed.

(** A parser that leaves less than it was given, and whose result on a text
    of length [n] is the same with one more unit of fuel. *)
Definition consumes {A} (p : parser A) : Prop :=
  ∀ d s v r, p d s = Some (v, r) → String.length r < String.length s.
Definition agree_upto {A} (n : nat) (p q : parser A) : Prop :=
  ∀ d s, String.length s ≤ n → p d s = q d s.

Lemma value_step_consumes es ms : consumes es → consumes ms → consumes (value_step es ms).
Proof.
  intros He Hm d s v r. rw /value_step. pose proof (length_skip_space s) as Hl.
  destruct (skip_space s) as [|c t]; [done|]. simpl in Hl.
  pose proof (length_skip_space t) as Ht. repeat case_bool_decide.
  - destruct (scan_string t) as [[raw t']|] eqn:E; [|done]. intros [= _ <-].
    apply length_scan_string in E. lia.
  - destruct (_ <=? _)%N; [done|]. destruct (strip "}" (skip_space t)) as [u|] eqn:E.
    + intros [= _ <-]. apply length_strip in E. simpl in E. lia.
    + destruct (ms _ t) as [[l u]|] eqn:Em; [|done]. intros [= _ <-]. apply Hm in Em. lia.
  - destruct (_ <=? _)%N; [done|]. destruct (strip "]" (skip_space t)) as [u|] eqn:E.
    + intros [= _ <-]. apply length_strip in E. simpl in E. lia.
    + destruct (es _ t) as [[l u]|] eqn:Em; [|done]. intros [= _ <-]. apply He in Em. lia.
  - destruct (strip "rue" t) as [u|] eqn:E; [|done]. intros [= _ <-]. apply length_strip in E. lia.
  - destruct (strip "alse" t) as [u|] eqn:E; [|done]. intros [= _ <-]. apply length_strip in E. lia.
  - destruct (strip "ull" t) as [u|] eqn:E; [|done]. intros [= _ <-]. apply length_strip in E. lia.
  - destruct (span_number _) as [lit u] eqn:E. apply length_span_number in E. simpl in E.
    destruct (number_ok lit) eqn:En; [|done]. intros [= _ <-].
    apply number_head in En as (_ & ? & ? & -> & _). simpl in E. lia.
Qed.

Lemma elements_step_consumes vp es : consumes vp → consumes es → consumes (elements_step vp es).
Proof.
  intros Hv He d s l r. rw /elements_step. destruct (vp d s) as [[v t]|] eqn:E; [|done]. simpl.
  apply Hv in E. pose proof (length_skip_space t) as Ht.
  destruct (skip_space t) as [|c u]; [done|]. simpl in Ht.
  intros Hr. repeat (case_match; try done); simplify_eq/=; try lia.
  destruct (es d u) as [[l' r']|] eqn:Ee; [|done]. simplify_eq/=. apply He in Ee. lia.
Qed.

Lemma members_step_consumes vp ms : consumes vp → consumes ms → consumes (members_step vp ms).
Proof.
  intros Hv Hm d s l r. rw /members_step. pose proof (length_skip_space s) as Hs.
  destruct (strip _ (skip_space s)) as [t|] eqn:E1; [|done]. apply length_strip in E1. cbn [mbind option_bind].
  destruct (scan_string t) as [[raw u]|] eqn:E2; [|done]. apply length_scan_string in E2. cbn [mbind option_bind].
  pose proof (length_skip_space u) as Hu.
  destruct (strip ":" (skip_space u)) as [w|] eqn:E3; [|done]. apply length_strip in E3. simpl in E1, E3 |- *.
  destruct (vp d w) as [[v x]|] eqn:E; [|done]. simpl.
  apply Hv in E. pose proof (length_skip_space x) as Hx.
  destruct (skip_space x) as [|c y]; [done|]. simpl in Hx.
  intros Hr. repeat (case_match; try done); simplify_eq/=; try lia.
  destruct (ms d y) as [[l' r']|] eqn:Ee; [|done]. simplify_eq/=. apply Hm in Ee. lia.
Qed.

Lemma parsers_consume fuel :
  consumes (parse_value fuel) ∧ consumes (parse_elements fuel) ∧ consumes (parse_members fuel).
Proof.
  induction fuel as [|fuel (Hv & He & Hm)]; [done|].
  rw parse_value_S parse_elements_S parse_members_S. split_and!.
  - by apply value_step_consumes.
  - by apply elements_step_consumes.
  - by apply members_step_consumes.
Qed.

Lemma value_step_agree n es es' ms ms' :
  agree_upto n es es' → agree_upto n ms ms' → agree_upto (S n) (value_step es ms) (value_step es' ms').
Proof.
  intros He Hm d s Hs. rw /value_step. pose proof (length_skip_space s) as Hl.
  destruct (skip_space s) as [|c t]; [done|]. simpl in Hl.
  by rw (He (d + 1)%N t) ?(Hm (d + 1)%N t); [|lia..].
Qed.

Lemma elements_step_agree n vp vp' es es' :
  consumes vp → agree_upto (S n) vp vp' → agree_upto n es es' →
  agree_upto (S n) (elements_step vp es) (elements_step vp' es').
Proof.
  intros Hc Hv He d s Hs. rw /elements_step -(Hv d s) //.
  destruct (vp d s) as [[v t]|] eqn:E; [|done]. apply Hc in E. simpl.
  pose proof (length_skip_space t) as Ht. destruct (skip_space t) as [|c u]; [done|]. simpl in Ht.
  rw (He d u) //. lia.
Qed.

Lemma members_step_agree n vp vp' ms ms' :
  consumes vp → agree_upto n vp vp' → agree_upto n ms ms' →
  agree_upto (S n) (members_step vp ms) (members_step vp' ms').
Proof.
  intros Hc Hv Hm d s Hs. rw /members_step. pose proof (length_skip_space s) as Hl.
  destruct (strip _ (skip_space s)) as [t|] eqn:E1; [|done]. apply length_strip in E1. cbn [mbind option_bind].
  destruct (scan_string t) as [[raw u]|] eqn:E2; [|done]. apply length_scan_string in E2. cbn [mbind option_bind].
  pose proof (length_skip_space u) as Hu.
  destruct (strip ":" (skip_space u)) as [w|] eqn:E3; [|done]. apply length_strip in E3. simpl in E1, E3 |- *.
  rw -(Hv d w); [|lia]. destruct (vp d w) as [[v x]|] eqn:E; [|done]. simpl.
  apply Hc in E. pose proof (length_skip_space x) as Hx.
  destruct (skip_space x) as [|c y]; [done|]. simpl in Hx.
  rw (Hm d y) //. lia.
Qed.

(** Once the fuel exceeds twice the length of the text, more makes no
    difference: a parse error is an error of the text. *)
Lemma parse_fuel_step n fuel :
  (2 * n < fuel → agree_upto n (parse_value fuel) (parse_value (S fuel))) ∧
  (2 * n + 1 < fuel → agree_upto n (parse_elements fuel) (parse_elements (S fuel))) ∧
  (2 * n + 1 < fuel → agree_upto n (parse_members fuel) (parse_members (S fuel))).
Proof.
  revert n. induction fuel as [|fuel IH]; intros n; [lia|].
  assert (∀ {A} (p q : parser A), consumes p → consumes q → agree_upto 0 p q) as Hzero.
  { intros A p q Hp Hq d s Hs. specialize (Hp d s). specialize (Hq d s).
    destruct (p d s) as [[v r]|]; [specialize (Hp v r eq_refl); lia|].
    destruct (q d s) as [[v r]|]; [specialize (Hq v r eq_refl); lia|done]. }
  pose proof (parsers_consume (S fuel)) as (Hv & He & Hm).
  pose proof (parsers_consume (S (S fuel))) as (Hv' & He' & Hm').
  destruct n as [|n]; [by split_and!; intros _; apply Hzero|].
  rw !(parse_value_S (S fuel)) !(parse_elements_S (S fuel)) !(parse_members_S (S fuel)).
  rw (parse_value_S fuel) (parse_elements_S fuel) (parse_members_S fuel).
  split_and!; intros Hlt.
  - rw -(parse_elements_S fuel) -(parse_members_S fuel). apply value_step_agree; apply IH; lia.
  - rw -(parse_value_S fuel) -(parse_elements_S fuel).
    apply elements_step_agree; [apply parsers_consume|apply IH; lia|apply IH; lia].
  - rw -(parse_value_S fuel) -(parse_members_S fuel).
    apply members_step_agree; [apply parsers_consume|apply IH; lia|apply IH; lia].
Qed.

Lemma parse_fuel s d fuel :
  2 * String.length s < fuel →
  parse_value fuel d s = parse_value (2 * String.length s + 1) d s.
Proof.
  intros Hlt. induction Hlt as [|fuel Hlt IH]; [by f_equal; lia|].
  rw -IH. symmetry. by apply (parse_fuel_step (String.length s) fuel).
Qed.

(** ** The text holds no control characters *)

Lemma printable_escape_rune r : (∀ p, r = Some p → sequence p) → all_chars printable (escape_rune r) = true.
Proof.
  intros Hr. destruct r as [p|]; [specialize (Hr p eq_refl)|done].
  destruct p as [|c s]; [done|]. destruct (decide (s = "")) as [->|Hs].
  { assert (code c < 128)%N as Hc by by inversion Hr. clear Hr.
    by destruct c as [[] [] [] [] [] [] [] []]. }
  destruct (escape_rune_high _ c s eq_refl Hs) as [[-> _]|[[-> _]| ->]]; [done|done|].
  assert (∀ d, (code d <? 128)%N = false → printable d = true) as Hp.
  { intros d Hd%high_byte. rw /printable. by destruct Hd as (_ & _ & ->). }
  inversion Hr as [|d d1 H1 H2|d d1 d2 H1 H2 H3|d d1 d2 d3 H1 H2 H3 H4]; simplify_eq/=;
    rewrite Hp //; simpl; rewrite !Hp //.
  - by apply andb_true_iff in H2 as [_ ?%cont_high].
  - by apply andb_true_iff in H3 as [_ ?%cont_high].
  - apply andb_true_iff in H3 as [H3 _].
    apply orb_true_iff in H3 as [[H3|H3]%orb_true_iff|H3]; apply andb_true_iff in H3 as [_ H3];
      [by eapply within_high|by apply cont_high|by eapply within_high].
  - by apply andb_true_iff in H4 as [_ ?%cont_high].
  - by apply andb_true_iff in H4 as [[_ ?%cont_high]%andb_true_iff _].
  - apply andb_true_iff in H4 as [[H4 _]%andb_true_iff _].
    apply orb_true_iff in H4 as [[H4|H4]%orb_true_iff|H4]; apply andb_true_iff in H4 as [_ H4];
      [by eapply within_high|by apply cont_high|by eapply within_high].
Qed.

Lemma printable_number lit : all_chars number_char lit = true → all_chars printable lit = true.
Proof.
  induction lit as [|c lit IH]; [done|]. simpl. intros [Hc Hl]%andb_true_iff. rw IH // andb_true_r.
  by destruct c as [[] [] [] [] [] [] [] []].
Qed.

Lemma printable_quote s : all_chars printable (quote s) = true.
Proof.
  rw /quote /= all_chars_app andb_true_r /quote_body. destruct (runes_spec s) as [HF _].
  induction HF as [|r l Hr _ IH]; [done|]. by rw /= all_chars_app printable_escape_rune // IH.
Qed.

Lemma printable_commas l : Forall (λ s, all_chars printable s = true) l → all_chars printable (commas l) = true.
Proof.
  induction 1 as [|s l Hs _ IH]; [done|]. destruct l as [|w l]; [done|].
  cbn [commas] in IH |- *. by rw all_chars_app Hs /= IH.
Qed.

Lemma scan_string_printable s raw r : scan_string s = Some (raw, r) → all_chars printable raw = true.
Proof.
  revert s raw r. apply (scan_string_ind (λ _ raw _, all_chars printable raw = true)); [done|].
  intros p s raw r Hp IH. by rw all_chars_app (token_printable _ Hp).
Qed.

Lemma printable_print v :
  numbers_ok v = true → strings_ok v = true → all_chars printable (print v) = true.
Proof.
  induction v as [|[]|lit|s|l HF|l HF] using value_ind'; intros Hn Hs; try done.
  - simpl in Hn |- *. by apply printable_number, number_head.
  - simpl in Hs |- *. apply bool_decide_eq_true, scan_string_printable in Hs.
    by rw all_chars_app Hs.
  - simpl in Hn |- *. rw all_chars_app andb_true_r. apply printable_commas.
    induction HF as [|v l Hv _ IH]; [constructor|]. simpl in Hn, Hs. apply andb_true_iff in Hn as [? ?], Hs as [? ?].
    constructor; [by apply Hv|by apply IH].
  - simpl in Hn |- *. rw all_chars_app andb_true_r. apply printable_commas.
    induction HF as [|[k v] l Hv _ IH]; [constructor|]. simpl in Hn, Hs. apply andb_true_iff in Hn as [? ?], Hs as [[? ?]%andb_true_iff ?].
    constructor; [|by apply IH]. rw all_chars_app printable_quote. by apply Hv.
Qed.
End json.
