(* ===== verification/Libs.v ===== *)
(** * Interfaces of the libraries the relayer calls

    Each class lists the functions of one third-party package that the
    modelled code calls, together with the documented facts the code relies
    on.  Components are written and proved against the class; the [Toy]
    instances at the end show that the laws can hold and let witnesses
    compute. *)
From S2P Require Import Prelude GoStd Encoding.

(** ** github.com/libp2p/go-libp2p/core/peer

    [peer.ID] is a Go string holding a raw multihash. *)
Abbreviation PeerID := string.

Class PeerLib := {
  peer_String : PeerID → string;
  peer_Decode : string → result PeerID;
  peer_valid : PeerID → Prop;
  peer_String_inj :: Inj (=) (=) peer_String;
  peer_String_empty : peer_String "" = "";
  peer_Decode_String p : peer_valid p → peer_Decode (peer_String p) = Ok p;
  peer_String_Valid p : peer_valid p → utf8.Valid (peer_String p) = true;
  peer_Decode_valid s p : peer_Decode s = Ok p → peer_valid p;
}.

(** ** encoding of values on the wire

    [Marshal] and [Unmarshal] of one Go type; [codec_wf] are the values that
    survive the trip (strings that are valid UTF-8, decodable peer IDs). *)
Class Codec (A : Type) := {
  Marshal : A → result bytes;
  Unmarshal : bytes → result A;
  codec_wf : A → Prop;
  Marshal_total a : codec_wf a → ∃ b, Marshal a = Ok b;
  Unmarshal_Marshal a b : codec_wf a → Marshal a = Ok b → Unmarshal b = Ok a;
}.

(** ** github.com/ethereum/go-ethereum/crypto *)
Class Keccak := {
  Keccak256 : bytes → bytes;
  Keccak256_length b : length (Keccak256 b) = 32;
}.

(** ** github.com/ethereum/go-ethereum/common

    An [Address] is an array of 20 bytes, a [Hash] of 32. *)
Abbreviation Address := bytes.
Abbreviation Hash := bytes.

Class EthCommon := {
  LeftPadBytes : bytes → nat → bytes;
  HexToAddress : string → Address;
  BytesToAddress : bytes → Address;
  Address_Hex : Address → string;
  HexToHash : string → Hash;
  LeftPadBytes_spec b l : LeftPadBytes b l = replicate (l - length b) Byte.x00 ++ b;
  HexToAddress_length s : length (HexToAddress s) = 20;
  BytesToAddress_spec b :
    BytesToAddress b = replicate (20 - length b) Byte.x00 ++ drop (length b - 20) b;
  HexToAddress_Hex a : length a = 20 → HexToAddress (Address_Hex a) = a;
  HexToHash_length s : length (HexToHash s) = 32;
  HexToHash_hex b : length b = 32 → HexToHash (hex.EncodeToString b) = b;
}.

(** [types.Log] *)
Record Log := {
  log_Address : Address;
  log_Topics : list Hash;
  log_Data : bytes;
  log_BlockNumber : Z;
  log_Removed : bool;
}.

(** ** peer.AddrInfo

    A multiaddr is only passed on. *)
Record AddrInfo := { ai_ID : PeerID; ai_Addrs : list string }.

(** [peer.AddrInfoFromString] splits off the peer ID and keeps the rest as
    the only address, if there is a rest. *)
Class AddrLib := {
  AddrInfoFromString : string → result AddrInfo;
  AddrInfoFromString_addrs s ai : AddrInfoFromString s = Ok ai → length (ai_Addrs ai) ≤ 1;
}.

(** ** crypto/aes and crypto/sha256: the block cipher and the digest *)
Class AesBlock := {
  aes_encrypt : bytes → bytes → bytes;  (** key, block *)
  aes_encrypt_length k b : length (aes_encrypt k b) = 16;
}.

Class Sha256 := {
  sha256 : bytes → bytes;
}.

(** ** github.com/binance-chain/tss-lib/tss

    Party identifiers are pointers to structs whose fields the code reads
    and, in resharing, assigns. *)
Record PartyID := {
  party_Id : string;
  party_Moniker : string;
  party_Key : Z;
  party_Index : Z;
}.

Class TssLib := {
  NewPartyID : string → string → Z → PartyID;
  SortPartyIDs : list PartyID → list PartyID;
  PartyIDs_String : list PartyID → string;  (** formatting with [%s] *)
  NewPartyID_Id id moniker key : party_Id (NewPartyID id moniker key) = id;
  NewPartyID_Key id moniker key : (0 ≤ key)%Z → party_Key (NewPartyID id moniker key) = key;
  SortPartyIDs_Ids l : party_Id <$> SortPartyIDs l ≡ₚ party_Id <$> l;
  (** sorting by distinct keys *)
  SortPartyIDs_perm l k : l ≡ₚ k → NoDup (party_Key <$> l) → SortPartyIDs l = SortPartyIDs k;
}.

#[export] Instance PartyID_eq_dec : EqDecision PartyID.
Proof. solve_decision. Defined.

(** What [NewParameters], [NewLocalParty] and [Party.Start] answer. *)
Record party_answers := {
  ans_NewParameters : option error;
  ans_NewLocalParty : option error;
  ans_Start : option error;
}.

(** A message a party wants to send: its wire form (or an error), whether it
    is a broadcast, and its addressees. *)
Record TssOutMsg := {
  out_WireBytes : result bytes;
  out_IsBroadcast : bool;
  out_GetTo : list PartyID;
}.

(** ** github.com/jellydator/ttlcache

    A cache with the default options: an item is kept for the cache's time
    to live, counted from the last time it was set or found.  [live] is the
    item of a key and when it expires. *)
Class TtlCache := {
  ttlcache : Type → Type;
  cache_new {V} : Z → ttlcache V;
  cache_set {V} : Z → string → V → ttlcache V → ttlcache V;
  cache_get {V} : Z → string → ttlcache V → option V * ttlcache V;
  ttl_of {V} : ttlcache V → Z;
  live {V} : ttlcache V → string → option (V * Z);
  ttl_new {V} ttl : ttl_of (cache_new (V := V) ttl) = ttl;
  ttl_set {V} now k (v : V) c : ttl_of (cache_set now k v c) = ttl_of c;
  ttl_get {V} now k (c : ttlcache V) : ttl_of (cache_get now k c).2 = ttl_of c;
  live_new {V} ttl k : live (cache_new (V := V) ttl) k = None;
  live_set {V} now k (v : V) c k' :
    live (cache_set now k v c) k' = if decide (k = k') then Some (v, now + ttl_of c)%Z else live c k';
  get_hit {V} now k (c : ttlcache V) v e :
    live c k = Some (v, e) → (now ≤ e)%Z →
    (cache_get now k c).1 = Some v ∧
    ∀ k', live (cache_get now k c).2 k' =
          if decide (k = k') then Some (v, now + ttl_of c)%Z else live c k';
  get_miss {V} now k (c : ttlcache V) :
    (∀ v e, live c k = Some (v, e) → (e < now)%Z) →
    (cache_get now k c).1 = None ∧
    ∀ k', live (cache_get now k c).2 k' = live c k' ∨
          k = k' ∧ live (cache_get now k c).2 k' = None;
}.

Section peer_facts.
Context `{PeerLib}.

Lemma peer_String_nil p : peer_String p = "" → p = "".
Proof. rw -{1}peer_String_empty. by intros ?%(inj peer_String). Qed.

Lemma peer_String_eqb p q :
  bool_decide (peer_String p = peer_String q) = bool_decide (p = q).
Proof. apply bool_decide_ext. split; [by intros ?%(inj peer_String)|by intros ->]. Qed.
End peer_facts.

(** [err.Error()] of the errors the code distinguishes
    (src/tss/errors.go, src/comm/errors.go, src/tss/ecdsa/common/base.go). *)
Fixpoint error_string `{PeerLib} (e : error) : string :=
  match e with
  | Errorf msg => msg
  | Wrapf msg cause => msg +:+ error_string cause
  | Joined es =>
      (fix go es := match es with
                    | [] => ""
                    | [e] => error_string e
                    | e :: es' => error_string e +:+ "
" +:+ go es'
                    end) es
  | ErrProcessStarted => "process already started"
  | SubsetError p => "party " +:+ peer_String p +:+ " not in signing subset"
  | CommunicationError p cause =>
      "failed communicating with peer " +:+ peer_String p +:+ " because of: " +:+ error_string cause
  end.

(** [errors.As(err, &subsetError)]: through wrapped and joined errors; a
    [CommunicationError] has no [Unwrap]. *)
Fixpoint is_SubsetError (e : error) : bool :=
  match e with
  | SubsetError _ => true
  | Wrapf _ cause => is_SubsetError cause
  | Joined es => existsb is_SubsetError es
  | _ => false
  end.

(** [errors.Is(err, common.ErrProcessStarted)]. *)
Fixpoint is_ErrProcessStarted (e : error) : bool :=
  match e with
  | ErrProcessStarted => true
  | Wrapf _ cause => is_ErrProcessStarted cause
  | Joined es => existsb is_ErrProcessStarted es
  | _ => false
  end.

(** ** Instances that satisfy the laws *)
Module Toy.
#[export, refine] Instance peer_lib : PeerLib := {|
  peer_String p := p;
  peer_Decode s := if bool_decide (s ≠ "" ∧ utf8.Valid s = true) then Ok s
                   else Err (Errorf "failed to parse peer ID");
  peer_valid p := p ≠ "" ∧ utf8.Valid p = true;
|}.
Proof.
  - done.
  - intros p Hp. by rw bool_decide_true.
  - by intros p [].
  - intros s p. case_bool_decide; [by intros [= <-]|done].
Defined.

(** A 32-byte digest that keeps the first bytes of its input. *)
#[export, refine] Instance keccak : Keccak := {|
  Keccak256 b := take 32 (b ++ replicate 32 Byte.x00);
|}.
Proof. intros b. rw length_take length_app length_replicate. lia. Defined.
(** Sorting by key, numbering the parties from 0. *)
Definition by_key (p q : PartyID) : Prop := (party_Key p ≤ party_Key q)%Z.
#[export] Instance by_key_dec : RelDecision by_key := λ p q, decide (party_Key p ≤ party_Key q)%Z.
#[export] Instance by_key_trans : Transitive by_key.
Proof. rw /by_key. intros p q o. lia. Qed.
#[export] Instance by_key_total : Total by_key.
Proof. rw /by_key. intros p q. lia. Qed.

Lemma sort_by_key_perm l k :
  l ≡ₚ k → NoDup (party_Key <$> l) → merge_sort by_key l = merge_sort by_key k.
Proof.
  intros Hp Hnd. apply (StronglySorted_unique_strong by_key).
  - intros p q. rw !merge_sort_Permutation -Hp /by_key. intros Hl Hk Hpq Hqp.
    apply list_elem_of_lookup in Hl as [i Hi]. apply list_elem_of_lookup in Hk as [j Hj].
    assert (i = j) as ->; [|by simplify_eq].
    eapply NoDup_lookup; [exact Hnd|rw list_lookup_fmap Hi //|rw list_lookup_fmap Hj /=]. f_equal. lia.
  - apply (StronglySorted_merge_sort by_key).
  - apply (StronglySorted_merge_sort by_key).
  - by rw !merge_sort_Permutation.
Qed.

#[export, refine] Instance tss_lib : TssLib := {|
  NewPartyID id moniker key :=
    {| party_Id := id; party_Moniker := moniker; party_Key := key; party_Index := -1 |};
  SortPartyIDs l :=
    imap (λ i p, {| party_Id := party_Id p; party_Moniker := party_Moniker p;
                    party_Key := party_Key p; party_Index := Z.of_nat i |}) (merge_sort by_key l);
  PartyIDs_String l := String.concat " " (party_Id <$> l);
|}.
Proof.
  - done.
  - done.
  - intros l. rw fmap_imap. trans (party_Id <$> merge_sort by_key l); [|by rw merge_sort_Permutation].
    by rw -(imap_const party_Id).
  - intros l k Hp Hnd. by rw (sort_by_key_perm l k).
Defined.

#[export, refine] Instance eth_common : EthCommon := {|
  LeftPadBytes b l := replicate (l - length b) Byte.x00 ++ b;
  HexToAddress s := resize 20 Byte.x00 (bytes_of s);
  BytesToAddress b := replicate (20 - length b) Byte.x00 ++ drop (length b - 20) b;
  Address_Hex := string_of;
  HexToHash s := resize 32 Byte.x00 (default (bytes_of s) (hex.DecodeString s));
|}.
Proof.
  - done.
  - intros s. by rw length_resize.
  - done.
  - intros a Ha. by rw bytes_of_string_of resize_all_alt.
  - intros s. by rw length_resize.
  - intros b Hb. by rw hex.DecodeString_EncodeToString /= resize_all_alt.
Defined.

#[export, refine] Instance map_order : MapRange := {| map_range A m := map_to_list m |}.
Proof. done. Defined.

(** An address text is the peer ID, the address is empty. *)
#[export, refine] Instance addr_lib : AddrLib := {|
  AddrInfoFromString s :=
    if bool_decide (s = "") then Err (Errorf "invalid p2p multiaddr")
    else Ok {| ai_ID := s; ai_Addrs := ["/"] |};
|}.
Proof. intros s ai. by case_bool_decide; intros [= <-]. Defined.

#[export, refine] Instance aes_block : AesBlock := {|
  aes_encrypt k b := resize 16 Byte.x00 (k ++ b);
|}.
Proof. intros. by rw length_resize. Defined.

#[export] Instance sha : Sha256 := {| sha256 b := resize 32 Byte.x00 b |}.

(** A cache that keeps expired items. *)
Record toy_ttlcache (V : Type) := { toy_ttl : Z; toy_items : gmap string (V * Z) }.
Arguments toy_ttl {V} _.
Arguments toy_items {V} _.
#[export, refine] Instance ttl_cache : TtlCache := {|
  ttlcache := toy_ttlcache;
  cache_new V ttl := {| toy_ttl := ttl; toy_items := ∅ |};
  cache_set V now k v c :=
    {| toy_ttl := toy_ttl c; toy_items := <[k := (v, now + toy_ttl c)%Z]> (toy_items c) |};
  cache_get V now k c :=
    match toy_items c !! k with
    | Some (v, e) =>
        if (now <=? e)%Z
        then (Some v, {| toy_ttl := toy_ttl c; toy_items := <[k := (v, now + toy_ttl c)%Z]> (toy_items c) |})
        else (None, c)
    | None => (None, c)
    end;
  ttl_of V c := toy_ttl c;
  live V c k := toy_items c !! k;
|}.
Proof.
  - done.
  - done.
  - intros V now k c. by repeat case_match.
  - done.
  - intros V now k v c k'. simpl. case_decide as E; [by rw E lookup_insert_eq|by rw lookup_insert_ne].
  - intros V now k c v e Hk Hle. rw Hk (proj2 (Z.leb_le _ _) Hle). split; [done|]. intros k'. simpl.
    case_decide as E; [by rw E lookup_insert_eq|by rw lookup_insert_ne].
  - intros V now k c Hk. destruct (toy_items c !! k) as [[v e]|] eqn:E; [|split; [done|by left]].
    rw (proj2 (Z.leb_gt _ _) (Hk v e eq_refl)). split; [done|]. by left.
Defined.
End Toy.
