(* ===== verification/Abi.v ===== *)
(** * The contracts the relayer talks to (src/chains/evm/calls/consts)

    The ABIs as the JSON texts that the code holds, and what they declare:
    functions and events, with the names and types of their arguments.
    go-ethereum's [accounts/abi] encodes by these declarations; it is the
    interface [AbiCodec]. *)
From Stdlib Require Import Ascii.
From S2P Require Import Prelude GoStd Encoding Json Libs.

(** The texts, with ['] in the place of each double quote. *)
Fixpoint quoted (s : string) : string :=
  match s with
  | EmptyString => EmptyString
  | String c s' => String (if bool_decide (c = "'"%char) then json.dquote else c) (quoted s')
  end.

(** HubPoolABI: the route of a token to another chain. *)
Definition HubPoolABI_json : string := quoted "
[
  {
    'inputs': [
      {
        'internalType': 'uint256',
        'name': 'destinationChainId',
        'type': 'uint256'
      },
      {
        'internalType': 'address',
        'name': 'l1Token',
        'type': 'address'
      }
    ],
    'name': 'poolRebalanceRoute',
    'outputs': [
      {
        'internalType': 'address',
        'name': 'destinationToken',
        'type': 'address'
      }
    ],
    'stateMutability': 'view',
    'type': 'function'
  }
]
".

(** SpokePoolABI: filling a relay, and the event of a deposit. *)
Definition SpokePoolABI_json : string := quoted "
[
  {
    'inputs': [
      {
        'components': [
          {
            'internalType': 'bytes32',
            'name': 'depositor',
            'type': 'bytes32'
          },
          {
            'internalType': 'bytes32',
            'name': 'recipient',
            'type': 'bytes32'
          },
          {
            'internalType': 'bytes32',
            'name': 'exclusiveRelayer',
            'type': 'bytes32'
          },
          {
            'internalType': 'bytes32',
            'name': 'inputToken',
            'type': 'bytes32'
          },
          {
            'internalType': 'bytes32',
            'name': 'outputToken',
            'type': 'bytes32'
          },
          {
            'internalType': 'uint256',
            'name': 'inputAmount',
            'type': 'uint256'
          },
          {
            'internalType': 'uint256',
            'name': 'outputAmount',
            'type': 'uint256'
          },
          {
            'internalType': 'uint256',
            'name': 'originChainId',
            'type': 'uint256'
          },
          {
            'internalType': 'uint256',
            'name': 'depositId',
            'type': 'uint256'
          },
          {
            'internalType': 'uint32',
            'name': 'fillDeadline',
            'type': 'uint32'
          },
          {
            'internalType': 'uint32',
            'name': 'exclusivityDeadline',
            'type': 'uint32'
          },
          {
            'internalType': 'bytes',
            'name': 'message',
            'type': 'bytes'
          }
        ],
        'internalType': 'struct V3SpokePoolInterface.V3RelayData',
        'name': 'relayData',
        'type': 'tuple'
      },
      {
        'internalType': 'uint256',
        'name': 'repaymentChainId',
        'type': 'uint256'
      },
      {
        'internalType': 'bytes32',
        'name': 'repaymentAddress',
        'type': 'bytes32'
      }
    ],
    'name': 'fillRelay',
    'outputs': [],
    'stateMutability': 'nonpayable',
    'type': 'function'
  },
{
  'anonymous': false,
  'inputs': [
    {
      'indexed': false,
      'internalType': 'bytes32',
      'name': 'inputToken',
      'type': 'bytes32'
    },
    {
      'indexed': false,
      'internalType': 'bytes32',
      'name': 'outputToken',
      'type': 'bytes32'
    },
    {
      'indexed': false,
      'internalType': 'uint256',
      'name': 'inputAmount',
      'type': 'uint256'
    },
    {
      'indexed': false,
      'internalType': 'uint256',
      'name': 'outputAmount',
      'type': 'uint256'
    },
    {
      'indexed': true,
      'internalType': 'uint256',
      'name': 'destinationChainId',
      'type': 'uint256'
    },
    {
      'indexed': true,
      'internalType': 'uint256',
      'name': 'depositId',
      'type': 'uint256'
    },
    {
      'indexed': false,
      'internalType': 'uint32',
      'name': 'quoteTimestamp',
      'type': 'uint32'
    },
    {
      'indexed': false,
      'internalType': 'uint32',
      'name': 'fillDeadline',
      'type': 'uint32'
    },
    {
      'indexed': false,
      'internalType': 'uint32',
      'name': 'exclusivityDeadline',
      'type': 'uint32'
    },
    {
      'indexed': true,
      'internalType': 'bytes32',
      'name': 'depositor',
      'type': 'bytes32'
    },
    {
      'indexed': false,
      'internalType': 'bytes32',
      'name': 'recipient',
      'type': 'bytes32'
    },
    {
      'indexed': false,
      'internalType': 'bytes32',
      'name': 'exclusiveRelayer',
      'type': 'bytes32'
    },
    {
      'indexed': false,
      'internalType': 'bytes',
      'name': 'message',
      'type': 'bytes'
    }
  ],
  'name': 'FundsDeposited',
  'type': 'event'
}
]
".

(** LifiABI: filling the outputs of an order. *)
Definition LifiABI_json : string := quoted "[{
  'name': 'fillOrderOutputs',
  'type': 'function',
  'stateMutability': 'nonpayable',
  'inputs': [
    {'name': 'orderId', 'type': 'bytes32'},
    {
      'name': 'outputs',
      'type': 'tuple[]',
      'components': [
        {'name': 'oracle', 'type': 'bytes32'},
        {'name': 'settler', 'type': 'bytes32'},
        {'name': 'chainId', 'type': 'uint256'},
        {'name': 'token', 'type': 'bytes32'},
        {'name': 'amount', 'type': 'uint256'},
        {'name': 'recipient', 'type': 'bytes32'},
        {'name': 'callbackData', 'type': 'bytes'},
        {'name': 'context', 'type': 'bytes'}
      ]
    },
    {'name': 'fillDeadline', 'type': 'uint48'},
    {'name': 'fillerData', 'type': 'bytes'}
  ],
  'outputs': []
}]".

(** LighterABI: paying out a withdrawal. *)
Definition LighterABI_json : string := quoted "[{
  'name': 'fulfillWithdraw',
  'type': 'function',
  'stateMutability': 'nonpayable',
  'inputs': [
    {'name': 'txHash', 'type': 'bytes32'},
    {'name': 'toAddress', 'type': 'address'},
    {'name': 'amount', 'type': 'uint256'}
  ],
  'outputs': []
}]".

(** BridgeABI: the admin contract, which the listener reads events of. *)
Definition BridgeABI_json : string := quoted (
  "[{'inputs':[{'internalType':'uint8','name':'domainID','type':'uint8'},{'internalType':'address','name':'accessControl','type':'address'}],'stateMutability':'nonpayable','type':'constructor'}," +:+
  "{'inputs':[{'internalType':'address','name':'sender','type':'address'},{'internalType':'bytes4','name':'funcSig','type':'bytes4'}],'name':'AccessNotAllowed','type':'error'}," +:+
  "{'inputs':[],'name':'DepositToCurrentDomain','type':'error'}," +:+
  "{'inputs':[],'name':'EmptyProposalsArray','type':'error'}," +:+
  "{'inputs':[],'name':'InvalidProposalSigner','type':'error'}," +:+
  "{'inputs':[],'name':'MPCAddressAlreadySet','type':'error'}," +:+
  "{'inputs':[],'name':'MPCAddressIsNotUpdatable','type':'error'}," +:+
  "{'inputs':[],'name':'MPCAddressNotSet','type':'error'}," +:+
  "{'inputs':[],'name':'MPCAddressZeroAddress','type':'error'}," +:+
  "{'inputs':[],'name':'NonceDecrementsNotAllowed','type':'error'}," +:+
  "{'inputs':[],'name':'ResourceIDNotMappedToHandler','type':'error'}," +:+
  "{'anonymous':false,'inputs':[{'indexed':false,'internalType':'address','name':'newAccessControl','type':'address'}],'name':'AccessControlChanged','type':'event'}," +:+
  "{'anonymous':false,'inputs':[{'indexed':false,'internalType':'uint8','name':'destinationDomainID','type':'uint8'},{'indexed':false,'internalType':'bytes32','name':'resourceID','type':'bytes32'},{'indexed':false,'internalType':'uint64','name':'depositNonce','type':'uint64'},{'indexed':true,'internalType':'address','name':'user','type':'address'},{'indexed':false,'internalType':'bytes','name':'data','type':'bytes'},{'indexed':false,'internalType':'bytes','name':'handlerResponse','type':'bytes'}],'name':'Deposit','type':'event'}," +:+
  "{'anonymous':false,'inputs':[],'name':'EndKeygen','type':'event'}," +:+
  "{'anonymous':false,'inputs':[{'indexed':false,'internalType':'bytes','name':'lowLevelData','type':'bytes'},{'indexed':false,'internalType':'uint8','name':'originDomainID','type':'uint8'},{'indexed':false,'internalType':'uint64','name':'depositNonce','type':'uint64'}],'name':'FailedHandlerExecution','type':'event'}," +:+
  "{'anonymous':false,'inputs':[{'indexed':false,'internalType':'address','name':'newFeeHandler','type':'address'}],'name':'FeeHandlerChanged','type':'event'}," +:+
  "{'anonymous':false,'inputs':[{'indexed':false,'internalType':'string','name':'hash','type':'string'}],'name':'KeyRefresh','type':'event'}," +:+
  "{'anonymous':false,'inputs':[{'indexed':false,'internalType':'address','name':'account','type':'address'}],'name':'Paused','type':'event'}," +:+
  "{'anonymous':false,'inputs':[{'indexed':false,'internalType':'uint8','name':'originDomainID','type':'uint8'},{'indexed':false,'internalType':'uint64','name':'depositNonce','type':'uint64'},{'indexed':false,'internalType':'bytes32','name':'dataHash','type':'bytes32'},{'indexed':false,'internalType':'bytes','name':'handlerResponse','type':'bytes'}],'name':'ProposalExecution','type':'event'}," +:+
  "{'anonymous':false,'inputs':[{'indexed':false,'internalType':'string','name':'txHash','type':'string'}],'name':'Retry','type':'event'}," +:+
  "{'anonymous':false,'inputs':[],'name':'StartKeygen','type':'event'}," +:+
  "{'anonymous':false,'inputs':[{'indexed':false,'internalType':'address','name':'account','type':'address'}],'name':'Unpaused','type':'event'}," +:+
  "{'inputs':[],'name':'_MPCAddress','outputs':[{'internalType':'address','name':'','type':'address'}],'stateMutability':'view','type':'function'}," +:+
  "{'inputs':[],'name':'_accessControl','outputs':[{'internalType':'contract IAccessControlSegregator','name':'','type':'address'}],'stateMutability':'view','type':'function'}," +:+
  "{'inputs':[{'internalType':'uint8','name':'','type':'uint8'}],'name':'_depositCounts','outputs':[{'internalType':'uint64','name':'','type':'uint64'}],'stateMutability':'view','type':'function'}," +:+
  "{'inputs':[],'name':'_domainID','outputs':[{'internalType':'uint8','name':'','type':'uint8'}],'stateMutability':'view','type':'function'}," +:+
  "{'inputs':[],'name':'_feeHandler','outputs':[{'internalType':'contract IFeeHandler','name':'','type':'address'}],'stateMutability':'view','type':'function'}," +:+
  "{'inputs':[{'internalType':'bytes32','name':'','type':'bytes32'}],'name':'_resourceIDToHandlerAddress','outputs':[{'internalType':'address','name':'','type':'address'}],'stateMutability':'view','type':'function'}," +:+
  "{'inputs':[{'internalType':'address','name':'','type':'address'}],'name':'isValidForwarder','outputs':[{'internalType':'bool','name':'','type':'bool'}],'stateMutability':'view','type':'function'}," +:+
  "{'inputs':[],'name':'paused','outputs':[{'internalType':'bool','name':'','type':'bool'}],'stateMutability':'view','type':'function'}," +:+
  "{'inputs':[{'internalType':'uint8','name':'','type':'uint8'},{'internalType':'uint256','name':'','type':'uint256'}],'name':'usedNonces','outputs':[{'internalType':'uint256','name':'','type':'uint256'}],'stateMutability':'view','type':'function'}," +:+
  "{'inputs':[],'name':'adminPauseTransfers','outputs':[],'stateMutability':'nonpayable','type':'function'}," +:+
  "{'inputs':[],'name':'adminUnpauseTransfers','outputs':[],'stateMutability':'nonpayable','type':'function'}," +:+
  "{'inputs':[{'internalType':'address','name':'handlerAddress','type':'address'},{'internalType':'bytes32','name':'resourceID','type':'bytes32'},{'internalType':'address','name':'contractAddress','type':'address'},{'internalType':'bytes','name':'args','type':'bytes'}],'name':'adminSetResource','outputs':[],'stateMutability':'nonpayable','type':'function'}," +:+
  "{'inputs':[{'internalType':'address','name':'handlerAddress','type':'address'},{'internalType':'address','name':'tokenAddress','type':'address'}],'name':'adminSetBurnable','outputs':[],'stateMutability':'nonpayable','type':'function'}," +:+
  "{'inputs':[{'internalType':'uint8','name':'domainID','type':'uint8'},{'internalType':'uint64','name':'nonce','type':'uint64'}],'name':'adminSetDepositNonce','outputs':[],'stateMutability':'nonpayable','type':'function'}," +:+
  "{'inputs':[{'internalType':'address','name':'forwarder','type':'address'},{'internalType':'bool','name':'valid','type':'bool'}],'name':'adminSetForwarder','outputs':[],'stateMutability':'nonpayable','type':'function'}," +:+
  "{'inputs':[{'internalType':'address','name':'newAccessControl','type':'address'}],'name':'adminChangeAccessControl','outputs':[],'stateMutability':'nonpayable','type':'function'}," +:+
  "{'inputs':[{'internalType':'address','name':'newFeeHandler','type':'address'}],'name':'adminChangeFeeHandler','outputs':[],'stateMutability':'nonpayable','type':'function'}," +:+
  "{'inputs':[{'internalType':'address','name':'handlerAddress','type':'address'},{'internalType':'bytes','name':'data','type':'bytes'}],'name':'adminWithdraw','outputs':[],'stateMutability':'nonpayable','type':'function'}," +:+
  "{'inputs':[{'internalType':'uint8','name':'destinationDomainID','type':'uint8'},{'internalType':'bytes32','name':'resourceID','type':'bytes32'},{'internalType':'bytes','name':'depositData','type':'bytes'},{'internalType':'bytes','name':'feeData','type':'bytes'}],'name':'deposit','outputs':[{'internalType':'uint64','name':'depositNonce','type':'uint64'},{'internalType':'bytes','name':'handlerResponse','type':'bytes'}],'stateMutability':'payable','type':'function'}," +:+
  "{'inputs':[{'components':[{'internalType':'uint8','name':'originDomainID','type':'uint8'},{'internalType':'uint64','name':'depositNonce','type':'uint64'},{'internalType':'bytes32','name':'resourceID','type':'bytes32'},{'internalType':'bytes','name':'data','type':'bytes'}],'internalType':'struct Bridge.Proposal','name':'proposal','type':'tuple'},{'internalType':'bytes','name':'signature','type':'bytes'}],'name':'executeProposal','outputs':[],'stateMutability':'nonpayable','type':'function'}," +:+
  "{'inputs':[{'components':[{'internalType':'uint8','name':'originDomainID','type':'uint8'},{'internalType':'uint64','name':'depositNonce','type':'uint64'},{'internalType':'bytes32','name':'resourceID','type':'bytes32'},{'internalType':'bytes','name':'data','type':'bytes'}],'internalType':'struct Bridge.Proposal[]','name':'proposals','type':'tuple[]'},{'internalType':'bytes','name':'signature','type':'bytes'}],'name':'executeProposals','outputs':[],'stateMutability':'nonpayable','type':'function'}," +:+
  "{'inputs':[],'name':'startKeygen','outputs':[],'stateMutability':'nonpayable','type':'function'}," +:+
  "{'inputs':[{'internalType':'address','name':'MPCAddress','type':'address'}],'name':'endKeygen','outputs':[],'stateMutability':'nonpayable','type':'function'}," +:+
  "{'inputs':[{'internalType':'string','name':'hash','type':'string'}],'name':'refreshKey','outputs':[],'stateMutability':'nonpayable','type':'function'}," +:+
  "{'inputs':[{'internalType':'string','name':'txHash','type':'string'}],'name':'retry','outputs':[],'stateMutability':'nonpayable','type':'function'}," +:+
  "{'inputs':[{'internalType':'uint8','name':'domainID','type':'uint8'},{'internalType':'uint256','name':'depositNonce','type':'uint256'}],'name':'isProposalExecuted','outputs':[{'internalType':'bool','name':'','type':'bool'}],'stateMutability':'view','type':'function'}," +:+
  "{'inputs':[{'components':[{'internalType':'uint8','name':'originDomainID','type':'uint8'},{'internalType':'uint64','name':'depositNonce','type':'uint64'},{'internalType':'bytes32','name':'resourceID','type':'bytes32'},{'internalType':'bytes','name':'data','type':'bytes'}],'internalType':'struct Bridge.Proposal[]','name':'proposals','type':'tuple[]'},{'internalType':'bytes','name':'signature','type':'bytes'}],'name':'verify','outputs':[{'internalType':'bool','name':'','type':'bool'}],'stateMutability':'view','type':'function'}]").

(** ** Declarations *)
Inductive abi_type :=
  | TUint (bits : Z)
  | TFixedBytes (n : nat)
  | TAddress
  | TBool
  | TBytes
  | TString
  | TTuple (components : list (string * abi_type))
  | TSlice (t : abi_type).

Record abi_arg := { arg_name : string; arg_type : abi_type; arg_indexed : bool }.
(** [en_kind] is function, event, error or constructor. *)
Record abi_entry := { en_kind : string; en_name : string; en_inputs : list abi_arg }.

Definition member (key : string) (v : json.value) : option json.value :=
  match v with
  | json.Obj members => snd <$> head (filter (λ kv, kv.1 = key) members)
  | _ => None
  end.
Definition text_member (key : string) (v : json.value) : string :=
  match member key v with Some (json.Str s) => s | _ => "" end.
Definition list_member (key : string) (v : json.value) : list json.value :=
  match member key v with Some (json.Arr l) => l | _ => [] end.
Definition is_true (v : option json.value) : bool :=
  match v with Some (json.Bool b) => b | _ => false end.

(** [s] without the prefix [p]. *)
Fixpoint after_prefix (p s : string) : option string :=
  match p, s with
  | EmptyString, _ => Some s
  | String a p', String b s' => if bool_decide (a = b) then after_prefix p' s' else None
  | _, _ => None
  end.

(** Tuples nest less deep than [fuel]. *)
Fixpoint type_of (fuel : nat) (v : json.value) : option abi_type :=
  match fuel with
  | O => None
  | S fuel =>
      let components := mapM (λ c, pair (text_member "name" c) <$> type_of fuel c) (list_member "components" v) in
      match text_member "type" v with
      | "address" => Some TAddress
      | "bool" => Some TBool
      | "bytes" => Some TBytes
      | "string" => Some TString
      | "tuple" => TTuple <$> components
      | "tuple[]" => TSlice ∘ TTuple <$> components
      | s =>
          match after_prefix "uint" s, after_prefix "bytes" s with
          | Some bits, _ => TUint <$> strconv.ParseInt bits 10 64
          | _, Some n => TFixedBytes ∘ Z.to_nat <$> strconv.ParseInt n 10 64
          | _, _ => None
          end
      end
  end.

Definition arg_of (v : json.value) : option abi_arg :=
  t ← type_of 3 v;
  Some {| arg_name := text_member "name" v; arg_type := t; arg_indexed := is_true (member "indexed" v) |}.
Definition entry_of (v : json.value) : option abi_entry :=
  inputs ← mapM arg_of (list_member "inputs" v);
  Some {| en_kind := text_member "type" v; en_name := text_member "name" v; en_inputs := inputs |}.
(** [abi.JSON], whose error the code drops. *)
Definition abi_JSON (text : string) : list abi_entry :=
  match json.parse text with
  | Some (json.Arr l) => default [] (mapM entry_of l)
  | _ => []
  end.

Definition find_entry (kind name : string) (entries : list abi_entry) : option abi_entry :=
  head (filter (λ e, en_kind e = kind ∧ en_name e = name) entries).

(** ** Signatures *)
Fixpoint type_string (t : abi_type) : string :=
  match t with
  | TUint bits => "uint" +:+ fmt_d bits
  | TFixedBytes n => "bytes" +:+ fmt_d (Z.of_nat n)
  | TAddress => "address"
  | TBool => "bool"
  | TBytes => "bytes"
  | TString => "string"
  | TTuple cs => "(" +:+ String.concat "," ((λ c, type_string c.2) <$> cs) +:+ ")"
  | TSlice t => type_string t +:+ "[]"
  end.
Definition signature (e : abi_entry) : string :=
  en_name e +:+ "(" +:+ String.concat "," ((λ a, type_string (arg_type a)) <$> en_inputs e) +:+ ")".

(** The variables of the package. *)
Module consts.
Definition HubPoolABI : list abi_entry := Eval vm_compute in abi_JSON HubPoolABI_json.
Definition SpokePoolABI : list abi_entry := Eval vm_compute in abi_JSON SpokePoolABI_json.
Definition LifiABI : list abi_entry := Eval vm_compute in abi_JSON LifiABI_json.
Definition LighterABI : list abi_entry := Eval vm_compute in abi_JSON LighterABI_json.
Definition BridgeABI : list abi_entry := Eval vm_compute in abi_JSON BridgeABI_json.
End consts.

(** ** Values and their encoding *)
Inductive abi_value :=
  | VUint (z : Z)
  | VFixedBytes (b : bytes)
  | VAddress (a : Address)
  | VBool (b : bool)
  | VBytes (b : bytes)
  | VString (s : string)
  | VTuple (vs : list abi_value)
  | VSlice (vs : list abi_value).

Fixpoint typed (t : abi_type) (v : abi_value) {struct v} : bool :=
  match t, v with
  | TUint bits, VUint z => (0 <=? z)%Z && (z <? 2 ^ bits)%Z
  | TFixedBytes n, VFixedBytes b => bool_decide (length b = n)
  | TAddress, VAddress a => bool_decide (length a = 20)
  | TBool, VBool _ | TBytes, VBytes _ | TString, VString _ => true
  | TTuple cs, VTuple vs =>
      (fix all_typed (cs : list (string * abi_type)) (vs : list abi_value) {struct vs} : bool :=
         match cs, vs with
         | [], [] => true
         | c :: cs, v :: vs => typed c.2 v && all_typed cs vs
         | _, _ => false
         end) cs vs
  | TSlice t, VSlice vs => forallb (typed t) vs
  | _, _ => false
  end.

Fixpoint all_typed (ts : list abi_type) (vs : list abi_value) : bool :=
  match ts, vs with
  | [], [] => true
  | t :: ts, v :: vs => typed t v && all_typed ts vs
  | _, _ => false
  end.

Lemma typed_fixed_inv n v : typed (TFixedBytes n) v = true → ∃ b, v = VFixedBytes b ∧ length b = n.
Proof. destruct v; try done. intros Hb%bool_decide_eq_true. by eexists. Qed.
Lemma typed_uint_inv bits v : typed (TUint bits) v = true → ∃ z, v = VUint z ∧ (0 ≤ z < 2 ^ bits)%Z.
Proof. destruct v as [z| | | | | | |]; try done. intros [?%Z.leb_le ?%Z.ltb_lt]%andb_true_iff. by exists z. Qed.
Lemma typed_bytes_inv v : typed TBytes v = true → ∃ b, v = VBytes b.
Proof. destruct v; try done. by eexists. Qed.
Lemma all_typed_cons_inv t ts vs :
  all_typed (t :: ts) vs = true → ∃ v vs', vs = v :: vs' ∧ typed t v = true ∧ all_typed ts vs' = true.
Proof. destruct vs as [|v vs']; [done|]. intros [??]%andb_true_iff. by exists v, vs'. Qed.
Lemma all_typed_nil_inv vs : all_typed [] vs = true → vs = [].
Proof. by destruct vs. Qed.

(** The values of a list of declared types. *)
Ltac typed_inv H :=
  lazymatch type of H with
  | all_typed [] _ = true => apply all_typed_nil_inv in H as ->
  | all_typed _ _ = true =>
      let v := fresh "v" in let vs := fresh "vs" in let Hv := fresh "Hv" in
      apply all_typed_cons_inv in H as (v & vs & -> & Hv & H);
      first [apply typed_fixed_inv in Hv as (? & -> & Hv) | apply typed_uint_inv in Hv as (? & -> & Hv)
            |apply typed_bytes_inv in Hv as (? & ->)];
      typed_inv H
  end.

Definition upper (c : ascii) : ascii :=
  let n := N_of_ascii c in if ((97 <=? n) && (n <=? 122))%N then ascii_of_N (n - 32) else c.

(** go-ethereum: [Arguments.Pack] and [Arguments.Unpack] encode values of the
    declared types and read them back; [ToCamelCase] makes the name of a Go
    field of the name of an argument. *)
Class AbiCodec := {
  abi_encode : list abi_type → list abi_value → result bytes;
  abi_decode : list abi_type → bytes → result (list abi_value);
  abi_encode_typed ts vs : all_typed ts vs = true → is_ok (abi_encode ts vs) = true;
  abi_decode_encode ts vs b : all_typed ts vs = true → abi_encode ts vs = Ok b → abi_decode ts b = Ok vs;
  abi_decode_typed ts b vs : abi_decode ts b = Ok vs → all_typed ts vs = true;
  ToCamelCase : string → string;
  ToCamelCase_plain c s : strings.free "_" (String c s) = true → ToCamelCase (String c s) = String (upper c) s;
}.

(** ** Go structs by the names of their fields *)
Definition lookup_field (fields : list (string * abi_value)) (name : string) : option abi_value :=
  snd <$> head (filter (λ f, f.1 = name) fields).
Section codec.
Context `{Keccak, AbiCodec}.

Definition field (fields : list (string * abi_value)) (arg : string) : option abi_value :=
  lookup_field fields (ToCamelCase arg).

(** A struct packed for a tuple: each component is the field of its name. *)
Definition struct_value (components : list (string * abi_type)) (fields : list (string * abi_value)) : option abi_value :=
  VTuple <$> mapM (λ c, field fields c.1) components.

(** [ABI.Pack]: the selector of the method and its arguments. *)
Definition selector (e : abi_entry) : bytes := take 4 (Keccak256 (bytes_of (signature e))).
Definition Pack (e : abi_entry) (args : list abi_value) : result bytes :=
  match abi_encode (arg_type <$> en_inputs e) args with
  | Err err => Err err
  | Ok b => Ok (selector e ++ b)
  end.
(** What a contract reads of a call. *)
Definition call_args (e : abi_entry) (input : bytes) : result (list abi_value) :=
  if bool_decide (take 4 input = selector e) then abi_decode (arg_type <$> en_inputs e) (drop 4 input)
  else Err (Errorf "no such method").

(** The arguments of an event that are in its data. *)
Definition NonIndexed (e : abi_entry) : list abi_arg := filter (λ a, arg_indexed a = false) (en_inputs e).
Definition Indexed (e : abi_entry) : list abi_arg := filter (λ a, arg_indexed a = true) (en_inputs e).

(** [UnpackIntoInterface] for more than one argument: the values under the
    names of the struct's fields. *)
Definition unpack_fields (e : abi_entry) (data : bytes) : result (list (string * abi_value)) :=
  match abi_decode (arg_type <$> NonIndexed e) data with
  | Err err => Err err
  | Ok vs => Ok (zip (ToCamelCase ∘ arg_name <$> NonIndexed e) vs)
  end.

(** What a contract logs when it emits an event with these fields: the
    indexed ones, of types that fit a word, are topics. *)
Definition topic_of `{EthCommon} (v : abi_value) : Hash :=
  match v with
  | VUint z => LeftPadBytes (big.Bytes z) 32
  | VFixedBytes b => b
  | VAddress a => LeftPadBytes a 32
  | _ => []
  end.
Definition emitted `{EthCommon} (e : abi_entry) (fields : list (string * abi_value)) (contract : Address)
    (block : Z) : option Log :=
  topics ← mapM (λ a, field fields (arg_name a)) (Indexed e);
  data ← mapM (λ a, field fields (arg_name a)) (NonIndexed e);
  match abi_encode (arg_type <$> NonIndexed e) data with
  | Ok b => Some {| log_Address := contract; log_Topics := Keccak256 (bytes_of (signature e)) :: (topic_of <$> topics);
                    log_Data := b; log_BlockNumber := block; log_Removed := false |}
  | Err _ => None
  end.

Lemma call_args_Pack e args input :
  all_typed (arg_type <$> en_inputs e) args = true → Pack e args = Ok input → call_args e input = Ok args.
Proof.
  rw /Pack /call_args. intros Ht. destruct (abi_encode _ args) as [b|] eqn:E; [|done]. intros [= <-].
  assert (4 = length (selector e)) by by rw /selector length_take Keccak256_length.
  rw take_app_length' // bool_decide_true // drop_app_length' //. by apply abi_decode_encode.
Qed.
End codec.
