(* ===== verification/JsonCodec.v ===== *)
(** * encoding/json: Go values

    How the values of Go types are encoded and decoded: integers, booleans,
    strings, byte slices, slices and structs (keys matched up to case,
    unknown keys ignored, the last of several members winning, [null] a
    no-op).  [Json] is the class of Go types with such an encoding; its
    instances are [Codec]s.

    A nil slice is printed as [null] and an empty one as an empty array or
    string; both are decoded to the empty list, which stands for both here
    and is printed as the latter. *)
From Stdlib Require Import Ascii.
From coqutil Require Import Datatypes.RecordSetters.
From S2P Require Import Prelude GoStd Encoding Libs Json.

Module dec.
Import utf8 json.

(** ** Go values

    [of_T old v] is the value of type [T] after decoding [v] into a variable
    that holds [old]; [null] leaves it as it is, a slice becomes nil. *)
Definition UnmarshalTypeError : error := Errorf "json: cannot unmarshal".
Definition SyntaxError : error := Errorf "json: syntax error".

Definition of_bool (old : bool) (v : value) : result bool :=
  match v with Null => Ok old | Bool b => Ok b | _ => Err UnmarshalTypeError end.

Definition of_string (old : string) (v : value) : result string :=
  match v with Null => Ok old | Str raw => Ok (unquote raw) | _ => Err UnmarshalTypeError end.

(** [int], [int64] and the types made of them. *)
Definition of_int64 (old : Z) (v : value) : result Z :=
  match v with
  | Null => Ok old
  | Num lit => result_of_option UnmarshalTypeError (strconv.ParseInt lit 10 64)
  | _ => Err UnmarshalTypeError
  end.

(** [strconv.ParseUint(lit, 10, 64)] and the test that the type holds it. *)
Definition of_uint (bitSize : Z) (old : Z) (v : value) : result Z :=
  match v with
  | Null => Ok old
  | Num lit =>
      match strconv.digits 10 false 0 lit with
      | Some n => if (n <? 2 ^ bitSize)%Z then Ok n else Err UnmarshalTypeError
      | None => Err UnmarshalTypeError
      end
  | _ => Err UnmarshalTypeError
  end.

(** The elements of an array are decoded into those the slice had. *)
Fixpoint of_elements {A} (dec : A → value → result A) (zero : A) (old : list A) (l : list value)
    : result (list A) :=
  match l with
  | [] => Ok []
  | v :: l' =>
      a ← dec (hd zero old) v;
      rest ← of_elements dec zero (tl old) l'; Ok (a :: rest)
  end.

Definition of_slice {A} (dec : A → value → result A) (zero : A) (old : list A) (v : value)
    : result (list A) :=
  match v with
  | Null => Ok []
  | Arr l => of_elements dec zero old l
  | _ => Err UnmarshalTypeError
  end.

(** A [[]byte] is a base64 text, or an array of numbers. *)
Definition of_bytes (old : bytes) (v : value) : result bytes :=
  match v with
  | Null => Ok []
  | Str raw => result_of_option (Errorf "illegal base64 data") (base64.DecodeString (unquote raw))
  | Arr l =>
      match of_elements (of_uint 8) 0%Z (map byte_val old) l with
      | Ok zs => Ok (map byte_of zs)
      | Err e => Err e
      end
  | _ => Err UnmarshalTypeError
  end.

(** [foldName]: the only runes beyond ASCII that fold to ASCII letters are
    U+017F (s) and U+212A (k). *)
Fixpoint fold_name (s : string) : string :=
  match s with
  | EmptyString => ""
  | String c r =>
      let n := code c in
      if ((97 <=? n) && (n <=? 122))%N then String (ascii_of_N (n - 32)) (fold_name r) else
      match r with
      | String c1 r1 =>
          if bool_decide (String c (String c1 "") = EncodeRune 383) then String "S" (fold_name r1) else
          match r1 with
          | String c2 r2 =>
              if bool_decide (String c (String c1 (String c2 "")) = EncodeRune 8490)
              then String "K" (fold_name r2) else String c (fold_name r)
          | EmptyString => String c (fold_name r)
          end
      | EmptyString => String c (fold_name r)
      end
  end.

(** The fields of a struct: their names, and how a value is decoded into the
    field of a struct.  A key that is no field's name selects a field that
    differs from it only in case. *)
Abbreviation fields A := (list (string * (A → value → result A))).

Fixpoint find_field {A} (matches : string → bool) (fs : fields A)
    : option (A → value → result A) :=
  match fs with
  | [] => None
  | (name, dec) :: fs' => if matches name then Some dec else find_field matches fs'
  end.

Definition lookup_field {A} (fs : fields A) (key : string) : option (A → value → result A) :=
  match find_field (λ name, bool_decide (name = key)) fs with
  | Some dec => Some dec
  | None => find_field (λ name, bool_decide (fold_name name = fold_name key)) fs
  end.

Fixpoint of_members {A} (fs : fields A) (old : A) (l : list (string * value)) : result A :=
  match l with
  | [] => Ok old
  | (key, v) :: l' =>
      a ← match lookup_field fs key with
          | Some dec => dec old v
          | None => Ok old
          end;
      of_members fs a l'
  end.

Definition of_struct {A} (fs : fields A) (old : A) (v : value) : result A :=
  match v with
  | Null => Ok old
  | Obj l => of_members fs old l
  | _ => Err UnmarshalTypeError
  end.

Lemma of_members_found {A} (fs : fields A) old key v l dec :
  lookup_field fs key = Some dec →
  of_members fs old ((key, v) :: l) = a ← dec old v; of_members fs a l.
Proof. by intros Hf; rw /= Hf. Qed.

(** *** Round trips of the parts *)
Lemma of_string_quote old s : Valid s = true → of_string old (Str (quote_body s)) = Ok s.
Proof. intros Hs. by rw /of_string unquote_quote_body. Qed.

Lemma of_bytes_base64 old b : of_bytes old (Str (quote_body (base64.EncodeToString b))) = Ok b.
Proof.
  rw /of_bytes unquote_quote_body; [by rw base64.DecodeString_base64|].
  apply Valid_ASCII, base64.base64_ASCII.
Qed.

Lemma number_ok_fmt_d z : number_ok (fmt_d z) = true.
Proof.
  assert (∀ p, number_ok (fmt_d (Z.pos p)) = true ∧ ∃ c r, fmt_d (Z.pos p) = String c r ∧
    bool_decide (c = "0"%char) = false ∧ is_digit c && fraction_ok (skip_digits r) = true) as Hpos.
  { intros p. rw strconv.fmt_d_pos.
    destruct (strconv.pretty_N_go_head (N.pos p) "" ltac:(done)) as (d & r & Hd & Heq).
    pose proof (strconv.pretty_N_go_all_digits (N.pos p) "") as Hall. rw Heq in Hall |- *.
    pose proof (strconv.pretty_N_char_digit d ltac:(lia)) as Hc.
    simpl in Hall. apply andb_true_iff in Hall as [_ Hr].
    assert (skip_digits r = "") as Hskip.
    { clear -Hr. induction r as [|c r IH]; [done|]. simpl in Hr |- *.
      apply andb_true_iff in Hr as [[H1%Z.leb_le H2%Z.leb_le]%andb_true_iff Hr].
      assert (is_digit c = true) as ->; [|by apply IH].
      rw /is_digit /within /code. apply andb_true_iff. split; apply N.leb_le; lia. }
    set (c := pretty_N_char d) in *.
    assert (bool_decide (c = "0"%char) = false ∧ is_digit c = true ∧ c ≠ "-"%char) as (H0 & H1 & H2).
    { split_and!.
      - apply bool_decide_eq_false. intros ->. simpl in Hc. lia.
      - rw /is_digit /within /code Hc. apply andb_true_iff. split; apply N.leb_le; lia.
      - intros ->. simpl in Hc. lia. }
    assert (is_digit c && fraction_ok (skip_digits r) = true) as Hf by by rw H1 Hskip.
    split; [|by exists c, r].
    rw /number_ok. clear Hc Heq Hd. clearbody c.
    destruct c as [[] [] [] [] [] [] [] []]; try done; by rw H0. }
  destruct z as [|p|p]; [done|by apply Hpos|].
  destruct (Hpos p) as (_ & c & r & Heq & H0 & Hf).
  assert (fmt_d (Z.neg p) = String "-" (fmt_d (Z.pos p))) as -> by done.
  by rw Heq /number_ok H0.
Qed.

Lemma of_int64_fmt_d old z :
  (- 2 ^ 63 ≤ z < 2 ^ 63)%Z → of_int64 old (Num (fmt_d z)) = Ok z.
Proof.
  intros Hz. rw /of_int64. destruct (decide (0 ≤ z)%Z) as [H0|H0].
  { by rw strconv.ParseInt_fmt_d; [|done|split; [|apply Hz]]. }
  destruct z as [|p|p]; [lia|lia|].
  assert (fmt_d (Z.neg p) = String "-" (fmt_d (Z.pos p))) as -> by done.
  assert (strconv.parse_magnitude (fmt_d (Z.pos p)) 10 = Some (Z.pos p)) as Hm.
  { pose proof (strconv.fmt_d_nonempty (Z.pos p)) as Hne.
    rw -(strconv.digits_fmt_d (Z.pos p)) // /strconv.parse_magnitude. by destruct (fmt_d (Z.pos p)). }
  rw /strconv.ParseInt (_ : strconv.is_sign "-" = true) // bool_decide_true // Hm.
  cbn -[Z.pow]. by rw (proj2 (Z.ltb_ge _ _)); [|lia].
Qed.

Lemma of_uint_fmt_d bits old z :
  (0 ≤ z < 2 ^ bits)%Z → of_uint bits old (Num (fmt_d z)) = Ok z.
Proof. intros Hz. rw /of_uint strconv.digits_fmt_d; [|lia]. by rw (proj2 (Z.ltb_lt _ _)); [|lia]. Qed.

Lemma of_elements_map {A} (dec : A → value → result A) (enc : A → value) (P : A → Prop) zero old l :
  (∀ o a, P a → dec o (enc a) = Ok a) → Forall P l → of_elements dec zero old (map enc l) = Ok l.
Proof.
  intros Hdec HF. revert old. induction HF as [|a l Ha _ IH]; intros old; [done|].
  by rw /= Hdec // IH.
Qed.
(** *** What is decoded has the type *)
Lemma of_string_typed old v s : Valid old = true → of_string old v = Ok s → Valid s = true.
Proof. destruct v; simpl; try done; intros ? [= <-]; [done|apply Valid_unquote]. Qed.

Lemma of_int64_typed old v z :
  (- 2 ^ 63 ≤ old < 2 ^ 63)%Z → of_int64 old v = Ok z → (- 2 ^ 63 ≤ z < 2 ^ 63)%Z.
Proof.
  destruct v as [| |lit| | |]; try done; [by intros ? [= <-]|]. intros _. rw /of_int64.
  destruct (strconv.ParseInt lit 10 64) as [n|] eqn:E; [|done]. intros [= <-].
  by apply (strconv.ParseInt_bounds lit 10 64).
Qed.

Lemma of_uint_typed bits old v z :
  (0 ≤ old < 2 ^ bits)%Z → of_uint bits old v = Ok z → (0 ≤ z < 2 ^ bits)%Z.
Proof.
  destruct v as [| |lit| | |]; try done; [by intros ? [= <-]|]. intros _. rw /of_uint.
  destruct (strconv.digits 10 false 0 lit) as [n|] eqn:E; [|done].
  destruct (Z.ltb_spec n (2 ^ bits)); [|done]. intros [= <-]. split; [|done].
  by eapply (strconv.digits_nonneg 10 false 0 lit).
Qed.

Section typed.
Context {A : Type} (P : A → Prop).

Lemma of_slice_typed (dec : A → value → result A) zero old v l :
  (∀ old v a, P old → dec old v = Ok a → P a) → P zero →
  Forall P old → of_slice dec zero old v = Ok l → Forall P l.
Proof.
  intros Hdec Hzero Hold. destruct v as [| | | |vs|]; try done; [by intros [= <-]|]. rw /of_slice.
  revert old Hold l. induction vs as [|v vs IH]; intros old Hold l; simpl; [by intros [= <-]|].
  destruct (dec (hd zero old) v) as [a|] eqn:Ea; [|done]. simpl.
  destruct (of_elements dec zero (tl old) vs) as [l'|] eqn:El; [|done]. intros [= <-].
  constructor.
  - eapply Hdec; [|exact Ea]. by destruct Hold.
  - eapply IH; [|exact El]. by destruct Hold.
Qed.

Lemma find_field_elem (matches : string → bool) (fs : fields A) d :
  find_field matches fs = Some d → ∃ n, (n, d) ∈ fs.
Proof.
  induction fs as [|[n d'] fs IH]; [done|]. simpl. destruct (matches n).
  - intros [= ->]. exists n. by left.
  - intros [n' ?]%IH. exists n'. by right.
Qed.

Lemma of_struct_typed (fs : fields A) old v a :
  (∀ n d, (n, d) ∈ fs → ∀ old v a, P old → d old v = Ok a → P a) →
  P old → of_struct fs old v = Ok a → P a.
Proof.
  intros Hfs Hold. destruct v as [| | | | |l]; try done; [by intros [= <-]|]. rw /of_struct.
  revert old Hold. induction l as [|[key v] l IH]; intros old Hold; [by intros [= <-]|]. simpl.
  destruct (lookup_field fs key) as [d|] eqn:Ed; [|by apply IH].
  destruct (d old v) as [b|] eqn:Eb; [|done]. simpl. apply IH.
  rw /lookup_field in Ed. destruct (find_field (λ n, bool_decide (n = key)) fs) as [d'|] eqn:E.
  - injection Ed as ->. apply find_field_elem in E as [n ?]. by eapply Hfs.
  - apply find_field_elem in Ed as [n ?]. by eapply Hfs.
Qed.
End typed.
End dec.

(** ** Go types

    How the values of a type are encoded and decoded; [wf] are the values
    that survive, [typed] those a variable of the type holds whatever was
    decoded into it, [level] bounds how deep their texts are nested. *)
Record gotype (A : Type) := {
  enc : A → json.value;
  decode : A → json.value → result A;
  wf : A → Prop;
  typed : A → Prop;
  level : N;
  enc_numbers a : json.numbers_ok (enc a) = true;
  enc_strings a : json.strings_ok (enc a) = true;
  enc_nesting a : (json.nesting (enc a) <= level)%N;
  decode_enc old a : wf a → decode old (enc a) = Ok a;
  decode_typed old v a : typed old → decode old v = Ok a → typed a;
}.
Arguments enc {A} _ _.
Arguments decode {A} _ _ _.
Arguments wf {A} _ _.
Arguments typed {A} _ _.
Arguments level {A} _.

Module go.
Import json.

#[refine] Definition bool_ : gotype bool := {|
  enc b := Bool b; decode := dec.of_bool; wf _ := True; typed _ := True; level := 0;
|}.
Proof. all: done. Defined.

#[refine] Definition string_ : gotype string := {|
  enc s := Str (quote_body s); decode := dec.of_string; wf s := utf8.Valid s = true;
  typed s := utf8.Valid s = true; level := 0;
|}.
Proof. all: try done. { apply raw_ok_quote_body. } { apply dec.of_string_quote. } apply dec.of_string_typed. Defined.

#[refine] Definition int64 : gotype Z := {|
  enc z := Num (fmt_d z); decode := dec.of_int64; wf z := (- 2 ^ 63 ≤ z < 2 ^ 63)%Z;
  typed z := (- 2 ^ 63 ≤ z < 2 ^ 63)%Z; level := 0;
|}.
Proof.
  all: try done. { intros. apply dec.number_ok_fmt_d. } { intros. by apply dec.of_int64_fmt_d. }
  apply dec.of_int64_typed.
Defined.

#[refine] Definition uint (bitSize : Z) : gotype Z := {|
  enc z := Num (fmt_d z); decode := dec.of_uint bitSize; wf z := (0 ≤ z < 2 ^ bitSize)%Z;
  typed z := (0 ≤ z < 2 ^ bitSize)%Z; level := 0;
|}.
Proof.
  all: try done. { intros. apply dec.number_ok_fmt_d. } { intros. by apply dec.of_uint_fmt_d. }
  apply dec.of_uint_typed.
Defined.

#[refine] Definition bytes_ : gotype bytes := {|
  enc b := Str (quote_body (base64.EncodeToString b)); decode := dec.of_bytes; wf _ := True;
  typed _ := True; level := 0;
|}.
Proof. all: try done. { intros. apply raw_ok_quote_body. } intros. apply dec.of_bytes_base64. Defined.

(** [*big.Int]: a pointer, nil or to a number that reads its literal as
    [SetString] does in base 0. *)
#[refine] Definition bigInt : gotype (option Z) := {|
  enc z := match z with None => Null | Some z => Num (fmt_d z) end;
  decode old v := match v with
                  | Null => Ok None
                  | Num lit => match big.SetString lit 0 with
                               | Some z => Ok (Some z)
                               | None => Err dec.UnmarshalTypeError
                               end
                  | _ => Err dec.UnmarshalTypeError
                  end;
  wf _ := True;
  typed _ := True;
  level := 0;
|}.
Proof.
  - intros [z|]; [apply dec.number_ok_fmt_d|done].
  - by intros [].
  - by intros [].
  - intros old [z|] _; [|done]. by rw big.SetString_fmt_d_any; [|left].
  - done.
Defined.

#[refine] Definition slice {A} (T : gotype A) (zero : A) (Hzero : typed T zero) : gotype (list A) := {|
  enc l := Arr (map (enc T) l);
  decode := dec.of_slice (decode T) zero;
  wf := Forall (wf T);
  typed := Forall (typed T);
  level := 1 + level T;
|}.
Proof.
  - intros l. simpl. induction l as [|a l IH]; [done|]. by rw /= enc_numbers IH.
  - intros l. simpl. induction l as [|a l IH]; [done|]. by rw /= enc_strings IH.
  - intros l. simpl. assert (foldr N.max 0 (map nesting (map (enc T) l)) <= level T)%N; [|lia].
    induction l as [|a l IH]; simpl; [lia|]. pose proof (enc_nesting _ T a). lia.
  - intros old l Hl. by apply (dec.of_elements_map _ _ (wf T)); [apply decode_enc|].
  - intros old v a. apply (dec.of_slice_typed (typed T) (decode T) zero); [apply decode_typed|done].
Defined.

(** A field of a struct: its name in the text, and how it is read and set. *)
Record field (R : Type) := {
  name : string;
  field_type : Type;
  type : gotype field_type;
  get : R → field_type;
  set : field_type → R → R;
}.
Arguments name {R} _.
Arguments field_type {R} _.
Arguments type {R} _.
Arguments get {R} _ _.
Arguments set {R} _ _ _.

Definition field_of {R A} (name : string) (type : gotype A) (proj : R → A) {s : Setter proj} : field R :=
  {| name := name; type := type; get := proj;
     set a := apply_update (mk_update proj (constant a)) |}.

Section struct.
Context {R : Type} (fs : list (field R)).

Definition struct_to_json (r : R) : value :=
  Obj (map (λ f, (name f, enc (type f) (get f r))) fs).

Definition field_decoders : dec.fields R :=
  map (λ f, (name f, λ r v, match decode (type f) (get f r) v with
                            | Ok a => Ok (set f a r)
                            | Err e => Err e
                            end)) fs.

(** A struct with the fields of [r] set one after the other. *)
Definition set_all (l : list (field R)) (r old : R) : R :=
  foldl (λ acc f, set f (get f r) acc) old l.

Lemma lookup_field_decoder f :
  NoDup (map name fs) → f ∈ fs →
  dec.lookup_field field_decoders (name f) =
  Some (λ r v, match decode (type f) (get f r) v with Ok a => Ok (set f a r) | Err e => Err e end).
Proof.
  intros Hnd Hf. rw /dec.lookup_field.
  enough (dec.find_field (λ n, bool_decide (n = name f)) field_decoders = Some (λ r v,
    match decode (type f) (get f r) v with Ok a => Ok (set f a r) | Err e => Err e end)) as ->; [done|].
  rw /field_decoders. clear -Hnd Hf. induction fs as [|g l IH]; [by apply not_elem_of_nil in Hf|].
  apply NoDup_cons in Hnd as [Hg Hnd]. simpl. apply elem_of_cons in Hf as [->|Hf]; [by rw bool_decide_true|].
  rewrite bool_decide_false; [by apply IH|]. intros Heq. apply Hg. rw Heq.
  by apply (list_elem_of_fmap_2 name).
Qed.

Lemma of_members_fields l r old :
  NoDup (map name fs) → l ⊆ fs → Forall (λ f, wf (type f) (get f r)) l →
  dec.of_members field_decoders old (map (λ f, (name f, enc (type f) (get f r))) l) =
  Ok (set_all l r old).
Proof.
  intros Hnd Hl HF. revert old. induction HF as [|f l Hf _ IH]; intros old; [done|].
  simpl map. rw (dec.of_members_found _ _ _ _ _ _ (lookup_field_decoder f Hnd _)); last (apply Hl; by left).
  rw decode_enc //=. apply IH. intros g Hg. apply Hl. by right.
Qed.

Definition fields_typed (r : R) : Prop := Forall (λ f, typed (type f) (get f r)) fs.

(** Setting a field leaves the others as they are. *)
Definition sets_typed : Prop :=
  Forall (λ f, ∀ a r, typed (type f) a → fields_typed r → fields_typed (set f a r)) fs.

(** [json.Marshal] writes the fields in their order. *)
#[refine] Definition struct
    (Hnames : bool_decide (NoDup (map name fs)) && forallb (λ f, utf8.Valid (name f)) fs = true)
    (Hall : ∀ r old, set_all fs r old = r) (Hset : sets_typed) : gotype R := {|
  enc := struct_to_json;
  decode := dec.of_struct field_decoders;
  wf r := Forall (λ f, wf (type f) (get f r)) fs;
  typed := fields_typed;
  level := (1 + foldr N.max 0 (map (λ f, level (type f)) fs))%N;
|}.
Proof.
  - intros r. simpl. clear Hnames Hall Hset. induction fs as [|f l IH]; [done|]. by rw /= enc_numbers IH.
  - intros r. simpl. clear Hall Hset. apply andb_true_iff in Hnames as [_ Hn]. revert Hn.
    induction fs as [|f l IH]; simpl; [done|]. intros [-> Hn]%andb_true_iff.
    by rw enc_strings IH.
  - intros r. simpl. clear Hnames Hall Hset.
    assert (foldr N.max 0 (map (λ kv, nesting kv.2) (map (λ f, (name f, enc (type f) (get f r))) fs))
      <= foldr N.max 0 (map (λ f, level (type f)) fs))%N; [|lia].
    induction fs as [|f l IH]; simpl; [lia|]. pose proof (enc_nesting _ (type f) (get f r)). lia.
  - intros old r HF. rw /= of_members_fields ?Hall //.
    by apply andb_true_iff in Hnames as [?%bool_decide_eq_true _].
  - intros old0 v0 a0 Hold0. apply (dec.of_struct_typed fields_typed field_decoders); [|done].
    intros n d Hd old v a Hold Ha.
    apply list_elem_of_fmap in Hd as (f & [= -> ->] & Hf).
    destruct (decode (type f) (get f old) v) as [x|] eqn:E; [|done]. injection Ha as <-.
    eapply Forall_forall in Hset; [|exact Hf]. apply Hset; [|done].
    eapply decode_typed; [|exact E]. by eapply Forall_forall in Hold.
Defined.
End struct.
End go.

(** ** The class of Go types with a JSON encoding *)
Class Json (A : Type) := {
  json_zero : A;
  json_type : gotype A;
  json_level : (level json_type <= json.maxNestingDepth)%N;
  json_zero_typed : typed json_type json_zero;
}.

Definition json_wf `{Json A} : A → Prop := wf json_type.

(** [json.Marshal] and [json.Unmarshal] into a variable of zero value. *)
Definition json_Marshal `{Json A} (a : A) : bytes := bytes_of (json.print (enc json_type a)).
Definition json_Unmarshal `{Json A} (b : bytes) : result A :=
  match json.parse (string_of b) with
  | Some v => decode json_type json_zero v
  | None => Err dec.SyntaxError
  end.

Lemma json_Unmarshal_Marshal `{Json A} (a : A) :
  json_wf a → json_Unmarshal (json_Marshal a) = Ok a.
Proof.
  intros Ha. rw /json_Unmarshal /json_Marshal string_of_bytes_of json.parse_print.
  - by apply decode_enc.
  - apply enc_numbers.
  - apply enc_strings.
  - pose proof (enc_nesting _ json_type a). pose proof json_level. lia.
Qed.

(** [json.NewDecoder(r).Decode]; [body] is what reading [r] gives. *)
Definition json_Decode `{Json A} (body : result bytes) : result A :=
  match body with
  | Err e => Err e
  | Ok b => match json.parse_first (string_of b) with
            | Some v => decode json_type json_zero v
            | None => Err dec.SyntaxError
            end
  end.

(** Whatever text is read, the value has its type. *)
Lemma json_Unmarshal_typed `{Json A} (b : bytes) (a : A) :
  json_Unmarshal b = Ok a → typed json_type a.
Proof.
  rw /json_Unmarshal. destruct (json.parse _) as [v|]; [|done].
  apply decode_typed, json_zero_typed.
Qed.

Lemma json_Decode_typed `{Json A} (body : result bytes) (a : A) :
  json_Decode body = Ok a → typed json_type a.
Proof.
  rw /json_Decode. destruct body as [b|]; [|done]. destruct (json.parse_first _) as [v|]; [|done].
  apply decode_typed, json_zero_typed.
Qed.

Lemma json_Decode_Marshal `{Json A} (a : A) :
  json_wf a → json_Decode (Ok (json_Marshal a)) = Ok a.
Proof.
  intros Ha. rw /json_Decode /json_Marshal string_of_bytes_of json.parse_first_print.
  - by apply decode_enc.
  - apply enc_numbers.
  - apply enc_strings.
  - pose proof (enc_nesting _ json_type a). pose proof json_level. lia.
Qed.

#[export, refine] Instance json_codec `{Json A} : Codec A := {|
  Marshal a := Ok (json_Marshal a);
  Unmarshal := json_Unmarshal;
  codec_wf := json_wf;
|}.
Proof.
  - intros a _. by eexists.
  - intros a b Ha [= <-]. by apply json_Unmarshal_Marshal.
Defined.

(** No encoded value holds a newline. *)
Lemma json_Marshal_newline_free `{Json A} (a : A) : Byte.x0a ∉ json_Marshal a.
Proof.
  rw /json_Marshal. pose proof (json.printable_print _ (enc_numbers _ json_type a) (enc_strings _ json_type a)) as Hp.
  induction (json.print (enc json_type a)) as [|c s IH]; [by apply not_elem_of_nil|].
  simpl in Hp. apply andb_true_iff in Hp as [Hc Hp]. apply not_elem_of_cons. split; [|by apply IH].
  intros Heq. apply (f_equal ascii_of_byte) in Heq. rw ascii_of_byte_of_ascii in Heq.
  by rw -Heq in Hc.
Qed.

#[global] Arguments json_Marshal : simpl never.
#[global] Arguments json_Unmarshal : simpl never.
#[global] Arguments json_Decode : simpl never.

(** Structs are described by their fields alone. *)
Ltac all_fields_set := by intros [] [].

Ltac all_sets_typed :=
  repeat (apply List.Forall_cons;
    [intros ? [] ? Hfields; repeat (apply List.Forall_cons_iff in Hfields as [? Hfields]);
     repeat (apply List.Forall_cons; [assumption|]); apply List.Forall_nil|]); apply List.Forall_nil.

(** One goal for each field whose values need not survive. *)
Ltac wf_fields :=
  repeat (apply List.Forall_cons; [try done|]); try apply List.Forall_nil.

(** ** github.com/libp2p/go-libp2p/core/peer

    [ID.MarshalJSON] and [ID.UnmarshalJSON] go through the printed ID. *)
Section peers.
Context `{PeerLib}.

#[refine] Definition peer_type : gotype PeerID := {|
  enc p := json.Str (json.quote_body (peer_String p));
  decode old v := s ← dec.of_string "" v; peer_Decode s;
  wf := peer_valid;
  typed p := p = "" ∨ peer_valid p;
  level := 0;
|}.
Proof.
  - done.
  - intros p. apply json.raw_ok_quote_body.
  - done.
  - intros old p Hp. rw dec.of_string_quote; [by apply peer_Decode_String|by apply peer_String_Valid].
  - intros old v p _. destruct (dec.of_string "" v) as [s|]; [|done]. intros Hp. right. by eapply peer_Decode_valid.
Defined.

(** [[]peer.ID] *)
#[export] Instance peers_json : Json (list PeerID) :=
  {| json_zero := []; json_type := go.slice peer_type "" (or_introl eq_refl); json_level := ltac:(done);
     json_zero_typed := List.Forall_nil _ |}.
End peers.

(** ** github.com/ethereum/go-ethereum/common

    [Address] and [Hash] are marshalled as texts. *)
Class EthJson := {
  address_type : gotype Address;
  hash_type : gotype Hash;
  address_wf a : length a = 20 → wf address_type a;
  hash_wf b : length b = 32 → wf hash_type b;
  address_typed a : typed address_type a ↔ length a = 20;
  hash_typed b : typed hash_type b ↔ length b = 32;
  address_level : level address_type = 0%N;
  hash_level : level hash_type = 0%N;
}.

(** ** github.com/binance-chain/tss-lib and go-libp2p/core/peer

    [keygen.LocalPartySaveData], which is only stored and read back, and
    [peer.AddrInfo]. *)
Class SaveDataJson (SaveData : Type) := {
  savedata_zero : SaveData;
  savedata_type : gotype SaveData;
  savedata_zero_typed : typed savedata_type savedata_zero;
  savedata_level : (1 + level savedata_type <= json.maxNestingDepth)%N;
}.

Class AddrInfoJson := {
  addrinfo_type : gotype AddrInfo;
  addrinfo_zero_typed : typed addrinfo_type {| ai_ID := ""; ai_Addrs := [] |};
  addrinfo_level : (2 + level addrinfo_type <= json.maxNestingDepth)%N;
}.

(** The zero value of a struct, field by field. *)
Ltac zero_typed :=
  repeat (apply List.Forall_cons;
    [simpl; first [done | lia | by apply List.Forall_nil | by left
      | by apply address_typed | by apply hash_typed
      | apply savedata_zero_typed] |]); apply List.Forall_nil.

Module ToyJson.
(** [n] bytes as the text 0x and their digits. *)
#[refine] Definition hex_text (n : nat) : gotype bytes := {|
  enc b := json.Str (json.quote_body (String "0" (String "x" (hex.EncodeToString b))));
  decode old v :=
    match dec.of_string "" v with
    | Ok (String "0" (String "x" s)) =>
        match hex.DecodeString s with
        | Some b => if bool_decide (length b = n) then Ok b else Err (Errorf "hex string has a wrong length")
        | None => Err (Errorf "invalid hex string")
        end
    | _ => Err dec.UnmarshalTypeError
    end;
  wf b := length b = n;
  typed b := length b = n;
  level := 0;
|}.
Proof.
  - done.
  - intros b. apply json.raw_ok_quote_body.
  - done.
  - intros old b Hb. rw dec.of_string_quote.
    { by rw hex.DecodeString_EncodeToString bool_decide_true. }
    apply utf8.Valid_ASCII. simpl. clear Hb. induction b as [|x b IH]; [done|].
    assert (∀ n, (utf8.code (hex.digit n) <? 128)%N = true) as Hd.
    { intros m. rw /hex.digit. by repeat case_match. }
    by rw /= !Hd IH.
  - intros old v b _. repeat case_match; try done. case_bool_decide; by intros [= <-].
Defined.

#[export, refine] Instance eth_json : EthJson := {| address_type := hex_text 20; hash_type := hex_text 32 |}.
Proof. all: done. Defined.

#[export, refine] Instance unit_savedata : SaveDataJson unit := {|
  savedata_zero := tt;
  savedata_type := go.struct (R := unit) [] eq_refl ltac:(all_fields_set) ltac:(all_sets_typed);
|}.
Proof. { apply List.Forall_nil. } done. Defined.

#[export, refine] Instance addrinfo_json : AddrInfoJson := {|
  addrinfo_type := go.struct [go.field_of "ID" go.string_ ai_ID;
                              go.field_of "Addrs" (go.slice go.string_ "" eq_refl) ai_Addrs]
                     eq_refl ltac:(all_fields_set) ltac:(all_sets_typed);
|}.
Proof. { wf_fields. } done. Defined.
End ToyJson.
