(* ===== verification/Tokens.v ===== *)
(** * Tokens, amounts and blocks (src/config/token.go, src/chains/util.go) *)
From S2P Require Import Prelude GoStd Libs.

(** ** config/token.go *)
Record TokenConfig := { tc_Address : Address; Decimals : Z }.

Record TokenStore := { Tokens : gmap Z (gmap string TokenConfig) }.

Section tokens.
Context `{EthCommon, MapRange}.

(** The first token of the range with this address. *)
Definition ConfigByAddress (s : TokenStore) (chainID : Z) (address : Address)
    : result (string * TokenConfig) :=
  match Tokens s !! chainID with
  | None => Err (Errorf ("no tokens for chain " +:+ fmt_d chainID))
  | Some tokens =>
      match list_find (λ '(_, c), tc_Address c = address) (map_range tokens) with
      | Some (_, (symbol, c)) => Ok (symbol, c)
      | None => Err (Errorf ("no symbol for address " +:+ Address_Hex address))
      end
  end.

Definition ConfigBySymbol (s : TokenStore) (chainID : Z) (symbol : string) : result TokenConfig :=
  match Tokens s !! chainID with
  | None => Err (Errorf ("no tokens for chain " +:+ fmt_d chainID))
  | Some tokens =>
      match tokens !! symbol with
      | None => Err (Errorf ("no config for token " +:+ symbol))
      | Some c => Ok c
      end
  end.

Lemma ConfigByAddress_ok s chainID address symbol c :
  ConfigByAddress s chainID address = Ok (symbol, c) →
  ConfigBySymbol s chainID symbol = Ok c ∧ tc_Address c = address.
Proof.
  rw /ConfigByAddress /ConfigBySymbol. destruct (Tokens s !! chainID) as [tokens|]; [|done].
  destruct (list_find _ _) as [[i [symbol' c']]|] eqn:E; [|done]. intros [= -> ->].
  apply list_find_Some in E as (Hi & Ha & _). apply list_elem_of_lookup_2 in Hi.
  by rw elem_of_map_range in Hi; rw Hi.
Qed.

Lemma ConfigByAddress_unique s chainID tokens address symbol c :
  Tokens s !! chainID = Some tokens → tokens !! symbol = Some c → tc_Address c = address →
  (∀ symbol' c', tokens !! symbol' = Some c' → tc_Address c' = address → symbol' = symbol) →
  ConfigByAddress s chainID address = Ok (symbol, c).
Proof.
  intros Ht Hs Ha Hu. rw /ConfigByAddress Ht.
  destruct (list_find _ _) as [[i [symbol' c']]|] eqn:E.
  - apply list_find_Some in E as (Hi & Ha' & _). apply list_elem_of_lookup_2 in Hi.
    rw elem_of_map_range in Hi. assert (symbol' = symbol) as -> by by eapply Hu. by simplify_eq.
  - apply list_find_None in E. rewrite Forall_forall in E.
    destruct (E (symbol, c)); [by rw elem_of_map_range|done].
Qed.

(** The two lookups of the token store agree: the symbol found for an
    address is configured with that address and the decimals returned, and
    if no two tokens of the chain share the address it is found whatever the
    order of Go's map iteration. *)
Theorem token_lookups_agree (s : TokenStore) (chainID : Z) (address : Address) :
  (∀ symbol c, ConfigByAddress s chainID address = Ok (symbol, c) →
     ConfigBySymbol s chainID symbol = Ok c ∧ tc_Address c = address) ∧
  (∀ symbol c, ConfigBySymbol s chainID symbol = Ok c → tc_Address c = address →
     (∀ symbol' c', ConfigBySymbol s chainID symbol' = Ok c' → tc_Address c' = address →
        symbol' = symbol) →
     ConfigByAddress s chainID address = Ok (symbol, c)).
Proof.
  split; [intros symbol c; apply ConfigByAddress_ok|].
  rw /ConfigBySymbol. destruct (Tokens s !! chainID) as [tokens|] eqn:Et; [|done].
  intros symbol c. destruct (tokens !! symbol) as [c0|] eqn:Ec; [|done]. intros [= ->] Ha Hu.
  eapply ConfigByAddress_unique; [done..|]. intros symbol' c' Hs' Ha'.
  apply (Hu symbol' c'); [by rw Hs'|done].
Qed.
End tokens.

(** ** chains/util.go *)
(** Decimals are [int64]s; the exponents the code passes are not negative. *)
Definition ScaleTokenAmount (amount srcDecimals dstDecimals : Z) : Z :=
  if (srcDecimals =? dstDecimals)%Z then amount
  else if (dstDecimals <? srcDecimals)%Z
  then (amount / 10 ^ (srcDecimals - dstDecimals))%Z
  else (amount * 10 ^ (dstDecimals - srcDecimals))%Z.

(** The new value of [*startBlock], which is also what is returned. *)
Definition CalculateStartingBlock (startBlock blockConfirmations : option Z)
    : outcome (result Z) :=
  match startBlock, blockConfirmations with
  | Some startBlock, Some blockConfirmations =>
      mod_ ← big_Mod startBlock blockConfirmations; Done (Ok (startBlock - mod_)%Z)
  | _, _ =>
      Done (Err (Errorf "startBlock or blockConfirmations can not be nill when calculating CalculateStartingBlock"))
  end.

Lemma ScaleTokenAmount_spec amount src dst :
  (0 ≤ src)%Z → (0 ≤ dst)%Z →
  let r := ScaleTokenAmount amount src dst in
  (r * 10 ^ src ≤ amount * 10 ^ dst < (r + 1) * 10 ^ src)%Z.
Proof.
  intros Hs Hd r. subst r. rw /ScaleTokenAmount.
  assert (0 < 10 ^ src)%Z as Hps by (apply Z.pow_pos_nonneg; lia).
  assert (0 < 10 ^ dst)%Z as Hpd by (apply Z.pow_pos_nonneg; lia).
  destruct (Z.eqb_spec src dst) as [->|Hne]; [nia|].
  destruct (Z.ltb_spec dst src) as [Hlt|Hge].
  - replace src with (dst + (src - dst))%Z at 2 4 by lia. rw Z.pow_add_r; [|lia..].
    assert (0 < 10 ^ (src - dst))%Z as Hp by (apply Z.pow_pos_nonneg; lia).
    set (p := (10 ^ (src - dst))%Z) in *.
    pose proof (Z.div_mod amount p ltac:(lia)). pose proof (Z.mod_pos_bound amount p Hp).
    set (q := (amount / p)%Z) in *. nia.
  - assert (10 ^ dst = 10 ^ (dst - src) * 10 ^ src)%Z as ->.
    { rw -Z.pow_add_r; [f_equal; lia|lia..]. }
    assert (0 < 10 ^ (dst - src))%Z as Hp by (apply Z.pow_pos_nonneg; lia). nia.
Qed.

(** Scaling between decimals rounds down: the result is the greatest
    number of destination units worth no more than the amount, so no borrow
    that passes the comparison with it exceeds what was deposited. *)
Theorem ScaleTokenAmount_floor (amount srcDecimals dstDecimals r : Z) :
  (0 ≤ srcDecimals)%Z → (0 ≤ dstDecimals)%Z →
  (r ≤ ScaleTokenAmount amount srcDecimals dstDecimals ↔
   r * 10 ^ srcDecimals ≤ amount * 10 ^ dstDecimals)%Z.
Proof.
  intros Hs Hd. destruct (ScaleTokenAmount_spec amount srcDecimals dstDecimals Hs Hd) as [Hlo Hhi].
  assert (0 < 10 ^ srcDecimals)%Z as Hps by (apply Z.pow_pos_nonneg; lia).
  split; intros Hr; [nia|].
  destruct (Z.le_gt_cases r (ScaleTokenAmount amount srcDecimals dstDecimals)); [done|]. nia.
Qed.

(** The starting block is the greatest block not after the given one
    that the confirmations divide; zero confirmations panic. *)
Theorem CalculateStartingBlock_greatest (startBlock blockConfirmations : Z) :
  match CalculateStartingBlock (Some startBlock) (Some blockConfirmations) with
  | Done (Ok b) =>
      (b ≤ startBlock)%Z ∧ (blockConfirmations | b)%Z ∧
      ∀ b', (b' ≤ startBlock)%Z → (blockConfirmations | b')%Z → (b' ≤ b)%Z
  | Done (Err _) => False
  | Panic _ => blockConfirmations = 0%Z
  end.
Proof.
  rw /CalculateStartingBlock /big_Mod. case_bool_decide as Hz; [done|]. simpl.
  assert (0 < Z.abs blockConfirmations)%Z as Hp by lia.
  pose proof (Z.mod_pos_bound startBlock _ Hp).
  pose proof (Z.div_mod startBlock (Z.abs blockConfirmations) ltac:(lia)) as Hdm.
  set (q := (startBlock / Z.abs blockConfirmations)%Z) in *.
  set (m := (startBlock `mod` Z.abs blockConfirmations)%Z) in *.
  split_and!; [lia| |].
  - apply Z.divide_abs_l. exists q. lia.
  - intros b' Hb' [k Hk]%Z.divide_abs_l. subst b'.
    set (a := Z.abs blockConfirmations) in *. clearbody a q m. assert (k ≤ q)%Z by nia. nia.
Qed.

Lemma ScaleTokenAmount_floor_witness : (5 ≤ ScaleTokenAmount 5999999999999 18 6)%Z.
Proof. apply (ScaleTokenAmount_floor 5999999999999 18 6 5); vm_compute; discriminate. Defined.
