(* ===== verification/ChainConfig.v ===== *)
(** * Configuration of the chains (src/config/chain/config.go,
      src/chains/evm/config.go, src/chains/lighter/config.go)

    What a chain is configured with comes from its own entry in the
    configuration of the relayer and from the solver configuration, which is
    fetched. *)
From S2P Require Import Prelude GoStd Libs Tokens.

(** ** config/chain/config.go *)
Record GeneralChainConfig := {
  gc_Name : string;
  gc_Id : option Z;          (** a *uint64 *)
  gc_Endpoint : string;
  gc_Type : string;
  gc_BlockstorePath : string;
  gc_Blocktime : Z;
  gc_BlockConfirmations : Z;
  gc_Key : string;
  gc_Insecure : bool;
}.

Definition Validate (c : GeneralChainConfig) : option error :=
  match gc_Id c with
  | None => Some (Errorf "required field domain.Id empty for chain <nil>")
  | Some id =>
      if bool_decide (gc_Endpoint c = "")
      then Some (Errorf ("required field chain.Endpoint empty for chain " +:+ fmt_d id))
      else if bool_decide (gc_Name c = "")
      then Some (Errorf ("required field chain.Name empty for chain " +:+ fmt_d id))
      else None
  end.

(** [blockstore] is the value of the flag. *)
Definition ParseFlags (blockstore : string) (c : GeneralChainConfig) : GeneralChainConfig :=
  if bool_decide (blockstore = "") then c else {|
    gc_Name := gc_Name c; gc_Id := gc_Id c; gc_Endpoint := gc_Endpoint c; gc_Type := gc_Type c;
    gc_BlockstorePath := blockstore; gc_Blocktime := gc_Blocktime c;
    gc_BlockConfirmations := gc_BlockConfirmations c; gc_Key := gc_Key c;
    gc_Insecure := gc_Insecure c |}.

(** ** The parts of the solver configuration that are read *)
Record SolverToken := { st_Address : string; st_Decimals : Z }.

Record SolverChain := {
  ch_Tokens : gmap string SolverToken;
  ch_NativeTokenSymbol : string;
  ch_Decimals : Z;
  ch_Confirmations : list (Z * Z);   (** MaxAmountUSD and Confirmations, ints *)
}.

Record SolverConfig := {
  Chains : gmap string SolverChain;
  SprinterCredit : gmap string (list (string * string));   (** Token, Liquidator *)
  SprinterRepayer : gmap string string;
  SpokePools : gmap string string;
  HubPools : gmap string string;
  OutputSettler : string;
  InputSettlerEscrow : string;
  FastWithdrawalContract : gmap string string;
  LighterRepaymentAddress : string;
  MpcAddress : string;
}.

(** The buckets in order, a later one replacing an earlier one of the same
    amount; ints become uint64s. *)
Definition add_confirmations (buckets : list (Z * Z)) : gmap Z Z :=
  foldl (λ m c, <[u64 c.1 := u64 c.2]> m) ∅ buckets.

(** ** chains/evm/config.go *)
Record EVMConfig := {
  ec_GeneralChainConfig : GeneralChainConfig;
  ec_Admin : string;
  ec_AcrossPool : string;
  ec_AcrossHubPool : string;
  ec_LifiOutputSettler : string;
  ec_LifiInputSettlerEscrow : string;
  ec_Repayer : string;
  ec_Liquidators : gmap Address Address;
  ec_Tokens : gmap string TokenConfig;
  ec_ConfirmationsByValue : gmap Z Z;
  ec_BlockInterval : Z;
  ec_BlockRetryInterval : Z;
}.

Record RawEVMConfig := {
  re_GeneralChainConfig : GeneralChainConfig;
  re_Admin : string;
  re_Repayer : string;
  re_BlockInterval : Z;
  re_BlockRetryInterval : Z;
}.

Section configs.
Context `{EthCommon}.

Definition ETH_SYMBOL : string := "ETH".

Definition chain_tokens (sc : SolverChain) : gmap string TokenConfig :=
  let tokens := (λ t, {| tc_Address := HexToAddress (st_Address t); Decimals := u8 (st_Decimals t) |})
                <$> ch_Tokens sc in
  if bool_decide (ch_NativeTokenSymbol sc = ETH_SYMBOL)
  then <[ETH_SYMBOL := {| tc_Address := replicate 20 Byte.x00; Decimals := u8 (ch_Decimals sc) |}]> tokens
  else tokens.

Definition chain_liquidators (contracts : list (string * string)) : gmap Address Address :=
  foldl (λ m c, <[HexToAddress c.1 := HexToAddress c.2]> m) ∅ contracts.

(** [decoded] is what mapstructure decodes from the entry of the chain,
    [defaults_Set] fills its defaults in. *)
Definition NewEVMConfig (decoded : result RawEVMConfig)
    (defaults_Set : RawEVMConfig → result RawEVMConfig) (blockstore : string)
    (solverConfig : SolverConfig) : result EVMConfig :=
  c ← decoded;
  c ← defaults_Set c;
  match Validate (re_GeneralChainConfig c), gc_Id (re_GeneralChainConfig c) with
  | Some e, _ => Err e
  | None, None => Err (Errorf "nil pointer dereference")   (* excluded by [Validate] *)
  | None, Some chainID =>
      let id := "eip155:" +:+ fmt_d chainID in
      match Chains solverConfig !! id with
      | None => Err (Errorf ("no solver config for id " +:+ id))
      | Some sc =>
          Ok {| ec_GeneralChainConfig := ParseFlags blockstore (re_GeneralChainConfig c);
                ec_Admin := re_Admin c;
                ec_Repayer := default "" (SprinterRepayer solverConfig !! id);
                ec_AcrossPool := default "" (SpokePools solverConfig !! id);
                ec_AcrossHubPool := default "" (HubPools solverConfig !! id);
                ec_LifiOutputSettler := OutputSettler solverConfig;
                ec_LifiInputSettlerEscrow := InputSettlerEscrow solverConfig;
                ec_Liquidators := chain_liquidators (default [] (SprinterCredit solverConfig !! id));
                ec_BlockRetryInterval := i64 (re_BlockRetryInterval c * 10 ^ 9);
                ec_BlockInterval := re_BlockInterval c;
                ec_ConfirmationsByValue := add_confirmations (ch_Confirmations sc);
                ec_Tokens := chain_tokens sc |}
      end
  end.

(** ** chains/lighter/config.go *)
Record LighterConfig := {
  WithdrawalAddress : Address;
  UsdcAddress : Address;
  RepaymentAddress : string;
  ConfirmationsByValue : gmap Z Z;
}.

Definition LIGHTER_CAIP : string := "lighter:1".
Definition ARBITRUM_CAIP : string := "eip155:42161".

Definition NewLighterConfig (solverConfig : SolverConfig) : result LighterConfig :=
  match Chains solverConfig !! ARBITRUM_CAIP with
  | None => Err (Errorf ("no solver config for id " +:+ ARBITRUM_CAIP))
  | Some arbitrumConfig =>
      match ch_Tokens arbitrumConfig !! "usdc" with
      | None => Err (Errorf "usdc not configured")
      | Some usdcConfig =>
          match FastWithdrawalContract solverConfig !! ARBITRUM_CAIP with
          | None => Err (Errorf "withdrawal address not configured")
          | Some withdrawalAddress =>
              Ok {| WithdrawalAddress := HexToAddress withdrawalAddress;
                    RepaymentAddress := LighterRepaymentAddress solverConfig;
                    UsdcAddress := HexToAddress (st_Address usdcConfig);
                    ConfirmationsByValue := add_confirmations
                      (default [] (ch_Confirmations <$> Chains solverConfig !! LIGHTER_CAIP)) |}
          end
      end
  end.

(** ** What the buckets and liquidators of a chain are *)

(** The last entry of a key is the one that counts. *)
Lemma foldl_insert_lookup {A K V} `{Countable K} (f : A → K * V) (l : list A) (m : gmap K V) k :
  foldl (λ m a, <[(f a).1 := (f a).2]> m) m l !! k =
  match last (filter (λ a, (f a).1 = k) l) with Some a => Some (f a).2 | None => m !! k end.
Proof.
  revert m. induction l as [|a l IH]; intros m; [done|]. rw /= IH filter_cons.
  case_decide as Hk.
  - rw last_cons. destruct (last _); [done|]. by rw Hk lookup_insert_eq.
  - by rw lookup_insert_ne.
Qed.

Lemma add_confirmations_lookup buckets amount :
  add_confirmations buckets !! amount =
  (λ b : Z * Z, u64 b.2) <$> last (filter (λ b, u64 b.1 = amount) buckets).
Proof.
  rw /add_confirmations.
  pose proof (foldl_insert_lookup (λ b : Z * Z, (u64 b.1, u64 b.2)) buckets ∅ amount) as Hl.
  simpl in Hl. rw Hl.
  rw lookup_empty. by destruct (last _).
Qed.

Lemma chain_liquidators_lookup contracts token :
  chain_liquidators contracts !! token =
  (λ c : string * string, HexToAddress c.2) <$> last (filter (λ c, HexToAddress c.1 = token) contracts).
Proof.
  rw /chain_liquidators.
  pose proof (foldl_insert_lookup (λ c : string * string, (HexToAddress c.1, HexToAddress c.2)) contracts ∅ token) as Hl.
  simpl in Hl. rw Hl.
  rw lookup_empty. by destruct (last _).
Qed.

(** A chain is configured exactly if it has an ID, an endpoint, a name
    and an entry in the solver configuration; then its confirmation buckets,
    liquidators and tokens are those of the entry (the last one of a key),
    with native ETH as the zero address. *)
Theorem NewEVMConfig_accepts (c c' : RawEVMConfig) defaults_Set (blockstore : string)
    (solverConfig : SolverConfig) :
  defaults_Set c = Ok c' →
  match NewEVMConfig (Ok c) defaults_Set blockstore solverConfig with
  | Err e =>
      Validate (re_GeneralChainConfig c') = Some e ∨
      ∃ chainID, gc_Id (re_GeneralChainConfig c') = Some chainID ∧
        Chains solverConfig !! ("eip155:" +:+ fmt_d chainID) = None
  | Ok config =>
      ∃ chainID sc,
        gc_Id (re_GeneralChainConfig c') = Some chainID ∧
        gc_Endpoint (re_GeneralChainConfig c') ≠ "" ∧ gc_Name (re_GeneralChainConfig c') ≠ "" ∧
        Chains solverConfig !! ("eip155:" +:+ fmt_d chainID) = Some sc ∧
        (∀ amount, ec_ConfirmationsByValue config !! amount =
           (λ b : Z * Z, u64 b.2) <$> last (filter (λ b, u64 b.1 = amount) (ch_Confirmations sc))) ∧
        (∀ token, ec_Liquidators config !! token =
           (λ l : string * string, HexToAddress l.2) <$>
             last (filter (λ l, HexToAddress l.1 = token)
               (default [] (SprinterCredit solverConfig !! ("eip155:" +:+ fmt_d chainID))))) ∧
        (ch_NativeTokenSymbol sc = "ETH" →
           tc_Address <$> ec_Tokens config !! "ETH" = Some (replicate 20 Byte.x00)) ∧
        (∀ symbol t, ch_Tokens sc !! symbol = Some t →
           symbol ≠ "ETH" ∨ ch_NativeTokenSymbol sc ≠ "ETH" →
           ec_Tokens config !! symbol =
             Some {| tc_Address := HexToAddress (st_Address t); Decimals := u8 (st_Decimals t) |})
  end.
Proof.
  intros Hd. rw /NewEVMConfig /mbind /result_bind Hd.
  destruct (Validate (re_GeneralChainConfig c')) as [e|] eqn:Ev; [by left|].
  rw /Validate in Ev. destruct (gc_Id (re_GeneralChainConfig c')) as [chainID|]; [|done].
  case_bool_decide; [done|]. case_bool_decide; [done|].
  destruct (Chains solverConfig !! _) as [sc|] eqn:Esc; [|right; by exists chainID].
  exists chainID, sc. simpl. split_and!; [done..| | | |].
  - intros amount. apply add_confirmations_lookup.
  - intros token. apply chain_liquidators_lookup.
  - intros Heth. rw /chain_tokens bool_decide_true //. by rw lookup_insert_eq.
  - intros symbol t Ht Hne. rw /chain_tokens. case_bool_decide; [rw lookup_insert_ne|].
    + by rw lookup_fmap Ht.
    + by destruct Hne; intros <-.
    + by rw lookup_fmap Ht.
Qed.
End configs.

Section witnesses.
Import Toy.

Definition demo_raw : RawEVMConfig := {|
  re_GeneralChainConfig := {|
    gc_Name := "ethereum"; gc_Id := Some 1%Z; gc_Endpoint := "http://"; gc_Type := "evm";
    gc_BlockstorePath := ""; gc_Blocktime := 12; gc_BlockConfirmations := 5; gc_Key := "";
    gc_Insecure := false |};
  re_Admin := ""; re_Repayer := ""; re_BlockInterval := 5; re_BlockRetryInterval := 5 |}.
Definition demo_solver : SolverConfig := {|
  Chains := {["eip155:1" := {|
    ch_Tokens := {["USDC" := {| st_Address := "usdc"; st_Decimals := 6 |}]};
    ch_NativeTokenSymbol := "ETH"; ch_Decimals := 18;
    ch_Confirmations := [(1000, 1); (5000, 2); (1000, 3)]%Z |}]};
  SprinterCredit := ∅; SprinterRepayer := ∅; SpokePools := ∅; HubPools := ∅; OutputSettler := "";
  InputSettlerEscrow := ""; FastWithdrawalContract := ∅; LighterRepaymentAddress := ""; MpcAddress := "" |}.

Lemma NewEVMConfig_accepts_witness :
  match NewEVMConfig (Ok demo_raw) Ok "" demo_solver with
  | Ok config => ec_ConfirmationsByValue config !! 1000%Z = Some 3%Z
  | Err _ => False
  end.
Proof.
  pose proof (NewEVMConfig_accepts demo_raw demo_raw Ok "" demo_solver eq_refl) as Hc.
  destruct (NewEVMConfig (Ok demo_raw) Ok "" demo_solver) as [config|e] eqn:E; [|by vm_compute in E].
  destruct Hc as (chainID & sc & Hid & _ & _ & Hsc & Hconf & _). rewrite (Hconf 1000%Z).
  injection Hid as <-. vm_compute in Hsc. injection Hsc as <-. reflexivity.
Defined.
End witnesses.
