(* ===== verification/Confirmations.v ===== *)
(** * Waiting for confirmations (src/chains/evm/message/confirmations.go)

    How many confirmations an order needs depends on its value in dollars,
    which is computed with [math/big] floats.  [bigfloat] is that arithmetic
    on finite values and infinities, with its rounding to nearest even. *)
From S2P Require Import Prelude GoStd Libs Tokens.

(** A [float64]: [Finite m e] is m * 2^e with |m| < 2^53. *)
Inductive float64 :=
  | Finite (mant exp : Z)
  | Inf (neg : bool)
  | NaN.

Module bigfloat.
Inductive Float :=
  | Fin (prec mant exp : Z)
  | FInf (prec : Z) (neg : bool).

Definition bitlen (z : Z) : Z := if bool_decide (z = 0%Z) then 0%Z else (Z.log2 (Z.abs z) + 1)%Z.

(** [ToNearestEven] to [prec] bits: the mantissa loses its low [s] bits. *)
Definition round_bits (mant s : Z) : Z :=
  let q := (mant / 2 ^ s)%Z in
  let r := (mant `mod` 2 ^ s)%Z in
  if (2 * r <? 2 ^ s)%Z then q
  else if (2 ^ s <? 2 * r)%Z then (q + 1)%Z
  else if Z.even q then q else (q + 1)%Z.

Definition round (prec mant exp : Z) : Float :=
  let s := (bitlen mant - prec)%Z in
  if (s <=? 0)%Z then Fin prec mant exp
  else Fin prec (Z.sgn mant * round_bits (Z.abs mant) s)%Z (exp + s)%Z.

Definition NewFloat (x : float64) : outcome Float :=
  match x with
  | Finite m e => Done (Fin 53 m e)
  | Inf neg => Done (FInf 53 neg)
  | NaN => Panic "NewFloat(NaN)"
  end.

Definition SetInt (x : Z) : Float := Fin (Z.max (bitlen x) 64) x 0.

Definition prec_of (x : Float) : Z := match x with Fin p _ _ | FInf p _ => p end.

Definition is_neg (x : Float) : bool :=
  match x with Fin _ m _ => (m <? 0)%Z | FInf _ neg => neg end.

Definition Mul (x y : Float) : outcome Float :=
  let prec := Z.max (prec_of x) (prec_of y) in
  match x, y with
  | Fin _ mx ex, Fin _ my ey => Done (round prec (mx * my)%Z (ex + ey)%Z)
  | FInf _ _, Fin _ m _ | Fin _ m _, FInf _ _ =>
      if bool_decide (m = 0%Z) then Panic "multiplication of zero with infinity"
      else Done (FInf prec (xorb (is_neg x) (is_neg y)))
  | FInf _ _, FInf _ _ => Done (FInf prec (xorb (is_neg x) (is_neg y)))
  end.

(** The quotient of two finite values has enough bits, and a last bit that
    says whether something was cut off, for the rounding to be correct. *)
Definition quo_bits (prec mx my : Z) : Z * Z :=
  let n := Z.max 0 (prec + 2 + bitlen my - bitlen mx)%Z in
  let num := (Z.abs mx * 2 ^ n)%Z in
  let q := (num / Z.abs my)%Z in
  let sticky := if bool_decide (num `mod` Z.abs my = 0)%Z then 0%Z else 1%Z in
  ((2 * q + sticky)%Z, (- n - 1)%Z).

Definition Quo (x y : Float) : outcome Float :=
  let prec := Z.max (prec_of x) (prec_of y) in
  match x, y with
  | Fin _ mx ex, Fin _ my ey =>
      if bool_decide (my = 0%Z)
      then if bool_decide (mx = 0%Z) then Panic "division of zero by zero or infinity by infinity"
           else Done (FInf prec (xorb (is_neg x) (is_neg y)))
      else
        let '(m, e) := quo_bits prec mx my in
        Done (round prec (Z.sgn mx * Z.sgn my * m)%Z (ex - ey + e)%Z)
  | Fin _ _ _, FInf _ _ => Done (Fin prec 0 0)
  | FInf _ _, Fin _ _ _ => Done (FInf prec (xorb (is_neg x) (is_neg y)))
  | FInf _ _, FInf _ _ => Panic "division of zero by zero or infinity by infinity"
  end.

(** [Int]: truncation towards zero; nil for an infinity. *)
Definition Int (x : Float) : option Z :=
  match x with
  | Fin _ m e => Some (if (0 <=? e)%Z then (m * 2 ^ e)%Z else Z.quot m (2 ^ (- e)))
  | FInf _ _ => None
  end.
End bigfloat.

Section watcher.
Context `{EthCommon, MapRange}.

Record Watcher := {
  w_tokenStore : TokenStore;
  w_confirmations : gmap Z Z;   (** uint64 buckets and confirmations *)
  w_blocktime : Z;              (** a [time.Duration] *)
}.

(** ** minimalConfirmations *)
Fixpoint find_bucket (confirmations : gmap Z Z) (buckets : list Z) (orderValue : option Z)
    : outcome (result Z) :=
  match buckets with
  | [] => Done (Err (Errorf "order value exceeds confirmation buckets"))
  | bucket :: buckets' =>
      match orderValue with
      | None => Panic "nil pointer dereference"
      | Some v =>
          if (v <? bucket)%Z then Done (Ok (default 0%Z (confirmations !! bucket)))
          else find_bucket confirmations buckets' orderValue
      end
  end.

Definition minimalConfirmations (w : Watcher) (orderValue : option Z) : outcome (result Z) :=
  find_bucket (w_confirmations w) (sort_Z (map_to_list (w_confirmations w)).*1) orderValue.

(** ** orderValue: price * amount / 10^decimals, truncated *)
Definition orderValue (w : Watcher) (tokenPrice : string → result float64) (chainID : Z)
    (token : Address) (amount : Z) : outcome (result (option Z)) :=
  match ConfigByAddress (w_tokenStore w) chainID token with
  | Err e => Done (Err e)
  | Ok (symbol, c) =>
      match tokenPrice symbol with
      | Err e => Done (Err e)
      | Ok price =>
          p ← bigfloat.NewFloat price;
          total ← bigfloat.Mul p (bigfloat.SetInt amount);
          v ← bigfloat.Quo total (bigfloat.SetInt (10 ^ Decimals c)%Z);
          Done (Ok (bigfloat.Int v))
      end
  end.

(** ** wait

    What one iteration of the loop sees; [None] for a nil receipt. *)
Record poll := {
  poll_done : bool;
  poll_receipt : result (option Z);
  poll_latest : result Z;
}.

(** [time.Duration(uint64(w.blocktime) * (required - confirmations.Uint64()))] *)
Definition wait_duration (w : Watcher) (required confirmations : Z) : Z :=
  i64 (u64 (u64 (w_blocktime w) * u64 (required - big_Uint64 confirmations))).

(** The sleeps and, when the loop has returned, its result. *)
Fixpoint wait (w : Watcher) (requiredConfirmations : Z) (polls : list poll)
    : list Z * option (option error) :=
  match polls with
  | [] => ([], None)
  | p :: polls' =>
      let sleep d := let '(ds, r) := wait w requiredConfirmations polls' in (d :: ds, r) in
      if poll_done p then ([], Some (Some (Errorf "timed out waiting for confirmations"))) else
      match poll_receipt p with
      | Err _ => sleep (w_blocktime w)
      | Ok None => sleep (w_blocktime w)
      | Ok (Some blockNumber) =>
          match poll_latest p with
          | Err _ => sleep (w_blocktime w)
          | Ok currentBlock =>
              let confirmations := (currentBlock - blockNumber)%Z in
              if (requiredConfirmations <=? confirmations)%Z then ([], Some None)
              else sleep (wait_duration w requiredConfirmations confirmations)
          end
      end
  end.

Definition WaitForTokenConfirmations (w : Watcher) (tokenPrice : string → result float64)
    (polls : list poll) (chainID : Z) (token : Address) (amount : Z)
    : outcome (option (option error)) :=
  value ← orderValue w tokenPrice chainID token amount;
  match value with
  | Err e => Done (Some (Some e))
  | Ok value =>
      required ← minimalConfirmations w value;
      match required with
      | Err e => Done (Some (Some e))
      | Ok required => Done (wait w required polls).2
      end
  end.

Definition WaitForOrderConfirmations (w : Watcher) (polls : list poll) (value : float64)
    : outcome (option (option error)) :=
  f ← bigfloat.NewFloat value;
  required ← minimalConfirmations w (bigfloat.Int f);
  match required with
  | Err e => Done (Some (Some e))
  | Ok required => Done (wait w required polls).2
  end.

(** ** Properties *)
Definition confirmed (required : Z) (p : poll) : Prop :=
  poll_done p = false ∧ ∃ blockNumber currentBlock,
    poll_receipt p = Ok (Some blockNumber) ∧ poll_latest p = Ok currentBlock ∧
    (required ≤ currentBlock - blockNumber)%Z.

Lemma wait_confirmed w required polls :
  (wait w required polls).2 = Some None → ∃ p, p ∈ polls ∧ confirmed required p.
Proof.
  induction polls as [|p polls IH]; [done|]. simpl.
  assert (∀ d, (let '(ds, r) := wait w required polls in (d :: ds, r)).2 = Some None →
    ∃ q, q ∈ p :: polls ∧ confirmed required q) as Hs.
  { intros d. destruct (wait w required polls) as [ds r]. intros Hr.
    destruct (IH Hr) as (q & ? & ?). exists q. split; [by right|done]. }
  destruct (poll_done p) eqn:Ed; [done|].
  destruct (poll_receipt p) as [[b|]|] eqn:Er; [|by apply Hs..].
  destruct (poll_latest p) as [cur|] eqn:El; [|by apply Hs].
  destruct (Z.leb_spec required (cur - b)); [|by apply Hs].
  intros _. exists p. split; [by left|]. split; [done|]. by exists b, cur.
Qed.

(** The smallest bucket above the value. *)
Definition bucket_for (confirmations : gmap Z Z) (value bucket required : Z) : Prop :=
  confirmations !! bucket = Some required ∧ (value < bucket)%Z ∧
  ∀ b r, confirmations !! b = Some r → (value < b)%Z → (bucket ≤ b)%Z.

Lemma find_bucket_spec (m : gmap Z Z) buckets v :
  StronglySorted Z.le buckets → (∀ b, b ∈ buckets → is_Some (m !! b)) →
  match find_bucket m buckets (Some v) with
  | Done (Ok r) => ∃ b, b ∈ buckets ∧ m !! b = Some r ∧ (v < b)%Z ∧
      ∀ b', b' ∈ buckets → (v < b')%Z → (b ≤ b')%Z
  | Done (Err _) => ∀ b, b ∈ buckets → (b ≤ v)%Z
  | Panic _ => False
  end.
Proof.
  induction 1 as [|b buckets _ IH Hb]; intros Hm; simpl; [by intros ? ?%not_elem_of_nil|].
  rewrite Forall_forall in Hb. destruct (Z.ltb_spec v b).
  - destruct (Hm b) as [r Hr]; [by left|]. rw Hr /=. exists b. split_and!; [by left|done..|].
    intros b' [->|?]%elem_of_cons _; [done|by apply Hb].
  - assert (∀ b', b' ∈ buckets → is_Some (m !! b')) as Hm' by (intros; apply Hm; by right).
    specialize (IH Hm'). destruct (find_bucket m buckets (Some v)) as [[r|e]|]; [|
      |done].
    + destruct IH as (b0 & ? & ? & ? & Hmin). exists b0. split_and!; [by right|done..|].
      intros b' [->|?]%elem_of_cons ?; [lia|by apply Hmin].
    + intros b' [->|?]%elem_of_cons; [done|by apply IH].
Qed.

Lemma minimalConfirmations_spec w v :
  match minimalConfirmations w (Some v) with
  | Done (Ok required) => ∃ bucket, bucket_for (w_confirmations w) v bucket required
  | Done (Err _) => ∀ b r, w_confirmations w !! b = Some r → (b ≤ v)%Z
  | Panic _ => False
  end.
Proof.
  rw /minimalConfirmations /sort_Z. set (keys := (map_to_list (w_confirmations w)).*1).
  assert (∀ b, b ∈ merge_sort Z.le keys ↔ is_Some (w_confirmations w !! b)) as Hk.
  { intros b. rw merge_sort_Permutation /keys list_elem_of_fmap. split.
    - intros ([b' r] & -> & ?%elem_of_map_to_list). by exists r.
    - intros [r Hr]. exists (b, r). by rw elem_of_map_to_list. }
  pose proof (find_bucket_spec (w_confirmations w) (merge_sort Z.le keys) v
    (StronglySorted_merge_sort Z.le keys) (λ b, proj1 (Hk b))) as Hspec.
  destruct (find_bucket _ _ _) as [[r|e]|]; [| |done].
  - destruct Hspec as (b & _ & ? & ? & Hmin). exists b. split_and!; [done..|].
    intros b' r' Hr'. apply Hmin, Hk. by exists r'.
  - intros b r Hr. apply Hspec, Hk. by exists r.
Qed.

(** [minimalConfirmations] picks the confirmations of the smallest bucket
    above the order value, and fails exactly when no bucket is above it. *)
Theorem minimalConfirmations_smallest_bucket (w : Watcher) (v : Z) :
  (∀ required, minimalConfirmations w (Some v) = Done (Ok required) →
     ∃ bucket, bucket_for (w_confirmations w) v bucket required) ∧
  ((∃ e, minimalConfirmations w (Some v) = Done (Err e)) ↔
   ∀ b r, w_confirmations w !! b = Some r → (b ≤ v)%Z).
Proof.
  pose proof (minimalConfirmations_spec w v) as Hs.
  destruct (minimalConfirmations w (Some v)) as [[r|e]|]; [| |done].
  - split; [by intros ? [= <-]|]. split; [by intros [? ?]|].
    intros Hall. destruct Hs as (b & Hb & ? & _). specialize (Hall b r Hb). lia.
  - split; [done|]. split; [done|]. intros _. by exists e.
Qed.

(** C30: waiting for a deposit succeeds only after the chain was seen with as
    many confirmations on the transaction as the smallest value bucket above
    the deposit's value in dollars asks for. *)
Theorem WaitForTokenConfirmations_safe (w : Watcher) (tokenPrice : string → result float64)
    (polls : list poll) (chainID : Z) (token : Address) (amount : Z) :
  WaitForTokenConfirmations w tokenPrice polls chainID token amount = Done (Some None) →
  ∃ v bucket required p,
    orderValue w tokenPrice chainID token amount = Done (Ok (Some v)) ∧
    bucket_for (w_confirmations w) v bucket required ∧
    p ∈ polls ∧ confirmed required p.
Proof.
  rw /WaitForTokenConfirmations. destruct (orderValue _ _ _ _ _) as [[v|]|] eqn:Ev; [|done..]. simpl.
  destruct v as [v|].
  - pose proof (minimalConfirmations_spec w v) as Hs.
    destruct (minimalConfirmations w (Some v)) as [[required|]|]; [|done..]. simpl.
    intros [= (p & ? & ?)%wait_confirmed]. destruct Hs as [bucket ?]. by exists v, bucket, required, p.
  - rw /minimalConfirmations. by destruct (sort_Z _).
Qed.
End watcher.

(** ** The interface of the handlers *)
Class ConfirmationWatcher := {
  WaitForToken : Z → Hash → Address → Z → outcome (option error);
  WaitForOrder : Z → Hash → float64 → outcome (option error);
  token_confirmed : Z → Hash → Address → Z → Prop;
  order_confirmed : Z → Hash → float64 → Prop;
  WaitForToken_confirmed chainID hash token amount :
    WaitForToken chainID hash token amount = Done None → token_confirmed chainID hash token amount;
  WaitForOrder_confirmed chainID hash value :
    WaitForOrder chainID hash value = Done None → order_confirmed chainID hash value;
}.

(** The watcher implements it.

    [polls hash] is what the loop sees of a transaction until the context
    expires. *)
Section watcher_instance.
Context `{EthCommon, MapRange}.
Context (w : Watcher) (tokenPrice : string → result float64) (polls : Hash → list poll).

Definition expired : poll :=
  {| poll_done := true; poll_receipt := Ok None; poll_latest := Ok 0%Z |}.

Lemma wait_expires required ps : (wait w required (ps ++ [expired])).2 ≠ None.
Proof.
  induction ps as [|p ps IH]; [done|]. simpl.
  destruct (wait w required (ps ++ [expired])) as [ds res]. by repeat case_match.
Qed.

Definition finished (res : outcome (option (option error))) : outcome (option error) :=
  match res with
  | Done (Some res) => Done res
  | Done None => Panic "still waiting"
  | Panic msg => Panic msg
  end.

Definition watcher_wait (chainID : Z) (hash : Hash) (token : Address) (amount : Z)
    : outcome (option error) :=
  finished (WaitForTokenConfirmations w tokenPrice (polls hash ++ [expired]) chainID token amount).

Definition watcher_wait_order (chainID : Z) (hash : Hash) (value : float64) : outcome (option error) :=
  finished (WaitForOrderConfirmations w (polls hash ++ [expired]) value).

(** The deposit's value has a bucket, and the chain was seen with that many
    confirmations. *)
Definition seen_confirmed (chainID : Z) (hash : Hash) (token : Address) (amount : Z) : Prop :=
  ∃ v bucket required p,
    orderValue w tokenPrice chainID token amount = Done (Ok (Some v)) ∧
    bucket_for (w_confirmations w) v bucket required ∧
    p ∈ polls hash ∧ confirmed required p.

Definition seen_order_confirmed (chainID : Z) (hash : Hash) (value : float64) : Prop :=
  ∃ f v bucket required p,
    bigfloat.NewFloat value = Done f ∧ bigfloat.Int f = Some v ∧
    bucket_for (w_confirmations w) v bucket required ∧
    p ∈ polls hash ∧ confirmed required p.

Lemma poll_before_expiry required ps :
  (wait w required (ps ++ [expired])).2 = Some None → ∃ p, p ∈ ps ∧ confirmed required p.
Proof.
  intros (p & [Hp|Hp]%elem_of_app & Hc)%wait_confirmed; [by exists p|]. elem_cases Hp. by destruct Hc.
Qed.

Lemma watcher_wait_order_confirmed chainID hash value :
  watcher_wait_order chainID hash value = Done None → seen_order_confirmed chainID hash value.
Proof.
  rw /watcher_wait_order /finished /WaitForOrderConfirmations.
  destruct (bigfloat.NewFloat value) as [f|] eqn:Ef; [|done]. simpl.
  destruct (bigfloat.Int f) as [v|] eqn:Ev; [|by rw /minimalConfirmations; destruct (sort_Z _)].
  pose proof (minimalConfirmations_spec w v) as Hs.
  destruct (minimalConfirmations w (Some v)) as [[required|]|]; [|done..]. simpl.
  destruct (wait w required (polls hash ++ [expired])).2 as [res|] eqn:Ew; [|done].
  intros [= ->]. apply poll_before_expiry in Ew as (p & ? & ?).
  destruct Hs as [bucket ?]. by exists f, v, bucket, required, p.
Qed.

Lemma watcher_wait_confirmed chainID hash token amount :
  watcher_wait chainID hash token amount = Done None → seen_confirmed chainID hash token amount.
Proof.
  rw /watcher_wait /finished /WaitForTokenConfirmations.
  destruct (orderValue _ _ _ _ _) as [[v|]|] eqn:Ev; [|done..]. simpl.
  destruct v as [v|]; [|by rw /minimalConfirmations; destruct (sort_Z _)].
  pose proof (minimalConfirmations_spec w v) as Hs.
  destruct (minimalConfirmations w (Some v)) as [[required|]|]; [|done..]. simpl.
  destruct (wait w required (polls hash ++ [expired])).2 as [res|] eqn:Ew; [|done].
  intros [= ->]. apply poll_before_expiry in Ew as (p & ? & ?).
  destruct Hs as [bucket ?]. by exists v, bucket, required, p.
Qed.

Lemma watcher_wait_total chainID hash token amount :
  watcher_wait chainID hash token amount ≠ Panic "still waiting".
Proof.
  assert (orderValue w tokenPrice chainID token amount ≠ Panic "still waiting") as Hov.
  { rw /orderValue /bigfloat.NewFloat /bigfloat.Mul /bigfloat.Quo /bigfloat.SetInt /bigfloat.round.
    by repeat (case_match; simplify_eq/=). }
  assert (∀ v, minimalConfirmations w v ≠ Panic "still waiting") as Hmin.
  { intros v. rw /minimalConfirmations. generalize (sort_Z (map_to_list (w_confirmations w)).*1).
    intros l. induction l as [|b l IH]; [done|]. destruct v as [v|]; [|done]. simpl. by destruct (v <? b)%Z. }
  rw /watcher_wait /finished /WaitForTokenConfirmations.
  destruct (orderValue _ _ _ _ _) as [[v|]|]; [|done|naive_solver]. simpl. specialize (Hmin v).
  destruct (minimalConfirmations w v) as [[required|]|]; [|done|naive_solver]. simpl.
  pose proof (wait_expires required (polls hash)). by destruct (wait w _ _).2.
Qed.

Definition watcher_interface : ConfirmationWatcher := {|
  WaitForToken := watcher_wait;
  WaitForOrder := watcher_wait_order;
  token_confirmed := seen_confirmed;
  order_confirmed := seen_order_confirmed;
  WaitForToken_confirmed := watcher_wait_confirmed;
  WaitForOrder_confirmed := watcher_wait_order_confirmed;
|}.
End watcher_instance.

Section witnesses.
Import Toy.

Definition demo_token : Address := replicate 20 Byte.x01.
Definition demo_watcher : Watcher := {|
  w_tokenStore := {| Tokens := {[1%Z := {["USDC" := {| tc_Address := demo_token; Decimals := 6 |}]}]} |};
  w_confirmations := {[100%Z := 2%Z; 1000%Z := 12%Z]};
  w_blocktime := 1000 |}.
(** A price of 1.5 dollars. *)
Definition demo_price (symbol : string) : result float64 := Ok (Finite 3 (-1)).

Lemma WaitForTokenConfirmations_safe_witness :
  ∃ v bucket required, orderValue demo_watcher demo_price 1 demo_token 5000000 = Done (Ok (Some v)) ∧
    bucket_for (w_confirmations demo_watcher) v bucket required.
Proof.
  destruct (WaitForTokenConfirmations_safe demo_watcher demo_price
    [{| poll_done := false; poll_receipt := Ok (Some 10%Z); poll_latest := Ok 11%Z |};
     {| poll_done := false; poll_receipt := Ok (Some 10%Z); poll_latest := Ok 12%Z |}]
    1 demo_token 5000000) as (v & bucket & required & _ & Hv & Hb & _).
  - by vm_compute.
  - exists v, bucket, required. exact (conj Hv Hb).
Defined.
End witnesses.
