(* ===== verification/Price.v ===== *)
(** * Token prices (src/price/coinmarketcap.go)

    A price is fetched once and then answered from a cache. *)
From S2P Require Import Prelude GoStd Libs Tokens Confirmations.

(** [time.Minute * 60] in nanoseconds *)
Definition PRICE_TTL : Z := 60 * 60 * 10 ^ 9.

(** Missing members decode to zero values. *)
Record CoinmarketcapResponse := {
  ErrorCode : Z;
  ErrorMessage : string;
  Data : gmap string float64;   (** Quote.USD.Price *)
}.

Section price.
Context `{TtlCache}.

Record CoinmarketcapAPI := {
  api_url : string;
  api_key : string;
  api_cache : ttlcache float64;
}.

Definition NewCoinmarketcapAPI (url apiKey : string) : CoinmarketcapAPI :=
  {| api_url := url; api_key := apiKey; api_cache := cache_new PRICE_TTL |}.

Definition with_cache (c : CoinmarketcapAPI) (cache : ttlcache float64) : CoinmarketcapAPI :=
  {| api_url := api_url c; api_key := api_key c; api_cache := cache |}.

(** What the request for a URL gives: the status and the body of the
    response; and how a body decodes. *)
Context (Do : string → result (Z * result bytes)) (decode : bytes → result CoinmarketcapResponse).

Definition price_url (c : CoinmarketcapAPI) (symbol : string) : string :=
  api_url c +:+ "/v1/cryptocurrency/quotes/latest?symbol=" +:+ symbol.

(** [Quote.USD.Price] of a missing key is zero. *)
Definition quoted (r : CoinmarketcapResponse) (symbol : string) : float64 :=
  default (Finite 0 0) (Data r !! symbol).

Definition fetch_price (c : CoinmarketcapAPI) (symbol : string) : result float64 :=
  match Do (price_url c symbol) with
  | Err e => Err e
  | Ok (StatusCode, Body) =>
      if negb (StatusCode =? 200)%Z
      then Err (Errorf ("HTTP request failed with status code " +:+ fmt_d StatusCode))
      else
        match Body with
        | Err e => Err e
        | Ok response =>
            match decode response with
            | Err e => Err e
            | Ok cmcResponse =>
                if negb (ErrorCode cmcResponse =? 0)%Z
                then Err (Errorf ("API Error: " +:+ fmt_d (ErrorCode cmcResponse) +:+ " - " +:+
                                  ErrorMessage cmcResponse))
                else Ok (quoted cmcResponse symbol)
            end
        end
  end.

(** At the time [now]: the URLs requested, the answer, the new state. *)
Definition TokenPrice (now : Z) (c : CoinmarketcapAPI) (symbol : string)
    : list string * result float64 * CoinmarketcapAPI :=
  let '(price, cache) := cache_get now symbol (api_cache c) in
  match price with
  | Some price => ([], Ok price, with_cache c cache)
  | None =>
      let c := with_cache c cache in
      ([price_url c symbol], fetch_price c symbol,
       match fetch_price c symbol with
       | Ok price => with_cache c (cache_set now symbol price (api_cache c))
       | Err _ => c
       end)
  end.

(** The answers to a sequence of lookups, each at its time. *)
Fixpoint run_lookups (c : CoinmarketcapAPI) (lookups : list (Z * string))
    : list (list string * result float64) :=
  match lookups with
  | [] => []
  | (now, symbol) :: lookups' =>
      let '(requests, answer, c') := TokenPrice now c symbol in
      (requests, answer) :: run_lookups c' lookups'
  end.

(** The cache holds the price of the symbol until at least the time [t]. *)
Definition holds (c : CoinmarketcapAPI) (symbol : string) (price : float64) (t : Z) : Prop :=
  ttl_of (api_cache c) = PRICE_TTL ∧
  ∃ e, live (api_cache c) symbol = Some (price, e) ∧ (t ≤ e)%Z.

Lemma TokenPrice_hit now c symbol price :
  holds c symbol price now →
  (TokenPrice now c symbol).1 = ([], Ok price) ∧
  holds (TokenPrice now c symbol).2 symbol price (now + PRICE_TTL).
Proof.
  intros [Httl (e & Hl & He)]. rw /TokenPrice.
  destruct (get_hit now symbol (api_cache c) price e Hl He) as [Hv Hlive].
  pose proof (ttl_get now symbol (api_cache c)) as Ht.
  destruct (cache_get now symbol (api_cache c)) as [v cache]. simpl in Hv, Hlive, Ht. subst v.
  split; [done|]. split; [by rw /= Ht|]. simpl. rw Hlive decide_True // Httl.
  by eexists.
Qed.

Lemma TokenPrice_fetched now c symbol price :
  ttl_of (api_cache c) = PRICE_TTL →
  (TokenPrice now c symbol).1.2 = Ok price →
  holds (TokenPrice now c symbol).2 symbol price (now + PRICE_TTL).
Proof.
  intros Httl. rw /TokenPrice.
  destruct (cache_get now symbol (api_cache c)) as [[v|] cache] eqn:Eg; simpl.
  - intros [= ->].
    destruct (live (api_cache c) symbol) as [[v e]|] eqn:El.
    + destruct (Z.le_gt_cases now e) as [Hle|Hgt].
      * destruct (get_hit now symbol (api_cache c) v e El Hle) as [Hv Hlive].
        pose proof (ttl_get now symbol (api_cache c)) as Ht. rw Eg /= in Hv, Hlive, Ht.
        injection Hv as ->. split; [by rw /= Ht|]. simpl. rw Hlive decide_True // Httl. by eexists.
      * destruct (get_miss now symbol (api_cache c)) as [Hn _]; [|by rw Eg in Hn].
        intros v' e' Heq. rw El in Heq. by injection Heq as <- <-.
    + destruct (get_miss now symbol (api_cache c)) as [Hn _]; [|by rw Eg in Hn].
      intros v' e'. by rw El.
  - pose proof (ttl_get now symbol (api_cache c)) as Ht. rw Eg /= in Ht.
    intros Hf. rw Hf. split; [by rw /= ttl_set Ht|]. simpl. rw live_set decide_True //.
    eexists. split; [done|]. rw Ht Httl. done.
Qed.

(** A price that is asked for at least once an hour is never refreshed:
    from the first answer on, every lookup no more than an hour after the one
    before answers with that same price and requests nothing, however long
    this goes on. *)
Theorem price_never_refreshed (c : CoinmarketcapAPI) (symbol : string) (price : float64)
    (start : Z) (times : list Z) :
  ttl_of (api_cache c) = PRICE_TTL →
  (TokenPrice start c symbol).1.2 = Ok price →
  (∀ i t t', (start :: times) !! i = Some t → times !! i = Some t' → (t' ≤ t + PRICE_TTL)%Z) →
  run_lookups (TokenPrice start c symbol).2 ((λ t, (t, symbol)) <$> times) =
  replicate (length times) ([], Ok price).
Proof.
  intros Httl Hp Hgaps. pose proof (TokenPrice_fetched start c symbol price Httl Hp) as Hh.
  generalize dependent (TokenPrice start c symbol).2. clear Hp Httl c.
  revert start Hgaps. induction times as [|t times IH]; intros start Hgaps c Hh; [done|].
  simpl. assert (holds c symbol price t) as Ht.
  { destruct Hh as [? (e & ? & ?)]. split; [done|]. exists e. split; [done|].
    specialize (Hgaps 0 start t eq_refl eq_refl). lia. }
  destruct (TokenPrice_hit t c symbol price Ht) as [Ha Hh'].
  destruct (TokenPrice t c symbol) as [a c']. simpl in Ha, Hh'. subst a. f_equal.
  apply (IH t); [|done]. intros i u u' Hu Hu'. by apply (Hgaps (S i)).
Qed.

(** A zero price makes every amount worth nothing. *)
Lemma zero_price_value `{EthCommon, MapRange} (w : Watcher) tokenPrice chainID token amount symbol tc :
  ConfigByAddress (w_tokenStore w) chainID token = Ok (symbol, tc) → (0 ≤ Decimals tc)%Z →
  tokenPrice symbol = Ok (Finite 0 0) →
  orderValue w tokenPrice chainID token amount = Done (Ok (Some 0%Z)).
Proof.
  intros Hc Hd Hp. rw /orderValue Hc Hp.
  assert (0 < 10 ^ Decimals tc)%Z as Hpos by by apply Z.pow_pos_nonneg.
  assert (∀ prec e, 0 ≤ prec → bigfloat.round prec 0 e = bigfloat.Fin prec 0 e)%Z as Hround.
  { intros prec e Hprec. rw /bigfloat.round. change (bigfloat.bitlen 0) with 0%Z.
    destruct (Z.leb_spec (0 - prec) 0); [done|lia]. }
  rw [bigfloat.NewFloat _]/= /bigfloat.SetInt /mbind /outcome_bind [bigfloat.Mul _ _]/=.
  rw Hround; [|lia]. cbn [bigfloat.Quo bigfloat.prec_of].
  rw bool_decide_false; [|lia]. rw /bigfloat.quo_bits.
  rw Z.mul_0_l Hround; [|lia]. simpl.
  case_match eqn:Ee; [done|]. apply Z.leb_gt in Ee. rewrite Z.quot_0_l; [done|].
  apply Z.pow_nonzero; lia.
Qed.

(** When the answer of the API has no quote for a symbol (and no error),
    the price is zero, so a deposit of any amount of the token is worth
    nothing and needs only the confirmations of the smallest bucket. *)
Theorem missing_quote_least_confirmations `{EthCommon, MapRange} (w : Watcher)
    (c : CoinmarketcapAPI) (chainID : Z) (token : Address) (symbol : string) (tc : TokenConfig)
    (body : bytes) (r : CoinmarketcapResponse) :
  ConfigByAddress (w_tokenStore w) chainID token = Ok (symbol, tc) → (0 ≤ Decimals tc)%Z →
  Do (price_url c symbol) = Ok (200%Z, Ok body) → decode body = Ok r →
  ErrorCode r = 0%Z → Data r !! symbol = None →
  ∀ amount, orderValue w (fetch_price c) chainID token amount = Done (Ok (Some 0%Z)) ∧
    ∀ polls, WaitForTokenConfirmations w (fetch_price c) polls chainID token amount =
      (required ← minimalConfirmations w (Some 0%Z);
       match required with
       | Err e => Done (Some (Some e))
       | Ok required => Done (wait w required polls).2
       end).
Proof.
  intros Hc Hd Hdo Hdec Herr Hq amount.
  assert (orderValue w (fetch_price c) chainID token amount = Done (Ok (Some 0%Z))) as Hv.
  { eapply zero_price_value; [done..|]. by rw /fetch_price Hdo Hdec Herr /= /quoted Hq. }
  split; [done|]. intros polls. by rw /WaitForTokenConfirmations Hv.
Qed.
End price.

Section witnesses.
Import Toy.

Definition demo_do (url : string) : result (Z * result bytes) := Ok (200%Z, Ok []).
Definition demo_decode (price : gmap string float64) (b : bytes) : result CoinmarketcapResponse :=
  Ok {| ErrorCode := 0; ErrorMessage := ""; Data := price |}.
Definition demo_api : CoinmarketcapAPI := NewCoinmarketcapAPI "https://pro-api.coinmarketcap.com" "key".

Lemma price_never_refreshed_witness :
  run_lookups demo_do (demo_decode {["USDC" := Finite 1 0]})
    (TokenPrice demo_do (demo_decode {["USDC" := Finite 1 0]}) 0 demo_api "USDC").2
    [(3600 * 10 ^ 9, "USDC"); (7200 * 10 ^ 9, "USDC"); (10800 * 10 ^ 9, "USDC")]%Z =
  [([], Ok (Finite 1 0)); ([], Ok (Finite 1 0)); ([], Ok (Finite 1 0))].
Proof.
  apply (price_never_refreshed demo_do (demo_decode {["USDC" := Finite 1 0]}) demo_api "USDC" (Finite 1 0) 0
    [3600 * 10 ^ 9; 7200 * 10 ^ 9; 10800 * 10 ^ 9]%Z).
  - reflexivity.
  - reflexivity.
  - intros [|[|[|i]]] t t' Ht Ht'; simpl in Ht, Ht'; simplify_eq; by vm_compute.
Defined.

Lemma missing_quote_least_confirmations_witness :
  orderValue demo_watcher (fetch_price demo_do (demo_decode ∅) demo_api) 1 demo_token (10 ^ 20) =
  Done (Ok (Some 0%Z)).
Proof.
  eapply (missing_quote_least_confirmations demo_do (demo_decode ∅) demo_watcher demo_api 1 demo_token
    "USDC" {| tc_Address := demo_token; Decimals := 6 |} []);
    [by vm_compute|done|reflexivity|reflexivity|reflexivity|reflexivity].
Defined.
End witnesses.
