(* ===== verification/Eip712.v ===== *)
(** * The hashes that are signed (src/chains/evm/signature/hash.go, and
    [lifiUnlockHash] of src/chains/evm/message/unlock.go)

    The relayer builds EIP-712 typed data and lets go-ethereum's [apitypes]
    hash it.  What is signed is determined by the typed data, which is
    modelled as the code builds it; the hashing of a struct is an interface. *)
From S2P Require Import Prelude GoStd Libs.

(** ** github.com/ethereum/go-ethereum/signer/core/apitypes *)
Inductive typed_value :=
  | TVString (s : string)
  | TVBig (z : option Z)       (** [*big.Int] and [*HexOrDecimal256], which may be nil *)
  | TVBytes (b : bytes)
  | TVHash (h : Hash)
  | TVStrings (l : list string)
  | TVBigs (l : list Z).

Record TypedDataDomain := {
  dom_Name : string;
  dom_Version : string;
  dom_ChainId : Z;
  dom_VerifyingContract : string;
}.

Record TypedData := {
  td_Types : list (string * list (string * string));
  td_PrimaryType : string;
  td_Domain : TypedDataDomain;
  td_Message : gmap string typed_value;
}.

(** [HashStruct] depends on the types, the name of the struct and its data;
    a digest has 32 bytes. *)
Class Apitypes := {
  HashStruct : list (string * list (string * string)) → string → gmap string typed_value →
               result bytes;
  HashStruct_length types name m h : HashStruct types name m = Ok h → length h = 32;
}.

(** [typedData.Domain.Map()] when no field is empty. *)
Definition DomainMap (d : TypedDataDomain) : gmap string typed_value :=
  {["name" := TVString (dom_Name d); "version" := TVString (dom_Version d);
    "chainId" := TVBig (Some (dom_ChainId d));
    "verifyingContract" := TVString (dom_VerifyingContract d)]}.

Section hashes.
Context `{EthCommon, Keccak, Apitypes}.

Definition EIP712Domain : string * list (string * string) :=
  ("EIP712Domain", [("name", "string"); ("version", "string"); ("chainId", "uint256");
                    ("verifyingContract", "address")]).

(** ["\x19\x01" ++ domainSeparator ++ messageHash], hashed. *)
Definition typed_data_hash (td : TypedData) : result bytes :=
  match HashStruct (td_Types td) "EIP712Domain" (DomainMap (td_Domain td)) with
  | Err e => Err e
  | Ok domainSeparator =>
      match HashStruct (td_Types td) (td_PrimaryType td) (td_Message td) with
      | Err e => Err e
      | Ok messageHash => Ok (Keccak256 ([Byte.x19; Byte.x01] ++ domainSeparator ++ messageHash))
      end
  end.

Definition pool_domain (destinationChainId : Z) (liquidityPool : Address) : TypedDataDomain :=
  {| dom_Name := "LiquidityPool"; dom_Version := "1.0.0"; dom_ChainId := destinationChainId;
     dom_VerifyingContract := Address_Hex liquidityPool |}.

Definition borrow_types : list (string * list (string * string)) :=
  [EIP712Domain;
   ("Borrow", [("caller", "address"); ("borrowToken", "address"); ("amount", "uint256");
               ("target", "address"); ("targetCallData", "bytes"); ("nonce", "uint256");
               ("deadline", "uint256")])].

Definition borrow_typed_data (calldata : bytes) (outputAmount : option Z) (outputToken : Address)
    (destinationChainId : Z) (target : Address) (deadline : Z) (caller liquidityPool : Address)
    (nonce : option Z) : TypedData := {|
  td_Types := borrow_types;
  td_PrimaryType := "Borrow";
  td_Domain := pool_domain destinationChainId liquidityPool;
  td_Message :=
    {["caller" := TVString (Address_Hex caller); "borrowToken" := TVString (Address_Hex outputToken);
      "amount" := TVBig outputAmount; "target" := TVString (Address_Hex target);
      "targetCallData" := TVBytes calldata; "nonce" := TVBig nonce; "deadline" := TVBig (Some deadline)]};
|}.

Definition BorrowUnlockHash (calldata : bytes) (outputAmount : option Z) (outputToken : Address)
    (destinationChainId : Z) (target : Address) (deadline : Z) (caller liquidityPool : Address)
    (nonce : option Z) : result bytes :=
  typed_data_hash (borrow_typed_data calldata outputAmount outputToken destinationChainId target
    deadline caller liquidityPool nonce).

Definition borrow_many_typed_data (calldata : bytes) (outputAmounts : list Z)
    (outputTokens : list Address) (destinationChainId : Z) (target : Address) (deadline : Z)
    (caller liquidityPool : Address) (nonce : option Z) : TypedData := {|
  td_Types :=
    [EIP712Domain;
     ("BorrowMany", [("caller", "address"); ("borrowTokens", "address[]"); ("amounts", "uint256[]");
                     ("target", "address"); ("targetCallData", "bytes"); ("nonce", "uint256");
                     ("deadline", "uint256")])];
  td_PrimaryType := "BorrowMany";
  td_Domain := pool_domain destinationChainId liquidityPool;
  td_Message :=
    {["caller" := TVString (Address_Hex caller);
      "borrowTokens" := TVStrings (Address_Hex <$> outputTokens);
      "amounts" := TVBigs outputAmounts; "target" := TVString (Address_Hex target);
      "targetCallData" := TVBytes calldata; "nonce" := TVBig nonce; "deadline" := TVBig (Some deadline)]};
|}.

Definition BorrowManyUnlockHash (calldata : bytes) (outputAmounts : list Z)
    (outputTokens : list Address) (destinationChainId : Z) (target : Address) (deadline : Z)
    (caller liquidityPool : Address) (nonce : option Z) : result bytes :=
  typed_data_hash (borrow_many_typed_data calldata outputAmounts outputTokens destinationChainId
    target deadline caller liquidityPool nonce).

(** [lifiUnlockHash] after the repayment address was found. *)
Definition lifi_typed_data (chainID : Z) (orderID : string) (repaymentAddress settler : Address)
    : TypedData := {|
  td_Types :=
    [EIP712Domain;
     ("AllowOpen", [("orderId", "bytes32"); ("destination", "bytes32"); ("call", "bytes")])];
  td_PrimaryType := "AllowOpen";
  td_Domain := {| dom_Name := "OIFEscrowLIFI"; dom_Version := "1"; dom_ChainId := chainID;
                  dom_VerifyingContract := Address_Hex settler |};
  td_Message :=
    {["orderId" := TVHash (HexToHash orderID);
      "destination" := TVHash (HexToHash (Address_Hex repaymentAddress));
      "call" := TVString "0x"]};
|}.

(** ** What a hash commits to *)

(** The bytes that are hashed last. *)
Definition raw_data (td : TypedData) : result bytes :=
  match HashStruct (td_Types td) "EIP712Domain" (DomainMap (td_Domain td)),
        HashStruct (td_Types td) (td_PrimaryType td) (td_Message td) with
  | Ok ds, Ok mh => Ok ([Byte.x19; Byte.x01] ++ ds ++ mh)
  | Err e, _ | _, Err e => Err e
  end.

(** The two typed data are no collision of the digests computed for them. *)
Record no_hash_collision (td1 td2 : TypedData) : Prop := {
  no_keccak_collision r1 r2 : raw_data td1 = Ok r1 → raw_data td2 = Ok r2 →
    Keccak256 r1 = Keccak256 r2 → r1 = r2;
  no_domain_collision h :
    HashStruct (td_Types td1) "EIP712Domain" (DomainMap (td_Domain td1)) = Ok h →
    HashStruct (td_Types td2) "EIP712Domain" (DomainMap (td_Domain td2)) = Ok h →
    DomainMap (td_Domain td1) = DomainMap (td_Domain td2);
  no_message_collision h :
    HashStruct (td_Types td1) (td_PrimaryType td1) (td_Message td1) = Ok h →
    HashStruct (td_Types td2) (td_PrimaryType td2) (td_Message td2) = Ok h →
    td_Message td1 = td_Message td2;
}.

Lemma typed_data_hash_inj td1 td2 h :
  no_hash_collision td1 td2 → typed_data_hash td1 = Ok h → typed_data_hash td2 = Ok h →
  DomainMap (td_Domain td1) = DomainMap (td_Domain td2) ∧ td_Message td1 = td_Message td2.
Proof.
  intros [Hk Hd Hm]. rw /raw_data in Hk. rw /typed_data_hash.
  destruct (HashStruct (td_Types td1) "EIP712Domain" _) as [ds1|] eqn:Ed1; [|done].
  destruct (HashStruct (td_Types td2) "EIP712Domain" _) as [ds2|] eqn:Ed2; [|done].
  destruct (HashStruct (td_Types td1) (td_PrimaryType td1) _) as [mh1|] eqn:Em1; [|done].
  destruct (HashStruct (td_Types td2) (td_PrimaryType td2) _) as [mh2|] eqn:Em2; [|done].
  intros [= <-] [= Heq]. specialize (Hk _ _ eq_refl eq_refl (eq_sym Heq)).
  simplify_eq/=. apply app_inj_1 in Hk as [-> ->].
  - split; [by eapply Hd|by eapply Hm].
  - by rw (HashStruct_length _ _ _ _ Ed1) (HashStruct_length _ _ _ _ Ed2).
Qed.

Lemma DomainMap_inj d1 d2 : DomainMap d1 = DomainMap d2 → d1 = d2.
Proof.
  intros Heq. rw /DomainMap in Heq.
  pose proof (f_equal (.!! "name") Heq) as H1'. pose proof (f_equal (.!! "version") Heq) as H2'.
  pose proof (f_equal (.!! "chainId") Heq) as H3'.
  pose proof (f_equal (.!! "verifyingContract") Heq) as H4'.
  vm_compute in H1', H2', H3', H4'. destruct d1, d2. by simplify_eq.
Qed.

Lemma Address_Hex_inj a b :
  length a = 20 → length b = 20 → Address_Hex a = Address_Hex b → a = b.
Proof. intros Ha Hb Heq. by rw -(HexToAddress_Hex a) // Heq HexToAddress_Hex. Qed.

(** C23: a signature over a borrow hash authorises one borrow only: unless the
    digests collide, equal hashes mean equal calldata, amount, token, chain,
    target, deadline, caller, pool and nonce. *)
Theorem BorrowUnlockHash_binds
    (calldata calldata' : bytes) (amount amount' : option Z) (token token' : Address)
    (chain chain' : Z) (target target' : Address) (deadline deadline' : Z)
    (caller caller' pool pool' : Address) (nonce nonce' : option Z) (h : bytes) :
  Forall (λ a, length a = 20) [token; token'; target; target'; caller; caller'; pool; pool'] →
  no_hash_collision (borrow_typed_data calldata amount token chain target deadline caller pool nonce)
    (borrow_typed_data calldata' amount' token' chain' target' deadline' caller' pool' nonce') →
  BorrowUnlockHash calldata amount token chain target deadline caller pool nonce = Ok h →
  BorrowUnlockHash calldata' amount' token' chain' target' deadline' caller' pool' nonce' = Ok h →
  (calldata, amount, token, chain, target) = (calldata', amount', token', chain', target') ∧
  (deadline, caller, pool, nonce) = (deadline', caller', pool', nonce').
Proof.
  intros Hlen Hnc Hh1 Hh2. rewrite !Forall_cons in Hlen.
  destruct Hlen as (?&?&?&?&?&?&?&?&_).
  destruct (typed_data_hash_inj _ _ h Hnc Hh1 Hh2) as [Hd Hm].
  apply DomainMap_inj in Hd. injection Hd as Hchain Hpool. apply Address_Hex_inj in Hpool; [|done..].
  assert (∀ k, td_Message (borrow_typed_data calldata amount token chain target deadline caller pool nonce) !! k =
    td_Message (borrow_typed_data calldata' amount' token' chain' target' deadline' caller' pool' nonce') !! k)
    as Hk by by rw Hm.
  pose proof (Hk "caller") as Hcaller. pose proof (Hk "borrowToken") as Htoken.
  pose proof (Hk "amount") as Hamount. pose proof (Hk "target") as Htarget.
  pose proof (Hk "targetCallData") as Hcalldata. pose proof (Hk "nonce") as Hnonce.
  pose proof (Hk "deadline") as Hdeadline.
  vm_compute in Hcaller, Htoken, Hamount, Htarget, Hcalldata, Hnonce, Hdeadline.
  simplify_eq. apply Address_Hex_inj in Hcaller, Htoken, Htarget; [|done..]. by subst.
Qed.
End hashes.

Section witnesses.
Import Toy.

(** A digest of the caller and the pool. *)
#[export, refine] Instance toy_apitypes : Apitypes := {|
  HashStruct types name m :=
    Ok (resize 32 Byte.x00
      (match m !! "caller", m !! "verifyingContract" with
       | Some (TVString s), _ | _, Some (TVString s) => bytes_of s
       | _, _ => []
       end));
|}.
Proof. intros types name m h [= <-]. by rw length_resize. Defined.

Definition demo_address : Address := replicate 20 Byte.x01.

Lemma BorrowUnlockHash_binds_witness :
  ∃ h, BorrowUnlockHash [] (Some 5%Z) demo_address 1 demo_address 9 demo_address demo_address (Some 3%Z) = Ok h ∧
       Some 5%Z = Some 5%Z.
Proof.
  eexists. split; [reflexivity|].
  refine (f_equal (λ t, t.1.1.1.2) (proj1 (BorrowUnlockHash_binds [] [] (Some 5%Z) (Some 5%Z) demo_address demo_address 1 1
    demo_address demo_address 9 9 demo_address demo_address demo_address demo_address
    (Some 3%Z) (Some 3%Z) _ _ _ _ eq_refl))).
  - by repeat constructor.
  - split; [|done..]. intros r1 r2 -> [= ->] _. done.
  - reflexivity.
Defined.
End witnesses.
