(* ===== verification/Topology.v ===== *)
(** * The network topology (src/topology)

    The set of peers and the threshold, published encrypted: the provider
    fetches, authenticates by hash, decrypts and validates it, the store
    keeps it in a file. *)
From Stdlib Require Import Ascii.
From S2P Require Import Prelude GoStd Encoding Json Libs JsonCodec.

Record NetworkTopology := { nt_Peers : list AddrInfo; nt_Threshold : Z }.
Record RawPeer := { PeerAddress : string }.
Record RawTopology := { raw_Peers : list RawPeer; raw_Threshold : string }.

(** ** cipher.NewCTR

    The counter block is a big-endian 128-bit number that is incremented for
    each block of the key stream. *)
Definition byte_xor (x y : Byte.byte) : Byte.byte := byte_of (Z.lxor (byte_val x) (byte_val y)).

Definition be128 (z : Z) : bytes :=
  (λ i, byte_of (z / 256 ^ (15 - Z.of_nat i))) <$> seq 0 16.

Section encryption.
Context `{AesBlock}.

Fixpoint keystream (key : bytes) (ctr : Z) (blocks : nat) : bytes :=
  match blocks with
  | O => []
  | S blocks => aes_encrypt key (be128 (ctr `mod` 2 ^ 128)) ++ keystream key (ctr + 1) blocks
  end.

Definition XORKeyStream (key iv src : bytes) : bytes :=
  zip_with byte_xor src (keystream key (big.SetBytes iv) (S (length src / 16))).

(** [aes.NewCipher] accepts these key sizes only. *)
Definition NewAESEncryption (key : bytes) : result bytes :=
  if bool_decide (length key = 16 ∨ length key = 24 ∨ length key = 32) then Ok key
  else Err (Errorf "crypto/aes: invalid key size").

(** [ct[:16]] of a shorter ciphertext panics. *)
Definition Decrypt (key ct : bytes) : outcome bytes :=
  if bool_decide (length ct < 16) then Panic "slice bounds out of range"
  else Done (XORKeyStream key (take 16 ct) (drop 16 ct)).

(** [iv] is what [rand.Read] answers. *)
Definition Encrypt (key : bytes) (iv : result bytes) (data : bytes) : result bytes :=
  match iv with
  | Err e => Err e
  | Ok iv => Ok (iv ++ XORKeyStream key iv data)
  end.

Lemma lxor_byte a b :
  (0 ≤ a < 256)%Z → (0 ≤ b < 256)%Z → (0 ≤ Z.lxor a b < 2 ^ 8)%Z.
Proof.
  intros Ha Hb. assert (0 ≤ Z.lxor a b)%Z as Hn by (apply Z.lxor_nonneg; lia).
  split; [done|]. destruct (decide (Z.lxor a b = 0%Z)) as [->|]; [done|].
  apply Z.log2_lt_pow2; [lia|].
  assert (∀ z, (0 ≤ z < 256)%Z → (Z.log2 z < 8)%Z) as Hl.
  { intros z Hz. destruct (decide (z = 0%Z)) as [->|]; [done|]. apply Z.log2_lt_pow2; lia. }
  pose proof (Z.log2_lxor a b ltac:(lia) ltac:(lia)). pose proof (Hl a Ha). pose proof (Hl b Hb). lia.
Qed.

Lemma byte_xor_cancel x y : byte_xor (byte_xor x y) y = x.
Proof.
  rw /byte_xor byte_val_of. pose proof (byte_val_bounds x). pose proof (byte_val_bounds y).
  rw /u8 Z.mod_small.
  - rw Z.lxor_assoc Z.lxor_nilpotent Z.lxor_0_r. apply byte_of_val.
  - by apply lxor_byte.
Qed.

Lemma length_keystream key ctr n : length (keystream key ctr n) = 16 * n.
Proof.
  revert ctr. induction n as [|n IH]; intros ctr; [done|].
  rw /= length_app aes_encrypt_length IH. lia.
Qed.

Lemma length_XORKeyStream key iv src : length (XORKeyStream key iv src) = length src.
Proof.
  rw /XORKeyStream length_zip_with length_keystream. pose proof (Nat.div_mod (length src) 16 ltac:(done)). pose proof (Nat.mod_upper_bound (length src) 16 ltac:(done)). lia.
Qed.

Lemma XORKeyStream_cancel key iv src :
  XORKeyStream key iv (XORKeyStream key iv src) = src.
Proof.
  rw {1}/XORKeyStream length_XORKeyStream /XORKeyStream.
  set (ks := keystream _ _ _).
  assert (length src ≤ length ks) as Hl.
  { rw /ks length_keystream. pose proof (Nat.div_mod (length src) 16 ltac:(done)). pose proof (Nat.mod_upper_bound (length src) 16 ltac:(done)). lia. }
  clearbody ks. revert ks Hl. induction src as [|x src IH]; intros [|k ks] Hl; simpl in *; try done; [lia|].
  rw byte_xor_cancel IH //. lia.
Qed.

Lemma Decrypt_Encrypt_gen key iv data :
  length iv = 16 → Decrypt key (iv ++ XORKeyStream key iv data) = Done data.
Proof.
  intros Hiv. rw /Decrypt bool_decide_false; [|rw length_app; lia].
  by rw -{1 2}Hiv take_app_length drop_app_length XORKeyStream_cancel.
Qed.
End encryption.

#[export] Instance RawPeer_eq_dec : EqDecision RawPeer.
Proof. solve_decision. Defined.
#[export] Instance RawTopology_eq_dec : EqDecision RawTopology.
Proof. solve_decision. Defined.
(** Their struct tags. *)
Definition RawPeer_type : gotype RawPeer :=
  go.struct [go.field_of "peerAddress" go.string_ PeerAddress] eq_refl ltac:(all_fields_set) ltac:(all_sets_typed).

#[export] Instance RawTopology_json : Json RawTopology := {|
  json_zero := {| raw_Peers := []; raw_Threshold := "" |};
  json_type := go.struct
    [go.field_of "peers" (go.slice RawPeer_type {| PeerAddress := "" |} ltac:(zero_typed)) raw_Peers;
     go.field_of "threshold" go.string_ raw_Threshold] eq_refl ltac:(all_fields_set) ltac:(all_sets_typed);
  json_level := ltac:(done);
  json_zero_typed := ltac:(zero_typed);
|}.

(** It has no tags. *)
#[export, refine] Instance NetworkTopology_json `{AddrInfoJson} : Json NetworkTopology := {|
  json_zero := {| nt_Peers := []; nt_Threshold := 0 |};
  json_type := go.struct
    [go.field_of "Peers" (go.slice addrinfo_type {| ai_ID := ""; ai_Addrs := [] |} addrinfo_zero_typed) nt_Peers;
     go.field_of "Threshold" go.int64 nt_Threshold] eq_refl ltac:(all_fields_set) ltac:(all_sets_typed);
|}.
Proof. { pose proof addrinfo_level as Hl. rw /= /json.maxNestingDepth in Hl |- *. lia. } zero_typed. Defined.

Definition IsAllowedPeer (nt : NetworkTopology) (peer : PeerID) : bool :=
  existsb (λ p, bool_decide (ai_ID p = peer)) (nt_Peers nt).

Lemma IsAllowedPeer_spec nt peer : IsAllowedPeer nt peer = true ↔ peer ∈ ai_ID <$> nt_Peers nt.
Proof.
  rw /IsAllowedPeer existsb_exists list_elem_of_fmap. split.
  - intros (p & Hp & <-%bool_decide_eq_true). exists p. by rw list_elem_of_In.
  - intros (p & -> & Hp). exists p. by rw -list_elem_of_In bool_decide_true.
Qed.

(** ** The provider *)

(** [NewNetworkTopologyProvider]: the key of its decrypter. *)
Definition NewNetworkTopologyProvider (EncryptionKey : string) : result bytes :=
  NewAESEncryption (bytes_of EncryptionKey).

Section provider.
Context `{PeerLib, AesBlock, Sha256, AddrLib, AddrInfoJson}.

(** The loop over the raw peers, stopping at the first bad address. *)
Fixpoint process_peers (raw : list RawPeer) : result (list AddrInfo) :=
  match raw with
  | [] => Ok []
  | p :: raw' =>
      match AddrInfoFromString (PeerAddress p) with
      | Err e => Err (Wrapf ("invalid peer address " +:+ PeerAddress p +:+ ": ") e)
      | Ok ai => match process_peers raw' with Err e => Err e | Ok ais => Ok (ai :: ais) end
      end
  end.

Definition ProcessRawTopology (rawTopology : RawTopology) : result NetworkTopology :=
  match process_peers (raw_Peers rawTopology) with
  | Err e => Err e
  | Ok peers =>
      match strconv.ParseInt (raw_Threshold rawTopology) 0 0 with
      | None => Err (Errorf "unable to parse mpc threshold from topology")
      | Some threshold =>
          if (threshold <? 1)%Z then Err (Errorf "mpc threshold must be bigger then 0")
          else Ok {| nt_Peers := peers; nt_Threshold := threshold |}
      end
  end.

(** [get] is what the fetcher answers: the response body, itself an error
    if reading it fails.  [key] is the key of the decrypter. *)
Definition FetchTopology (key : bytes) (get : result (result bytes)) (hash : string)
    : outcome (result NetworkTopology) :=
  match get with
  | Err e => Done (Err e)
  | Ok (Err e) => Done (Err e)
  | Ok (Ok body) =>
      let response := strings.TrimSuffix (string_of body) "010" in
      match hex.DecodeString response with
      | None => Done (Err (Errorf "encoding/hex: invalid"))
      | Some ct =>
          let eh := hex.EncodeToString (sha256 ct) in
          if negb (bool_decide (hash = "")) && negb (bool_decide (eh = hash))
          then Done (Err (Errorf ("topology hash " +:+ eh +:+ " not matching expected hash " +:+ hash)))
          else
            unecryptedBody ← Decrypt key ct;
            Done (match Unmarshal unecryptedBody with
                  | Err e => Err e
                  | Ok rawTopology => ProcessRawTopology rawTopology
                  end)
      end
  end.

(** ** The store; the mutex is held within each operation *)
Definition StoreTopology (fs : fs_answers) (file : option bytes) (topology : NetworkTopology)
    : option error * option bytes := TruncWrite fs file (Marshal topology).

Definition LoadTopology (fs : fs_answers) (file : option bytes) : result NetworkTopology :=
  match ReadFile fs file with Err e => Err e | Ok tb => Unmarshal tb end.

(** ** Properties *)
Lemma process_peers_Forall2 raw ais :
  process_peers raw = Ok ais →
  Forall2 (λ p ai, AddrInfoFromString (PeerAddress p) = Ok ai) raw ais.
Proof.
  revert ais. induction raw as [|p raw IH]; simpl; intros ais; [intros [= <-]; constructor|].
  destruct (AddrInfoFromString (PeerAddress p)) as [ai|] eqn:E; [|done].
  destruct (process_peers raw) as [ais'|]; [|done]. intros [= <-]. constructor; auto.
Qed.

Lemma ProcessRawTopology_ok raw nt :
  ProcessRawTopology raw = Ok nt →
  Forall2 (λ p ai, AddrInfoFromString (PeerAddress p) = Ok ai) (raw_Peers raw) (nt_Peers nt) ∧
  strconv.ParseInt (raw_Threshold raw) 0 64 = Some (nt_Threshold nt) ∧
  (1 ≤ nt_Threshold nt < 2 ^ 63)%Z.
Proof.
  rw /ProcessRawTopology. destruct (process_peers (raw_Peers raw)) as [ps|] eqn:E; [|done].
  change (strconv.ParseInt (raw_Threshold raw) 0 0) with (strconv.ParseInt (raw_Threshold raw) 0 64).
  destruct (strconv.ParseInt (raw_Threshold raw) 0 64) as [th|] eqn:Eth; [|done].
  destruct (Z.ltb_spec th 1); [done|]. intros [= <-]. simpl.
  apply strconv.ParseInt_bounds in Eth as Hb; [|lia].
  split_and!; [by apply process_peers_Forall2|done|lia|]. simpl in Hb. lia.
Qed.

(** C25: a topology is accepted only if the ciphertext hashes to the expected
    value, when one is expected, and then its threshold is a positive int
    and its peers are the listed addresses, in order, all of them valid. *)
Theorem FetchTopology_authentic (key : bytes) (get : result (result bytes)) (hash : string)
    (nt : NetworkTopology) :
  FetchTopology key get hash = Done (Ok nt) →
  ∃ body ct raw, get = Ok (Ok body) ∧
    hex.DecodeString (strings.TrimSuffix (string_of body) "010") = Some ct ∧
    (hash ≠ "" → hex.EncodeToString (sha256 ct) = hash) ∧
    16 ≤ length ct ∧ (1 ≤ nt_Threshold nt < 2 ^ 63)%Z ∧
    Forall2 (λ p ai, AddrInfoFromString (PeerAddress p) = Ok ai) (raw_Peers raw) (nt_Peers nt) ∧
    strconv.ParseInt (raw_Threshold raw) 0 64 = Some (nt_Threshold nt).
Proof.
  rw /FetchTopology. destruct get as [[body|]|]; [|done..].
  destruct (hex.DecodeString _) as [ct|] eqn:Ect; [|done].
  destruct (negb _ && negb _) eqn:Eh; [done|].
  rw /Decrypt. destruct (decide (length ct < 16)); [by rw bool_decide_true|].
  rw bool_decide_false //=.
  destruct (json_Unmarshal _) as [raw|]; [|done]. intros [= (HF & Hth & Hb)%ProcessRawTopology_ok].
  exists body, ct, raw. split_and!; try done; try lia.
  intros Hne. apply andb_false_iff in Eh as [Eh|Eh]; apply negb_false_iff, bool_decide_eq_true in Eh; done.
Qed.

Lemma no_newline_hex b : strings.free "010" (hex.EncodeToString b) = true.
Proof.
  assert (∀ n, bool_decide (hex.digit n ≠ "010"%char) = true) as Hd.
  { intros n. apply bool_decide_eq_true. rw /hex.digit. by repeat case_match. }
  induction b as [|x b IH]; [done|]. rw /= IH !Hd. done.
Qed.

(** A ciphertext that is published in hexadecimal, with or without a trailing
    newline, is decrypted, decoded and checked, when its hash is expected or
    none is. *)
Lemma FetchTopology_published (key iv data : bytes) (newline : bool) (hash : string) :
  let ct := iv ++ XORKeyStream key iv data in
  length iv = 16 → hash = "" ∨ hash = hex.EncodeToString (sha256 ct) →
  FetchTopology key (Ok (Ok (bytes_of (hex.EncodeToString ct +:+ (if newline then "
" else ""))))) hash =
    Done (match Unmarshal data with Err e => Err e | Ok raw => ProcessRawTopology raw end).
Proof.
  intros ct Hiv Hhash. rw /FetchTopology string_of_bytes_of.
  assert (strings.TrimSuffix (hex.EncodeToString ct +:+ (if newline then "
" else "")) "010" = hex.EncodeToString ct) as ->.
  { destruct newline; [apply strings.TrimSuffix_snoc|].
    rw strings.append_nil_r. apply strings.TrimSuffix_free, no_newline_hex. }
  rw hex.DecodeString_EncodeToString.
  assert (negb (bool_decide (hash = "")) && negb (bool_decide (hex.EncodeToString (sha256 ct) = hash))
    = false) as ->.
  { destruct Hhash as [->| ->]; [done|]. rw (bool_decide_true (_ = hex.EncodeToString _)) //. by rw andb_false_r. }
  by rw /ct Decrypt_Encrypt_gen.
Qed.
End provider.

Section witnesses.
Import Toy.
Import ToyJson.

Definition demo_key : bytes := replicate 16 Byte.x2a.
Definition demo_iv : bytes := replicate 16 Byte.xff.
Definition demo_raw : RawTopology :=
  {| raw_Peers := [{| PeerAddress := "a" |}; {| PeerAddress := "b" |}]; raw_Threshold := "0x2" |}.
Definition demo_topology : NetworkTopology :=
  {| nt_Peers := [{| ai_ID := "a"; ai_Addrs := ["/"] |}; {| ai_ID := "b"; ai_Addrs := ["/"] |}];
     nt_Threshold := 2 |}.
Definition demo_ciphertext : bytes := demo_iv ++ XORKeyStream demo_key demo_iv (json_Marshal demo_raw).

Lemma FetchTopology_authentic_witness :
  ∃ ct : bytes, 16 ≤ length ct ∧ (1 ≤ nt_Threshold demo_topology)%Z.
Proof.
  destruct (FetchTopology_authentic demo_key
    (Ok (Ok (bytes_of (hex.EncodeToString demo_ciphertext)))) "" demo_topology)
    as (body & ct & raw & _ & _ & _ & Hl & [Ht _] & _).
  - by vm_compute.
  - by exists ct.
Defined.
End witnesses.
