(* ===== verification/Comm.v ===== *)
(** * Messages and subscription identifiers (src/comm)

    [messages.go]: the message types, which are an [int64] on the wire, and
    their names; [communication.go]: the wrapped message; [subID.go]: the
    text [sessionID-messageType-identifier] of a subscription. *)
From Stdlib Require Import Ascii.
From S2P Require Import Prelude GoStd Libs.

Definition MessageType : Type := Z.

Definition TssKeyGenMsg : MessageType := 0%Z.
Definition TssKeySignMsg : MessageType := 1%Z.
Definition TssInitiateMsg : MessageType := 2%Z.
Definition TssStartMsg : MessageType := 3%Z.
Definition TssFailMsg : MessageType := 4%Z.
Definition TssReadyMsg : MessageType := 5%Z.
Definition TssReshareMsg : MessageType := 6%Z.
Definition CoordinatorElectionMsg : MessageType := 7%Z.
Definition CoordinatorAliveMsg : MessageType := 8%Z.
Definition CoordinatorLeaveMsg : MessageType := 9%Z.
Definition CoordinatorSelectMsg : MessageType := 10%Z.
Definition CoordinatorPingMsg : MessageType := 11%Z.
Definition CoordinatorPingResponseMsg : MessageType := 12%Z.
Definition SignatureMsg : MessageType := 13%Z.
Definition AcrossMsg : MessageType := 14%Z.
Definition SprinterCreditMsg : MessageType := 15%Z.
Definition LighterMsg : MessageType := 16%Z.
Definition LifiEscrowMsg : MessageType := 17%Z.
Definition LifiUnlockMsg : MessageType := 18%Z.
Definition Unknown : MessageType := 19%Z.

Definition SignatureSessionID : string := "signatures".
Definition AcrossSessionID : string := "across".
Definition SprinterCreditSessionID : string := "sprinter-credit".
Definition LifiEscrowSessionID : string := "lifi-escrow".
Definition LighterSessionID : string := "lighter".
Definition LifiUnlockSessionID : string := "lifi-unlock".

(** [MessageType.String]; there is no case for [SignatureMsg]. *)
Definition MessageType_String (m : MessageType) : string :=
  if (m =? TssKeyGenMsg)%Z then "TssKeyGenMsg"
  else if (m =? TssKeySignMsg)%Z then "TssKeySignMsg"
  else if (m =? TssInitiateMsg)%Z then "TssInitiateMsg"
  else if (m =? TssStartMsg)%Z then "TssStartMsg"
  else if (m =? TssFailMsg)%Z then "TssFailMsg"
  else if (m =? TssReadyMsg)%Z then "TssReadyMsg"
  else if (m =? TssReshareMsg)%Z then "TssReshareMsg"
  else if (m =? CoordinatorElectionMsg)%Z then "CoordinatorElectionMsg"
  else if (m =? CoordinatorAliveMsg)%Z then "CoordinatorAliveMsg"
  else if (m =? CoordinatorLeaveMsg)%Z then "CoordinatorLeaveMsg"
  else if (m =? CoordinatorSelectMsg)%Z then "CoordinatorSelectMsg"
  else if (m =? CoordinatorPingMsg)%Z then "CoordinatorPingMsg"
  else if (m =? CoordinatorPingResponseMsg)%Z then "CoordinatorPingResponseMsg"
  else if (m =? AcrossMsg)%Z then "AcrossMsg"
  else if (m =? LifiEscrowMsg)%Z then "LifiEscrowMsg"
  else if (m =? LifiUnlockMsg)%Z then "LifiUnlockMsg"
  else if (m =? LighterMsg)%Z then "LighterMsg"
  else if (m =? SprinterCreditMsg)%Z then "SprinterCreditMsg"
  else "UnknownMsg".

(** The message sent through a [Communication]. [From] is not serialized. *)
Record WrappedMessage := {
  wm_MessageType : MessageType;
  wm_SessionID : string;
  wm_Payload : bytes;
  wm_From : PeerID;
}.

Module SubscriptionID.
Definition t : Type := string.

(** [NewSubscriptionID]; [now] is [time.Now().UnixNano()]. *)
Definition New (sessionID : string) (msgType : MessageType) (now : Z) : t :=
  sessionID +:+ String "-"%char (fmt_d msgType +:+ String "-"%char (fmt_d now)).

(** [Unwrap]: session, type, identifier and error. *)
Definition Unwrap (sID : t) : string * MessageType * string * option error :=
  match strings.Split sID "-" with
  | [session; ty; id] =>
      match strconv.ParseInt ty 10 8 with
      | None => ("", Unknown, "", Some (Errorf "strconv.ParseInt"))
      | Some msgType =>
          if (Unknown <? msgType)%Z
          then ("", Unknown, "", Some (Errorf "invalid message type"))
          else (session, msgType, id, None)
      end
  | _ => ("", Unknown, "", Some (Errorf "invalid subscriptionID"))
  end.

Definition SessionID (sID : t) : string :=
  let '(sess, _, _, err) := Unwrap sID in
  match err with Some _ => "" | None => sess end.

Definition MessageType (sID : t) : MessageType :=
  let '(_, msgType, _, err) := Unwrap sID in
  match err with Some _ => msgType | None => msgType end.

Definition SubscriptionIdentifier (sID : t) : string :=
  let '(_, _, subID, err) := Unwrap sID in
  match err with Some _ => "" | None => subID end.

(** The two facts about [Split] on which the identifiers rest. *)
Lemma Split_New s m now :
  strings.free "-" s = true → (0 ≤ m)%Z → (0 ≤ now)%Z →
  strings.Split (New s m now) "-" = [s; fmt_d m; fmt_d now].
Proof.
  intros Hs Hm Hn. rw /New strings.Split_field //.
  rw strings.Split_field; last by apply strconv.fmt_d_free.
  rw strings.Split_free //. by apply strconv.fmt_d_free.
Qed.

Lemma Split_New_dash s m now :
  strings.free "-" s = false → 3 < length (strings.Split (New s m now) "-").
Proof.
  intros Hs. rw strings.length_Split /New !strings.count_app /= !strings.count_app /=.
  assert (strings.count "-" s ≠ 0); [|lia].
  rw -strings.count_free Hs. done.
Qed.

(** Reading back an identifier gives what it was made from. *)
Lemma Unwrap_New_gen s m now :
  strings.free "-" s = true → (TssKeyGenMsg ≤ m ≤ Unknown)%Z → (0 ≤ now)%Z →
  Unwrap (New s m now) = (s, m, fmt_d now, None).
Proof.
  rw /TssKeyGenMsg /Unknown => Hs Hm Hn.
  rw /Unwrap Split_New //; last lia. rw /Unknown.
  rw strconv.ParseInt_fmt_d; [|lia|lia].
  by rw (proj2 (Z.ltb_ge _ _)); last lia.
Qed.

(** A session name with a dash makes an identifier with too many fields. *)
Lemma Unwrap_New_dash s m now :
  strings.free "-" s = false →
  Unwrap (New s m now) = ("", Unknown, "", Some (Errorf "invalid subscriptionID")).
Proof.
  intros Hs. pose proof (Split_New_dash s m now Hs) as Hl. rw /Unwrap.
  destruct (strings.Split _ _) as [|? [|? [|? [|??]]]]; simpl in Hl; lia || done.
Qed.
End SubscriptionID.

#[export] Hint Resolve SubscriptionID.Split_New SubscriptionID.Unwrap_New_gen
  SubscriptionID.Unwrap_New_dash : go.

(** Reading back a subscription identifier gives the session, message
    type and creation time it was made from when the session name has no
    dash, and an error for every session name that has one. *)
Theorem Unwrap_New (s : string) (m now : Z) :
  (TssKeyGenMsg ≤ m ≤ Unknown)%Z → (0 ≤ now)%Z →
  SubscriptionID.Unwrap (SubscriptionID.New s m now) =
    if strings.free "-" s then (s, m, fmt_d now, None)
    else ("", Unknown, "", Some (Errorf "invalid subscriptionID")).
Proof. intros. destruct (strings.free "-" s) eqn:Hs; auto with go. Qed.

Lemma Unwrap_New_witness :
  SubscriptionID.Unwrap (SubscriptionID.New "signatures" SignatureMsg 1700000000)
  = ("signatures", SignatureMsg, "1700000000", None).
Proof. apply (Unwrap_New "signatures" 13 1700000000); [split|]; discriminate. Defined.
