(* ===== verification/Subscriptions.v ===== *)
(** * Session subscriptions (src/comm/p2p/subscription.go)

    [SessionSubscriptionManager] keeps, per session and message type, the
    channels of its subscribers, keyed by the identifier part of the
    subscription ID.  The specification is a flat table from subscription
    IDs to channels; the manager refines it for session names without a
    dash.  For the other names the identifier is always empty. *)
From Stdlib Require Import Ascii.
From S2P Require Import Prelude GoStd Libs Comm.

Section subscriptions.
Context {chan : Type}.

(** sessionID -> messageType -> subscriptionID; all operations hold
    [ms.lock] from their first to their last statement. *)
Record SessionSubscriptionManager := {
  subscribersMap : gmap string (gmap MessageType (gmap string chan));
}.

Definition NewSessionSubscriptionManager : SessionSubscriptionManager :=
  {| subscribersMap := ∅ |}.

(** [ms.subscribersMap[sessionID][msgType]] read with Go's nil maps. *)
Definition by_type (ms : SessionSubscriptionManager) (s : string) (t : MessageType)
    : option (gmap string chan) := subscribersMap ms !! s ≫= λ m, m !! t.

Definition slot (ms : SessionSubscriptionManager) (s : string) (t : MessageType)
    (id : string) : option chan := by_type ms s t ≫= λ m, m !! id.

(** The order of the result is that of Go's map iteration: unspecified. *)
Definition GetSubscribers (ms : SessionSubscriptionManager) (s : string)
    (t : MessageType) : list chan :=
  match by_type ms s t with
  | None => []
  | Some subsAsMap => (map_to_list subsAsMap).*2
  end.

Definition SubscribeTo (ms : SessionSubscriptionManager) (s : string)
    (t : MessageType) (channel : chan) (now : Z)
    : SubscriptionID.t * SessionSubscriptionManager :=
  let m0 := subscribersMap ms in
  let m1 := match m0 !! s with Some _ => m0 | None => <[s := ∅]> m0 end in
  let types := default ∅ (m1 !! s) in
  let types1 := match types !! t with Some _ => types | None => <[t := ∅]> types end in
  let subID := SubscriptionID.New s t now in
  let subs := default ∅ (types1 !! t) in
  let subs1 := <[SubscriptionID.SubscriptionIdentifier subID := channel]> subs in
  (subID, {| subscribersMap := <[s := <[t := subs1]> types1]> m1 |}).

Definition UnSubscribeFrom (ms : SessionSubscriptionManager) (sub : SubscriptionID.t)
    : SessionSubscriptionManager :=
  let '(sessionID, msgType, subID, err) := SubscriptionID.Unwrap sub in
  match err with
  | Some _ => ms
  | None =>
      match slot ms sessionID msgType subID with
      | None => ms
      | Some _ =>
          {| subscribersMap :=
               alter (alter (delete subID) msgType) sessionID (subscribersMap ms) |}
      end
  end.

Lemma elem_of_GetSubscribers ms s t ch :
  ch ∈ GetSubscribers ms s t ↔ ∃ id, slot ms s t id = Some ch.
Proof.
  rw /GetSubscribers /slot. destruct (by_type ms s t) as [m|]; simpl.
  - rw list_elem_of_fmap. setoid_rewrite elem_of_map_to_list'. split.
    + intros ([id c] & -> & H). by exists id.
    + intros [id H]. by exists (id, ch).
  - split; [by intros ?%not_elem_of_nil|naive_solver].
Qed.

(** Creating the missing inner maps first makes no difference. *)
Lemma subscribersMap_SubscribeTo ms s t ch now :
  let m := subscribersMap ms in
  let key := SubscriptionID.SubscriptionIdentifier (SubscriptionID.New s t now) in
  subscribersMap (SubscribeTo ms s t ch now).2 =
  <[s := <[t := <[key := ch]> (default ∅ (by_type ms s t))]> (default ∅ (m !! s))]> m.
Proof.
  intros m key. rw /SubscribeTo /by_type /= -/m -/key.
  destruct (m !! s) as [types|] eqn:E; simpl.
  - rw E /=. destruct (types !! t) as [ids|] eqn:E2; simpl; [by rw E2|].
    by rw lookup_insert_eq insert_insert_eq.
  - by rw lookup_insert_eq /= lookup_empty lookup_insert_eq /= !insert_insert_eq.
Qed.

(** Who subscribes is a subscriber. *)
Lemma SubscribeTo_subscribes ms s t ch now : ch ∈ GetSubscribers (SubscribeTo ms s t ch now).2 s t.
Proof.
  apply elem_of_GetSubscribers. exists (SubscriptionID.SubscriptionIdentifier (SubscriptionID.New s t now)).
  by rw /slot /by_type subscribersMap_SubscribeTo lookup_insert_eq /= lookup_insert_eq /= lookup_insert_eq.
Qed.

(** What the two updates do to one slot. *)
Lemma slot_SubscribeTo ms s t ch now s' t' id' :
  slot (SubscribeTo ms s t ch now).2 s' t' id' =
  if decide (s' = s ∧ t' = t ∧
             id' = SubscriptionID.SubscriptionIdentifier (SubscriptionID.New s t now))
  then Some ch else slot ms s' t' id'.
Proof.
  rw {1}/slot /by_type subscribersMap_SubscribeTo.
  destruct (decide (s' = s)) as [->|];
    [rw lookup_insert_eq /= | rw lookup_insert_ne // decide_False //; naive_solver].
  destruct (decide (t' = t)) as [->|]; [rw lookup_insert_eq /= | rw lookup_insert_ne //].
  - rw lookup_insert /slot /by_type. destruct (subscribersMap ms !! s) as [types|]; simpl;
      [destruct (types !! t)|]; simpl; repeat case_decide; naive_solver.
  - rw decide_False; [|naive_solver]. rw /slot /by_type.
    by destruct (subscribersMap ms !! s).
Qed.

Lemma slot_UnSubscribeFrom ms sub s t id s' t' id' :
  SubscriptionID.Unwrap sub = (s, t, id, None) →
  slot (UnSubscribeFrom ms sub) s' t' id' =
  if decide (s' = s ∧ t' = t ∧ id' = id) then None else slot ms s' t' id'.
Proof.
  rw /UnSubscribeFrom => ->. destruct (slot ms s t id) eqn:E.
  2:{ case_decide; naive_solver. }
  rw /slot /by_type /=. rw lookup_alter.
  destruct (decide (s = s')) as [->|]; [|case_decide; naive_solver].
  destruct (subscribersMap ms !! s') as [types|]; simpl; [|by case_decide].
  rw lookup_alter. destruct (decide (t = t')) as [->|]; [|case_decide; naive_solver].
  destruct (types !! t') as [ids|]; simpl; [|by case_decide].
  rw lookup_delete. repeat case_decide; naive_solver.
Qed.

(** ** The specification: a flat table of live subscriptions *)
Definition spec_state : Type := gmap SubscriptionID.t (string * MessageType * chan).

Inductive sub_op :=
  | OpSubscribe (s : string) (t : MessageType) (ch : chan) (now : Z)
  | OpUnSubscribe (s : string) (t : MessageType) (now : Z).

(** Sessions without a dash, declared types, times after the epoch. *)
Definition op_wf (o : sub_op) : Prop :=
  let wf s t now := strings.free "-" s = true ∧ (TssKeyGenMsg ≤ t ≤ Unknown)%Z ∧ (0 ≤ now)%Z in
  match o with
  | OpSubscribe s t _ now => wf s t now
  | OpUnSubscribe s t now => wf s t now
  end.

Definition spec_step (m : spec_state) (o : sub_op) : spec_state :=
  match o with
  | OpSubscribe s t ch now => <[SubscriptionID.New s t now := (s, t, ch)]> m
  | OpUnSubscribe s t now => delete (SubscriptionID.New s t now) m
  end.

Definition impl_step (ms : SessionSubscriptionManager) (o : sub_op) :=
  match o with
  | OpSubscribe s t ch now => (SubscribeTo ms s t ch now).2
  | OpUnSubscribe s t now => UnSubscribeFrom ms (SubscriptionID.New s t now)
  end.

(** The refinement relation. *)
Definition represents (ms : SessionSubscriptionManager) (m : spec_state) : Prop :=
  ∀ s t id ch, slot ms s t id = Some ch ↔
    ∃ now, id = fmt_d now ∧ (0 ≤ now)%Z ∧ strings.free "-" s = true ∧
           (TssKeyGenMsg ≤ t ≤ Unknown)%Z ∧
           m !! SubscriptionID.New s t now = Some (s, t, ch).

Lemma New_inj s t now s' t' now' :
  op_wf (OpUnSubscribe s t now) → op_wf (OpUnSubscribe s' t' now') →
  SubscriptionID.New s t now = SubscriptionID.New s' t' now' →
  s = s' ∧ t = t' ∧ now = now'.
Proof.
  intros (Hs & Ht & Hn) (Hs' & Ht' & Hn') H.
  rw /TssKeyGenMsg /Unknown in Ht Ht'.
  pose proof (f_equal (λ x, strings.Split x "-") H) as Hsp. simpl in Hsp.
  rw !SubscriptionID.Split_New // in Hsp; try lia.
  injection Hsp as -> ?%(inj fmt_d) ?%(inj fmt_d). done.
Qed.

Lemma New_ne s t now s' t' now' :
  op_wf (OpUnSubscribe s t now) → op_wf (OpUnSubscribe s' t' now') →
  ¬ (s' = s ∧ t' = t ∧ fmt_d now' = fmt_d now) →
  SubscriptionID.New s t now ≠ SubscriptionID.New s' t' now'.
Proof. intros ?? Hne Heq. apply New_inj in Heq; naive_solver. Qed.

Lemma Unwrap_wf s t now :
  op_wf (OpUnSubscribe s t now) →
  SubscriptionID.Unwrap (SubscriptionID.New s t now) = (s, t, fmt_d now, None).
Proof. intros (? & ? & ?). by apply SubscriptionID.Unwrap_New_gen. Qed.

Lemma represents_step ms m o :
  op_wf o → represents ms m → represents (impl_step ms o) (spec_step m o).
Proof.
  intros Hwf Hrep s' t' id' ch'. destruct o as [s t ch now|s t now].
  - pose proof (Unwrap_wf s t now Hwf) as HU.
    rw /impl_step slot_SubscribeTo /SubscriptionID.SubscriptionIdentifier HU.
    case_decide as Hd.
    + destruct Hd as (-> & -> & ->), Hwf as (? & ? & ?). split.
      * intros [= <-]. exists now. by rw /= lookup_insert_eq.
      * intros (now' & ->%(inj fmt_d) & ? & ? & ? & Hm). simpl in Hm.
        rw lookup_insert_eq in Hm. congruence.
    + rw Hrep. split; intros (now' & -> & ? & ? & ? & Hm);
        (exists now'; do 4 (split; [done|])).
      * rw /= lookup_insert_ne //. by apply New_ne.
      * by rw /= lookup_insert_ne in Hm; [|by apply New_ne].
  - rw /impl_step (slot_UnSubscribeFrom _ _ _ _ _ _ _ _ (Unwrap_wf s t now Hwf)).
    case_decide as Hd.
    + destruct Hd as (-> & -> & ->). split; [done|].
      intros (now' & ->%(inj fmt_d) & ? & ? & ? & Hm). simpl in Hm.
      by rw lookup_delete_eq in Hm.
    + rw Hrep. split; intros (now' & -> & ? & ? & ? & Hm);
        (exists now'; do 4 (split; [done|])).
      * rw /= lookup_delete_ne //. by apply New_ne.
      * by rw /= lookup_delete_ne in Hm; [|by apply New_ne].
Qed.

Lemma represents_run os ms m :
  Forall op_wf os → represents ms m →
  represents (foldl impl_step ms os) (foldl spec_step m os).
Proof.
  revert ms m. induction os as [|o os IH]; simpl; intros ms m Hwf Hrep; [done|].
  inversion_clear Hwf. apply IH; [done|]. by apply represents_step.
Qed.

Lemma represents_new : represents NewSessionSubscriptionManager (∅ : spec_state).
Proof.
  intros s t id ch. rw /slot /by_type /=. split; [by rw lookup_empty|].
  intros (now & _ & _ & _ & _ & H). by rw lookup_empty in H.
Qed.

Lemma GetSubscribers_represents ms m s t ch :
  represents ms m →
  ch ∈ GetSubscribers ms s t ↔
  ∃ now, op_wf (OpUnSubscribe s t now) ∧
         m !! SubscriptionID.New s t now = Some (s, t, ch).
Proof.
  intros Hrep. rw elem_of_GetSubscribers. split.
  - intros [id (now & -> & ? & ? & ? & Hm)%Hrep]. by exists now.
  - intros (now & (? & ? & ?) & Hm). exists (fmt_d now). apply Hrep. by exists now.
Qed.


(** A session name with a dash has one slot per message type.  A second
    subscription replaces the first, and unsubscribing has no effect, so
    the channel of the last subscription is served for ever. *)
Theorem dashed_session_one_slot (ms : SessionSubscriptionManager) (s : string)
    (t : MessageType) (ch1 ch2 : chan) (now1 now2 : Z) :
  strings.free "-" s = false → by_type ms s t = None →
  let ms1 := (SubscribeTo ms s t ch1 now1).2 in
  let '(id2, ms2) := SubscribeTo ms1 s t ch2 now2 in
  GetSubscribers ms2 s t = [ch2] ∧ UnSubscribeFrom ms2 id2 = ms2.
Proof.
  intros Hs Hnone ms1. split.
  - rw /GetSubscribers {1}/by_type. change (SubscribeTo _ _ _ _ _).2 with (SubscribeTo ms1 s t ch2 now2).2.
    rw (subscribersMap_SubscribeTo ms1) lookup_insert_eq /= lookup_insert_eq.
    rw /by_type /ms1 subscribersMap_SubscribeTo lookup_insert_eq /= lookup_insert_eq /= Hnone /=.
    by rw /SubscriptionID.SubscriptionIdentifier !SubscriptionID.Unwrap_New_dash.
  - by rw /UnSubscribeFrom SubscriptionID.Unwrap_New_dash.
Qed.
End subscriptions.
Arguments SessionSubscriptionManager : clear implicits.
Arguments spec_state : clear implicits.
Arguments sub_op : clear implicits.


Lemma dashed_session_one_slot_witness :
  GetSubscribers (SubscribeTo (SubscribeTo NewSessionSubscriptionManager "1-across" AcrossMsg 1 10).2
                    "1-across" AcrossMsg 2 11).2 "1-across" AcrossMsg = [2].
Proof.
  exact (proj1 (dashed_session_one_slot NewSessionSubscriptionManager "1-across" AcrossMsg 1 2 10 11
    eq_refl eq_refl)).
Defined.
