(* ===== verification/P2P.v ===== *)
(** * Messages between peers (src/comm/p2p, src/comm/health.go, src/jobs)

    Framing of messages on a stream ([util.go]), the cache of open streams
    ([manager.go]), sending, broadcasting and receiving ([libp2p.go]), the
    connection gate and the loading of peers ([gater.go], [host.go]). *)
From Stdlib Require Import Ascii.
From S2P Require Import Prelude GoStd Encoding Json Libs JsonCodec Comm Topology Subscriptions.

(** ** util.go *)
Definition newline : Byte.byte := Byte.x0a.

(** [bufio.Reader.ReadString]: up to and including the delimiter, and what is
    left; an error if the stream ends first. *)
Fixpoint ReadString (delim : Byte.byte) (r : bytes) : option (bytes * bytes) :=
  match r with
  | [] => None
  | c :: r' =>
      if bool_decide (c = delim) then Some ([c], r')
      else '(line, rest) ← ReadString delim r'; Some (c :: line, rest)
  end.

Definition ReadStream (r : bytes) : option (bytes * bytes) :=
  '(msg, rest) ← ReadString newline r;
  if bool_decide (string_of msg = "") then None
  else Some (bytes_of (strings.Trim (string_of msg) "010"%char), rest).

(** What is written if nothing fails. *)
Definition WriteStream (msg : bytes) : bytes := msg ++ [newline].

(** The fields of [WrappedMessage] that are serialized, under the names of
    their tags. *)
Record WireMessage := {
  message_type : MessageType;
  message_id : string;
  payload : bytes;
}.

#[export] Instance WireMessage_json : Json WireMessage := {|
  json_zero := {| message_type := 0%Z; message_id := ""; payload := [] |};
  json_type := go.struct [go.field_of "message_type" go.int64 message_type;
                          go.field_of "message_id" go.string_ message_id;
                          go.field_of "payload" go.bytes_ payload] eq_refl ltac:(all_fields_set) ltac:(all_sets_typed);
  json_level := ltac:(done);
  json_zero_typed := ltac:(zero_typed);
|}.

Section wire.

Definition to_wire (w : WrappedMessage) : WireMessage :=
  {| message_type := wm_MessageType w; message_id := wm_SessionID w; payload := wm_Payload w |}.

Definition from_wire (w : WireMessage) (from : PeerID) : WrappedMessage :=
  {| wm_MessageType := message_type w; wm_SessionID := message_id w;
     wm_Payload := payload w; wm_From := from |}.

Context `{PeerLib}.

(** *** Receiving

    The loop ends at the first read or decoding error; [fuel] bounds the
    number of messages, each of which takes at least one byte. *)
Fixpoint read_messages (fuel : nat) (r : bytes) : list WireMessage :=
  match fuel with
  | O => []
  | S fuel =>
      match ReadStream r with
      | None => []
      | Some (msgBytes, rest) =>
          match Unmarshal msgBytes with
          | Err _ => []
          | Ok w => w :: read_messages fuel rest
          end
      end
  end.

(** The messages delivered from a stream, with the channels they are sent
    to.  [ms i] is the subscription manager when the [i]th message is
    processed. *)
Definition ProcessMessagesFromStream {chan} (remotePeerID : PeerID)
    (ms : nat → @SessionSubscriptionManager chan) (r : bytes)
    : list (list chan * WrappedMessage) :=
  imap (λ i w, let wrappedMsg := from_wire w remotePeerID in
               (GetSubscribers (ms i) (wm_SessionID wrappedMsg) (wm_MessageType wrappedMsg), wrappedMsg))
    (read_messages (length r) r).

(** ** manager.go

    Streams are identified by numbers. *)
Record StreamManager := { streamsByPeer : gmap PeerID nat }.

Inductive net_action :=
  | NetConnect (peer : PeerID) (addrs : list string)
  | NetNewStream (peer : PeerID) (stream : nat)
  | NetWrite (stream : nat) (data : bytes)
  | NetClose (stream : nat)
  | NetRecordCommSend (peer : string)
  | NetRecordCommDnsResolve.

Definition CloseStream (sm : StreamManager) (peerID : PeerID) : list net_action * StreamManager :=
  match streamsByPeer sm !! peerID with
  | None => ([], sm)
  | Some stream =>
      ([NetClose stream], {| streamsByPeer := delete peerID (streamsByPeer sm) |})
  end.

(** [opened] is what [host.NewStream] answers. *)
Definition Stream (opened : result nat) (sm : StreamManager) (peerID : PeerID)
    : list net_action * StreamManager * result nat :=
  match streamsByPeer sm !! peerID with
  | Some stream => ([], sm, Ok stream)
  | None =>
      match opened with
      | Err e => ([], sm, Err e)
      | Ok stream =>
          ([NetNewStream peerID stream],
           {| streamsByPeer := <[peerID := stream]> (streamsByPeer sm) |}, Ok stream)
      end
  end.

(** ** libp2p.go: what the network answers while one message is sent *)
Record send_env := {
  env_resolver : option error;       (** [madns.NewResolver] *)
  env_addrs : list string;           (** [Peerstore().PeerInfo(peer).Addrs] *)
  env_resolve : string → result (list string);
  env_connect : option error;
  env_new_stream : result nat;
  env_write : option error;          (** printing to the writer *)
  env_flush : option error;
}.

Definition resolveDNS (env : send_env) (peerID : PeerID) : list net_action * option error :=
  match env_resolver env with
  | Some e => ([NetRecordCommDnsResolve], Some e)
  | None =>
      match env_addrs env with
      | [] => ([NetRecordCommDnsResolve],
               Some (Errorf ("peer " +:+ peer_String peerID +:+ " has no defined addresses")))
      | a :: _ =>
          match env_resolve env a with
          | Err e => ([NetRecordCommDnsResolve], Some e)
          | Ok addr => ([NetConnect peerID addr; NetRecordCommDnsResolve], env_connect env)
          end
      end
  end.

(** The error of [WriteStream]. *)
Definition write_result (env : send_env) : option error :=
  match env_write env with
  | Some e => Some e
  | None => match env_flush env with
            | Some e => Some (Wrapf "fail to flush stream: " e)
            | None => None
            end
  end.

Definition sendMessage (env : send_env) (sm : StreamManager) (to : PeerID) (msg : bytes)
    : list net_action * StreamManager * option error :=
  let deferred := [NetRecordCommSend (peer_String to)] in
  let '(acts, err) := resolveDNS env to in
  match err with
  | Some e => (acts ++ deferred, sm, Some e)
  | None =>
      let '(acts1, sm1, stream) := Stream (env_new_stream env) sm to in
      match stream with
      | Err e => (acts ++ acts1 ++ deferred, sm1, Some e)
      | Ok stream =>
          match write_result env with
          | Some e =>
              let '(acts2, sm2) := CloseStream sm1 to in
              (acts ++ acts1 ++ acts2 ++ deferred, sm2, Some e)
          | None =>
              (acts ++ acts1 ++ [NetWrite stream (WriteStream msg)] ++ deferred, sm1, None)
          end
      end
  end.

(** The peers a message is sent to: the host skips itself. *)
Definition broadcast_targets (hostID : PeerID) (peers : list PeerID) : list PeerID :=
  filter (λ p, hostID ≠ p) peers.

(** The goroutines of the pool, in the order in which they finish, and the
    first error. *)
Fixpoint run_sends (env : PeerID → send_env) (sm : StreamManager) (msg : bytes)
    (schedule : list PeerID) : list net_action * StreamManager * option error :=
  match schedule with
  | [] => ([], sm, None)
  | peerID :: rest =>
      let '(acts, sm1, err) := sendMessage (env peerID) sm peerID msg in
      let '(acts', sm2, err') := run_sends env sm1 msg rest in
      (acts ++ acts', sm2,
       match err with Some e => Some (CommunicationError peerID e) | None => err' end)
  end.

(** [Broadcast]; [schedule] is an ordering of its targets. *)
Definition Broadcast (env : PeerID → send_env) (sm : StreamManager) (msg : bytes)
    (msgType : MessageType) (sessionID : string) (schedule : list PeerID)
    : list net_action * StreamManager * option error :=
  match Marshal {| message_type := msgType; message_id := sessionID; payload := msg |} with
  | Err e => ([], sm, Some e)
  | Ok marshaledMsg => run_sends env sm marshaledMsg schedule
  end.

(** ** src/comm/health.go and src/jobs/jobs.go

    [results] are the errors of the broadcasts to each peer; the assertion
    that an error is a [CommunicationError] panics otherwise. *)
Fixpoint ExecuteCommHealthCheck (results : list (option error)) : outcome (list (PeerID * error)) :=
  match results with
  | [] => Done []
  | None :: rest => ExecuteCommHealthCheck rest
  | Some (CommunicationError p e) :: rest =>
      errors ← ExecuteCommHealthCheck rest; Done ((p, e) :: errors)
  | Some _ :: _ => Panic "interface conversion"
  end.

(** [TrackRelayerStatus] (src/metrics/mpc.go): total and available. *)
Definition TrackRelayerStatus (unavailable all : list PeerID) : Z * Z :=
  (Z.of_nat (length all), (Z.of_nat (length all) - Z.of_nat (length unavailable))%Z).

(** One round of [StartCommunicationHealthCheckJob] over the peers [all]:
    the total and the available relayers. *)
Definition health_check_round (results : list (option error)) (all : list PeerID) : outcome (Z * Z) :=
  communicationErrors ← ExecuteCommHealthCheck results;
  Done (TrackRelayerStatus communicationErrors.*1 all).

Lemma health_check_available results all total available :
  length results = length all →
  health_check_round results all = Done (total, available) →
  total = Z.of_nat (length all) ∧ available = Z.of_nat (length (filter (λ r, r = None) results)).
Proof.
  intros Hlen. rw /health_check_round. destruct (ExecuteCommHealthCheck results) as [errs|] eqn:E; [|done].
  intros [= <- <-]. split; [done|]. rw -Hlen. clear Hlen all. rw length_fmap.
  revert errs E. induction results as [|[e|] results IH]; intros errs; [by intros [= <-]| |];
    rw filter_cons; case_decide; try done; simpl.
  - destruct e; try done. destruct (ExecuteCommHealthCheck results) as [errs'|]; [|done].
    intros [= <-]. specialize (IH errs' eq_refl). simpl. lia.
  - intros E. specialize (IH errs E). lia.
Qed.

(** ** gater.go and host.go *)
Definition InterceptPeerDial (topology : NetworkTopology) (p : PeerID) : bool :=
  IsAllowedPeer topology p.
Definition InterceptSecured (topology : NetworkTopology) (p : PeerID) : bool :=
  IsAllowedPeer topology p.

Inductive peerstore_action :=
  | RemovePeer (p : PeerID)
  | ClearAddrs (p : PeerID)
  | AddAddr (p : PeerID) (addr : string).

Fixpoint add_peers (peers : list AddrInfo) : io peerstore_action unit :=
  match peers with
  | [] => mret tt
  | p :: peers' =>
      match ai_Addrs p with
      | [] => panic "index out of range"
      | a :: _ => emit (AddAddr (ai_ID p) a) ≫= λ _, add_peers peers'
      end
  end.

Definition LoadPeers (current : list PeerID) (peers : list AddrInfo) : io peerstore_action unit :=
  (concat ((λ p, [RemovePeer p; ClearAddrs p]) <$> current), Done tt) ≫= λ _, add_peers peers.

(** [privKey] is nil or a key; [New] is [libp2p.New], given the address to
    listen on, the identity and the gate: the host and the peers of its
    peerstore. *)
Definition NewHost {K} (New : string → K → NetworkTopology → result (PeerID * list PeerID))
    (privKey : option K) (networkTopology gate : NetworkTopology) (port : Z)
    : io peerstore_action (result PeerID) :=
  match privKey with
  | None => mret (Err (Errorf "unable to create libp2p host: private key not defined"))
  | Some key =>
      match New ("/ip4/0.0.0.0/tcp/" +:+ fmt_d port) key gate with
      | Err e => mret (Err (Errorf ("unable to create libp2p host: " +:+ error_string e)))
      | Ok (h, current) => LoadPeers current (nt_Peers networkTopology) ≫= λ _, mret (Ok h)
      end
  end.

(** The other decisions of the gate. *)
Definition InterceptAddrDial (topology : NetworkTopology) (p : PeerID) : bool := true.
Definition InterceptAccept (topology : NetworkTopology) : bool := true.
Definition InterceptUpgraded (topology : NetworkTopology) : bool := true.

(** ** The communication of a relayer (libp2p.go) *)
Record Libp2pCommunication {chan : Type} := {
  lc_subscriptions : @SessionSubscriptionManager chan;
  lc_streamManager : StreamManager;
}.

Definition NewStreamManager : StreamManager := {| streamsByPeer := ∅ |}.

(** It also becomes the handler of the host's incoming streams. *)
Definition NewCommunication {chan} : @Libp2pCommunication chan :=
  {| lc_subscriptions := NewSessionSubscriptionManager; lc_streamManager := NewStreamManager |}.

Definition Subscribe {chan} (c : @Libp2pCommunication chan) (s : string) (t : MessageType)
    (channel : chan) (now : Z) : SubscriptionID.t * @Libp2pCommunication chan :=
  let '(subID, ms) := SubscribeTo (lc_subscriptions c) s t channel now in
  (subID, {| lc_subscriptions := ms; lc_streamManager := lc_streamManager c |}).

Definition UnSubscribe {chan} (c : @Libp2pCommunication chan) (subID : SubscriptionID.t)
    : @Libp2pCommunication chan :=
  {| lc_subscriptions := UnSubscribeFrom (lc_subscriptions c) subID;
     lc_streamManager := lc_streamManager c |}.

(** An incoming stream is closed when it has been read. *)
Definition StreamHandlerFunc {chan} (remotePeerID : PeerID) (c : nat → @Libp2pCommunication chan)
    (stream : nat) (r : bytes) : list (list chan * WrappedMessage) * list net_action :=
  (ProcessMessagesFromStream remotePeerID (λ i, lc_subscriptions (c i)) r, [NetClose stream]).

(** ** Framing *)
Definition newline_free (b : bytes) : Prop := newline ∉ b.

Lemma ReadString_app msg rest :
  newline_free msg → ReadString newline (msg ++ newline :: rest) = Some (msg ++ [newline], rest).
Proof.
  rw /newline_free. induction msg as [|c msg IH]; simpl; intros Hf.
  { done. }
  apply not_elem_of_cons in Hf as [Hc Hf]. rewrite bool_decide_false; [|congruence]. by rw IH.
Qed.

Lemma string_of_cons c b : string_of (c :: b) = String (ascii_of_byte c) (string_of b).
Proof. done. Qed.

Lemma string_of_app a b : string_of (a ++ b) = string_of a +:+ string_of b.
Proof.
  induction a as [|c a IH]; [done|]. simpl. rw !string_of_cons IH. done.
Qed.

Lemma free_string_of b : newline_free b → strings.free "010" (string_of b) = true.
Proof.
  rw /newline_free. induction b as [|c b IH]; [done|]. intros [Hc Hb]%not_elem_of_cons.
  rw string_of_cons /= IH // andb_true_r bool_decide_true //.
  intros Heq. apply Hc. apply (f_equal byte_of_ascii) in Heq.
  by rw byte_of_ascii_of_byte in Heq.
Qed.

(** A message without a newline is read back, and the stream goes on after
    it. *)
Lemma ReadStream_WriteStream msg rest :
  newline_free msg → ReadStream (WriteStream msg ++ rest) = Some (msg, rest).
Proof.
  intros Hf. rw /ReadStream /WriteStream -app_assoc /= ReadString_app //=.
  rw string_of_app bool_decide_false; [|by destruct (string_of msg)].
  rw (strings.Trim_snoc "010") ?bytes_of_string_of //. by apply free_string_of.
Qed.

Lemma length_WriteStream msg : length (WriteStream msg) = S (length msg).
Proof. rw /WriteStream length_app /=. lia. Qed.

Lemma read_messages_frames fuel (ws : list WireMessage) (frames : list bytes) :
  Forall2 (λ w b, json_wf w ∧ Marshal w = Ok b) ws frames →
  length (concat (WriteStream <$> frames)) ≤ fuel →
  read_messages fuel (concat (WriteStream <$> frames)) = ws.
Proof.
  intros HF. revert fuel. induction HF as [|w b ws frames [Hwf Hw] _ IH]; intros fuel Hfuel.
  { by destruct fuel. }
  assert (newline_free b) as Hfree by (injection Hw as <-; apply json_Marshal_newline_free). rw fmap_cons concat_cons length_app length_WriteStream in Hfuel.
  destruct fuel as [|fuel]; [lia|]. rw /= ReadStream_WriteStream //.
  injection Hw as <-. rw json_Unmarshal_Marshal //. f_equal. apply IH. lia.
Qed.

(** What one relayer writes to a stream the other relayer's subscribers
    get, message by message and in order, each message going to the channels
    subscribed to its session and type, with the connection's peer as its
    sender, whatever the message says. *)
Theorem stream_delivers {chan} (remotePeerID : PeerID)
    (ms : nat → @SessionSubscriptionManager chan)
    (ws : list WireMessage) (frames : list bytes) :
  Forall2 (λ w b, (- 2 ^ 63 ≤ message_type w < 2 ^ 63)%Z ∧ utf8.Valid (message_id w) = true ∧
                  Marshal w = Ok b) ws frames →
  ProcessMessagesFromStream remotePeerID ms (concat (WriteStream <$> frames)) =
  imap (λ i w, (GetSubscribers (ms i) (message_id w) (message_type w), from_wire w remotePeerID)) ws.
Proof.
  intros HF. assert (Forall2 (λ w b, json_wf w ∧ Marshal w = Ok b) ws frames).
  { eapply Forall2_impl; [done|]. intros w b (? & ? & ?). split; [by wf_fields|done]. }
  rw /ProcessMessagesFromStream (read_messages_frames _ ws) //.
Qed.

(** What a peer makes of one message on a stream. *)
Lemma one_message_delivered {chan} remote (ms : nat → @SessionSubscriptionManager chan)
    (w : WireMessage) :
  json_wf w →
  ProcessMessagesFromStream remote ms (WriteStream (json_Marshal w)) =
  [(GetSubscribers (ms 0) (message_id w) (message_type w), from_wire w remote)].
Proof.
  intros Hw. set (frames := [json_Marshal w]).
  assert (WriteStream (json_Marshal w) = concat (WriteStream <$> frames)) as -> by by rw /= app_nil_r.
  rw /ProcessMessagesFromStream (read_messages_frames _ [w]) //. apply Forall2_cons. split; [done|by apply Forall2_nil].
Qed.

(** ** Streams *)
Definition opened (acts : list net_action) : list nat :=
  omap (λ a, match a with NetNewStream _ s => Some s | _ => None end) acts.
Definition closed (acts : list net_action) : list nat :=
  omap (λ a, match a with NetClose s => Some s | _ => None end) acts.
Definition recorded (acts : list net_action) : list string :=
  omap (λ a, match a with NetRecordCommSend p => Some p | _ => None end) acts.
Definition cached (sm : StreamManager) : list nat := (map_to_list (streamsByPeer sm)).*2.

Lemma cached_insert p s m :
  m !! p = None → cached {| streamsByPeer := <[p := s]> m |} ≡ₚ s :: cached {| streamsByPeer := m |}.
Proof. intros Hp. rw /cached /= map_to_list_insert //. Qed.

Lemma cached_delete p s m :
  m !! p = Some s → s :: cached {| streamsByPeer := delete p m |} ≡ₚ cached {| streamsByPeer := m |}.
Proof. intros Hp. rw /cached /= -(map_to_list_delete m p s) //. Qed.

Lemma resolveDNS_trace env p :
  let acts := (resolveDNS env p).1 in opened acts = [] ∧ closed acts = [] ∧ recorded acts = [].
Proof. rw /resolveDNS. by repeat case_match. Qed.

Lemma opened_app l k : opened (l ++ k) = opened l ++ opened k.
Proof. apply omap_app. Qed.
Lemma closed_app l k : closed (l ++ k) = closed l ++ closed k.
Proof. apply omap_app. Qed.
Lemma recorded_app l k : recorded (l ++ k) = recorded l ++ recorded k.
Proof. apply omap_app. Qed.

(** The streams opened by a send are closed by it or added to the cache. *)
Lemma sendMessage_streams env sm to msg :
  let '(acts, sm', _) := sendMessage env sm to msg in
  opened acts ++ cached sm ≡ₚ closed acts ++ cached sm' ∧ recorded acts = [peer_String to].
Proof.
  pose proof (resolveDNS_trace env to) as (Ho & Hc & Hr).
  rw /sendMessage. destruct (resolveDNS env to) as [acts0 [e|]]; simpl in *.
  { by rw !opened_app !closed_app !recorded_app Ho Hc Hr. }
  destruct sm as [m]. rw /Stream /=. destruct (m !! to) as [s|] eqn:Es;
    [|destruct (env_new_stream env) as [s|]]; try destruct (write_result env);
    rewrite ?/CloseStream /= ?lookup_insert_eq ?Es /=;
    rw !opened_app !closed_app !recorded_app Ho Hc Hr /=; (split; [|done]).
  - by rw (cached_delete to s).
  - done.
  - by rw delete_insert_eq delete_id.
  - by rw (cached_insert to s).
  - done.
  - done.
Qed.

Lemma run_sends_streams env sm msg schedule :
  let '(acts, sm', _) := run_sends env sm msg schedule in
  opened acts ++ cached sm ≡ₚ closed acts ++ cached sm' ∧ recorded acts = peer_String <$> schedule.
Proof.
  revert sm. induction schedule as [|p rest IH]; intros sm; [done|]. simpl.
  pose proof (sendMessage_streams (env p) sm p msg) as Hs.
  destruct (sendMessage (env p) sm p msg) as [[acts sm1] err]. specialize (IH sm1).
  destruct (run_sends env sm1 msg rest) as [[acts' sm2] err']. destruct Hs as [Hs Hr], IH as [IHs IHr].
  rw opened_app closed_app recorded_app Hr IHr. split; [|done].
  rewrite (Permutation_app_comm (opened acts)) -app_assoc Hs.
  rewrite Permutation_app_swap_app IHs. by rewrite app_assoc.
Qed.

(** A sequence of broadcasts. *)
Fixpoint run_broadcasts (sm : StreamManager)
    (bs : list ((PeerID → send_env) * bytes * MessageType * string * list PeerID))
    : list net_action * StreamManager :=
  match bs with
  | [] => ([], sm)
  | (env, msg, msgType, sessionID, schedule) :: bs' =>
      let '(acts, sm1, _) := Broadcast env sm msg msgType sessionID schedule in
      let '(acts', sm2) := run_broadcasts sm1 bs' in (acts ++ acts', sm2)
  end.

(** Streams are not leaked: over any sequence of broadcasts, each stream
    that was ever opened has been closed or is the cached stream of its
    peer, where the next message to that peer finds it. *)
Theorem streams_not_leaked (bs : list ((PeerID → send_env) * bytes * MessageType * string * list PeerID)) :
  let '(acts, sm) := run_broadcasts {| streamsByPeer := ∅ |} bs in
  opened acts ≡ₚ closed acts ++ cached sm.
Proof.
  assert (∀ sm0, let '(acts, sm) := run_broadcasts sm0 bs in
    opened acts ++ cached sm0 ≡ₚ closed acts ++ cached sm) as Hgen.
  { induction bs as [|[[[[env msg] t] sid] schedule] bs' IH]; intros sm0; [by simpl|]. simpl.
    rw /Broadcast. destruct (Marshal _) as [b|]; simpl; last first.
    { specialize (IH sm0). by destruct (run_broadcasts sm0 bs'). }
    pose proof (run_sends_streams env sm0 b schedule) as Hs.
    destruct (run_sends env sm0 b schedule) as [[acts sm1] err]. destruct Hs as [Hs _].
    specialize (IH sm1). destruct (run_broadcasts sm1 bs') as [acts' sm2].
    rw opened_app closed_app.
    rewrite (Permutation_app_comm (opened acts)) -app_assoc Hs.
    rewrite Permutation_app_swap_app IH. by rewrite app_assoc. }
  specialize (Hgen {| streamsByPeer := ∅ |}). destruct (run_broadcasts _ bs) as [acts sm].
  rw /cached /= map_to_list_empty app_nil_r in Hgen. done.
Qed.

(** ** Broadcast *)
Definition send_fails (env : PeerID → send_env) (p : PeerID) (e : error) : Prop :=
  ∃ sm msg, (sendMessage (env p) sm p msg).2 = Some e.

Lemma run_sends_error env sm msg schedule e :
  (run_sends env sm msg schedule).2 = Some e →
  ∃ p cause, p ∈ schedule ∧ e = CommunicationError p cause ∧ send_fails env p cause.
Proof.
  revert sm. induction schedule as [|p rest IH]; intros sm; [done|]. simpl.
  destruct (sendMessage (env p) sm p msg) as [[acts sm1] err] eqn:E. specialize (IH sm1).
  destruct (run_sends env sm1 msg rest) as [[acts' sm2] err']. simpl in *.
  destruct err as [c|].
  - intros [= <-]. exists p, c. split_and!; [by left|done|]. exists sm, msg. by rw E.
  - intros Heq. destruct (IH Heq) as (q & c & ? & ? & ?). exists q, c. split_and!; [by right|done..].
Qed.

(** A broadcast that succeeds has written the message to every peer. *)
Lemma run_sends_writes env sm msg schedule acts sm' p :
  run_sends env sm msg schedule = (acts, sm', None) → p ∈ schedule →
  ∃ stream, NetWrite stream (WriteStream msg) ∈ acts.
Proof.
  revert sm acts sm'. induction schedule as [|q rest IH]; intros sm acts sm'; [by intros _ ?%not_elem_of_nil|].
  simpl. destruct (sendMessage (env q) sm q msg) as [[acts1 sm1] err] eqn:Es.
  destruct (run_sends env sm1 msg rest) as [[acts2 sm2] err'] eqn:Er. destruct err; [done|].
  intros [= <- <- ->] [->|Hp]%elem_of_cons.
  - rw /sendMessage in Es. destruct (resolveDNS _ _) as [? [|]]; [done|].
    destruct (Stream _ _ _) as [[? ?] [stream|]]; [|done].
    destruct (write_result _); [by destruct (CloseStream _ _)|]. injection Es as <- <-.
    exists stream. rw !elem_of_app. left. right. right. left.
  - destruct (IH _ _ _ Er Hp) as [stream Hs]. exists stream. apply elem_of_app. by right.
Qed.

(** A broadcast attempts a send to every peer but the host, exactly once
    each and whatever the other sends do; its error is a communication error
    of one of those peers with the cause of that peer's failure, so that a
    failing peer neither hides nor stops the others. *)
Theorem Broadcast_attempts_all (env : PeerID → send_env) (sm : StreamManager) (msg b : bytes)
    (msgType : MessageType) (sessionID : string) (hostID : PeerID) (peers schedule : list PeerID) :
  schedule ≡ₚ broadcast_targets hostID peers →
  Marshal {| message_type := msgType; message_id := sessionID; payload := msg |} = Ok b →
  let '(acts, sm', err) := Broadcast env sm msg msgType sessionID schedule in
  recorded acts ≡ₚ peer_String <$> filter (λ p, p ≠ hostID) peers ∧
  (∀ e, err = Some e → ∃ p cause, p ∈ peers ∧ p ≠ hostID ∧
     e = CommunicationError p cause ∧ send_fails env p cause).
Proof.
  intros Hsch Hm. rw /Broadcast Hm.
  pose proof (run_sends_streams env sm b schedule) as Hs.
  pose proof (run_sends_error env sm b schedule) as He.
  destruct (run_sends env sm b schedule) as [[acts sm'] err]. destruct Hs as [_ ->]. split.
  - rw Hsch /broadcast_targets. by rewrite (filter_ext_in _ (λ p, p ≠ hostID)).
  - intros e ->. destruct (He e eq_refl) as (p & cause & Hp & ? & ?).
    rw Hsch in Hp. apply list_elem_of_filter in Hp as [??]. exists p, cause. by split_and!.
Qed.
End wire.

#[export] Instance WireMessage_eq_dec : EqDecision WireMessage.
Proof. solve_decision. Defined.

Section witnesses.
Import Toy.
Definition demo_message : WireMessage :=
  {| message_type := TssReadyMsg; message_id := "s"; payload := [] |}.

Lemma stream_delivers_witness :
  ProcessMessagesFromStream (chan := nat) "peer" (λ _, NewSessionSubscriptionManager)
    (WriteStream (json_Marshal demo_message) ++ []) =
  [([], from_wire demo_message "peer")].
Proof.
  apply (stream_delivers (chan := nat) "peer" (λ _, NewSessionSubscriptionManager) [demo_message]
    [json_Marshal demo_message]).
  repeat constructor; discriminate.
Defined.

Definition demo_env (p : PeerID) : send_env := {|
  env_resolver := None; env_addrs := if bool_decide (p = "c") then [] else ["/dns4/x"];
  env_resolve a := Ok [a]; env_connect := None; env_new_stream := Ok 1;
  env_write := None; env_flush := None |}.

Lemma Broadcast_attempts_all_witness :
  let '(acts, _, err) := Broadcast demo_env {| streamsByPeer := ∅ |} [] TssStartMsg "s" ["c"; "b"] in
  recorded acts ≡ₚ ["b"; "c"].
Proof.
  pose proof (Broadcast_attempts_all demo_env {| streamsByPeer := ∅ |} []
    (json_Marshal {| message_type := TssStartMsg; message_id := "s"; payload := [] |})
    TssStartMsg "s" "a" ["a"; "b"; "c"] ["c"; "b"]) as Hb.
  destruct (Broadcast demo_env {| streamsByPeer := ∅ |} [] TssStartMsg "s" ["c"; "b"]) as [[acts sm] err].
  apply Hb; [|reflexivity]. apply (Permutation_swap "b" "c" []).
Defined.
End witnesses.
