(* ===== verification/PeerSort.v ===== *)
(** * Ordering peers for a session (src/tss/util, src/comm/elector)

    Every relayer computes on its own which peer coordinates a session, and
    the coordinator which of the ready peers sign: both sort peers by a hash
    of peer and session, in descending order. *)
From S2P Require Import Prelude GoStd Libs.

Section sort.
Context `{PeerLib, Keccak}.

Record PeerMsg := { ID : PeerID; SessionID : string }.

(** The number compared by [SortablePeerSlice.Less]. *)
Definition sort_key (p : PeerMsg) : Z :=
  binary.BigEndian_Uint64 (Keccak256 (bytes_of (peer_String (ID p)) ++ bytes_of (SessionID p))).

Definition Less (p q : PeerMsg) : bool := (sort_key q <? sort_key p)%Z.

Definition GetPeerIDs (sps : list PeerMsg) : list PeerID := ID <$> sps.

(** [sort.Sort] on a [SortablePeerSlice].  The library leaves the order of
    equal elements open; this is its insertion sort (used up to length 12),
    and [sorted_unique] below shows that with distinct keys every sorting
    algorithm gives the same slice. *)
Fixpoint insert_sorted (p : PeerMsg) (l : list PeerMsg) : list PeerMsg :=
  match l with
  | [] => [p]
  | q :: l' => if Less p q then p :: l else q :: insert_sorted p l'
  end.

Definition Sort (l : list PeerMsg) : list PeerMsg := foldl (λ acc p, insert_sorted p acc) [] l.

Definition SortPeersForSession (peers : list PeerID) (sessionID : string) : list PeerMsg :=
  Sort ((λ p, {| ID := p; SessionID := sessionID |}) <$> peers).

(** [IsParticipant] compares the printed IDs. *)
Definition IsParticipant (p : PeerID) (peers : list PeerID) : bool :=
  existsb (λ q, bool_decide (peer_String q = peer_String p)) peers.

(** The static elector ([CoordinatorElectorFactory.CoordinatorElector] with
    [Static] builds nothing else): the first peer of the sorted slice. *)
Definition Coordinator (sessionID : string) (peers : list PeerID) : PeerID :=
  match SortPeersForSession peers sessionID with
  | [] => ""
  | p :: _ => ID p
  end.

(** ** The order *)
Definition key_ge (p q : PeerMsg) : Prop := (sort_key q ≤ sort_key p)%Z.

#[local] Instance key_ge_trans : Transitive key_ge.
Proof. rw /key_ge. intros x y z ??. lia. Qed.

Lemma insert_sorted_perm p l : insert_sorted p l ≡ₚ p :: l.
Proof.
  induction l as [|q l IH]; simpl; [done|]. case_match; [done|].
  rw IH. apply Permutation_swap.
Qed.

Lemma foldl_insert_perm l acc : foldl (λ a p, insert_sorted p a) acc l ≡ₚ l ++ acc.
Proof.
  revert acc. induction l as [|p l IH]; simpl; intros acc; [done|].
  rw IH insert_sorted_perm. by rw Permutation_middle.
Qed.

Lemma Sort_perm l : Sort l ≡ₚ l.
Proof. rw /Sort foldl_insert_perm. by rw app_nil_r. Qed.

Lemma insert_sorted_sorted p l :
  StronglySorted key_ge l → StronglySorted key_ge (insert_sorted p l).
Proof.
  induction 1 as [|q l Hl IH Hq]; simpl; [by repeat constructor|].
  rw /Less. case_match eqn:E.
  - constructor; [by constructor|]. constructor; [rw /key_ge; lia|].
    eapply Forall_impl; [exact Hq|]. rw /key_ge. intros; lia.
  - constructor; [done|]. rw insert_sorted_perm. constructor; [|done]. rw /key_ge. lia.
Qed.

Lemma Sort_sorted l : StronglySorted key_ge (Sort l).
Proof.
  rw /Sort. assert (StronglySorted key_ge []) as H1 by constructor. revert H1.
  generalize (@nil PeerMsg). induction l as [|p l IH]; simpl; intros acc Hacc; [done|].
  by apply IH, insert_sorted_sorted.
Qed.

(** Peers of the slice with equal keys are the same. *)
Definition keys_distinct (l : list PeerMsg) : Prop :=
  ∀ p q, p ∈ l → q ∈ l → sort_key p = sort_key q → p = q.

Lemma sorted_unique l l1 l2 :
  keys_distinct l → l1 ≡ₚ l → l2 ≡ₚ l →
  StronglySorted key_ge l1 → StronglySorted key_ge l2 → l1 = l2.
Proof.
  intros Hd H1 H2 Hs1 Hs2. eapply (StronglySorted_unique_strong key_ge); [|done..|by rw H1].
  intros x y Hx Hy Hxy Hyx. apply Hd; [by rw -H1|by rw -H2|]. rw /key_ge in Hxy Hyx. lia.
Qed.

Lemma IsParticipant_spec p peers : IsParticipant p peers = true ↔ p ∈ peers.
Proof.
  rw /IsParticipant existsb_exists. split.
  - intros (q & Hq & Heq%bool_decide_eq_true). apply (inj peer_String) in Heq as ->.
    by apply list_elem_of_In.
  - intros Hp. exists p. by rw -list_elem_of_In bool_decide_true.
Qed.

(** No two of these peers have the same 64-bit key in this session. *)
Definition no_collision (sessionID : string) (peers : list PeerID) : Prop :=
  ∀ p q, p ∈ peers → q ∈ peers →
    sort_key {| ID := p; SessionID := sessionID |} = sort_key {| ID := q; SessionID := sessionID |} →
    p = q.

Lemma keys_distinct_fmap sessionID peers :
  no_collision sessionID peers →
  keys_distinct ((λ p, {| ID := p; SessionID := sessionID |}) <$> peers).
Proof.
  intros Hn p q (p' & -> & Hp)%list_elem_of_fmap (q' & -> & Hq)%list_elem_of_fmap Hk.
  f_equal. by apply Hn.
Qed.

(** The slice depends on the set of peers, not on the order a relayer's
    peerstore lists them in. *)
Lemma SortPeersForSession_perm sessionID l1 l2 :
  no_collision sessionID l1 → l1 ≡ₚ l2 →
  SortPeersForSession l1 sessionID = SortPeersForSession l2 sessionID.
Proof.
  intros Hn Hp. apply keys_distinct_fmap in Hn. eapply sorted_unique; [exact Hn|..].
  - apply Sort_perm.
  - rw /SortPeersForSession Sort_perm. by rw Hp.
  - apply Sort_sorted.
  - apply Sort_sorted.
Qed.

Lemma GetPeerIDs_SortPeersForSession sessionID peers :
  GetPeerIDs (SortPeersForSession peers sessionID) ≡ₚ peers.
Proof.
  rw /GetPeerIDs /SortPeersForSession Sort_perm -list_fmap_compose.
  by rw (list_fmap_id peers).
Qed.

Lemma Coordinator_elem_of sessionID peers :
  peers ≠ [] → Coordinator sessionID peers ∈ peers.
Proof.
  intros Hne. pose proof (GetPeerIDs_SortPeersForSession sessionID peers) as Hp.
  rw /Coordinator. destruct (SortPeersForSession peers sessionID) as [|p l].
  - by apply Permutation_nil_l in Hp.
  - rw -Hp. by left.
Qed.

Lemma Coordinator_max sessionID peers p :
  p ∈ peers →
  (sort_key {| ID := p; SessionID := sessionID |} ≤
   sort_key {| ID := Coordinator sessionID peers; SessionID := sessionID |})%Z.
Proof.
  intros Hp. set (mk := λ p, {| ID := p; SessionID := sessionID |}).
  assert (mk p ∈ SortPeersForSession peers sessionID) as Hin.
  { rw /SortPeersForSession Sort_perm. by apply list_elem_of_fmap_2. }
  assert (∀ q, q ∈ SortPeersForSession peers sessionID → q = mk (ID q)) as Hmk.
  { intros q. rw /SortPeersForSession Sort_perm.
    by intros (q' & -> & _)%list_elem_of_fmap. }
  pose proof (Sort_sorted (mk <$> peers)) as Hs. rw -/(SortPeersForSession peers sessionID) in Hs.
  rw /Coordinator. destruct (SortPeersForSession peers sessionID) as [|q l]; [by apply not_elem_of_nil in Hin|].
  change (sort_key (mk p) ≤ sort_key (mk (ID q)))%Z. rewrite <-(Hmk q) by by left.
  apply StronglySorted_inv in Hs as [_ Hq]. apply elem_of_cons in Hin as [->|Hin]; [done|].
  rewrite Forall_forall in Hq. by apply Hq.
Qed.

(** Any two relayers that see the same set of peers for a session elect
    the same coordinator, whatever order their peerstores return it in; the
    coordinator is one of the peers and has the greatest key. *)
Theorem Coordinator_agreement (sessionID : string) (peers1 peers2 : list PeerID) :
  no_collision sessionID peers1 → peers1 ≡ₚ peers2 → peers1 ≠ [] →
  Coordinator sessionID peers1 = Coordinator sessionID peers2 ∧
  Coordinator sessionID peers1 ∈ peers1 ∧
  ∀ p, p ∈ peers1 →
    (sort_key {| ID := p; SessionID := sessionID |} ≤
     sort_key {| ID := Coordinator sessionID peers1; SessionID := sessionID |})%Z.
Proof.
  intros Hn Hp Hne. split_and!.
  - by rw /Coordinator (SortPeersForSession_perm _ _ _ Hn Hp).
  - by apply Coordinator_elem_of.
  - apply Coordinator_max.
Qed.

(** Sorting for a session is determined by its contract: any
    rearrangement of the peers that is ordered by [Less] is the result, so
    the choice of sorting algorithm is immaterial. *)
Theorem SortPeersForSession_unique (sessionID : string) (peers : list PeerID)
    (l : list PeerMsg) :
  no_collision sessionID peers →
  l ≡ₚ ((λ p, {| ID := p; SessionID := sessionID |}) <$> peers) →
  (∀ i j p q, i < j → l !! i = Some p → l !! j = Some q → Less q p = false) →
  l = SortPeersForSession peers sessionID.
Proof.
  intros Hn Hp Hl. eapply sorted_unique; [by apply keys_distinct_fmap|exact Hp|apply Sort_perm| |apply Sort_sorted].
  clear Hp Hn. induction l as [|p l IH]; constructor.
  - apply IH. intros i j x y Hij Hi Hj. by apply (Hl (S i) (S j)); [lia|..].
  - apply Forall_forall. intros q [j Hj]%list_elem_of_lookup.
    specialize (Hl 0 (S j) p q ltac:(lia) eq_refl Hj). rw /Less in Hl. rw /key_ge. lia.
Qed.
End sort.

Lemma Coordinator_agreement_witness :
  Coordinator (H := Toy.peer_lib) (H0 := Toy.keccak) "s" ["p1"; "p2"; "p3"] =
  Coordinator (H := Toy.peer_lib) (H0 := Toy.keccak) "s" ["p3"; "p1"; "p2"].
Proof.
  refine (proj1 (Coordinator_agreement (H := Toy.peer_lib) (H0 := Toy.keccak)
    "s" ["p1"; "p2"; "p3"] ["p3"; "p1"; "p2"] _ _ _)).
  - intros p q Hp Hq. elem_cases Hp; elem_cases Hq; vm_compute; done.
  - symmetry. apply (Permutation_cons_append ["p1"; "p2"] "p3").
  - done.
Defined.

Lemma SortPeersForSession_unique_witness :
  [{| ID := "p2"; SessionID := "s" |}; {| ID := "p1"; SessionID := "s" |}] =
  SortPeersForSession (H := Toy.peer_lib) (H0 := Toy.keccak) ["p1"; "p2"] "s".
Proof.
  apply (SortPeersForSession_unique (H := Toy.peer_lib) (H0 := Toy.keccak)).
  - intros p q Hp Hq. elem_cases Hp; elem_cases Hq; vm_compute; done.
  - apply Permutation_swap.
  - intros [|[|i]] [|[|j]] p q Hij Hi Hj; simplify_eq/=; try lia; reflexivity.
Defined.
