(* ===== verification/TssCommon.v ===== *)
(** * What all tss processes share (src/tss/ecdsa/common, src/tss/message)

    [utils.go]: conversions between peers and parties, peer set operations;
    [base.go]: the party store and the handling of one inbound and one
    outbound message; [tss/message]: the payloads on the wire. *)
From S2P Require Import Prelude GoStd Encoding Json Libs JsonCodec Comm.

(** ** src/tss/message/message.go *)
Record TssMessage := { MsgBytes : bytes; IsBroadcast : bool }.
Record StartMessage := { Params : bytes }.
Record SignatureMessage := { Signature : bytes; sm_ID : string }.

#[export] Instance StartMessage_eq_dec : EqDecision StartMessage.
Proof. solve_decision. Defined.
#[export] Instance TssMessage_eq_dec : EqDecision TssMessage.
Proof. solve_decision. Defined.
#[export] Instance SignatureMessage_eq_dec : EqDecision SignatureMessage.
Proof. solve_decision. Defined.

(** Their struct tags. *)
#[export] Instance TssMessage_json : Json TssMessage := {|
  json_zero := {| MsgBytes := []; IsBroadcast := false |};
  json_type := go.struct [go.field_of "msgBytes" go.bytes_ MsgBytes;
                          go.field_of "isBroadcast" go.bool_ IsBroadcast] eq_refl
                 ltac:(all_fields_set) ltac:(all_sets_typed);
  json_level := ltac:(done);
  json_zero_typed := ltac:(zero_typed);
|}.

#[export] Instance StartMessage_json : Json StartMessage := {|
  json_zero := {| Params := [] |};
  json_type := go.struct [go.field_of "params" go.bytes_ Params] eq_refl ltac:(all_fields_set) ltac:(all_sets_typed);
  json_level := ltac:(done);
  json_zero_typed := ltac:(zero_typed);
|}.

#[export] Instance SignatureMessage_json : Json SignatureMessage := {|
  json_zero := {| Signature := []; sm_ID := "" |};
  json_type := go.struct [go.field_of "signature" go.bytes_ Signature;
                          go.field_of "id" go.string_ sm_ID] eq_refl ltac:(all_fields_set) ltac:(all_sets_typed);
  json_level := ltac:(done);
  json_zero_typed := ltac:(zero_typed);
|}.

Lemma TssMessage_wf (m : TssMessage) : json_wf m.
Proof. by wf_fields. Qed.
Lemma StartMessage_wf (m : StartMessage) : json_wf m.
Proof. by wf_fields. Qed.
Lemma SignatureMessage_wf (m : SignatureMessage) : utf8.Valid (sm_ID m) = true → json_wf m.
Proof. intros. by wf_fields. Qed.
#[export] Hint Resolve TssMessage_wf StartMessage_wf SignatureMessage_wf : go.

Definition MarshalTssMessage (msgBytes : bytes) (isBroadcast : bool) : result bytes :=
  Marshal {| MsgBytes := msgBytes; IsBroadcast := isBroadcast |}.
Definition UnmarshalTssMessage (msgBytes : bytes) : result TssMessage := Unmarshal msgBytes.

Definition MarshalStartMessage (params : bytes) : result bytes :=
  Marshal {| Params := params |}.
Definition UnmarshalStartMessage (msgBytes : bytes) : result StartMessage := Unmarshal msgBytes.

Definition MarshalSignatureMessage (id : string) (signature : bytes) : result bytes :=
  Marshal {| Signature := signature; sm_ID := id |}.
Definition UnmarshalSignatureMessage (msgBytes : bytes) : result SignatureMessage :=
  Unmarshal msgBytes.

(** ** src/tss/ecdsa/common/utils.go *)
Section utils.
Context `{PeerLib, TssLib}.

Definition CreatePartyID (peerID : string) : PartyID :=
  NewPartyID peerID peerID (big.SetBytes (bytes_of peerID)).

(** The loop that decodes each text and stops at the first error. *)
Fixpoint decode_all (ids : list string) : result (list PeerID) :=
  match ids with
  | [] => Ok []
  | id :: ids' =>
      match peer_Decode id with
      | Err e => Err e
      | Ok p => match decode_all ids' with Err e => Err e | Ok ps => Ok (p :: ps) end
      end
  end.

Definition PeersFromParties (parties : list PartyID) : result (list PeerID) :=
  decode_all (party_Id <$> parties).

Definition PeersFromIDS (peerIDS : list string) : result (list PeerID) := decode_all peerIDS.

Definition PartiesFromPeers (peers : list PeerID) : list PartyID :=
  SortPartyIDs ((λ p, CreatePartyID (peer_String p)) <$> peers).

Definition ExcludePeers (peers excludedPeers : list PeerID) : list PeerID :=
  filter (λ p, p ∉ excludedPeers) peers.

Definition PeersIntersection (oldPeers newPeers : list PeerID) : list PeerID :=
  filter (λ p, p ∈ newPeers) oldPeers.

Lemma decode_all_String ps :
  Forall peer_valid ps → decode_all (peer_String <$> ps) = Ok ps.
Proof. induction 1 as [|p ps Hp _ IH]; simpl; [done|]. by rw peer_Decode_String // IH. Qed.

Lemma PartiesFromPeers_Ids peers :
  party_Id <$> PartiesFromPeers peers ≡ₚ peer_String <$> peers.
Proof.
  rw /PartiesFromPeers SortPartyIDs_Ids -list_fmap_compose.
  erewrite list_fmap_ext; [done|]. intros i p _. apply NewPartyID_Id.
Qed.

Lemma length_PartiesFromPeers peers : length (PartiesFromPeers peers) = length peers.
Proof.
  pose proof (PartiesFromPeers_Ids peers) as Hp%Permutation_length.
  by rw !length_fmap in Hp.
Qed.

Lemma decode_all_perm l k ps :
  l ≡ₚ k → decode_all k = Ok ps → ∃ ps', decode_all l = Ok ps' ∧ ps' ≡ₚ ps.
Proof.
  intros Hp. revert ps. induction Hp as [|x l k _ IH|x y l|l1 l2 l3 _ IH1 _ IH2]; simpl; intros ps.
  - intros [= <-]. by exists [].
  - destruct (peer_Decode x) as [q|]; [|done].
    destruct (decode_all k) as [qs|] eqn:E; [|done]. intros [= <-].
    destruct (IH _ eq_refl) as (ps' & -> & Hps). exists (q :: ps').
    split; [done|by constructor].
  - repeat case_match; try done; intros; simplify_eq.
    eexists; split; [done|apply Permutation_swap].
  - intros (ps' & Hl & Hps)%IH2. destruct (IH1 _ Hl) as (ps'' & ? & Hps').
    exists ps''. split; [done|by trans ps'].
Qed.

(** Turning peers into parties and back loses nobody. *)
Lemma PeersFromParties_PartiesFromPeers peers :
  Forall peer_valid peers →
  ∃ ps, PeersFromParties (PartiesFromPeers peers) = Ok ps ∧ ps ≡ₚ peers.
Proof.
  intros Hv. eapply decode_all_perm; [apply PartiesFromPeers_Ids|]. by apply decode_all_String.
Qed.
End utils.

(** ** src/tss/ecdsa/common/base.go *)
Section base.
Context `{PeerLib, TssLib}.

(** The fields of [BaseTss] that change. *)
Record BaseTss := {
  SID : string;
  base_Peers : list PeerID;
  PartyStore : gmap string PartyID;
  Started : bool;
}.

Definition NewBaseTss (sessionID : string) (peers : list PeerID) : BaseTss :=
  {| SID := sessionID; base_Peers := peers; PartyStore := ∅; Started := false |}.

Definition set_Started (b : BaseTss) : BaseTss :=
  {| SID := SID b; base_Peers := base_Peers b; PartyStore := PartyStore b; Started := true |}.

Definition set_peers (b : BaseTss) (peers : list PeerID) (store : gmap string PartyID) : BaseTss :=
  {| SID := SID b; base_Peers := peers; PartyStore := store; Started := Started b |}.

(** [PopulatePartyStore]: a map from party ids. *)
Definition PopulatePartyStore (store : gmap string PartyID) (parties : list PartyID)
    : gmap string PartyID :=
  foldl (λ m party, <[party_Id party := party]> m) store parties.

(** What handling one message does to the world outside the process. *)
Inductive tss_action :=
  (** [Party.UpdateFromBytes(bytes, from, isBroadcast, _)]; [from] is nil for
      a sender that is not a party. *)
  | UpdateFromBytes (wire : bytes) (from : option PartyID) (isBroadcast : bool)
  | Broadcast (peers : list PeerID) (msg : bytes) (t : MessageType) (sessionID : string).

(** The goroutine [ProcessInboundMessages] starts for one message; its
    errors (and panics, which it recovers) are only logged. *)
Definition ProcessInboundMessage (store : gmap string PartyID) (w : WrappedMessage)
    : list tss_action :=
  match UnmarshalTssMessage (wm_Payload w) with
  | Err _ => []
  | Ok msg =>
      [UpdateFromBytes (MsgBytes msg) (store !! peer_String (wm_From w)) (IsBroadcast msg)]
  end.

Definition BroadcastPeers (peers : list PeerID) (msg : TssOutMsg) : result (list PeerID) :=
  if out_IsBroadcast msg then Ok peers else PeersFromParties (out_GetTo msg).

(** The goroutine [ProcessOutboundMessages] starts for one message. *)
Definition ProcessOutboundMessage (self_peers : list PeerID) (sessionID : string)
    (t : MessageType) (msg : TssOutMsg) : list tss_action :=
  match out_WireBytes msg with
  | Err _ => []
  | Ok wireBytes =>
      match MarshalTssMessage wireBytes (out_IsBroadcast msg) with
      | Err _ => []
      | Ok msgBytes =>
          match BroadcastPeers self_peers msg with
          | Err _ => []
          | Ok peers => [Broadcast peers msgBytes t sessionID]
          end
      end
  end.

Lemma lookup_PopulatePartyStore_ne store parties k :
  k ∉ party_Id <$> parties → PopulatePartyStore store parties !! k = store !! k.
Proof.
  revert store. induction parties as [|p ps IH]; simpl; intros store Hk; [done|].
  apply not_elem_of_cons in Hk as [??]. by rw IH // lookup_insert_ne.
Qed.

Lemma lookup_PopulatePartyStore store parties k :
  k ∈ party_Id <$> parties →
  ∃ p, p ∈ parties ∧ party_Id p = k ∧ PopulatePartyStore store parties !! k = Some p.
Proof.
  revert store. induction parties as [|p ps IH]; simpl; intros store Hk; [by apply not_elem_of_nil in Hk|].
  destruct (decide (k ∈ party_Id <$> ps)) as [Hin|Hin].
  - destruct (IH (<[party_Id p := p]> store) Hin) as (q & ? & ? & ?).
    exists q. split_and!; [by right|done..].
  - apply elem_of_cons in Hk as [->|]; [|done]. exists p.
    split_and!; [by left|done|]. by rw lookup_PopulatePartyStore_ne // lookup_insert_eq.
Qed.

(** After the store is filled from a list of peers, every one of them is
    mapped to a party of that list that carries its printed ID. *)
Lemma PopulatePartyStore_peers store peers p :
  p ∈ peers →
  ∃ party, PopulatePartyStore store (PartiesFromPeers peers) !! peer_String p = Some party ∧
           party ∈ PartiesFromPeers peers ∧ party_Id party = peer_String p.
Proof.
  intros Hp. destruct (lookup_PopulatePartyStore store (PartiesFromPeers peers) (peer_String p))
    as (q & ? & ? & ?); [|by exists q].
  rw PartiesFromPeers_Ids. by apply list_elem_of_fmap_2.
Qed.
End base.
