(* ===== verification/Keyshare.v ===== *)
(** * The keyshare file and its lock (src/keyshare/ecdsa.go) *)
From S2P Require Import Prelude GoStd Encoding Json Libs JsonCodec.

(** [Key] is tss-lib's [LocalPartySaveData], which the relayer only passes
    on. *)
Record ECDSAKeyshare (SaveData : Type) := {
  Key : SaveData;
  Threshold : Z;
  Peers : list PeerID;
}.
Arguments Key {_} _.
Arguments Threshold {_} _.
Arguments Peers {_} _.

#[export] Instance ECDSAKeyshare_eq_dec {A} `{EqDecision A} : EqDecision (ECDSAKeyshare A).
Proof. solve_decision. Defined.
(** Its fields, under their Go names. *)
#[export, refine] Instance ECDSAKeyshare_json {SaveData} `{PeerLib, SaveDataJson SaveData} :
    Json (ECDSAKeyshare SaveData) := {|
  json_zero := {| Key := savedata_zero; Threshold := 0; Peers := [] |};
  json_type := go.struct [go.field_of "Key" savedata_type Key;
                          go.field_of "Threshold" go.int64 Threshold;
                          go.field_of "Peers" (go.slice peer_type "" (or_introl eq_refl)) Peers] eq_refl
                 ltac:(all_fields_set) ltac:(all_sets_typed);
|}.
Proof. { pose proof savedata_level. rw /= /json.maxNestingDepth in H1 |- *. lia. } zero_typed. Defined.

Section store.
Context {SaveData : Type} `{PeerLib, SaveDataJson SaveData}.

Definition NewECDSAKeyshare (key : SaveData) (threshold : Z) (peers : list PeerID)
    : ECDSAKeyshare SaveData :=
  {| Key := key; Threshold := threshold; Peers := peers |}.

(** The mutex and the contents of the file, if it exists. *)
Record ECDSAKeyshareStore := {
  mu : bool;
  file : option bytes;
}.

Definition LockKeyshare (ks : ECDSAKeyshareStore) : option ECDSAKeyshareStore :=
  m ← Mutex.Lock (mu ks); Some {| mu := m; file := file ks |}.

Definition UnlockKeyshare (ks : ECDSAKeyshareStore) : outcome ECDSAKeyshareStore :=
  m ← Mutex.Unlock (mu ks); Done {| mu := m; file := file ks |}.

(** The lock is not taken: the processes hold it. *)
Definition StoreKeyshare (fs : fs_answers) (ks : ECDSAKeyshareStore)
    (keyshare : ECDSAKeyshare SaveData) : option error * ECDSAKeyshareStore :=
  let '(err, f) := TruncWrite fs (file ks) (Marshal keyshare) in
  (err, {| mu := mu ks; file := f |}).

Definition GetKeyshare (fs : fs_answers) (ks : ECDSAKeyshareStore)
    : result (ECDSAKeyshare SaveData) :=
  match ReadFile fs (file ks) with
  | Err e => Err (Errorf ("error on reading keyshare file: " +:+ error_string e))
  | Ok kb =>
      match Unmarshal kb with
      | Err e => Err (Errorf ("error on unmarshaling keyshare file: " +:+ error_string e))
      | Ok k => Ok k
      end
  end.

(** A keyshare stored without an error is the one read back, and the
    lock is left as it was. *)
Theorem StoreKeyshare_GetKeyshare (fs fs' : fs_answers) (ks ks' : ECDSAKeyshareStore)
    (k : ECDSAKeyshare SaveData) :
  wf savedata_type (Key k) → (- 2 ^ 63 ≤ Threshold k < 2 ^ 63)%Z → Forall peer_valid (Peers k) →
  StoreKeyshare fs ks k = (None, ks') → read_error fs' = None →
  GetKeyshare fs' ks' = Ok k ∧ mu ks' = mu ks.
Proof.
  intros Hkey Hth Hps Hs Hr. assert (json_wf k) by by wf_fields. rw /StoreKeyshare in Hs.
  destruct (TruncWrite fs (file ks) (Marshal k)) as [err f] eqn:E. injection Hs as -> <-.
  destruct (TruncWrite_ReadFile _ fs' _ _ _ E Hr) as (kb & Hkb & Hread).
  injection Hkb as <-. split; [|done]. by rw /GetKeyshare Hread /= json_Unmarshal_Marshal.
Qed.
End store.

Section witnesses.
Import Toy ToyJson.

Lemma StoreKeyshare_GetKeyshare_witness :
  let fs := {| open_error := None; write_error := None; read_error := None |} in
  let k := {| Key := tt; Threshold := 1; Peers := ["p1"; "p2"] |} in
  GetKeyshare fs {| mu := true; file := Some (json_Marshal k) |} = Ok k.
Proof.
  refine (proj1 (StoreKeyshare_GetKeyshare
    {| open_error := None; write_error := None; read_error := None |}
    {| open_error := None; write_error := None; read_error := None |}
    {| mu := true; file := None |} _ _ _ _ _ eq_refl eq_refl)).
  - by wf_fields.
  - done.
  - by repeat constructor.
Defined.
End witnesses.
