(* ===== verification/TssCoordinator.v ===== *)
(** * The tss coordinator (src/tss/coordinator.go)

    [Execute] guards a session against concurrent execution, starts a pool
    of two goroutines - the coordinating or waiting loop, and the watcher -
    and cleans up when both have returned.  The loops are event-driven
    machines: one step consumes what a [select] received and yields the
    actions performed and, when the loop returns, its result.  A node runs
    many executions at once; their interleaving is the step relation at the
    end. *)
From S2P Require Import Prelude GoStd Encoding Json Libs JsonCodec Comm PeerSort TssCommon.

(** The [TssProcess] interface: what the coordinator asks a process without
    changing it.  Its effects, [Run] and [Stop], are actions below. *)
Record TssProcess := {
  tp_SessionID : string;
  tp_Ready : list PeerID → list PeerID → result bool;
  tp_StartParams : list PeerID → bytes;
  tp_ValidCoordinators : list PeerID;
}.

Inductive action :=
  | ActSubscribe (sid : string) (t : MessageType)
  | ActUnSubscribe (sid : string) (t : MessageType)
  | ActBroadcast (to : list PeerID) (payload : bytes) (t : MessageType) (sid : string)
  | ActRun (coordinator : bool) (params : bytes)  (** [go c.startProcess(...)] *)
  | ActStop (process : nat)                       (** [tssProcesses[i].Stop()] *)
  | ActCloseSession (sid : string)
  | ActStartMetric (sid : string)
  | ActInitiateMetric.

#[export] Instance action_eq_dec : EqDecision action.
Proof. solve_decision. Defined.

Section coordinator.
Context `{PeerLib, Keccak}.
(** [c.host.ID()] and [c.host.Peerstore().Peers()]. *)
Context (self : PeerID) (peerstore : list PeerID).

(** ** initiate *)
Section initiate.
Context (p : TssProcess) (excludedPeers : list PeerID).

Record initiate_state := {
  readyPeers : list PeerID;
  ticking : bool;  (** the ticker has not been stopped *)
}.

Inductive initiate_event :=
  | InitErr (err : option error)  (** [<-errChn] *)
  | InitReady (from : PeerID)     (** [<-readyChan] *)
  | InitTick                      (** [<-ticker.C] *)
  | InitDone.                     (** [<-ctx.Done()] *)

Definition broadcastInitiateMsg : action :=
  ActBroadcast peerstore [] TssInitiateMsg (tp_SessionID p).

Definition initiate_start : list action * initiate_state :=
  ([ActSubscribe (tp_SessionID p) TssReadyMsg; broadcastInitiateMsg],
   {| readyPeers := [self]; ticking := true |}).

Definition add_ready (ready : list PeerID) (from : PeerID) : list PeerID :=
  if bool_decide (from ∉ excludedPeers) && bool_decide (from ∉ ready)
  then ready ++ [from] else ready.

(** One iteration of the loop: actions, next state and, if it returns, the
    result. *)
Definition initiate_step (st : initiate_state) (ev : initiate_event)
    : list action * initiate_state * option (option error) :=
  match ev with
  | InitErr err => ([], st, Some err)
  | InitReady from =>
      let ready := add_ready (readyPeers st) from in
      let st1 := {| readyPeers := ready; ticking := ticking st |} in
      match tp_Ready p ready excludedPeers with
      | Err err => ([], st1, Some (Some err))
      | Ok false => ([], st1, None)
      | Ok true =>
          let startParams := tp_StartParams p ready in
          match MarshalStartMessage startParams with
          | Err err => ([], st1, Some (Some err))
          | Ok startMsgBytes =>
              ([ActBroadcast peerstore startMsgBytes TssStartMsg (tp_SessionID p);
                ActInitiateMetric; ActRun true startParams],
               {| readyPeers := ready; ticking := false |}, None)
          end
      end
  | InitTick => (if ticking st then [broadcastInitiateMsg] else [], st, None)
  | InitDone => ([], st, Some None)
  end.

(** The loop on a sequence of received events; [None] means it still waits. *)
Fixpoint initiate_loop (st : initiate_state) (evs : list initiate_event)
    : list action * option (option error) :=
  match evs with
  | [] => ([], None)
  | ev :: evs' =>
      let '(acts, st1, res) := initiate_step st ev in
      match res with
      | Some r => (acts ++ [ActUnSubscribe (tp_SessionID p) TssReadyMsg], Some r)
      | None => let '(acts', r) := initiate_loop st1 evs' in (acts ++ acts', r)
      end
  end.

Definition initiate (evs : list initiate_event) : list action * option (option error) :=
  let '(acts, st) := initiate_start in
  let '(acts', r) := initiate_loop st evs in (acts ++ acts', r).

(** *** Who is counted as ready *)
Definition received (evs : list initiate_event) : list PeerID :=
  omap (λ ev, match ev with InitReady from => Some from | _ => None end) evs.

(** The ready list after these events. *)
Definition ready_after (r : list PeerID) (evs : list initiate_event) : list PeerID :=
  foldl add_ready r (received evs).

Lemma add_ready_prefix r from : r `prefix_of` add_ready r from.
Proof. rw /add_ready. case_match; [by eexists|done]. Qed.

Lemma ready_after_app r evs evs' :
  ready_after r (evs ++ evs') = ready_after (ready_after r evs) evs'.
Proof. by rw /ready_after /received omap_app foldl_app. Qed.

Lemma ready_after_prefix r evs : r `prefix_of` ready_after r evs.
Proof.
  rw /ready_after. revert r. induction (received evs) as [|q l IH]; simpl; intros r; [done|].
  trans (add_ready r q); [apply add_ready_prefix|done].
Qed.

Lemma ready_after_NoDup r evs : NoDup r → NoDup (ready_after r evs).
Proof.
  rw /ready_after. revert r. induction (received evs) as [|q l IH]; simpl; intros r Hr; [done|].
  apply IH. rw /add_ready. case_match eqn:E; [|done].
  apply andb_true_iff in E as [_ ?%bool_decide_eq_true]. auto with go.
Qed.

Lemma elem_of_ready_after r evs q :
  q ∈ ready_after r evs → q ∈ r ∨ q ∈ received evs ∧ q ∉ excludedPeers.
Proof.
  rw /ready_after. revert r. induction (received evs) as [|x l IH]; simpl; intros r Hq; [by left|].
  apply IH in Hq as [Hq|[??]]; [|right; split; [by right|done]].
  rw /add_ready in Hq. case_match eqn:E; [|by left].
  apply elem_of_app in Hq as [?|Hq]; [by left|]. elem_cases Hq.
  apply andb_true_iff in E as [?%bool_decide_eq_true _]. right. by split; [left|].
Qed.

(** *** Start messages *)
(** The list of ready peers [r] made the process start with this payload. *)
Definition started_with (r : list PeerID) (payload : bytes) : Prop :=
  tp_Ready p r excludedPeers = Ok true ∧
  MarshalStartMessage (tp_StartParams p r) = Ok payload.

Lemma initiate_step_ready st ev :
  readyPeers (initiate_step st ev).1.2 = ready_after (readyPeers st) [ev].
Proof.
  destruct ev as [|from| |]; simpl; [done| |done|done].
  by repeat case_match.
Qed.

Lemma initiate_step_start st ev to payload sid :
  ActBroadcast to payload TssStartMsg sid ∈ (initiate_step st ev).1.1 →
  to = peerstore ∧ started_with (ready_after (readyPeers st) [ev]) payload.
Proof.
  rw /started_with. destruct ev as [|from| |]; simpl; intros Hin.
  - by elem_cases Hin.
  - repeat case_match; simpl in Hin; try by elem_cases Hin.
  - destruct (ticking st); by elem_cases Hin.
  - by elem_cases Hin.
Qed.

(** Every start message in the trace was sent after some of the events. *)
Lemma initiate_loop_start st evs to payload sid :
  ActBroadcast to payload TssStartMsg sid ∈ (initiate_loop st evs).1 →
  to = peerstore ∧
  ∃ evs', evs' `prefix_of` evs ∧ started_with (ready_after (readyPeers st) evs') payload.
Proof.
  revert st. induction evs as [|ev evs IH]; simpl; intros st Hin.
  { by elem_cases Hin. }
  pose proof (initiate_step_ready st ev) as Hr.
  pose proof (initiate_step_start st ev to payload sid) as Hs.
  destruct (initiate_step st ev) as [[acts st1] [r|]]; simpl in *.
  - apply elem_of_app in Hin as [Hin|Hin]; [|by elem_cases Hin].
    destruct (Hs Hin) as [-> ?]. split; [done|]. exists [ev]. by split; [eexists|].
  - specialize (IH st1). destruct (initiate_loop st1 evs) as [acts' r']; simpl in *.
    apply elem_of_app in Hin as [Hin|Hin].
    + destruct (Hs Hin) as [-> ?]. split; [done|]. exists [ev]. by split; [eexists|].
    + destruct (IH Hin) as [-> (evs' & [k ->] & Hw)]. split; [done|].
      exists (ev :: evs'). split; [by exists k|].
      by rewrite (ready_after_app _ [ev]) -Hr.
Qed.

Lemma initiate_start_msg evs to payload sid :
  ActBroadcast to payload TssStartMsg sid ∈ (initiate evs).1 →
  to = peerstore ∧
  ∃ evs', evs' `prefix_of` evs ∧ started_with (ready_after [self] evs') payload.
Proof.
  rw /initiate /=. pose proof (initiate_loop_start {| readyPeers := [self]; ticking := true |}
    evs to payload sid) as Hl.
  destruct (initiate_loop _ evs) as [acts r]. simpl in *.
  intros Hin. elem_cases Hin. by apply Hl.
Qed.
End initiate.

(** ** waitForStart *)
Inductive wait_event :=
  | WaitInit (from : PeerID)                    (** [<-msgChan] *)
  | WaitErr (err : option error)                (** [<-errChn] *)
  | WaitStart (from : PeerID) (payload : bytes) (** [<-startMsgChn] *)
  | WaitDone.                                   (** [<-ctx.Done()] *)

Definition wait_start (sid : string) : list action :=
  [ActSubscribe sid TssInitiateMsg; ActSubscribe sid TssStartMsg].

Definition wait_stop (sid : string) : list action :=
  [ActUnSubscribe sid TssStartMsg; ActUnSubscribe sid TssInitiateMsg].

Definition wait_step (sid : string) (coordinator : PeerID) (ev : wait_event)
    : list action * option (option error) :=
  let foreign from := negb (bool_decide (coordinator = "")) &&
                      negb (bool_decide (from = coordinator)) in
  match ev with
  | WaitInit from =>
      if foreign from then ([], None)
      else ([ActBroadcast [from] [] TssReadyMsg sid], None)
  | WaitErr err => ([], Some err)
  | WaitStart from payload =>
      if foreign from then ([], None)
      else match UnmarshalStartMessage payload with
           | Err err => ([], Some (Some err))
           | Ok msg => ([ActRun false (Params msg)], None)
           end
  | WaitDone => ([], Some None)
  end.

Fixpoint wait_loop (sid : string) (coordinator : PeerID) (evs : list wait_event)
    : list action * option (option error) :=
  match evs with
  | [] => ([], None)
  | ev :: evs' =>
      let '(acts, res) := wait_step sid coordinator ev in
      match res with
      | Some r => (acts ++ wait_stop sid, Some r)
      | None => let '(acts', r) := wait_loop sid coordinator evs' in (acts ++ acts', r)
      end
  end.

Definition waitForStart (sid : string) (coordinator : PeerID) (evs : list wait_event)
    : list action * option (option error) :=
  let '(acts, r) := wait_loop sid coordinator evs in (wait_start sid ++ acts, r).

(** What a participant does was asked for by some event. *)
Definition caused_by (coordinator : PeerID) (evs : list wait_event) (a : action) : Prop :=
  match a with
  | ActBroadcast to _ t _ =>
      ∃ from, to = [from] ∧ t = TssReadyMsg ∧ WaitInit from ∈ evs ∧
              (coordinator ≠ "" → from = coordinator)
  | ActRun b params =>
      b = false ∧ ∃ from payload msg, WaitStart from payload ∈ evs ∧
        (coordinator ≠ "" → from = coordinator) ∧
        UnmarshalStartMessage payload = Ok msg ∧ Params msg = params
  | ActSubscribe _ _ | ActUnSubscribe _ _ => True
  | _ => False
  end.

Lemma caused_by_cons coordinator evs ev a :
  caused_by coordinator evs a → caused_by coordinator (ev :: evs) a.
Proof.
  destruct a; simpl; try done.
  - intros (from & ? & ? & ? & ?). exists from. split_and!; try done. by right.
  - intros (? & from & pl & msg & ? & ? & ? & ?). split; [done|].
    exists from, pl, msg. split_and!; try done. by right.
Qed.

Lemma wait_step_caused sid coordinator ev a :
  a ∈ (wait_step sid coordinator ev).1 → caused_by coordinator [ev] a.
Proof.
  assert (∀ from, negb (bool_decide (coordinator = "")) &&
    negb (bool_decide (from = coordinator)) = false → coordinator ≠ "" → from = coordinator) as Hf.
  { intros from [->%negb_false_iff%bool_decide_eq_true|
                 ->%negb_false_iff%bool_decide_eq_true]%andb_false_iff; done. }
  destruct ev as [from|err|from payload|]; simpl; intros Hin; try by elem_cases Hin.
  - case_match eqn:E; simpl in Hin; elem_cases Hin. exists from. split_and!; try done; [by left|by apply Hf].
  - case_match eqn:E; simpl in Hin; [by elem_cases Hin|].
    destruct (UnmarshalStartMessage payload) as [msg|] eqn:Hu; simpl in Hin; elem_cases Hin.
    split; [done|]. exists from, payload, msg. split_and!; try done; [by left|by apply Hf].
Qed.

Lemma wait_loop_caused sid coordinator evs a :
  a ∈ (wait_loop sid coordinator evs).1 → caused_by coordinator evs a.
Proof.
  induction evs as [|ev evs IH]; simpl; intros Hin; [by elem_cases Hin|].
  pose proof (wait_step_caused sid coordinator ev a) as Hs.
  assert (caused_by coordinator [ev] a → caused_by coordinator (ev :: evs) a) as Hw.
  { destruct a; simpl; try done.
    - intros (from & ? & ? & Hi & ?). elem_cases Hi.
      exists from. split_and!; try done. by left.
    - intros (? & from & pl & msg & Hi & ? & ? & ?). elem_cases Hi. split; [done|].
      exists from, pl, msg. split_and!; try done. by left. }
  destruct (wait_step sid coordinator ev) as [acts [r|]]; simpl in *.
  - apply elem_of_app in Hin as [Hin|Hin]; [auto|].
    rw /wait_stop in Hin. by elem_cases Hin.
  - destruct (wait_loop sid coordinator evs) as [acts' r']; simpl in *.
    apply elem_of_app in Hin as [Hin|Hin]; [auto|]. by apply caused_by_cons, IH.
Qed.

(** A participant that knows its coordinator answers and starts for
    nobody else: every ready message it sends goes to the coordinator in
    reply to the coordinator's initiate message, and every run it starts
    uses the parameters of a start message the coordinator sent. *)
Theorem waitForStart_coordinator_only (sid : string) (coordinator : PeerID)
    (evs : list wait_event) (a : action) :
  coordinator ≠ "" → a ∈ (waitForStart sid coordinator evs).1 →
  match a with
  | ActBroadcast to _ t _ =>
      to = [coordinator] ∧ t = TssReadyMsg ∧ WaitInit coordinator ∈ evs
  | ActRun b params =>
      b = false ∧ ∃ payload msg, WaitStart coordinator payload ∈ evs ∧
        UnmarshalStartMessage payload = Ok msg ∧ Params msg = params
  | ActSubscribe s _ | ActUnSubscribe s _ => True
  | ActStop _ | ActCloseSession _ | ActStartMetric _ | ActInitiateMetric => False
  end.
Proof.
  intros Hc Hin. rw /waitForStart in Hin.
  pose proof (wait_loop_caused sid coordinator evs a) as Hl.
  destruct (wait_loop sid coordinator evs) as [acts r]; simpl in *.
  rw /wait_start /= in Hin. elem_cases Hin; [done..|]. specialize (Hl Hin). destruct a; simpl in *; try done.
  - by destruct Hl as (from & -> & -> & ? & <-).
  - destruct Hl as (-> & from & pl & msg & ? & <- & ? & ?); [|done].
    split; [done|]. by exists pl, msg.
Qed.

(** ** What a process promises the coordinator

    As ready peers keep arriving, a process that has accepted a list and
    accepts a longer one computes the same start parameters. *)
Class StableStart (p : TssProcess) : Prop :=
  stable_start r1 r2 excluded :
    r1 `prefix_of` r2 →
    tp_Ready p r1 excluded = Ok true → tp_Ready p r2 excluded = Ok true →
    tp_StartParams p r1 = tp_StartParams p r2.

(** All start messages of one session carry the same payload. *)
Lemma initiate_start_unique p excluded evs to1 to2 b1 b2 sid `{!StableStart p} :
  ActBroadcast to1 b1 TssStartMsg sid ∈ (initiate p excluded evs).1 →
  ActBroadcast to2 b2 TssStartMsg sid ∈ (initiate p excluded evs).1 →
  b1 = b2.
Proof.
  intros (_ & e1 & Hp1 & Hr1 & Hm1)%initiate_start_msg.
  intros (_ & e2 & Hp2 & Hr2 & Hm2)%initiate_start_msg.
  assert (tp_StartParams p (ready_after excluded [self] e1) =
          tp_StartParams p (ready_after excluded [self] e2)) as Heq.
  { destruct (prefix_weak_total _ _ _ Hp1 Hp2) as [[k ->]|[k ->]];
      [|symmetry]; (eapply stable_start; [|eassumption..]);
      rewrite ready_after_app; apply ready_after_prefix. }
  rewrite -Heq in Hm2. congruence.
Qed.

(** ** watchExecution *)
Inductive watch_event :=
  | WatchTimeout                 (** [<-ticker.C] *)
  | WatchDone                    (** [<-ctx.Done()] *)
  | WatchFail (from : PeerID).   (** [<-failChn] *)

(** Actions, whether the context is cancelled, and the result. *)
Definition watch_step (sid : string) (coordinator : PeerID) (ev : watch_event)
    : list action * bool * option (option error) :=
  match ev with
  | WatchTimeout => ([ActStop 0], true, Some None)
  | WatchDone => ([], false, Some None)
  | WatchFail from =>
      if bool_decide (peer_String from ≠ peer_String coordinator) then ([], false, None)
      else ([], false,
            Some (Some (Errorf ("tss fail message received for process " +:+ sid))))
  end.

(** ** startProcess: what reaches the error channel of the loop

    The channel is unbuffered and the send has a [default]: an error arrives
    only if the loop is blocked in its [select]. *)
Definition startProcess (run_err : option error) (loop_selecting : bool)
    : option (option error) :=
  match run_err with
  | Some e => if is_ErrProcessStarted e then None
              else if loop_selecting then Some run_err else None
  | None => if loop_selecting then Some run_err else None
  end.

(** ** Execute *)
Inductive loop :=
  | Initiating (st : initiate_state)
  | Waiting.

(** One running execution. [ex_start] and [ex_watch] are the results of the
    two goroutines of the pool, when they have returned. *)
Record execution := {
  ex_process : TssProcess;
  ex_others : list TssProcess;
  ex_coordinator : PeerID;
  ex_loop : loop;
  ex_start : option (option error);
  ex_watch : option (option error);
  ex_cancelled : bool;
  ex_trace : list action;
}.

Definition ex_sid (ex : execution) : string := tp_SessionID (ex_process ex).

(** From [metrics.StartProcess] to the moment both goroutines run. *)
Definition begin_execution (p : TssProcess) (others : list TssProcess)
    (coordinator : PeerID) : execution :=
  let sid := tp_SessionID p in
  let leader := if bool_decide (peer_String coordinator = "")
                then Coordinator sid (tp_ValidCoordinators p) else coordinator in
  let '(acts, l) :=
    if bool_decide (peer_String leader = peer_String self)
    then let '(acts, st) := initiate_start p in (acts, Initiating st)
    else (wait_start sid, Waiting) in
  {| ex_process := p; ex_others := others; ex_coordinator := leader; ex_loop := l;
     ex_start := None; ex_watch := None; ex_cancelled := false;
     ex_trace := [ActStartMetric sid] ++ acts ++ [ActSubscribe sid TssFailMsg] |}.

Inductive exec_event :=
  | EvInitiate (ev : initiate_event)
  | EvWait (ev : wait_event)
  | EvWatch (ev : watch_event)
  | EvCancel.  (** the caller cancels the context it passed to [Execute] *)

(** [<-ctx.Done()] is ready only once the context is cancelled. *)
Definition event_enabled (cancelled : bool) (ev : exec_event) : bool :=
  match ev with
  | EvInitiate InitDone | EvWait WaitDone | EvWatch WatchDone => cancelled
  | _ => true
  end.

(** The start goroutine cancels the context when it returns, whatever it
    returns: itself on nil, the pool on an error. *)
Definition start_returns (ex : execution) (l : loop) (acts : list action)
    (res : option (option error)) : execution :=
  {| ex_process := ex_process ex; ex_others := ex_others ex;
     ex_coordinator := ex_coordinator ex; ex_loop := l;
     ex_start := res; ex_watch := ex_watch ex;
     ex_cancelled := ex_cancelled ex || bool_decide (is_Some res);
     ex_trace := ex_trace ex ++ acts |}.

Definition cancel_execution (ex : execution) : execution :=
  {| ex_process := ex_process ex; ex_others := ex_others ex;
     ex_coordinator := ex_coordinator ex; ex_loop := ex_loop ex;
     ex_start := ex_start ex; ex_watch := ex_watch ex;
     ex_cancelled := true; ex_trace := ex_trace ex |}.

Definition watch_returns (ex : execution) (acts : list action) (cancel : bool)
    (res : option (option error)) : execution :=
  let failed := match res with Some (Some _) => true | _ => false end in
  let deferred := match res with Some _ => [ActUnSubscribe (ex_sid ex) TssFailMsg] | None => [] end in
  {| ex_process := ex_process ex; ex_others := ex_others ex;
     ex_coordinator := ex_coordinator ex; ex_loop := ex_loop ex;
     ex_start := ex_start ex; ex_watch := res;
     ex_cancelled := ex_cancelled ex || cancel || failed;
     ex_trace := ex_trace ex ++ acts ++ deferred |}.

(** One event of an execution; [None] if no goroutine is there to receive
    it.  Executions start with no excluded peers. *)
Definition exec_step (ex : execution) (ev : exec_event) : option execution :=
  if negb (event_enabled (ex_cancelled ex) ev) then None else
  match ev, ex_loop ex, ex_start ex, ex_watch ex with
  | EvInitiate iev, Initiating st, None, _ =>
      let '(acts, st1, res) := initiate_step (ex_process ex) [] st iev in
      let deferred := match res with Some _ => [ActUnSubscribe (ex_sid ex) TssReadyMsg] | None => [] end in
      Some (start_returns ex (Initiating st1) (acts ++ deferred) res)
  | EvWait wev, Waiting, None, _ =>
      let '(acts, res) := wait_step (ex_sid ex) (ex_coordinator ex) wev in
      let deferred := match res with Some _ => wait_stop (ex_sid ex) | None => [] end in
      Some (start_returns ex Waiting (acts ++ deferred) res)
  | EvWatch wev, _, _, None =>
      let '(acts, cancel, res) := watch_step (ex_sid ex) (ex_coordinator ex) wev in
      Some (watch_returns ex acts cancel res)
  | EvCancel, _, _, _ => Some (cancel_execution ex)
  | _, _, _, _ => None
  end.

(** [p.Wait()]: the errors of the two goroutines, joined. *)
Definition pool_error (r1 r2 : option error) : option error :=
  match option_list r1 ++ option_list r2 with
  | [] => None
  | es => Some (Joined es)
  end.

(** The result of [Execute], once both goroutines have returned. *)
Definition execute_result (ex : execution) : option (option error) :=
  r1 ← ex_start ex; r2 ← ex_watch ex;
  Some (match pool_error r1 r2 with
        | Some e => if is_SubsetError e then None else Some e
        | None => None
        end).

(** The deferred function stops every process after it has released the
    session. *)
Definition deferred_stops (ex : execution) : list action :=
  ActStop <$> seq 0 (S (length (ex_others ex))).

(** ** A node *)
Record node := {
  pendingProcesses : gmap string bool;
  running : gmap nat execution;       (** by calling goroutine *)
  stopping : gmap nat execution;      (** session released, processes not stopped *)
  returned_calls : list (list action * option error);
}.

Definition idle_node : node :=
  {| pendingProcesses := ∅; running := ∅; stopping := ∅; returned_calls := [] |}.

Definition is_pending (n : node) (sid : string) : bool :=
  default false (pendingProcesses n !! sid).

Definition append_trace (ex : execution) (acts : list action) : execution :=
  {| ex_process := ex_process ex; ex_others := ex_others ex;
     ex_coordinator := ex_coordinator ex; ex_loop := ex_loop ex;
     ex_start := ex_start ex; ex_watch := ex_watch ex;
     ex_cancelled := ex_cancelled ex; ex_trace := ex_trace ex ++ acts |}.

Inductive node_step (n : node) : node → Prop :=
  (** [Execute] finds the session pending and returns an error. *)
  | step_rejected p :
      is_pending n (tp_SessionID p) = true →
      node_step n
        {| pendingProcesses := pendingProcesses n; running := running n;
           stopping := stopping n;
           returned_calls :=
             returned_calls n ++ [([], Some (Errorf "process already pending"))] |}
  (** [Execute] takes the session. *)
  | step_begin id p others coordinator :
      is_pending n (tp_SessionID p) = false →
      running n !! id = None → stopping n !! id = None →
      node_step n
        {| pendingProcesses := <[tp_SessionID p := true]> (pendingProcesses n);
           running := <[id := begin_execution p others coordinator]> (running n);
           stopping := stopping n; returned_calls := returned_calls n |}
  | step_event id ex ev ex' :
      running n !! id = Some ex → exec_step ex ev = Some ex' →
      node_step n
        {| pendingProcesses := pendingProcesses n; running := <[id := ex']> (running n);
           stopping := stopping n; returned_calls := returned_calls n |}
  (** Both goroutines returned: the deferred function closes and releases
      the session ... *)
  | step_release id ex res :
      running n !! id = Some ex → execute_result ex = Some res →
      node_step n
        {| pendingProcesses := <[ex_sid ex := false]> (pendingProcesses n);
           running := delete id (running n);
           stopping := <[id := append_trace ex [ActCloseSession (ex_sid ex)]]> (stopping n);
           returned_calls := returned_calls n |}
  (** ... and then stops the processes, and [Execute] returns. *)
  | step_stopped id ex res :
      stopping n !! id = Some ex → execute_result ex = Some res →
      node_step n
        {| pendingProcesses := pendingProcesses n; running := running n;
           stopping := delete id (stopping n);
           returned_calls := returned_calls n ++ [(ex_trace ex ++ deferred_stops ex, res)] |}.

Definition reachable (n : node) : Prop := rtc node_step idle_node n.

(** *** One event *)
Lemma ex_sid_begin p others coordinator :
  ex_sid (begin_execution p others coordinator) = tp_SessionID p.
Proof. rw /begin_execution. by repeat case_match. Qed.

(** What an event can and cannot change. *)
Definition event_effect (ex : execution) (ev : exec_event) (ex' : execution) : Prop :=
  ex_process ex' = ex_process ex ∧ ex_others ex' = ex_others ex ∧
  (∃ acts, ex_trace ex' = ex_trace ex ++ acts ∧
           (ev = EvWatch WatchTimeout → ActStop 0 ∈ acts)) ∧
  (ex_cancelled ex = true → ex_cancelled ex' = true) ∧
  (is_Some (ex_start ex') → is_Some (ex_start ex) ∨ ex_cancelled ex' = true) ∧
  (is_Some (ex_watch ex') → is_Some (ex_watch ex) ∨ ex_cancelled ex' = true).

Lemma start_returns_effect ex l acts res ev :
  ev ≠ EvWatch WatchTimeout → event_effect ex ev (start_returns ex l acts res).
Proof.
  intros Hev. rw /event_effect /=. split_and!; [done|done| | | |by left].
  - by exists acts.
  - by intros ->.
  - intros [r ->]. right. by destruct (ex_cancelled ex).
Qed.

Lemma watch_returns_effect ex sid c wev :
  event_enabled (ex_cancelled ex) (EvWatch wev) = true →
  event_effect ex (EvWatch wev)
    (let '(acts, cancel, res) := watch_step sid c wev in watch_returns ex acts cancel res).
Proof.
  intros Hen. destruct (watch_step sid c wev) as [[acts cancel] res] eqn:E.
  rw /event_effect /=. split_and!; [done|done| | |by left|].
  - eexists; split; [done|]. intros [= ->]. injection E as <- <- <-. by left.
  - by intros ->.
  - intros [r ->]. right. destruct wev as [| |from]; simpl in E, Hen; [| |case_match];
      simplify_eq; rewrite ?Hen ?orb_true_r; done.
Qed.

Lemma exec_step_inv ex ev ex' : exec_step ex ev = Some ex' → event_effect ex ev ex'.
Proof.
  rw /exec_step. destruct (event_enabled _ ev) eqn:Hen; simpl; [|done].
  destruct ev as [iev|wev|wev|]; [| | |intros [= <-]; rw /event_effect /=; naive_solver (eauto using app_nil_r)].
  - destruct (ex_loop ex) as [st|], (ex_start ex); try done.
    destruct (initiate_step _ _ st iev) as [[acts st1] res]. intros [= <-].
    by apply start_returns_effect.
  - destruct (ex_loop ex) as [st|], (ex_start ex); try done.
    destruct (wait_step _ _ wev) as [acts res]. intros [= <-].
    by apply start_returns_effect.
  - pose proof (watch_returns_effect ex (ex_sid ex) (ex_coordinator ex) wev Hen) as He.
    destruct (watch_step _ _ wev) as [[acts cancel] res].
    destruct (ex_loop ex), (ex_start ex), (ex_watch ex); try done; by intros [= <-].
Qed.

Lemma exec_step_sid ex ev ex' : exec_step ex ev = Some ex' → ex_sid ex' = ex_sid ex.
Proof. rw /ex_sid. by intros (-> & _)%exec_step_inv. Qed.

(** *** The invariant of a node *)
Record node_inv (n : node) : Prop := {
  inv_pending id ex : running n !! id = Some ex → is_pending n (ex_sid ex) = true;
  inv_unique id1 id2 ex1 ex2 :
    running n !! id1 = Some ex1 → running n !! id2 = Some ex2 →
    ex_sid ex1 = ex_sid ex2 → id1 = id2;
  inv_owner sid : is_pending n sid = true →
    ∃ id ex, running n !! id = Some ex ∧ ex_sid ex = sid;
  inv_cancelled id ex : running n !! id = Some ex →
    is_Some (ex_start ex) ∨ is_Some (ex_watch ex) → ex_cancelled ex = true;
}.

Lemma is_pending_insert n sid b r st c sid' :
  is_pending {| pendingProcesses := <[sid := b]> (pendingProcesses n); running := r;
                stopping := st; returned_calls := c |} sid' =
  if decide (sid = sid') then b else is_pending n sid'.
Proof. rw /is_pending /= lookup_insert. by case_decide. Qed.

Lemma node_inv_step n n' : node_inv n → node_step n n' → node_inv n'.
Proof.
  intros [Hp Hu Ho Hc]. destruct 1 as [p Hpend|id p others c Hpend Hfree _|id ex ev ex' Hr Hs|id ex res Hr _|id ex res _ _].
  - by constructor.
  - pose proof (ex_sid_begin p others c) as Hsid.
    constructor; simpl.
    + intros id' ex'. rw is_pending_insert. case_decide; [done|].
      intros [[<- <-]|[_ ?]]%lookup_insert_Some; [congruence|eauto].
    + intros id1 id2 ex1 ex2 [[<- <-]|[? Ha]]%lookup_insert_Some
        [[<- <-]|[? Hb]]%lookup_insert_Some Heq; try done.
      * apply Hp in Hb. congruence.
      * apply Hp in Ha. congruence.
      * eauto.
    + intros sid. rw is_pending_insert. case_decide as Hd.
      * intros _. exists id. eexists. rw lookup_insert_eq. split; [done|congruence].
      * intros (id' & ex' & ? & ?)%Ho. exists id', ex'. rw lookup_insert_ne //. congruence.
    + intros id' ex' [[<- <-]|[_ ?]]%lookup_insert_Some; [|eauto].
      rw /begin_execution. repeat case_match; simpl; by intros [[]|[]].
  - apply exec_step_inv in Hs as Heff. apply exec_step_sid in Hs.
    assert (∀ i e, <[id:=ex']> (running n) !! i = Some e →
      ∃ e0, running n !! i = Some e0 ∧ ex_sid e = ex_sid e0) as Hback.
    { intros i e [[<- <-]|[_ ?]]%lookup_insert_Some; eauto. }
    constructor; simpl.
    + intros i e (e0 & Ha & ->)%Hback. by eapply Hp.
    + intros i1 i2 e1 e2 (? & Ha & ->)%Hback (? & Hb & ->)%Hback. eauto.
    + intros sid (i & e & Hi & <-)%Ho. destruct (decide (i = id)) as [->|].
      * exists id, ex'. rw lookup_insert_eq. split; [done|congruence].
      * exists i, e. by rw lookup_insert_ne.
    + intros i e [[<- <-]|[_ ?]]%lookup_insert_Some; [|eauto].
      destruct Heff as (_ & _ & _ & Hmono & Hst & Hwa).
      intros [[?|?]%Hst|[?|?]%Hwa]; eauto.
  - constructor; simpl.
    + intros i e [Hne Hi]%lookup_delete_Some. rw is_pending_insert.
      case_decide; [by destruct Hne; eauto|eauto].
    + intros i1 i2 e1 e2 [_ ?]%lookup_delete_Some [_ ?]%lookup_delete_Some. eauto.
    + intros sid. rw is_pending_insert. case_decide as Hd; [done|].
      intros (i & e & Hi & <-)%Ho. exists i, e. split; [|done].
      rw lookup_delete_ne //. congruence.
    + intros i e [_ ?]%lookup_delete_Some. eauto.
  - by constructor.
Qed.

Lemma reachable_inv n : reachable n → node_inv n.
Proof.
  rw /reachable. intros Hr. remember idle_node as n0 eqn:E.
  assert (node_inv n0) as Hinv.
  { subst. constructor; simpl; intros *; rw ?lookup_empty; try done. }
  clear E. induction Hr; eauto using node_inv_step.
Qed.

(** C5: sessions are executed exclusively: at every moment a session is
    marked pending exactly when some call of [Execute] is running it, and no
    two running calls share a session. *)
Theorem sessions_exclusive (n : node) (sid : string) :
  reachable n →
  (is_pending n sid = true ↔
   ∃ id ex, running n !! id = Some ex ∧ ex_sid ex = sid) ∧
  (∀ id1 id2 ex1 ex2, running n !! id1 = Some ex1 → running n !! id2 = Some ex2 →
     ex_sid ex1 = sid → ex_sid ex2 = sid → id1 = id2).
Proof.
  intros [Hp Hu Ho _]%reachable_inv. split_and!.
  - split; [apply Ho|]. by intros (id & ex & ? & <-); eapply Hp.
  - intros id1 id2 ex1 ex2 ?? <- ?. by eapply Hu.
Qed.

(** *** Termination *)
Definition exec_any (ex ex' : execution) : Prop := ∃ ev, exec_step ex ev = Some ex'.

Lemma exec_watch_finishes ex :
  ex_cancelled ex = true ∨ ex_watch ex = None →
  ∃ ex', rtc exec_any ex ex' ∧ ex_cancelled ex' = true ∧ is_Some (ex_watch ex') ∧
         ex_start ex' = ex_start ex.
Proof.
  intros Hc. destruct (ex_watch ex) eqn:Ew.
  { destruct Hc as [Hc|?]; [|done]. exists ex. by rw Ew. }
  assert (∃ ex1, exec_step ex (EvWatch WatchTimeout) = Some ex1 ∧ ex_cancelled ex1 = true ∧
    ex_watch ex1 = Some None ∧ ex_start ex1 = ex_start ex) as (ex1 & Hs & ? & Hw & ?).
  { rw /exec_step /= Ew. eexists. split; [by destruct (ex_loop ex), (ex_start ex)|].
    rw /= !orb_true_r. done. }
  exists ex1. split_and!; [|done|by rw Hw|done]. apply rtc_once. by eexists.
Qed.

Lemma exec_start_finishes ex :
  ex_cancelled ex = true → is_Some (ex_watch ex) →
  ∃ ex' res, rtc exec_any ex ex' ∧ execute_result ex' = Some res.
Proof.
  intros Hc [rw Hw]. destruct (ex_start ex) as [rs|] eqn:Es.
  { exists ex. eexists. rw /execute_result Es Hw. split; [apply rtc_refl|done]. }
  destruct (ex_loop ex) as [st|] eqn:El.
  - do 2 eexists. split; [apply rtc_once; exists (EvInitiate InitDone); by rw /exec_step /= Hc El Es|].
    by rw /execute_result /= Hw.
  - do 2 eexists. split; [apply rtc_once; exists (EvWait WaitDone); by rw /exec_step /= Hc El Es|].
    by rw /execute_result /= Hw.
Qed.

(** Events of one execution are steps of the node that runs it. *)
Lemma node_steps_events id ex ex' n :
  rtc exec_any ex ex' → running n !! id = Some ex →
  rtc node_step n
    {| pendingProcesses := pendingProcesses n; running := <[id := ex']> (running n);
       stopping := stopping n; returned_calls := returned_calls n |}.
Proof.
  intros Hr. revert n. induction Hr as [ex|ex ex1 ex' [ev Hs] _ IH]; intros n Hn.
  - rw insert_id //. destruct n. apply rtc_refl.
  - eapply rtc_l; [by eapply step_event|].
    specialize (IH {| pendingProcesses := pendingProcesses n; running := <[id := ex1]> (running n);
       stopping := stopping n; returned_calls := returned_calls n |}).
    rw /= lookup_insert_eq insert_insert_eq in IH. by apply IH.
Qed.

Lemma exec_any_sid ex ex' : rtc exec_any ex ex' → ex_sid ex' = ex_sid ex.
Proof. by induction 1 as [|x y z [ev Hs%exec_step_sid] _ ->]. Qed.

Lemma execute_result_append ex acts :
  execute_result (append_trace ex acts) = execute_result ex.
Proof. done. Qed.

(** C6: no execution is stuck: whatever has happened to a running call of
    [Execute], the timer of its watcher and the cancelled context bring it to
    its end, with every other execution untouched, the session free for the
    next process and the result of the call recorded. *)
Theorem execution_can_finish (n : node) (id : nat) (ex : execution) :
  reachable n → running n !! id = Some ex →
  ∃ n', rtc node_step n n' ∧ running n' = delete id (running n) ∧
        is_pending n' (ex_sid ex) = false ∧
        ∃ call, returned_calls n' = returned_calls n ++ [call].
Proof.
  intros Hinv%reachable_inv Hr.
  destruct (exec_watch_finishes ex) as (ex1 & Hs1 & Hc1 & Hw1 & _).
  { destruct (ex_watch ex) eqn:E; [left|by right].
    eapply inv_cancelled; [done..|]. right. by rw E. }
  destruct (exec_start_finishes ex1 Hc1 Hw1) as (ex2 & res & Hs2 & Hres).
  assert (rtc exec_any ex ex2) as Hs by (by trans ex1).
  pose proof (exec_any_sid _ _ Hs) as Hsid.
  eexists. split_and!.
  - etrans; [by eapply node_steps_events|].
    eapply rtc_l; [eapply (step_release _ id); [by rw /= lookup_insert_eq|done]|].
    eapply rtc_once, (step_stopped _ id); [by rw /= lookup_insert_eq|done].
  - by rw /= delete_insert_eq.
  - by rw /is_pending /= Hsid lookup_insert_eq.
  - by eexists.
Qed.

(** *** A process that times out is stopped twice

    Once by the watcher, once by the deferred function. *)
Definition stops (acts : list action) : nat := length (filter (λ a, a = ActStop 0) acts).

Lemma stops_app l k : stops (l ++ k) = stops l + stops k.
Proof. by rw /stops filter_app length_app. Qed.

Lemma stops_elem l : ActStop 0 ∈ l → 1 ≤ stops l.
Proof.
  intros (l1 & l2 & ->)%list_elem_of_split. rw stops_app. rw {2}/stops filter_cons.
  case_decide; simpl; [lia|done].
Qed.

Lemma exec_any_trace ex ex' : rtc exec_any ex ex' → stops (ex_trace ex) ≤ stops (ex_trace ex').
Proof.
  induction 1 as [|x y z [ev Hs] _ IH]; [done|].
  apply exec_step_inv in Hs as (_ & _ & (acts & Ht & _) & _). rw Ht stops_app in IH. lia.
Qed.

Lemma timeout_stops_twice ex ex1 ex2 :
  exec_step ex (EvWatch WatchTimeout) = Some ex1 → rtc exec_any ex1 ex2 →
  2 ≤ stops (ex_trace ex2 ++ deferred_stops ex2).
Proof.
  intros (_ & _ & (acts & Ht & Hin) & _)%exec_step_inv Hr%exec_any_trace.
  specialize (Hin eq_refl). apply stops_elem in Hin.
  rw Ht stops_app in Hr. rw stops_app.
  assert (1 ≤ stops (deferred_stops ex2)) by (apply stops_elem; by left). lia.
Qed.

(** *** How often exactly *)
Fixpoint exec_events (ex : execution) (evs : list exec_event) : option execution :=
  match evs with
  | [] => Some ex
  | ev :: evs' => ex' ← exec_step ex ev; exec_events ex' evs'
  end.

Definition is_timeout (ev : exec_event) : bool :=
  match ev with EvWatch WatchTimeout => true | _ => false end.

Lemma initiate_step_no_stop p ex st ev : stops (initiate_step p ex st ev).1.1 = 0.
Proof. rw /initiate_step. by repeat case_match. Qed.

Lemma wait_step_no_stop sid c ev : stops (wait_step sid c ev).1 = 0.
Proof. rw /wait_step. by repeat case_match. Qed.

Lemma exec_step_stops ex ev ex' :
  exec_step ex ev = Some ex' →
  stops (ex_trace ex') = stops (ex_trace ex) + Nat.b2n (is_timeout ev) ∧
  (is_timeout ev = true → ex_watch ex = None) ∧
  (is_timeout ev = true ∨ is_Some (ex_watch ex) → is_Some (ex_watch ex')).
Proof.
  rw /exec_step. destruct (event_enabled _ ev); simpl; [|done].
  destruct ev as [iev|wev|wev|]; [| | |intros [= <-]; simpl; split_and!; [lia|done|naive_solver]].
  - destruct (ex_loop ex) as [st|], (ex_start ex); try done.
    pose proof (initiate_step_no_stop (ex_process ex) [] st iev) as Hn.
    destruct (initiate_step _ _ st iev) as [[acts st1] res]. simpl in Hn. intros [= <-]. simpl.
    rw !stops_app Hn. split_and!; [|done|naive_solver].
    destruct res; unfold stops; simpl; lia.
  - destruct (ex_loop ex) as [st|], (ex_start ex); try done.
    pose proof (wait_step_no_stop (ex_sid ex) (ex_coordinator ex) wev) as Hn.
    destruct (wait_step _ _ wev) as [acts res]. simpl in Hn. intros [= <-]. simpl.
    rw !stops_app Hn. split_and!; [|done|naive_solver].
    destruct res; unfold stops; simpl; lia.
  - assert (∀ w, ex_watch ex = None →
      (let '(acts, cancel, res) := watch_step (ex_sid ex) (ex_coordinator ex) wev in
       Some (watch_returns ex acts cancel res)) = Some w →
      stops (ex_trace w) = stops (ex_trace ex) + Nat.b2n (is_timeout (EvWatch wev)) ∧
      (is_timeout (EvWatch wev) = true ∨ is_Some (ex_watch ex) → is_Some (ex_watch w))) as Hw.
    { intros w Hnone. rw /watch_step. destruct wev as [| |from]; [| |case_bool_decide];
        intros [= <-]; rw /= ?stops_app; (split; [unfold stops; simpl; lia|]);
        rw Hnone; naive_solver. }
    destruct (ex_watch ex) eqn:E; [by destruct (ex_loop ex), (ex_start ex)|].
    intros Hs. destruct (Hw ex' eq_refl); [|by split_and!].
    by destruct (ex_loop ex), (ex_start ex).
Qed.

Lemma exec_events_stops ex evs ex' :
  exec_events ex evs = Some ex' →
  stops (ex_trace ex') = stops (ex_trace ex) + length (filter (λ ev, is_timeout ev = true) evs) ∧
  length (filter (λ ev, is_timeout ev = true) evs) ≤ Nat.b2n (bool_decide (ex_watch ex = None)).
Proof.
  revert ex. induction evs as [|ev evs IH]; simpl; intros ex Hs.
  { injection Hs as <-. split; [unfold filter; simpl; lia|apply Nat.le_0_l]. }
  destruct (exec_step ex ev) as [ex1|] eqn:E; [|done].
  apply exec_step_stops in E as (Ht & Hnone & Hmono). specialize (IH ex1 Hs) as [IH1 IH2].
  rw filter_cons. rw Ht in IH1. case_decide as Hd.
  - rw Hd in IH1. simpl in *. rewrite (bool_decide_true (ex_watch ex = None)) ?Hnone //.
    destruct (Hmono (or_introl Hd)) as [w Hw]. rewrite bool_decide_false in IH2; [|by rw Hw].
    simpl in IH2. rw IH1. simpl. lia.
  - apply not_true_is_false in Hd. rw Hd /= Nat.add_0_r in IH1. split; [done|].
    etrans; [exact IH2|]. case_bool_decide as Hx1; [|simpl; lia].
    case_bool_decide as Hx; [done|]. exfalso.
    destruct (ex_watch ex) as [w|]; [|done]. destruct (Hmono (or_intror (ex_intro _ w eq_refl))).
    congruence.
Qed.

(** [Execute] stops its process once, or twice if it timed out. *)
Lemma execute_stops p others c evs ex :
  exec_events (begin_execution p others c) evs = Some ex →
  stops (ex_trace ex ++ deferred_stops ex) =
  if existsb is_timeout evs then 2 else 1.
Proof.
  intros [Hs Hle]%exec_events_stops. rw stops_app Hs.
  assert (stops (ex_trace (begin_execution p others c)) = 0) as Hb
    by (rw /begin_execution /=; repeat case_bool_decide; done).
  assert (stops (deferred_stops ex) = 1) as Hd.
  { assert (∀ n m, 0 < m → stops (ActStop <$> seq m n) = 0) as Htail; [|].
    { induction n as [|n IH]; intros m Hm; [done|]. rw /= /stops filter_cons.
      case_decide as Hd; [simplify_eq; lia|]. apply IH. lia. }
    rw /deferred_stops /=. rewrite (stops_app [ActStop 0]) Htail; [done|lia]. }
  rw Hb Hd /=. clear Hb Hd Hs.
  assert (existsb is_timeout evs = bool_decide (0 < length (filter (λ ev, is_timeout ev = true) evs))) as ->.
  { clear Hle. induction evs as [|ev evs IH]; [done|]. rw /= filter_cons IH.
    by destruct (is_timeout ev). }
  destruct (bool_decide (ex_watch _ = None)); simpl in Hle; case_bool_decide; lia.
Qed.
End coordinator.

Section witnesses.
Import Toy.

Definition demo_process : TssProcess := {|
  tp_SessionID := "s"; tp_Ready _ _ := Ok true; tp_StartParams _ := [];
  tp_ValidCoordinators := ["a"; "b"] |}.

Definition demo_node : node :=
  {| pendingProcesses := {["s" := true]};
     running := {[0 := begin_execution "a" ["a"; "b"] demo_process [] ""]};
     stopping := ∅; returned_calls := [] |}.

Lemma demo_node_reachable : reachable "a" ["a"; "b"] demo_node.
Proof.
  apply rtc_once. by apply (step_begin "a" ["a"; "b"] idle_node 0 demo_process [] "").
Qed.

Lemma waitForStart_coordinator_only_witness :
  let a := ActBroadcast ["a"] [] TssReadyMsg "s" in
  match a with ActBroadcast to _ _ _ => to = ["a"] | _ => False end.
Proof.
  refine (proj1 (waitForStart_coordinator_only "s" "a" [WaitInit "b"; WaitInit "a"]
    (ActBroadcast ["a"] [] TssReadyMsg "s") _ _)); [by vm_compute|].
  by apply (bool_decide_unpack _).
Defined.

Lemma sessions_exclusive_witness :
  is_pending demo_node "s" = true ↔
  ∃ id ex, running demo_node !! id = Some ex ∧ ex_sid ex = "s".
Proof. exact (proj1 (sessions_exclusive _ _ demo_node "s" demo_node_reachable)). Defined.

Lemma execution_can_finish_witness :
  ∃ n', rtc (node_step "a" ["a"; "b"]) demo_node n' ∧ is_pending n' "s" = false.
Proof.
  destruct (execution_can_finish "a" ["a"; "b"] demo_node 0
    (begin_execution "a" ["a"; "b"] demo_process [] "") demo_node_reachable eq_refl)
    as (n' & Hr & _ & Hp & _).
  by exists n'.
Defined.
End witnesses.
