(* ===== verification/Signing.v ===== *)
(** * The signing process (src/tss/ecdsa/signing/signing.go)

    What one relayer does to take part in producing a signature: which peers
    it counts as ready, which subset the coordinator picks, when it runs the
    tss-lib party and how the result is encoded and distributed. *)
From S2P Require Import Prelude GoStd Encoding Json Libs JsonCodec Comm PeerSort TssCommon Keyshare TssCoordinator.

(** tss-lib's [SignatureData]. *)
Record SignatureData := {
  sd_R : bytes;
  sd_S : bytes;
  SignatureRecovery : bytes;
}.

Record EcdsaSignature := { es_Signature : bytes; es_ID : string }.

(** What the process does to the world, in program order. *)
Inductive signing_action :=
  | NewLocalParty (msg : Z) (parties : list PartyID) (self : option PartyID)
      (partyCount threshold sessionNumber : Z)
  | SubscribeTss (sessionID : string) (t : MessageType)
  | StartPool
  | PartyStart
  | UnSubscribeTss (subscriptionID : string)
  | CancelTss
  | SendResult (sig : EcdsaSignature)
  | BroadcastSignature (peers : list PeerID) (msg : bytes) (t : MessageType) (sessionID : string).

Section signing.
Context {SaveData : Type}.
Context `{PeerLib, Keccak, TssLib, EthCommon}.
(** [s.Host.ID()] and [s.Host.Peerstore().Peers()]. *)
Context (self : PeerID) (peerstore : list PeerID).

Record Signing := {
  sg_base : BaseTss;
  sg_coordinator : bool;
  sg_key : ECDSAKeyshare SaveData;
  sg_msg : Z;
  sg_subscriptionID : string;
}.

(** The keyshare is read under its lock, which is released on every path. *)
Definition NewSigning (msg : Z) (sessionID : string) (keyshare : result (ECDSAKeyshare SaveData))
    : result Signing :=
  match keyshare with
  | Err e => Err e
  | Ok key =>
      Ok {| sg_base := NewBaseTss sessionID (Peers key); sg_coordinator := false;
            sg_key := key; sg_msg := msg; sg_subscriptionID := "" |}
  end.

(** ** Readiness and the subset *)
Definition readyParticipants (s : Signing) (readyPeers : list PeerID) : list PeerID :=
  filter (λ p, p ∈ Peers (sg_key s)) readyPeers.

Definition Ready (s : Signing) (readyPeers excludedPeers : list PeerID) : result bool :=
  Ok (bool_decide (Z.of_nat (length (readyParticipants s readyPeers)) =
                   (Threshold (sg_key s) + 1)%Z)).

Definition ValidCoordinators (s : Signing) : list PeerID := Peers (sg_key s).

(** The loop that appends the sorted peers until [n] are chosen. *)
Fixpoint choose_subset (n : Z) (peerSubset : list PeerID) (sortedPeers : list PeerMsg)
    : list PeerID :=
  match sortedPeers with
  | [] => peerSubset
  | peer :: rest =>
      let peerSubset := peerSubset ++ [ID peer] in
      if bool_decide (Z.of_nat (length peerSubset) = n) then peerSubset
      else choose_subset n peerSubset rest
  end.

Definition start_subset (s : Signing) (readyPeers : list PeerID) : list PeerID :=
  choose_subset (Threshold (sg_key s) + 1) []
    (SortPeersForSession (readyParticipants s readyPeers) (SID (sg_base s))).

(** The error of [json.Marshal] is dropped. *)
Definition StartParams (s : Signing) (readyPeers : list PeerID) : bytes :=
  match Marshal (start_subset s readyPeers) with Ok b => b | Err _ => [] end.

Definition unmarshallStartParams (paramBytes : bytes) : result (list PeerID) :=
  Unmarshal paramBytes.

(** The process as the coordinator sees it. *)
Definition signing_process (s : Signing) : TssProcess := {|
  tp_SessionID := SID (sg_base s);
  tp_Ready := Ready s;
  tp_StartParams := StartParams s;
  tp_ValidCoordinators := ValidCoordinators s;
|}.

(** ** Run

    Up to the point where [Run] waits for its pool ([None]); [subID] is what
    [Subscribe] returns. *)
Definition Run (ans : party_answers) (subID : string) (s : Signing) (coordinator : bool)
    (params : bytes) : list signing_action * Signing * option (option error) :=
  if Started (sg_base s) then ([], s, Some (Some ErrProcessStarted)) else
  let s1 := {| sg_base := set_Started (sg_base s); sg_coordinator := coordinator;
               sg_key := sg_key s; sg_msg := sg_msg s;
               sg_subscriptionID := sg_subscriptionID s |} in
  match unmarshallStartParams params with
  | Err e => ([], s1, Some (Some e))
  | Ok peerSubset =>
      if negb (IsParticipant self peerSubset) then ([], s1, Some (Some (SubsetError self))) else
      let parties := PartiesFromPeers peerSubset in
      let store := PopulatePartyStore (PartyStore (sg_base s1)) parties in
      let s2 sub := {| sg_base := set_peers (sg_base s1) peerSubset store;
                       sg_coordinator := coordinator; sg_key := sg_key s; sg_msg := sg_msg s;
                       sg_subscriptionID := sub |} in
      match ans_NewParameters ans with
      | Some e => ([], s2 (sg_subscriptionID s), Some (Some e))
      | None =>
          let party := NewLocalParty (sg_msg s) parties (store !! peer_String self)
            (Z.of_nat (length parties)) (Threshold (sg_key s))
            (big.SetBytes (bytes_of (SID (sg_base s)))) in
          match ans_NewLocalParty ans with
          | Some e => ([party], s2 (sg_subscriptionID s), Some (Some e))
          | None =>
              ([party; SubscribeTss (SID (sg_base s)) TssKeySignMsg; StartPool; PartyStart],
               s2 subID,
               match ans_Start ans with Some e => Some (Some e) | None => None end)
          end
      end
  end.

Definition Stop (s : Signing) : list signing_action :=
  [UnSubscribeTss (sg_subscriptionID s); CancelTss].

(** ** The end of the process *)
Definition distributeSignature (s : Signing) (sig : bytes) : list signing_action :=
  if sg_coordinator s then []
  else match MarshalSignatureMessage (SID (sg_base s)) sig with
       | Err _ => []
       | Ok sigMsg => [BroadcastSignature peerstore sigMsg SignatureMsg SignatureSessionID]
       end.

(** [es[len(es)-1] += 27]. *)
Definition bump_last (es : bytes) : bytes :=
  alter (λ v, byte_of (byte_val v + 27)) (length es - 1) es.

Definition encode_signature (sig : SignatureData) : bytes :=
  bump_last (LeftPadBytes (sd_R sig) 32 ++ LeftPadBytes (sd_S sig) 32 ++ SignatureRecovery sig).

(** [processEndMessage] on [<-endChn], and on [<-ctx.Done()] ([None]). *)
Definition processEndMessage (s : Signing) (sig : option SignatureData) : list signing_action :=
  match sig with
  | Some sig =>
      let es := encode_signature sig in
      SendResult {| es_Signature := es; es_ID := SID (sg_base s) |} ::
      distributeSignature s es ++ [CancelTss]
  | None => [CancelTss]
  end.

(** [monitorSigning] on a tick: the party is asked twice which parties it
    waits for. *)
Definition monitorSigning (waitingFor compared next : list PartyID)
    : list PartyID * option error :=
  if negb (bool_decide (length waitingFor = 0)) && bool_decide (compared = waitingFor)
  then (waitingFor,
        Some (CommunicationError "" (Errorf ("waiting for peers " +:+ PartyIDs_String waitingFor))))
  else (next, None).

(** ** The subset *)
Lemma choose_subset_take n acc l :
  (Z.of_nat (length acc) < n)%Z →
  choose_subset n acc l = acc ++ take (Z.to_nat n - length acc) (ID <$> l).
Proof.
  revert acc. induction l as [|p l IH]; simpl; intros acc Hn; [by rw take_nil app_nil_r|].
  assert (length (acc ++ [ID p]) = S (length acc)) as Hlen by (rw length_app /=; lia).
  case_bool_decide as Hd.
  - replace (Z.to_nat n - length acc) with 1 by lia. by rw /= firstn_O.
  - rewrite IH ?Hlen; [|lia]. replace (Z.to_nat n - length acc) with (S (Z.to_nat n - S (length acc))) by lia.
    by rw /= -app_assoc.
Qed.

Lemma start_subset_take s readyPeers :
  (0 ≤ Threshold (sg_key s))%Z →
  start_subset s readyPeers =
  take (Z.to_nat (Threshold (sg_key s) + 1))
    (GetPeerIDs (SortPeersForSession (readyParticipants s readyPeers) (SID (sg_base s)))).
Proof.
  intros. rw /start_subset choose_subset_take /=; [|lia]. by rw Nat.sub_0_r.
Qed.

(** When the process is ready the subset is all the ready participants. *)
Lemma start_subset_ready s readyPeers excludedPeers :
  (0 ≤ Threshold (sg_key s))%Z → Ready s readyPeers excludedPeers = Ok true →
  start_subset s readyPeers ≡ₚ readyParticipants s readyPeers ∧
  Z.of_nat (length (readyParticipants s readyPeers)) = (Threshold (sg_key s) + 1)%Z.
Proof.
  intros Ht [= Hr%bool_decide_eq_true]. split; [|done].
  pose proof (GetPeerIDs_SortPeersForSession (SID (sg_base s)) (readyParticipants s readyPeers)) as Hp.
  rw start_subset_take // take_ge //. apply Permutation_length in Hp. lia.
Qed.

(** Once ready, more ready peers that leave it ready change nothing. *)
#[export] Instance signing_stable s : StableStart (signing_process s).
Proof.
  intros r1 r2 excluded Hp [= H1'%bool_decide_eq_true] [= H2'%bool_decide_eq_true].
  rw /= /StartParams /start_subset.
  by rewrite (prefix_length_unique (readyParticipants s r1) (readyParticipants s r2)
    (readyParticipants s r2)); [|by apply filter_prefix|done|lia].
Qed.

(** Every relayer that runs a signing session on its coordinator's start
    message runs it with one and the same subset: exactly threshold + 1
    distinct keyshare holders, each of them the coordinator or a peer that
    reported ready, whatever the order and repetition of ready messages and
    however often the start message is sent. *)
Theorem signing_subset_agreement (s : Signing) (evs : list initiate_event)
    (to : list PeerID) (payload : bytes) :
  self ≠ "" → (0 ≤ Threshold (sg_key s))%Z →
  Forall peer_valid (Peers (sg_key s)) →
  let sid := SID (sg_base s) in
  let trace := (initiate self peerstore (signing_process s) [] evs).1 in
  ActBroadcast to payload TssStartMsg sid ∈ trace →
  ∃ subset,
    Z.of_nat (length subset) = (Threshold (sg_key s) + 1)%Z ∧ NoDup subset ∧
    (∀ q, q ∈ subset → q ∈ Peers (sg_key s) ∧ (q = self ∨ q ∈ received evs)) ∧
    ∀ (received_by_participant : list wait_event) (params : bytes),
      (∀ b, WaitStart self b ∈ received_by_participant →
            ∃ to', ActBroadcast to' b TssStartMsg sid ∈ trace) →
      ActRun false params ∈ (waitForStart sid self received_by_participant).1 →
      unmarshallStartParams params = Ok subset.
Proof.
  intros Hself Ht Hwf sid trace Hstart.
  pose proof Hstart as (_ & evs1 & Hpre & Hready & Hm)%initiate_start_msg.
  set (r := ready_after [] [self] evs1) in *.
  destruct (start_subset_ready s r [] Ht Hready) as [Hperm Hlen].
  exists (start_subset s r). split_and!.
  - by rw Hperm.
  - rw Hperm. by apply NoDup_filter, ready_after_NoDup, NoDup_singleton.
  - intros q. rw Hperm. intros [??]%list_elem_of_filter. split; [done|].
    destruct (elem_of_ready_after [] [self] evs1 q) as [Hq|[Hq _]]; [done|by elem_cases Hq; left|].
    right. destruct Hpre as [k ->]. rw /received omap_app. apply elem_of_app. by left.
  - intros wevs params Hauth Hrun.
    assert (caused_by self wevs (ActRun false params)) as (_ & from & b & msg & Hin & Hfrom & Hu & <-).
    { rw /waitForStart in Hrun. pose proof (wait_loop_caused sid self wevs (ActRun false params)) as Hl.
      destruct (wait_loop sid self wevs) as [acts ?]. rw /wait_start /= in Hrun. elem_cases Hrun. by apply Hl. }
    rw (Hfrom Hself) in Hin. destruct (Hauth b Hin) as [to' Hb].
    rw -(initiate_start_unique self peerstore _ _ _ _ _ _ _ _ Hstart Hb) in Hu.
    injection Hm as <-. rw /UnmarshalStartMessage /= json_Unmarshal_Marshal in Hu; [|auto with go].
    injection Hu as <-. rw /= /StartParams /unmarshallStartParams.
    apply (json_Unmarshal_Marshal (start_subset s r)). simpl. rw Hperm.
    apply Forall_forall. intros q [Hq _]%list_elem_of_filter. by eapply Forall_forall in Hwf.
Qed.

(** ** Run *)

(** The process stays the one the coordinator was given. *)
Lemma Run_process ans subID s coordinator params :
  let s' := (Run ans subID s coordinator params).1.2 in
  sg_key s' = sg_key s ∧ SID (sg_base s') = SID (sg_base s) ∧ sg_msg s' = sg_msg s ∧
  signing_process s' = signing_process s ∧ Started (sg_base s') = true.
Proof.
  rw /Run. destruct (Started (sg_base s)) eqn:Hs; [done|].
  destruct (unmarshallStartParams params); [|done]. destruct (IsParticipant _ _); [|done].
  by destruct (ans_NewParameters ans), (ans_NewLocalParty ans).
Qed.

(** What [Run] does when it does something. *)
Lemma Run_acts ans subID s coordinator params :
  let acts := (Run ans subID s coordinator params).1.1 in
  acts = [] ∨
  Started (sg_base s) = false ∧
  ∃ subset me rest, unmarshallStartParams params = Ok subset ∧ self ∈ subset ∧
    base_Peers (sg_base (Run ans subID s coordinator params).1.2) = subset ∧
    PartyStore (sg_base (Run ans subID s coordinator params).1.2) =
      PopulatePartyStore (PartyStore (sg_base s)) (PartiesFromPeers subset) ∧
    acts = NewLocalParty (sg_msg s) (PartiesFromPeers subset) (Some me)
             (Z.of_nat (length subset)) (Threshold (sg_key s))
             (big.SetBytes (bytes_of (SID (sg_base s)))) :: rest ∧
    (rest = [] ∨ rest = [SubscribeTss (SID (sg_base s)) TssKeySignMsg; StartPool; PartyStart]) ∧
    me ∈ PartiesFromPeers subset ∧ party_Id me = peer_String self.
Proof.
  rw /Run. destruct (Started (sg_base s)) eqn:Hs; [by left|].
  destruct (unmarshallStartParams params) as [subset|e] eqn:Hu; [|by left].
  destruct (IsParticipant self subset) eqn:Hp; simpl; [|by left]. apply IsParticipant_spec in Hp.
  destruct (PopulatePartyStore_peers (PartyStore (sg_base s)) subset self Hp) as (me & Hme & ? & ?).
  rw length_PartiesFromPeers Hme.
  destruct (ans_NewParameters ans); [by left|]. right. split; [done|]. exists subset, me.
  destruct (ans_NewLocalParty ans); simpl; eexists; split_and!; try done; [by left|by right].
Qed.

(** A member of the subset that can set up the party starts it. *)
Lemma Run_starts subID s coordinator params subset :
  Started (sg_base s) = false → unmarshallStartParams params = Ok subset → self ∈ subset →
  let r := Run {| ans_NewParameters := None; ans_NewLocalParty := None; ans_Start := None |}
             subID s coordinator params in
  r.1.1 ≠ [] ∧ r.2 = None.
Proof. intros Hs Hu Hp%IsParticipant_spec. by rw /Run Hs Hu Hp. Qed.

(** C27: [Run] builds a party at most once, and only from start parameters
    that name the relayer: a second call fails without an effect, a relayer
    outside the subset gets a [SubsetError], and otherwise the party signs
    the process's message with the keyshare's threshold, as a party of the
    subset that carries the relayer's own ID, with every member of the subset
    mapped to the party that carries its ID. *)
Theorem Run_party (ans : party_answers) (subID : string) (s s' : Signing)
    (coordinator : bool) (params : bytes) (acts : list signing_action)
    (res : option (option error)) :
  Run ans subID s coordinator params = (acts, s', res) →
  Started (sg_base s') = true ∧
  (Started (sg_base s) = true → acts = [] ∧ s' = s ∧ res = Some (Some ErrProcessStarted)) ∧
  (∀ subset, Started (sg_base s) = false → unmarshallStartParams params = Ok subset →
     self ∉ subset → acts = [] ∧ res = Some (Some (SubsetError self))) ∧
  (acts ≠ [] → Started (sg_base s) = false ∧
     ∃ subset me rest, unmarshallStartParams params = Ok subset ∧ self ∈ subset ∧
       base_Peers (sg_base s') = subset ∧
       acts = NewLocalParty (sg_msg s) (PartiesFromPeers subset) (Some me)
                (Z.of_nat (length subset)) (Threshold (sg_key s))
                (big.SetBytes (bytes_of (SID (sg_base s)))) :: rest ∧
       me ∈ PartiesFromPeers subset ∧ party_Id me = peer_String self ∧
       ∀ q, q ∈ subset → ∃ p, PartyStore (sg_base s') !! peer_String q = Some p ∧
         p ∈ PartiesFromPeers subset ∧ party_Id p = peer_String q).
Proof.
  intros Hrun. pose proof (Run_process ans subID s coordinator params) as (_ & _ & _ & _ & Hst).
  pose proof (Run_acts ans subID s coordinator params) as Hacts. rw Hrun /= in Hst Hacts.
  split_and!; [done| | |].
  - intros Hs. by rw /Run Hs in Hrun; injection Hrun as <- <- <-.
  - intros subset Hs Hu Hp. rw /Run Hs Hu in Hrun.
    destruct (IsParticipant self subset) eqn:E; [by apply IsParticipant_spec in E|].
    by injection Hrun as <- <- <-.
  - intros Hne. destruct Hacts as [?|(Hs & subset & me & rest & Hu & Hin & Hp & Hstore & Ha & _ & Hme & Hid)]; [done|].
    split; [done|]. exists subset, me, rest. split_and!; try done.
    intros q Hq. rw Hstore. by apply PopulatePartyStore_peers.
Qed.

(** ** The signature *)
Lemma LeftPadBytes_length b l : length b ≤ l → length (LeftPadBytes b l) = l.
Proof. intros. rw LeftPadBytes_spec length_app length_replicate. lia. Qed.

Lemma SetBytes_LeftPadBytes b l : big.SetBytes (LeftPadBytes b l) = big.SetBytes b.
Proof. rw LeftPadBytes_spec. apply big.SetBytes_zeros. Qed.

(** C28: the signature that leaves the process is the 65-byte R, S, V
    encoding: two big-endian 32-byte words equal to the numbers tss-lib
    returned, leading zeros restored, and the recovery identifier moved from
    0/1 to 27/28; it is reported under the session's ID before it is sent to
    the other relayers, and only by relayers that do not coordinate. *)
Theorem processEndMessage_signature (s : Signing) (sig : SignatureData) (v : Byte.byte) :
  length (sd_R sig) ≤ 32 → length (sd_S sig) ≤ 32 → SignatureRecovery sig = [v] →
  (byte_val v ≤ 228)%Z →
  ∃ es rest, processEndMessage s (Some sig) =
      SendResult {| es_Signature := es; es_ID := SID (sg_base s) |} :: rest ∧
    length es = 65 ∧
    big.SetBytes (take 32 es) = big.SetBytes (sd_R sig) ∧
    big.SetBytes (take 32 (drop 32 es)) = big.SetBytes (sd_S sig) ∧
    (∃ w, es !! 64 = Some w ∧ byte_val w = (byte_val v + 27)%Z) ∧
    (sg_coordinator s = true → rest = [CancelTss]) ∧
    (∀ m, sg_coordinator s = false →
       MarshalSignatureMessage (SID (sg_base s)) es = Ok m →
       rest = [BroadcastSignature peerstore m SignatureMsg SignatureSessionID; CancelTss]).
Proof.
  intros HR HS HV Hv. do 2 eexists. split; [done|].
  rw /encode_signature HV.
  pose proof (LeftPadBytes_length _ _ HR) as HlR. pose proof (LeftPadBytes_length _ _ HS) as HlS.
  set (a := LeftPadBytes (sd_R sig) 32) in *. set (b := LeftPadBytes (sd_S sig) 32) in *.
  assert (bump_last (a ++ b ++ [v]) = a ++ b ++ [byte_of (byte_val v + 27)]) as Heq.
  { rw /bump_last !length_app HlR HlS /=.
    by rw alter_app_r_alt HlR ?alter_app_r_alt ?HlS; try lia. }
  rw Heq. split_and!.
  - rw !length_app HlR HlS. done.
  - rw take_app_length' //. apply SetBytes_LeftPadBytes.
  - rw drop_app_length' // take_app_length' //. apply SetBytes_LeftPadBytes.
  - exists (byte_of (byte_val v + 27)). split.
    + rw app_assoc lookup_app_r length_app HlR HlS //; lia.
    + rw byte_val_of /u8 Z.mod_small //. pose proof (byte_val_bounds v). change (2 ^ 8)%Z with 256%Z. lia.
  - by rw /distributeSignature => ->.
  - rw /distributeSignature. by intros m -> ->.
Qed.
End signing.

Section witnesses.
Import Toy.

Definition demo_signing : Signing := {|
  sg_base := NewBaseTss "s" ["a"; "b"; "c"]; sg_coordinator := false;
  sg_key := {| Key := tt; Threshold := 1; Peers := ["a"; "b"; "c"] |};
  sg_msg := 5; sg_subscriptionID := "" |}.

Lemma signing_subset_agreement_witness :
  ∃ subset : list PeerID, Z.of_nat (length subset) = 2%Z ∧ NoDup subset.
Proof.
  pose (payload := match MarshalStartMessage (StartParams demo_signing ["a"; "b"]) with
                   | Ok b => b | Err _ => [] end).
  destruct (signing_subset_agreement "a" ["a"; "b"; "c"] demo_signing [InitReady "b"]
    ["a"; "b"; "c"] payload) as (subset & Hl & Hn & _).
  - done.
  - by vm_compute.
  - by repeat constructor.
  - apply (bool_decide_unpack _). by vm_compute.
  - by exists subset.
Defined.

Lemma Run_party_witness :
  let r := Run "c" {| ans_NewParameters := None; ans_NewLocalParty := None; ans_Start := None |}
             "sub" demo_signing false (StartParams demo_signing ["a"; "b"]) in
  r.1.1 = [] ∧ r.2 = Some (Some (SubsetError "c")).
Proof.
  intros r. destruct r as [[acts s'] res] eqn:E.
  eapply Run_party in E as (_ & _ & Hsub & _).
  apply (Hsub ["b"; "a"]); [done|by vm_compute|].
  intros Hin. by elem_cases Hin.
Defined.

Lemma processEndMessage_signature_witness :
  ∃ es, length es = 65 ∧ big.SetBytes (take 32 es) = 5%Z.
Proof.
  destruct (processEndMessage_signature ["a"] demo_signing
    {| sd_R := [Byte.x05]; sd_S := [Byte.x07]; SignatureRecovery := [Byte.x01] |} Byte.x01)
    as (es & _ & _ & Hl & HR & _); [vm_compute; lia..|done|by vm_compute|].
  by exists es.
Defined.
End witnesses.
