(* ===== verification/Network.v ===== *)
(** * Sessions of tss processes on the network (src/tss, src/comm)

    The relayers of one session, each with its call of [Execute], the process
    it runs and the goroutines of [startProcess], and the messages between
    them.  [TssCoordinator] says what one relayer does with what it receives;
    here it receives what the others sent.  [Process] is what a kind of
    process promises to the coordinator; signing, key generation and
    resharing are its instances.

    Messages are never taken back from the network, and are delivered in any
    order, late, more than once or not at all; their senders are
    authenticated.  Peers that are not among the relayers of the model send
    whatever they like to the relayers whose connection gate lets them
    through: those that have them in their peerstore, which is loaded from
    the topology that the gate is set to. *)
From S2P Require Import Prelude GoStd Encoding Json Libs JsonCodec Comm PeerSort TssCommon TssCoordinator.

Record packet := {
  pk_From : PeerID;
  pk_To : PeerID;
  pk_Type : MessageType;
  pk_Session : string;
  pk_Payload : bytes;
}.

(** [Broadcast]: one message to each peer but the host. *)
Definition sends (self : PeerID) (acts : list action) : list packet :=
  acts ≫= λ a,
    match a with
    | ActBroadcast to payload t s =>
        (λ q, {| pk_From := self; pk_To := q; pk_Type := t; pk_Session := s; pk_Payload := payload |})
          <$> filter (λ q, q ≠ self) to
    | _ => []
    end.

(** The goroutines that were started. *)
Definition spawns (acts : list action) : list (bool * bytes) :=
  omap (λ a, match a with ActRun c params => Some (c, params) | _ => None end) acts.

Definition new_actions (ex ex' : execution) : list action :=
  drop (length (ex_trace ex)) (ex_trace ex').

Lemma elem_of_sends self acts p :
  p ∈ sends self acts ↔
  ∃ to, ActBroadcast to (pk_Payload p) (pk_Type p) (pk_Session p) ∈ acts ∧
        pk_From p = self ∧ pk_To p ∈ to ∧ pk_To p ≠ self.
Proof.
  rw /sends list_elem_of_bind. split.
  - intros (a & Hp & Ha). destruct a; try by apply not_elem_of_nil in Hp.
    apply list_elem_of_fmap in Hp as (q & -> & [??]%list_elem_of_filter). by eexists.
  - intros (to & Ha & Hf & Hto & Hne). eexists. split; [|exact Ha].
    apply list_elem_of_fmap. exists (pk_To p). split; [by destruct p; simpl in *; subst|].
    by apply list_elem_of_filter.
Qed.

Lemma elem_of_spawns acts c params : (c, params) ∈ spawns acts ↔ ActRun c params ∈ acts.
Proof.
  rw /spawns list_elem_of_omap. split.
  - intros (a & Ha & Heq). by destruct a; simplify_eq.
  - intros Ha. by eexists.
Qed.

(** ** One event of an execution *)
Section events.
Context `{PeerLib, Keccak}.
Context (peers : list PeerID).

Definition loop_grows (l l' : loop) : Prop :=
  match l, l' with
  | Initiating st, Initiating st' => readyPeers st `prefix_of` readyPeers st'
  | Waiting, Waiting => True
  | _, _ => False
  end.

#[export] Instance loop_grows_preorder : PreOrder loop_grows.
Proof.
  split.
  - intros [st|]; simpl; done.
  - intros [a|] [b|] [c|]; simpl; try done. apply transitivity.
Qed.

(** Why an execution sends what it sends and starts what it starts. *)
Definition justified (ex : execution) (ev : exec_event) (ex' : execution) (a : action) : Prop :=
  match a with
  | ActBroadcast to payload t s =>
      s = ex_sid ex ∧
      (t = TssStartMsg → ∃ st, ex_loop ex' = Initiating st ∧
         started_with (ex_process ex) [] (readyPeers st) payload)
  | ActRun c params =>
      (∃ st, ex_loop ex' = Initiating st ∧ tp_Ready (ex_process ex) (readyPeers st) [] = Ok true ∧
         params = tp_StartParams (ex_process ex) (readyPeers st)) ∨
      (ex_loop ex = Waiting ∧ ∃ from payload msg, ev = EvWait (WaitStart from payload) ∧
         (ex_coordinator ex ≠ "" → from = ex_coordinator ex) ∧
         UnmarshalStartMessage payload = Ok msg ∧ Params msg = params)
  | _ => True
  end.

Lemma initiate_step_justified p st iev ex ex' acts st' res a :
  initiate_step peers p [] st iev = (acts, st', res) →
  ex_process ex = p → ex_loop ex' = Initiating st' → a ∈ acts → justified ex (EvInitiate iev) ex' a.
Proof.
  intros Hs Hp Hl Ha. destruct iev as [|from| |]; simpl in Hs.
  - injection Hs as <- <- <-. by apply not_elem_of_nil in Ha.
  - subst p. destruct (tp_Ready (ex_process ex) (add_ready [] (readyPeers st) from) []) as [[]|] eqn:Er;
      [|by injection Hs as <- <- <-; apply not_elem_of_nil in Ha..].
    injection Hs as <- <- <-. elem_cases Ha; simpl.
    + split; [done|]. intros _. by eexists.
    + done.
    + left. by eexists.
  - injection Hs as <- <- <-. destruct (ticking st); [|by apply not_elem_of_nil in Ha].
    elem_cases Ha. simpl. split; [by subst|done].
  - injection Hs as <- <- <-. by apply not_elem_of_nil in Ha.
Qed.

Lemma wait_step_justified wev ex ex' acts res a :
  wait_step (ex_sid ex) (ex_coordinator ex) wev = (acts, res) →
  ex_loop ex = Waiting → a ∈ acts → justified ex (EvWait wev) ex' a.
Proof.
  intros Hs Hl Ha. pose proof (wait_step_caused (ex_sid ex) (ex_coordinator ex) wev a) as Hc.
  rw Hs in Hc. specialize (Hc Ha). destruct a; simpl in *; try done.
  - destruct Hc as (from & -> & -> & Hin & _). split; [|done].
    destruct wev; simpl in Hs; try by elem_cases Hin.
    revert Hs. case_match; intros [= <- <-]; by elem_cases Ha.
  - destruct Hc as (-> & from & payload & msg & Hin & Hf & Hu & Hp). right. split; [done|].
    exists from, payload, msg. split; [|done]. apply list_elem_of_singleton in Hin. by rw -Hin.
Qed.

Lemma new_actions_app ex ex' acts :
  ex_trace ex' = ex_trace ex ++ acts → new_actions ex ex' = acts.
Proof. rw /new_actions. intros ->. by rw drop_app_length. Qed.

Lemma exec_step_justified ex ev ex' :
  exec_step peers ex ev = Some ex' →
  ex_process ex' = ex_process ex ∧ ex_coordinator ex' = ex_coordinator ex ∧
  loop_grows (ex_loop ex) (ex_loop ex') ∧
  Forall (justified ex ev ex') (new_actions ex ex').
Proof.
  rw /exec_step. destruct (event_enabled _ ev); simpl; [|done].
  destruct ev as [iev|wev|wev|].
  - destruct (ex_loop ex) as [st|] eqn:El, (ex_start ex); try done.
    destruct (initiate_step peers (ex_process ex) [] st iev) as [[acts st1] res] eqn:Es. intros [= <-].
    split_and!; [done|done| |].
    + simpl. pose proof (initiate_step_ready peers (ex_process ex) [] st iev) as Hr. rw Es /= in Hr.
      rw Hr. apply ready_after_prefix.
    + erewrite new_actions_app; [|done]. apply Forall_app. split.
      * apply Forall_forall. intros a Ha. by eapply initiate_step_justified.
      * destruct res; by repeat constructor.
  - destruct (ex_loop ex) as [st|] eqn:El, (ex_start ex); try done.
    destruct (wait_step _ _ wev) as [acts res] eqn:Es. intros [= <-].
    split_and!; [done|done|done|]. erewrite new_actions_app; [|done]. apply Forall_app. split.
    + apply Forall_forall. intros a Ha. by eapply wait_step_justified.
    + destruct res; by repeat constructor.
  - destruct (watch_step _ _ wev) as [[acts cancel] res] eqn:Es.
    intros Heq. assert (ex' = watch_returns ex acts cancel res) as ->.
    { by destruct (ex_loop ex), (ex_start ex), (ex_watch ex); simplify_eq. }
    clear Heq. split_and!; [done|done|by simpl|]. erewrite new_actions_app; [|done].
    apply Forall_app. split; [|by destruct res; repeat constructor].
    destruct wev as [| |from]; simpl in Es; [by injection Es as <- <- <-; repeat constructor..|].
    destruct (bool_decide _); by injection Es as <- <- <-.
  - intros Heq. assert (ex' = cancel_execution ex) as ->.
    { by destruct (ex_loop ex), (ex_start ex), (ex_watch ex); simplify_eq. }
    split_and!; [done|done|by simpl|]. erewrite (new_actions_app _ _ []); [constructor|]. by rw app_nil_r.
Qed.

(** Who is ready. *)
Lemma exec_step_ready ex ev ex' st :
  exec_step peers ex ev = Some ex' → ex_loop ex = Initiating st →
  ∃ st', ex_loop ex' = Initiating st' ∧
    (readyPeers st' = readyPeers st ∨
     ∃ from, ev = EvInitiate (InitReady from) ∧ readyPeers st' = add_ready [] (readyPeers st) from).
Proof.
  rw /exec_step. intros Hs El. rw El in Hs. destruct (event_enabled _ ev); simpl in Hs; [|done].
  destruct ev as [iev|wev|wev|], (ex_start ex), (ex_watch ex); try done;
    try (injection Hs as <-; exists st; by auto).
  1, 2: pose proof (initiate_step_ready peers (ex_process ex) [] st iev) as Hr;
    destruct (initiate_step _ _ _ st iev) as [[acts st1] res]; injection Hs as <-; exists st1;
    split; [done|]; simpl in Hr; rw Hr; destruct iev; [by left|right; by eexists|by left..].
  all: destruct (watch_step _ _ wev) as [[acts c] res]; injection Hs as <-; exists st; by auto.
Qed.
End events.

(** ** Processes

    A kind of process: its state, the actions of [Run], and what [Run] makes
    of its parameters. *)
Class Process (State Action Meaning : Type) `{PeerLib, Keccak} := {
  pr_coordinated : State → TssProcess;
  (** [Run] on the relayer of this ID, with the ID of the subscription it makes *)
  pr_run : PeerID → party_answers → string → State → bool → bytes →
           outcome (list Action * State * option (option error));
  (** [Run] has not been called *)
  pr_fresh : State → bool;
  pr_read : bytes → Meaning;
  (** its start parameters can be read back *)
  pr_ok : State → Prop;
  pr_run_once r ans sub s c params acts s' res :
    pr_run r ans sub s c params = Done (acts, s', res) →
    pr_fresh s' = false ∧ (pr_fresh s = false → acts = []);
  (** the coordinator may go on asking a process that runs *)
  pr_run_session r ans sub s c params acts s' res :
    pr_run r ans sub s c params = Done (acts, s', res) →
    tp_SessionID (pr_coordinated s') = tp_SessionID (pr_coordinated s) ∧
    (∀ ready excluded, tp_Ready (pr_coordinated s') ready excluded = tp_Ready (pr_coordinated s) ready excluded) ∧
    (pr_ok s → pr_ok s' ∧
       ∀ ready, pr_read (tp_StartParams (pr_coordinated s') ready) = pr_read (tp_StartParams (pr_coordinated s) ready));
  pr_ready_ok s ready : ∃ b, tp_Ready (pr_coordinated s) ready [] = Ok b;
  pr_stable s ready1 ready2 :
    ready1 `prefix_of` ready2 →
    tp_Ready (pr_coordinated s) ready1 [] = Ok true → tp_Ready (pr_coordinated s) ready2 [] = Ok true →
    pr_read (tp_StartParams (pr_coordinated s) ready1) = pr_read (tp_StartParams (pr_coordinated s) ready2);
}.

Definition set_process (ex : execution) (p : TssProcess) : execution :=
  {| ex_process := p; ex_others := ex_others ex; ex_coordinator := ex_coordinator ex;
     ex_loop := ex_loop ex; ex_start := ex_start ex; ex_watch := ex_watch ex;
     ex_cancelled := ex_cancelled ex; ex_trace := ex_trace ex |}.

Section network.
Context {State Action Meaning : Type} `{Process State Action Meaning}.

(** The relayers of the session: the process each of them makes and the
    coordinator it passes to [Execute]. *)
Context (relayers : gmap PeerID (State * PeerID)).
Context (peerstore : PeerID → list PeerID).

(** ** State *)
Record member := {
  mb_execution : execution;
  mb_process : State;
  mb_starting : list (bool * bytes);   (** [startProcess] before [Run] *)
  mb_running : bool;                   (** [Run] waits for the party *)
  mb_actions : list Action;
}.

Record network := { members : gmap PeerID member; sent : list packet }.

Definition empty_network : network := {| members := ∅; sent := [] |}.

(** A relayer calls [Execute]. *)
Definition join (r : PeerID) (s : State) (coordinator : PeerID) : member := {|
  mb_execution := begin_execution r (peerstore r) (pr_coordinated s) [] coordinator;
  mb_process := s; mb_starting := []; mb_running := false; mb_actions := [] |}.

(** ** Messages *)
Definition arrives (net : network) (from to : PeerID) (t : MessageType) (s : string)
    (payload : bytes) : Prop :=
  (relayers !! from = None ∧ from ∈ peerstore to) ∨
  {| pk_From := from; pk_To := to; pk_Type := t; pk_Session := s; pk_Payload := payload |} ∈ sent net.

(** An event of the execution of [self] that the network or its clocks
    cause; errors come from [startProcess]. *)
Definition caused (net : network) (self : PeerID) (s : string) (ev : exec_event) : Prop :=
  match ev with
  | EvInitiate (InitReady from) => ∃ payload, arrives net from self TssReadyMsg s payload
  | EvWait (WaitInit from) => ∃ payload, arrives net from self TssInitiateMsg s payload
  | EvWait (WaitStart from payload) => arrives net from self TssStartMsg s payload
  | EvWatch (WatchFail from) => ∃ payload, arrives net from self TssFailMsg s payload
  | EvInitiate (InitErr _) | EvWait (WaitErr _) => False
  | _ => True
  end.

(** ** Steps *)
(** [self] goes from the execution of [m] to [ex]. *)
Definition advance (net : network) (self : PeerID) (m : member) (ex : execution) : network :=
  let acts := new_actions (mb_execution m) ex in
  {| members := <[self := {| mb_execution := ex; mb_process := mb_process m;
                             mb_starting := mb_starting m ++ spawns acts;
                             mb_running := mb_running m; mb_actions := mb_actions m |}]> (members net);
     sent := sent net ++ sends self acts |}.

(** What becomes of an execution when [Run] returns [err]; [selecting] says
    whether the loop is blocked in its [select]. *)
Definition report_error (self : PeerID) (ex : execution) (err : option error) (selecting : bool) : execution :=
  match startProcess err selecting with
  | Some e =>
      default ex (exec_step (peerstore self) ex
        match ex_loop ex with Initiating _ => EvInitiate (InitErr e) | Waiting => EvWait (WaitErr e) end)
  | None => ex
  end.

(** [Run] has been called; [res] is what it returned, if it has. *)
Definition after_run (self : PeerID) (ex : execution) (res : option (option error)) (selecting : bool) : execution :=
  match res with Some err => report_error self ex err selecting | None => ex end.

(** [Run] has been called with one of the parameters; its process is now [s]. *)
Definition has_run (m : member) (s : State) (starting : list (bool * bytes)) (acts : list Action)
    (res : option (option error)) : member := {|
  mb_execution := set_process (mb_execution m) (pr_coordinated s); mb_process := s;
  mb_starting := starting; mb_running := mb_running m || bool_decide (res = None);
  mb_actions := mb_actions m ++ acts |}.

Inductive network_step (net : network) : network → Prop :=
  | step_join r s coordinator :
      relayers !! r = Some (s, coordinator) → members net !! r = None →
      network_step net
        {| members := <[r := join r s coordinator]> (members net);
           sent := sent net ++ sends r (ex_trace (mb_execution (join r s coordinator))) |}
  | step_receive r m ev ex :
      members net !! r = Some m → caused net r (ex_sid (mb_execution m)) ev →
      exec_step (peerstore r) (mb_execution m) ev = Some ex →
      network_step net (advance net r m ex)
  (** A call that panics ends the relayer, which then does what a relayer
      without further steps does. *)
  | step_run r m before c params after ans subID acts s res selecting :
      members net !! r = Some m → mb_starting m = before ++ (c, params) :: after →
      pr_run r ans subID (mb_process m) c params = Done (acts, s, res) →
      network_step net (advance net r (has_run m s (before ++ after) acts res)
        (after_run r (set_process (mb_execution m) (pr_coordinated s)) res selecting))
  (** The party has ended. *)
  | step_ran r m err selecting :
      members net !! r = Some m → mb_running m = true →
      network_step net
        (advance net r {| mb_execution := mb_execution m; mb_process := mb_process m;
                          mb_starting := mb_starting m; mb_running := false; mb_actions := mb_actions m |}
           (report_error r (mb_execution m) err selecting)).

(** What a step does to the execution of [r]: nothing, an event of the
    network or an error of [Run]. *)
Definition moved (net : network) (r : PeerID) (ex ex' : execution) : Prop :=
  ex' = ex ∨
  ∃ ev, exec_step (peerstore r) ex ev = Some ex' ∧
    (caused net r (ex_sid ex) ev ∨ ∃ e, ev = EvInitiate (InitErr e) ∨ ev = EvWait (WaitErr e)).

Lemma report_error_moved net r ex err selecting : moved net r ex (report_error r ex err selecting).
Proof.
  rw /report_error. destruct (startProcess err selecting) as [e|]; [|by left].
  set (ev := match ex_loop ex with Initiating _ => _ | Waiting => _ end).
  destruct (exec_step (peerstore r) ex ev) as [ex'|] eqn:E; [|by left].
  right. exists ev. split; [done|]. right. exists e. rw /ev. by destruct (ex_loop ex); auto.
Qed.

Lemma after_run_moved net r ex res selecting : moved net r ex (after_run r ex res selecting).
Proof. destruct res; [apply report_error_moved|by left]. Qed.

Lemma moved_justified net r ex ex' :
  moved net r ex ex' →
  ex_process ex' = ex_process ex ∧ ex_coordinator ex' = ex_coordinator ex ∧
  loop_grows (ex_loop ex) (ex_loop ex') ∧
  ∃ ev, (ev = EvCancel ∨ caused net r (ex_sid ex) ev ∨ ∃ e, ev = EvInitiate (InitErr e) ∨ ev = EvWait (WaitErr e)) ∧
    Forall (justified ex ev ex') (new_actions ex ex').
Proof.
  intros [->|(ev & Hs & Hc)].
  - split_and!; [done..|]. exists EvCancel. split; [by left|]. rw (new_actions_app _ _ []); [constructor|].
    by rw app_nil_r.
  - destruct (exec_step_justified (peerstore r) ex ev ex' Hs) as (? & ? & ? & ?).
    split_and!; [done..|]. exists ev. by auto.
Qed.

Lemma moved_ready net r ex ex' st :
  moved net r ex ex' → ex_loop ex = Initiating st →
  ∃ st', ex_loop ex' = Initiating st' ∧
    (readyPeers st' = readyPeers st ∨
     ∃ from b, arrives net from r TssReadyMsg (ex_sid ex) b ∧ readyPeers st' = add_ready [] (readyPeers st) from).
Proof.
  intros [->|(ev & Hs & Hc)] Hl; [by exists st; auto|].
  destruct (exec_step_ready (peerstore r) ex ev ex' st Hs Hl) as (st' & Hl' & Hr).
  exists st'. split; [done|]. destruct Hr as [?|(from & -> & Hr)]; [by left|]. right.
  destruct Hc as [[b Hb]|(e & [[=]|[=]])]. by exists from, b.
Qed.

Definition network_reachable (net : network) : Prop := rtc network_step empty_network net.

(** *** Schedules

    A step is determined by the relayer and what it does. *)
Inductive choice :=
  | Join (r : PeerID)
  | Receive (r : PeerID) (ev : exec_event)
  | RunNext (r : PeerID) (ans : party_answers) (subID : string) (selecting : bool)
  | Ran (r : PeerID) (err : option error) (selecting : bool).

Definition arrived (net : network) (from to : PeerID) (t : MessageType) (s : string) : bool :=
  existsb (λ p, bool_decide (pk_From p = from) && bool_decide (pk_To p = to) &&
                bool_decide (pk_Type p = t) && bool_decide (pk_Session p = s)) (sent net).

Definition arrived_payload (net : network) (from to : PeerID) (t : MessageType) (s : string)
    (payload : bytes) : bool :=
  existsb (λ p, bool_decide (pk_From p = from) && bool_decide (pk_To p = to) &&
                bool_decide (pk_Type p = t) && bool_decide (pk_Session p = s) &&
                bool_decide (pk_Payload p = payload)) (sent net).

Definition can_receive (net : network) (self : PeerID) (s : string) (ev : exec_event) : bool :=
  match ev with
  | EvInitiate (InitReady from) => arrived net from self TssReadyMsg s
  | EvWait (WaitInit from) => arrived net from self TssInitiateMsg s
  | EvWait (WaitStart from payload) => arrived_payload net from self TssStartMsg s payload
  | EvWatch (WatchFail from) => arrived net from self TssFailMsg s
  | EvInitiate (InitErr _) | EvWait (WaitErr _) => false
  | _ => true
  end.

Definition next (net : network) (c : choice) : option network :=
  match c with
  | Join r =>
      match relayers !! r, members net !! r with
      | Some (s, coordinator), None =>
          Some {| members := <[r := join r s coordinator]> (members net);
                  sent := sent net ++ sends r (ex_trace (mb_execution (join r s coordinator))) |}
      | _, _ => None
      end
  | Receive r ev =>
      m ← members net !! r;
      if can_receive net r (ex_sid (mb_execution m)) ev
      then ex ← exec_step (peerstore r) (mb_execution m) ev; Some (advance net r m ex)
      else None
  | RunNext r ans subID selecting =>
      m ← members net !! r;
      match mb_starting m with
      | (c, params) :: after =>
          match pr_run r ans subID (mb_process m) c params with
          | Done (acts, s, res) =>
              Some (advance net r (has_run m s after acts res)
                      (after_run r (set_process (mb_execution m) (pr_coordinated s)) res selecting))
          | Panic _ => None
          end
      | [] => None
      end
  | Ran r err selecting =>
      m ← members net !! r;
      if mb_running m
      then Some (advance net r {| mb_execution := mb_execution m; mb_process := mb_process m;
                                  mb_starting := mb_starting m; mb_running := false;
                                  mb_actions := mb_actions m |}
                   (report_error r (mb_execution m) err selecting))
      else None
  end.

Lemma arrived_arrives net from to t s : arrived net from to t s = true → ∃ payload, arrives net from to t s payload.
Proof.
  intros (p & Hp & Heq)%existsb_exists. repeat apply andb_true_iff in Heq as [Heq ?%bool_decide_eq_true].
  apply bool_decide_eq_true in Heq. exists (pk_Payload p). right. subst. by destruct p; apply list_elem_of_In.
Qed.

Lemma arrived_payload_arrives net from to t s payload :
  arrived_payload net from to t s payload = true → arrives net from to t s payload.
Proof.
  intros (p & Hp & Heq)%existsb_exists. repeat apply andb_true_iff in Heq as [Heq ?%bool_decide_eq_true].
  apply bool_decide_eq_true in Heq. right. subst. by destruct p; apply list_elem_of_In.
Qed.

Lemma can_receive_caused net self s ev : can_receive net self s ev = true → caused net self s ev.
Proof.
  destruct ev as [[]|[]|[]|]; simpl; try done; try apply arrived_arrives. apply arrived_payload_arrives.
Qed.

Lemma next_step net c net' : next net c = Some net' → network_step net net'.
Proof.
  destruct c as [r|r ev|r ans subID selecting|r err selecting]; simpl.
  - destruct (relayers !! r) as [[s co]|] eqn:Er; [|done].
    destruct (members net !! r) eqn:Em; [done|]. intros [= <-]. by apply step_join.
  - destruct (members net !! r) as [m|] eqn:Em; [|done]. simpl.
    destruct (can_receive net r _ ev) eqn:Ec; [|done].
    destruct (exec_step _ _ ev) as [ex|] eqn:Ex; [|done]. intros [= <-].
    eapply step_receive; [done|by apply can_receive_caused|done].
  - destruct (members net !! r) as [m|] eqn:Em; [|done]. simpl.
    destruct (mb_starting m) as [|[c params] after] eqn:Es; [done|].
    destruct (pr_run r ans subID (mb_process m) c params) as [[[acts s] res]|] eqn:Er; [|done]. intros [= <-].
    by apply (step_run net r m [] c params after ans subID acts s res selecting).
  - destruct (members net !! r) as [m|] eqn:Em; [|done]. simpl.
    destruct (mb_running m) eqn:Ew; [|done]. intros [= <-]. by apply step_ran.
Qed.

(** The network after a schedule. *)
Fixpoint play (net : network) (cs : list choice) : option network :=
  match cs with
  | [] => Some net
  | c :: cs' => net' ← next net c; play net' cs'
  end.

Lemma play_steps net cs net' : play net cs = Some net' → rtc network_step net net'.
Proof.
  revert net. induction cs as [|c cs IH]; simpl; intros net; [by intros [= <-]|].
  destruct (next net c) as [net1|] eqn:E; [|done]. intros Hp.
  eapply rtc_l; [by apply (next_step _ c)|by apply IH].
Qed.

(** ** What is never lost *)
(** What the coordinator asks of a process does not change when it runs. *)
Definition same_process (s s' : State) : Prop :=
  tp_SessionID (pr_coordinated s') = tp_SessionID (pr_coordinated s) ∧
  (∀ ready excluded, tp_Ready (pr_coordinated s') ready excluded = tp_Ready (pr_coordinated s) ready excluded) ∧
  (pr_ok s → pr_ok s' ∧
     ∀ ready, pr_read (tp_StartParams (pr_coordinated s') ready) = pr_read (tp_StartParams (pr_coordinated s) ready)).

#[export] Instance same_process_preorder : PreOrder same_process.
Proof.
  split; [by intros s|]. intros s1 s2 s3 (A1 & A2 & A3) (B1 & B2 & B3). split_and!.
  - by rw B1.
  - intros. by rw B2.
  - intros [[Hok Ha]%B3 Hb]%A3. split; [done|]. intros ready. by rw Ha.
Qed.

Lemma run_same_process r ans subID s c params acts s' res :
  pr_run r ans subID s c params = Done (acts, s', res) → same_process s s'.
Proof. apply pr_run_session. Qed.

Definition member_grows (m m' : member) : Prop :=
  same_process (mb_process m) (mb_process m') ∧
  loop_grows (ex_loop (mb_execution m)) (ex_loop (mb_execution m')).

Definition network_grows (net net' : network) : Prop :=
  sent net ⊆ sent net' ∧
  ∀ r m, members net !! r = Some m → ∃ m', members net' !! r = Some m' ∧ member_grows m m'.

Lemma arrives_grows net net' from to t s b :
  network_grows net net' → arrives net from to t s b → arrives net' from to t s b.
Proof. intros [Hs _] [?|?]; [by left|right]. by apply Hs. Qed.

Lemma advance_grows net r m0 m ex :
  members net !! r = Some m0 → same_process (mb_process m0) (mb_process m) →
  loop_grows (ex_loop (mb_execution m0)) (ex_loop ex) → network_grows net (advance net r m ex).
Proof.
  intros Hm Hs Hl. split; [simpl; intros p Hp; apply elem_of_app; by left|].
  intros q mq Hq. simpl. destruct (decide (q = r)) as [->|].
  - rw lookup_insert_eq. eexists. split; [done|]. rw Hq in Hm. injection Hm as ->. by split.
  - rw lookup_insert_ne //. exists mq. split; [done|]. by split.
Qed.

(** ** Where the actions of a relayer come from

    They are those of one call of [Run] of the process it joined with, with
    parameters that have the property [P]. *)
Definition origin (P : bytes → Prop) (r : PeerID) (m : member) : Prop :=
  ∃ s c, relayers !! r = Some (s, c) ∧ same_process s (mb_process m) ∧
    (pr_fresh (mb_process m) = true → mb_process m = s ∧ mb_actions m = []) ∧
    (mb_actions m = [] ∨
     ∃ ans subID b params s' res, P params ∧ pr_run r ans subID s b params = Done (mb_actions m, s', res)).

Lemma origin_mono (P Q : bytes → Prop) r m : (∀ b, P b → Q b) → origin P r m → origin Q r m.
Proof.
  intros HPQ (s & c & Hs & Hsame & Hf & Ha). exists s, c. split_and!; [done..|].
  destruct Ha as [?|(ans & sub & b & params & s' & res & ? & ?)]; [by left|right].
  exists ans, sub, b, params, s', res. split; [by apply HPQ|done].
Qed.

Lemma origin_same P r m m' :
  mb_process m' = mb_process m → mb_actions m' = mb_actions m → origin P r m → origin P r m'.
Proof. rw /origin. by intros -> ->. Qed.

Lemma origin_join P r s c : relayers !! r = Some (s, c) → origin P r (join r s c).
Proof. intros Hs. exists s, c. split_and!; [done|done|done|by left]. Qed.

Lemma origin_run (P : bytes → Prop) r m starting c params ans subID acts s' res :
  origin P r m → P params → pr_run r ans subID (mb_process m) c params = Done (acts, s', res) →
  origin P r (has_run m s' starting acts res).
Proof.
  intros (s & co & Hs & Hsame & Hf & Ha) HP Hrun. exists s, co.
  destruct (pr_run_once _ _ _ _ _ _ _ _ _ Hrun) as [Hf' Hacts].
  split_and!; [done|etrans; [done|by eapply run_same_process]|by rw /= Hf'|]. simpl.
  destruct (pr_fresh (mb_process m)) eqn:E.
  - destruct (Hf eq_refl) as [Heq ->]. right. rw Heq in Hrun.
    exists ans, subID, c, params, s', res. by rw /= Hrun.
  - rw Hacts // app_nil_r. done.
Qed.

(** Whoever leads the session and whatever it sends, every relayer runs the
    process it joined with. *)
Lemma run_origin net r m :
  network_reachable net → members net !! r = Some m → origin (λ _, True) r m.
Proof.
  intros Hr. assert (∀ q mq, members net !! q = Some mq → origin (λ _, True) q mq) as Hall; [|by apply Hall].
  rw /network_reachable in Hr. remember empty_network as n0 eqn:E.
  assert (∀ q mq, members n0 !! q = Some mq → origin (λ _, True) q mq) as Hinv by (subst; intros q mq; by rw lookup_empty).
  clear E. induction Hr as [|n n' n'' Hs _ IH]; [done|]. apply IH.
  destruct Hs as [q s c Hq Hnone|q mq ev ex Hq Hc Hs|q mq before c params after ans subID acts s' res sel Hq Hs Hrun|q mq err sel Hq _];
    intros p mp; simpl; intros [[<- <-]|[_ Hp]]%lookup_insert_Some; try by apply Hinv.
  - by apply origin_join.
  - by apply (origin_same _ _ mq); [..|apply Hinv].
  - apply (origin_same _ _ (has_run mq s' (before ++ after) acts res)); [done..|].
    eapply origin_run; [by apply Hinv|done|done].
  - by apply (origin_same _ _ mq); [..|apply Hinv].
Qed.

(** ** The parameters a leader has chosen *)
Section leader.
Context (leader : PeerID) (sid : string).

(** Whom the relayer [r] takes for the coordinator: the leader; or, if it
    could elect nobody, whoever writes to it, and then the peers that its
    gate lets through are all relayers of the session. *)
Definition follows (r c : PeerID) : Prop :=
  c = leader ∨ c = "" ∧ r ≠ leader ∧ r ≠ "" ∧ ∀ q, q ∈ peerstore r → is_Some (relayers !! q).

(** One session: its processes have its ID, all relayers follow one of
    them, and start parameters can be read back. *)
Definition one_session : Prop :=
  leader ≠ "" ∧ is_Some (relayers !! leader) ∧
  ∀ r s c, relayers !! r = Some (s, c) →
    pr_ok s ∧ tp_SessionID (pr_coordinated s) = sid ∧ follows r (ex_coordinator (mb_execution (join r s c))).

Lemma follows_accepts r c : follows r c → negb (bool_decide (c = "")) && negb (bool_decide (leader = c)) = false.
Proof. intros [->|[-> _]]; [|done]. by rw (bool_decide_true (leader = leader)) // andb_false_r. Qed.

(** What a relayer makes of the parameters that the leader has chosen. *)
Definition chosen (net : network) (v : Meaning) : Prop :=
  ∃ m st ready, members net !! leader = Some m ∧ pr_ok (mb_process m) ∧ ex_loop (mb_execution m) = Initiating st ∧
    ready `prefix_of` readyPeers st ∧ tp_Ready (pr_coordinated (mb_process m)) ready [] = Ok true ∧
    v = pr_read (tp_StartParams (pr_coordinated (mb_process m)) ready).

Lemma chosen_unique net v1 v2 : chosen net v1 → chosen net v2 → v1 = v2.
Proof.
  intros (m & st & r1 & Hm & _ & Hl & Hp1 & Hr1 & ->) (m2 & st2 & r2 & Hm2 & _ & Hl2 & Hp2 & Hr2 & ->).
  rw Hm in Hm2. injection Hm2 as <-. rw Hl in Hl2. injection Hl2 as <-.
  destruct (prefix_weak_total _ _ _ Hp1 Hp2) as [Hp|Hp]; [|symmetry]; by apply pr_stable.
Qed.

Lemma chosen_grows net net' v : network_grows net net' → chosen net v → chosen net' v.
Proof.
  intros [_ Hg] (m & st & ready & Hm & Hok & Hl & Hp & Hr & ->).
  destruct (Hg _ _ Hm) as (m' & Hm' & (_ & Hready & Hparams) & Hgl). rw Hl in Hgl.
  destruct (Hparams Hok) as [Hok' Hread].
  destruct (ex_loop (mb_execution m')) as [st'|] eqn:Hl'; [|done].
  exists m', st', ready. split_and!; [done..|by trans (readyPeers st)|by rw Hready|by rw Hread].
Qed.

(** ** The invariant *)
Record member_inv (net : network) (r : PeerID) (m : member) : Prop := {
  mi_origin : origin (λ params, chosen net (pr_read params)) r m;
  mi_sid : tp_SessionID (pr_coordinated (mb_process m)) = sid;
  mi_process : ex_process (mb_execution m) = pr_coordinated (mb_process m);
  mi_coordinator : follows r (ex_coordinator (mb_execution m));
  mi_loop : match ex_loop (mb_execution m) with
            | Initiating st => r = leader ∧ (leader ∈ readyPeers st ∧ NoDup (readyPeers st)) ∧
                ∀ q, q ∈ readyPeers st → q = leader ∨ ∃ b, arrives net q leader TssReadyMsg sid b
            | Waiting => r ≠ leader
            end;
  mi_starting c params : (c, params) ∈ mb_starting m → chosen net (pr_read params);
}.

Record network_inv (net : network) : Prop := {
  ni_ok r s c : relayers !! r = Some (s, c) → pr_ok s;
  ni_members r m : members net !! r = Some m → member_inv net r m;
  ni_from p : p ∈ sent net → is_Some (relayers !! pk_From p);
  ni_start p : p ∈ sent net → pk_Type p = TssStartMsg →
    ∃ params, chosen net (pr_read params) ∧ MarshalStartMessage params = Ok (pk_Payload p);
}.

Lemma member_ok net r m : network_inv net → member_inv net r m → pr_ok (mb_process m).
Proof.
  intros Hinv Hm. destruct (mi_origin _ _ _ Hm) as (s & c & Hs & (_ & _ & Hok) & _).
  by destruct (Hok (ni_ok _ Hinv _ _ _ Hs)).
Qed.

Lemma member_joined net r m : network_inv net → members net !! r = Some m → is_Some (relayers !! r).
Proof.
  intros Hinv Hm. destruct (mi_origin _ _ _ (ni_members _ Hinv _ _ Hm)) as (s & c & Hs & _). by eexists.
Qed.

Lemma member_inv_grows net net' r m :
  network_grows net net' → member_inv net r m → member_inv net' r m.
Proof.
  intros Hg [Hor Hsid Hproc Hco Hloop Hst]. split; try done.
  - eapply origin_mono; [|exact Hor]. intros b. by apply chosen_grows.
  - destruct (ex_loop (mb_execution m)); [|done]. destruct Hloop as (? & ? & Hq). split; [done|]. split; [done|].
    intros q [?|[b Hb]]%Hq; [by left|right]. exists b. by eapply arrives_grows.
  - intros c params Hc. eapply chosen_grows; [done|by eapply Hst].
Qed.

Section advance.
Context (net : network) (r : PeerID) (m0 m : member) (ex : execution).
Context (Hone : one_session) (Hinv : network_inv net) (Hm0 : members net !! r = Some m0).
Context (Hm : member_inv net r m) (Hloop : ex_loop (mb_execution m) = ex_loop (mb_execution m0)).
Context (Hsame : same_process (mb_process m0) (mb_process m)).
Context (Hmoved : moved net r (mb_execution m) ex).

Lemma advance_network_grows : network_grows net (advance net r m ex).
Proof.
  eapply advance_grows; [exact Hm0|done|]. rw -Hloop.
  by apply moved_justified in Hmoved as (_ & _ & ? & _).
Qed.

(** The leader starts what it has just chosen. *)
Lemma leader_chooses st :
  ex_loop ex = Initiating st → tp_Ready (pr_coordinated (mb_process m)) (readyPeers st) [] = Ok true →
  chosen (advance net r m ex) (pr_read (tp_StartParams (pr_coordinated (mb_process m)) (readyPeers st))).
Proof.
  intros Hl Hr. assert (r = leader) as Heq.
  { pose proof (mi_loop _ _ _ Hm) as Hlp. destruct (moved_justified _ _ _ _ Hmoved) as (_ & _ & Hgl & _).
    rw Hl in Hgl. destruct (ex_loop (mb_execution m)); [by destruct Hlp|done]. }
  eexists _, st, (readyPeers st). rw /= Heq lookup_insert_eq. split_and!; try done. exact (member_ok net r m Hinv Hm).
Qed.

Lemma moved_spawns c params :
  (c, params) ∈ spawns (new_actions (mb_execution m) ex) → chosen (advance net r m ex) (pr_read params).
Proof.
  intros Hin%elem_of_spawns. destruct Hone as (Hne & [x Hlead] & _).
  destruct (moved_justified _ _ _ _ Hmoved) as (_ & _ & _ & ev & Hev & Hj).
  eapply Forall_forall in Hj; [|exact Hin].
  rw /= (mi_process _ _ _ Hm) in Hj. destruct Hj as [(st & Hl & Hr & ->)|(Hl & from & payload & msg & -> & Hf & Hu & <-)].
  - by apply leader_chooses.
  - destruct Hev as [[=]|[Hev|(e & [[=]|[=]])]]. simpl in Hev.
    assert ({| pk_From := from; pk_To := r; pk_Type := TssStartMsg; pk_Session := ex_sid (mb_execution m);
      pk_Payload := payload |} ∈ sent net) as Hev'.
    { destruct Hev as [[Hno Hps]|]; [|done]. destruct (mi_coordinator _ _ _ Hm) as [Hco|(_ & _ & _ & Hall)].
      - rw Hco in Hf. by rw (Hf Hne) Hlead in Hno.
      - destruct (Hall _ Hps) as [z Hz]. by rw Hno in Hz. }
    clear Hev. destruct (ni_start _ Hinv _ Hev' eq_refl) as (params & Hch & Hmar).
    simpl in Hmar. injection Hmar as <-. rw /UnmarshalStartMessage /= json_Unmarshal_Marshal in Hu; [|auto with go].
    injection Hu as <-. eapply chosen_grows; [apply advance_network_grows|exact Hch].
Qed.

Lemma moved_sends p :
  p ∈ sends r (new_actions (mb_execution m) ex) → pk_Type p = TssStartMsg →
  ∃ params, chosen (advance net r m ex) (pr_read params) ∧ MarshalStartMessage params = Ok (pk_Payload p).
Proof.
  intros (to & Hin & _)%elem_of_sends Ht.
  destruct (moved_justified _ _ _ _ Hmoved) as (_ & _ & _ & ev & _ & Hj).
  eapply Forall_forall in Hj; [|exact Hin]. destruct Hj as [_ Hj].
  destruct (Hj Ht) as (st & Hl & Hr & Hmar). rw (mi_process _ _ _ Hm) in Hr Hmar.
  eexists. split; [by apply leader_chooses|done].
Qed.

Lemma moved_loop :
  match ex_loop ex with
  | Initiating st => r = leader ∧ (leader ∈ readyPeers st ∧ NoDup (readyPeers st)) ∧
      ∀ q, q ∈ readyPeers st → q = leader ∨ ∃ b, arrives (advance net r m ex) q leader TssReadyMsg sid b
  | Waiting => r ≠ leader
  end.
Proof.
  pose proof advance_network_grows as Hgrows.
  pose proof (mi_loop _ _ _ Hm) as Hlp.
  destruct (moved_justified _ _ _ _ Hmoved) as (_ & _ & Hgl & _).
  destruct (ex_loop (mb_execution m)) as [st|] eqn:Hl; [|by destruct (ex_loop ex)].
  destruct Hlp as (Hrl & [Hlr Hnd] & Hq).
  destruct (moved_ready _ _ _ _ _ Hmoved Hl) as (st' & -> & Hr).
  assert (∀ q, q ∈ readyPeers st → q = leader ∨
    ∃ b, arrives (advance net r m ex) q leader TssReadyMsg sid b) as Hold.
  { intros q [?|[b Hb]]%Hq; [by left|right]. exists b. eapply arrives_grows; [exact Hgrows|done]. }
  split; [done|]. destruct Hr as [->|(from & b & Ha & ->)]; [done|].
  rw /add_ready. case_match eqn:E; [|done]. apply andb_true_iff in E as [_ ?%bool_decide_eq_true].
  split; [split; [apply elem_of_app; by left|auto with go]|]. intros q [Hin| ->%list_elem_of_singleton]%elem_of_app; [by apply Hold|]. right. exists b.
  eapply arrives_grows; [exact Hgrows|].
  by rw /ex_sid (mi_process _ _ _ Hm) /= (mi_sid _ _ _ Hm) Hrl in Ha.
Qed.

Lemma advance_inv : network_inv (advance net r m ex).
Proof.
  pose proof advance_network_grows as Hg. split; [exact (ni_ok _ Hinv)|..].
  - intros q mq. simpl. intros [[<- <-]|[_ Hq]]%lookup_insert_Some.
    + destruct (member_inv_grows _ _ _ _ Hg Hm) as [Hor Hsid Hproc Hco _ Hst].
      destruct (moved_justified _ _ _ _ Hmoved) as (Hp & Hc & _).
      split; simpl; try done; [by rw Hp|by rw Hc|apply moved_loop|].
      intros c params [Hin|Hin]%elem_of_app; [by eapply Hst|by eapply moved_spawns].
    + eapply member_inv_grows; [done|by apply ni_members].
  - intros p. simpl. intros [Hp|(to & _ & -> & _)%elem_of_sends]%elem_of_app; [by apply (ni_from _ Hinv)|].
    by destruct (mi_origin _ _ _ Hm) as (s & c & -> & _).
  - intros p. simpl. intros [Hp|Hp]%elem_of_app Ht; [|by apply moved_sends].
    destruct (ni_start _ Hinv p Hp Ht) as (params & ? & ?). exists params. split; [|done].
    by eapply chosen_grows.
Qed.
End advance.

(** A relayer that joins. *)
Lemma begin_execution_acts r p others c :
  Forall (λ a, match a with
               | ActBroadcast _ _ t s => t = TssInitiateMsg ∧ s = tp_SessionID p
               | ActRun _ _ => False
               | _ => True
               end) (ex_trace (begin_execution r (peerstore r) p others c)).
Proof.
  rw /begin_execution. set (l := if bool_decide (peer_String c = "") then _ else c).
  destruct (bool_decide (peer_String l = _)); by repeat constructor.
Qed.

Lemma join_inv net r s c :
  one_session → network_inv net → relayers !! r = Some (s, c) → members net !! r = None →
  network_inv {| members := <[r := join r s c]> (members net);
                 sent := sent net ++ sends r (ex_trace (mb_execution (join r s c))) |}.
Proof.
  intros (Hne & Hlead & Hall) Hinv Hr Hnone. destruct (Hall r s c Hr) as (Hok & Hsid & Hco).
  match goal with |- network_inv ?n => set (net' := n) end.
  assert (network_grows net net') as Hg.
  { split; [intros p Hp; apply elem_of_app; by left|]. intros q mq Hq. exists mq.
    simpl. rw lookup_insert_ne; [|by intros ->; rw Hq in Hnone]. by split. }
  split; [exact (ni_ok _ Hinv)|..].
  - intros q mq. simpl. intros [[<- <-]|[_ Hq]]%lookup_insert_Some.
    + split; try done; [by apply origin_join|..].
      * rw /= /begin_execution. set (l := if bool_decide (peer_String c = "") then _ else c).
        by destruct (bool_decide (peer_String l = _)).
      * revert Hco. rw /= /begin_execution.
        set (l := if bool_decide (peer_String c = "") then _ else c). intros Hco.
        destruct (bool_decide (peer_String l = peer_String r)) eqn:E; simpl in Hco |- *; subst l.
        -- apply bool_decide_eq_true in E. apply (inj peer_String) in E.
           destruct Hco as [Hco|(Hco & _ & Hr0 & _)]; rw Hco in E; [|by symmetry in E]. subst r.
           split_and!; [done|by left|apply NoDup_singleton|]. intros q Hin. elem_cases Hin. by left.
        -- apply bool_decide_eq_false in E. intros ->. by destruct Hco as [Hco|(_ & ? & _)]; [rw Hco in E|].
      * intros b params Hin. by apply not_elem_of_nil in Hin.
    + eapply member_inv_grows; [done|by apply ni_members].
  - intros p. simpl. intros [Hp|(to & _ & -> & _)%elem_of_sends]%elem_of_app; [by apply (ni_from _ Hinv)|by rw Hr].
  - intros p. simpl. intros [Hp|(to & Hp & _)%elem_of_sends]%elem_of_app Ht.
    + destruct (ni_start _ Hinv p Hp Ht) as (params & ? & ?). exists params. split; [|done].
      by eapply chosen_grows.
    + pose proof (begin_execution_acts r (pr_coordinated s) [] c) as HF.
      eapply Forall_forall in HF; [|exact Hp]. simpl in HF. destruct HF as [HF _]. by rw Ht in HF.
Qed.

(** A relayer that runs its process. *)
Lemma run_member_inv net r m before c params after ans subID acts s' res :
  member_inv net r m → mb_starting m = before ++ (c, params) :: after →
  pr_run r ans subID (mb_process m) c params = Done (acts, s', res) →
  member_inv net r (has_run m s' (before ++ after) acts res).
Proof.
  intros [Hor Hsid Hproc Hco Hloop Hst] Hs Hrun. split; simpl; try done.
  - eapply origin_run; [done| |done]. apply (Hst c). rw Hs. apply elem_of_app. right. by left.
  - by destruct (run_same_process _ _ _ _ _ _ _ _ _ Hrun) as [-> _].
  - intros b ps Hin. apply (Hst b). rw Hs. apply elem_of_app. apply elem_of_app in Hin as [?|?]; [by left|].
    right. by right.
Qed.

Lemma network_step_inv net net' :
  one_session → network_inv net → network_step net net' → network_inv net'.
Proof.
  intros Hone Hinv. destruct 1 as [r s c Hr Hnone|r m ev ex Hm Hc Hs
    |r m before c params after ans subID acts s' res sel Hm Hs Hrun|r m err sel Hm _].
  - by apply join_inv.
  - eapply advance_inv; try done; [by apply ni_members|]. right. exists ev. auto.
  - pose proof (ni_members _ Hinv _ _ Hm) as Hmi.
    eapply advance_inv; [done|done|exact Hm|by eapply run_member_inv|done|by eapply run_same_process|apply after_run_moved].
  - destruct (ni_members _ Hinv _ _ Hm) as [Hor Hsid Hproc Hco Hloop Hst].
    eapply advance_inv; [done|done|exact Hm|by split|done|done|apply report_error_moved].
Qed.

Lemma network_reachable_inv net : one_session → network_reachable net → network_inv net.
Proof.
  intros Hone. rw /network_reachable. intros Hr. remember empty_network as n0 eqn:E.
  assert (network_inv n0) as Hinv.
  { destruct Hone as (_ & _ & Hall). subst. split; simpl; [by intros r s c [? _]%Hall|intros r m; by rw lookup_empty|..];
      by intros p ?%not_elem_of_nil. }
  clear E. induction Hr; eauto using network_step_inv.
Qed.

(** ** What the actions of the relayers come from *)
Lemma acted net r m :
  network_inv net → members net !! r = Some m → mb_actions m ≠ [] →
  ∃ s c ans subID b params s' res, relayers !! r = Some (s, c) ∧ chosen net (pr_read params) ∧
    pr_run r ans subID s b params = Done (mb_actions m, s', res).
Proof.
  intros Hinv Hm Hne. destruct (mi_origin _ _ _ (ni_members _ Hinv _ _ Hm)) as (s & c & Hs & _ & _ & [?|Hrun]); [done|].
  destruct Hrun as (ans & subID & b & params & s' & res & Hch & Hrun).
  by exists s, c, ans, subID, b, params, s', res.
Qed.

(** The leader counts [q] as ready. *)
Definition counted (net : network) (q : PeerID) : Prop :=
  ∃ m st, members net !! leader = Some m ∧ ex_loop (mb_execution m) = Initiating st ∧ q ∈ readyPeers st.

Lemma counted_known net q :
  network_inv net → counted net q → q = leader ∨ is_Some (relayers !! q) ∨ q ∈ peerstore leader.
Proof.
  intros Hinv (m & st & Hm & Hl & Hq). pose proof (mi_loop _ _ _ (ni_members _ Hinv _ _ Hm)) as Hloop.
  rw Hl in Hloop. destruct Hloop as (_ & _ & Hr). destruct (Hr q Hq) as [?|(b & [[_ ?]|Hs])]; [by left|by auto|].
  right. left. exact (ni_from _ Hinv _ Hs).
Qed.

(** What the leader chose follows from who was ready. *)
Lemma chosen_ready net v :
  network_inv net → chosen net v →
  ∃ s c ready, relayers !! leader = Some (s, c) ∧ tp_Ready (pr_coordinated s) ready [] = Ok true ∧
    v = pr_read (tp_StartParams (pr_coordinated s) ready) ∧ NoDup ready ∧
    (∀ q, q ∈ ready → counted net q) ∧
    ∀ q, q ∈ ready → q = leader ∨ ∃ b, arrives net q leader TssReadyMsg sid b.
Proof.
  intros Hinv (m & st & ready & Hm & _ & Hl & [rest Hp] & Hr & ->).
  assert (∀ q, q ∈ ready → counted net q) as Hc.
  { intros q Hq. exists m, st. split_and!; [done|done|]. rw Hp. apply elem_of_app. by left. }
  pose proof (ni_members _ Hinv _ _ Hm) as Hmi. pose proof (mi_loop _ _ _ Hmi) as Hloop.
  rw Hl Hp in Hloop. destruct Hloop as (_ & [_ [Hnd _]%NoDup_app] & Hq).
  destruct (mi_origin _ _ _ Hmi) as (s & c & Hs & (_ & Hready & Hparams) & _).
  destruct (Hparams (ni_ok _ Hinv _ _ _ Hs)) as [_ Hread].
  exists s, c, ready. split_and!; [done|by rw -Hready|by rw Hread|done|exact Hc|].
  intros q Hin. apply Hq, elem_of_app. by left.
Qed.

(** ** Liveness *)
Section liveness.
Context (Hone : one_session).

Definition packet_to (from to : PeerID) (t : MessageType) (payload : bytes) : packet :=
  {| pk_From := from; pk_To := to; pk_Type := t; pk_Session := sid; pk_Payload := payload |}.

(** A relayer that waits for the start message. *)
Definition waits (net : network) (w : PeerID) : Prop :=
  w ≠ leader ∧ ∃ m, members net !! w = Some m ∧ ex_start (mb_execution m) = None ∧
    pr_fresh (mb_process m) = true.

(** The leader in its loop, with its process not run. *)
Definition leads (net : network) (s : State) (st : initiate_state) : Prop :=
  ∃ m, members net !! leader = Some m ∧ ex_loop (mb_execution m) = Initiating st ∧
    ex_start (mb_execution m) = None ∧ mb_process m = s ∧ pr_fresh s = true.

Lemma leads_ready net s st :
  network_inv net → leads net s st → leader ∈ readyPeers st ∧ NoDup (readyPeers st).
Proof.
  intros Hinv (m & Hm & Hl & _). pose proof (mi_loop _ _ _ (ni_members _ Hinv _ _ Hm)) as Hloop.
  rw Hl in Hloop. by destruct Hloop as (_ & ? & _).
Qed.

Lemma leads_joined net s st :
  network_inv net → leads net s st → ∃ c, relayers !! leader = Some (s, c).
Proof.
  intros Hinv (m & Hm & _ & _ & <- & Hf).
  destruct (mi_origin _ _ _ (ni_members _ Hinv _ _ Hm)) as (s & c & Hs & _ & Ho & _).
  exists c. by destruct (Ho Hf) as [-> _].
Qed.

Lemma leads_counted net s st q : leads net s st → q ∈ readyPeers st → counted net q.
Proof. intros (m & Hm & Hl & _) Hq. by exists m, st. Qed.

(** A relayer whose process runs, having done something [good]. *)
Definition runs (good : PeerID → list Action → Prop) (net : network) (r : PeerID) : Prop :=
  ∃ m, members net !! r = Some m ∧ mb_running m = true ∧ good r (mb_actions m).

(** The process of [r] can be started with these parameters. *)
Definition startable (good : PeerID → list Action → Prop) (params : bytes) (r : PeerID) : Prop :=
  ∀ s c b, relayers !! r = Some (s, c) → pr_fresh s = true →
    ∃ ans acts s', pr_run r ans "" s b params = Done (acts, s', None) ∧ good r acts.

(** Nothing but the relayer [r] has changed, and no message is lost. *)
Definition only (r : PeerID) (net net' : network) : Prop :=
  rtc network_step net net' ∧ sent net ⊆ sent net' ∧ ∀ q, q ≠ r → members net' !! q = members net !! q.

Lemma advance_only net r m ex : network_step net (advance net r m ex) → only r net (advance net r m ex).
Proof.
  intros Hs. split_and!; [by apply rtc_once|intros p Hp; apply elem_of_app; by left|].
  intros q Hq. by rw /= lookup_insert_ne.
Qed.

Lemma only_trans r net1 net2 net3 : only r net1 net2 → only r net2 net3 → only r net1 net3.
Proof.
  intros (H1' & S1 & M1) (H2' & S2 & M2). split_and!; [by etrans|by intros p Hp; apply S2, S1|].
  intros q Hq. by rw M2 // M1.
Qed.

Lemma only_inv r net net' : only r net net' → network_inv net → network_inv net'.
Proof. intros [Hr _]. induction Hr; eauto using network_step_inv. Qed.

Lemma waiting_loop net w m :
  network_inv net → w ≠ leader → members net !! w = Some m → ex_loop (mb_execution m) = Waiting.
Proof.
  intros Hinv Hw Hm. pose proof (mi_loop _ _ _ (ni_members _ Hinv _ _ Hm)) as Hl.
  destruct (ex_loop (mb_execution m)); [by destruct Hl|done].
Qed.

Lemma member_sid net r m : network_inv net → members net !! r = Some m → ex_sid (mb_execution m) = sid.
Proof.
  intros Hinv Hm. destruct (ni_members _ Hinv _ _ Hm) as [_ Hs Hp _ _ _]. by rw /ex_sid Hp.
Qed.

(** The leader's ticker: it asks everyone. *)
Lemma leader_ticks net s st :
  network_inv net → leads net s st → ticking st = true →
  ∃ net', only leader net net' ∧ leads net' s st ∧
    ∀ w, w ∈ peerstore leader → w ≠ leader → packet_to leader w TssInitiateMsg [] ∈ sent net'.
Proof.
  intros Hinv (m & Hm & Hl & Hs & Hsg & Hst) Ht.
  set (p := ex_process (mb_execution m)).
  set (ex := start_returns (mb_execution m) (Initiating st) [broadcastInitiateMsg (peerstore leader) p] None).
  assert (exec_step (peerstore leader) (mb_execution m) (EvInitiate InitTick) = Some ex) as Hex.
  { by rw /exec_step /= Hl Hs Ht. }
  exists (advance net leader m ex). split_and!.
  - by apply advance_only, (step_receive net leader m (EvInitiate InitTick)).
  - eexists. rw /= lookup_insert_eq. by split_and!.
  - intros w Hw Hne. apply elem_of_app. right. apply elem_of_sends. exists (peerstore leader).
    split_and!; [|done|done|done]. rw (new_actions_app _ _ [broadcastInitiateMsg (peerstore leader) p]) //.
    rw /broadcastInitiateMsg (_ : tp_SessionID p = sid); [by left|by eapply member_sid].
Qed.

(** A relayer answers the leader. *)
Lemma relayer_answers net w :
  network_inv net → waits net w → packet_to leader w TssInitiateMsg [] ∈ sent net →
  ∃ net', only w net net' ∧ waits net' w ∧ packet_to w leader TssReadyMsg [] ∈ sent net'.
Proof.
  intros Hinv (Hw & m & Hm & Hs & Hst) Hp. pose proof (ni_members _ Hinv _ _ Hm) as Hmi.
  pose proof (waiting_loop _ _ _ Hinv Hw Hm) as Hl. pose proof (member_sid _ _ _ Hinv Hm) as Hsid.
  set (ex := start_returns (mb_execution m) Waiting [ActBroadcast [leader] [] TssReadyMsg sid] None).
  assert (exec_step (peerstore w) (mb_execution m) (EvWait (WaitInit leader)) = Some ex) as Hex.
  { by rw /exec_step /= Hl Hs (follows_accepts _ _ (mi_coordinator _ _ _ Hmi)) Hsid. }
  exists (advance net w m ex). split_and!.
  - apply advance_only, (step_receive net w m (EvWait (WaitInit leader))); [done| |done].
    exists []. right. by rw Hsid.
  - split; [done|]. eexists. rw /= lookup_insert_eq. by split_and!.
  - apply elem_of_app. right. apply elem_of_sends. exists [leader].
    rw (new_actions_app _ _ [ActBroadcast [leader] [] TssReadyMsg sid]) //.
    split_and!; [by left|done|by left|by apply not_eq_sym].
Qed.

(** The leader counts an answer, and starts when there are enough. *)
Lemma leader_counts net s st w :
  network_inv net → leads net s st → packet_to w leader TssReadyMsg [] ∈ sent net →
  let ready := add_ready [] (readyPeers st) w in
  let params := tp_StartParams (pr_coordinated s) ready in
  ∃ net' st', only leader net net' ∧ leads net' s st' ∧ readyPeers st' = ready ∧
    (tp_Ready (pr_coordinated s) ready [] = Ok true →
       (∃ m, members net' !! leader = Some m ∧ (true, params) ∈ mb_starting m) ∧
       ∃ payload, MarshalStartMessage params = Ok payload ∧
         ∀ q, q ∈ peerstore leader → q ≠ leader → packet_to leader q TssStartMsg payload ∈ sent net').
Proof.
  intros Hinv (m & Hm & Hl & Hs & Hsg & Hst) Hp ready params. pose proof (ni_members _ Hinv _ _ Hm) as Hmi.
  pose proof (member_sid _ _ _ Hinv Hm) as Hsid. pose proof (mi_process _ _ _ Hmi) as Hproc.
  assert (tp_SessionID (ex_process (mb_execution m)) = sid) as Hsid' by done.
  assert (caused net leader (ex_sid (mb_execution m)) (EvInitiate (InitReady w))) as Hc.
  { exists []. right. by rw Hsid. }
  destruct (pr_ready_ok s ready) as [b Hb].
  set (payload := json_Marshal {| Params := params |}).
  set (acts := if b
               then [ActBroadcast (peerstore leader) payload TssStartMsg sid; ActInitiateMetric;
                     ActRun true params] else []).
  set (st' := {| readyPeers := ready; ticking := if b then false else ticking st |}).
  set (ex := start_returns (mb_execution m) (Initiating st') acts None).
  assert (exec_step (peerstore leader) (mb_execution m) (EvInitiate (InitReady w)) = Some ex) as Hex.
  { rw /exec_step /= Hl Hs Hsid' Hproc /= Hsg -/ready Hb. rw /ex /st' /acts. by destruct b. }
  exists (advance net leader m ex), st'. split_and!.
  - by apply advance_only, (step_receive net leader m (EvInitiate (InitReady w))).
  - eexists. rw /= lookup_insert_eq. by split_and!.
  - done.
  - intros Hr. rw Hb in Hr. injection Hr as Hr.
    pose proof (new_actions_app (mb_execution m) ex acts eq_refl) as Hacts. rw /acts Hr in Hacts. split.
    + eexists. rw /= lookup_insert_eq. split; [done|]. rw Hacts. apply elem_of_app. right. by left.
    + exists payload. split; [done|]. intros q Hq Hne. apply elem_of_app. right. apply elem_of_sends.
      exists (peerstore leader). rw Hacts. split_and!; [by left|done..].
Qed.

Section good.
Context (good : PeerID → list Action → Prop).

(** A goroutine of [startProcess] runs the process. *)
Lemma process_runs net r m b params :
  network_inv net → members net !! r = Some m → pr_fresh (mb_process m) = true →
  (b, params) ∈ mb_starting m → startable good params r →
  ∃ net', only r net net' ∧ runs good net' r.
Proof.
  intros Hinv Hm Hst (before & after & Hin)%list_elem_of_split Hgood.
  destruct (mi_origin _ _ _ (ni_members _ Hinv _ _ Hm)) as (s & c & Hs & _ & Hf & _).
  destruct (Hf Hst) as [Heq Hacts]. rw Heq in Hst.
  destruct (Hgood s c b Hs Hst) as (ans & acts & s' & Hrun & Hg). rw -Heq in Hrun.
  eexists. split.
  - apply advance_only. eapply step_run with (selecting := false); [exact Hm|exact Hin|exact Hrun].
  - eexists. rw /= lookup_insert_eq. split_and!; [done|by rw /= orb_true_r|]. by rw /= Hacts.
Qed.

(** A relayer that gets the start message runs its process. *)
Lemma relayer_starts net w params payload :
  network_inv net → waits net w → MarshalStartMessage params = Ok payload →
  packet_to leader w TssStartMsg payload ∈ sent net → startable good params w →
  ∃ net', only w net net' ∧ runs good net' w.
Proof.
  intros Hinv (Hw & m & Hm & Hs & Hst) [= <-] Hp Hgood. pose proof (ni_members _ Hinv _ _ Hm) as Hmi.
  pose proof (waiting_loop _ _ _ Hinv Hw Hm) as Hl. pose proof (member_sid _ _ _ Hinv Hm) as Hsid.
  set (payload := json_Marshal {| Params := params |}) in *.
  set (ex := start_returns (mb_execution m) Waiting [ActRun false params] None).
  assert (exec_step (peerstore w) (mb_execution m) (EvWait (WaitStart leader payload)) = Some ex) as Hex.
  { rw /exec_step /= Hl Hs (follows_accepts _ _ (mi_coordinator _ _ _ Hmi)).
    rw /UnmarshalStartMessage /payload.
    change (Unmarshal (A := StartMessage) (json_Marshal {| Params := params |}))
      with (json_Unmarshal (A := StartMessage) (json_Marshal {| Params := params |})).
    by rw json_Unmarshal_Marshal; [|auto with go]. }
  assert (only w net (advance net w m ex)) as Ho.
  { apply advance_only, (step_receive net w m (EvWait (WaitStart leader payload))); [done| |done].
    right. by rw Hsid. }
  destruct (process_runs (advance net w m ex) w
    {| mb_execution := ex; mb_process := mb_process m;
       mb_starting := mb_starting m ++ spawns (new_actions (mb_execution m) ex);
       mb_running := mb_running m; mb_actions := mb_actions m |} false params) as (net' & Ho' & Hsig).
  - by eapply only_inv.
  - by rw /= lookup_insert_eq.
  - done.
  - simpl. apply elem_of_app. right. rw (new_actions_app _ _ [ActRun false params]) //. by left.
  - done.
  - exists net'. split; [by eapply only_trans|done].
Qed.

Lemma runs_frame w net net' q : only w net net' → q ≠ w → runs good net q → runs good net' q.
Proof. intros (_ & _ & Hm) Hq (m & Hqm & ?). exists m. by rw Hm. Qed.
End good.

(** What every relayer of a list can do, all of them can do. *)
Lemma for_each (P Q : network → PeerID → Prop) (R : network → Prop) (l : list PeerID) :
  NoDup l →
  (∀ net net' w q, only w net net' → q ≠ w → (P net q → P net' q) ∧ (Q net q → Q net' q)) →
  (∀ net w, w ∈ l → network_inv net → R net → P net w →
     ∃ net', only w net net' ∧ R net' ∧ Q net' w) →
  ∀ net, network_inv net → R net → (∀ w, w ∈ l → P net w) →
  ∃ net', rtc network_step net net' ∧ network_inv net' ∧ R net' ∧ (∀ w, w ∈ l → Q net' w) ∧
    ∀ q, q ∉ l → Q net q → Q net' q.
Proof.
  intros Hnd Hframe. induction l as [|w l IH]; intros Hstep net Hinv HR HP.
  { exists net. split_and!; [done..| |done]. by intros w ?%not_elem_of_nil. }
  apply NoDup_cons in Hnd as [Hw Hnd].
  destruct (Hstep net w) as (net1 & Ho & HR1 & HQ); [by left|done|done|by apply HP; left|].
  assert (∀ q, q ≠ w → (P net q → P net1 q) ∧ (Q net q → Q net1 q)) as Hf by (intros q; by apply Hframe).
  destruct (IH Hnd) with (net := net1) as (net' & Hr & Hinv' & HR' & HQ' & Hq'); [|by eapply only_inv|done| |].
  - intros n v Hv. apply Hstep. by right.
  - intros v Hv. apply Hf; [by intros ->|]. apply HP. by right.
  - destruct Ho as (Ho & _). exists net'. split_and!; [by etrans|done|done| |].
    + intros v [->|Hv]%elem_of_cons; [by apply Hq'|by apply HQ'].
    + intros q [Hq Hql]%not_elem_of_cons HQq. apply Hq'; [done|]. by apply Hf.
Qed.

Lemma waits_frame w net net' q : only w net net' → q ≠ w → waits net q → waits net' q.
Proof. intros (_ & _ & Hm) Hq (Hl & m & Hqm & ?). split; [done|]. exists m. by rw Hm. Qed.

Lemma leads_frame w net net' s st : only w net net' → w ≠ leader → leads net s st → leads net' s st.
Proof. intros (_ & _ & Hm) Hq (m & Hqm & ?). exists m. rw Hm //. Qed.

Lemma sent_frame w net net' p : only w net net' → p ∈ sent net → p ∈ sent net'.
Proof. intros (_ & Hs & _). apply Hs. Qed.

(** The leader has sent the start message for these ready relayers, and is
    about to run. *)
Definition starts (net : network) (s : State) (ready : list PeerID) : Prop :=
  (∃ m, members net !! leader = Some m ∧ mb_process m = s ∧
     (true, tp_StartParams (pr_coordinated s) ready) ∈ mb_starting m) ∧
  ∃ payload, MarshalStartMessage (tp_StartParams (pr_coordinated s) ready) = Ok payload ∧
    ∀ q, q ∈ peerstore leader → q ≠ leader → packet_to leader q TssStartMsg payload ∈ sent net.

Lemma leader_counts_all s missing :
  NoDup missing → missing ≠ [] → ∀ net st, network_inv net → leads net s st →
  (∀ w, w ∈ missing → packet_to w leader TssReadyMsg [] ∈ sent net ∧ w ∉ readyPeers st) →
  tp_Ready (pr_coordinated s) (readyPeers st ++ missing) [] = Ok true →
  ∃ net', only leader net net' ∧ starts net' s (readyPeers st ++ missing).
Proof.
  intros Hnd Hne. induction missing as [|w ms IH]; [done|]. intros net st Hinv Hlead Hms Hready.
  destruct (Hms w) as (Hp & Hw); [by left|].
  destruct (leader_counts net s st w Hinv Hlead Hp) as (net1 & st1 & Ho & Hlead1 & Hr & Hgo).
  assert (add_ready [] (readyPeers st) w = readyPeers st ++ [w]) as Hadd.
  { by rw /add_ready (bool_decide_true (w ∉ readyPeers st)). }
  rw Hadd in Hr Hgo. apply NoDup_cons in Hnd as [Hwms Hnd]. destruct ms as [|w' ms].
  - exists net1. split; [done|]. destruct (Hgo Hready) as [(m & Hm & Hin) Hpk].
    split; [|done]. exists m. split_and!; [done| |done]. destruct Hlead1 as (m' & Hm' & _ & _ & Hs & _).
    rw Hm in Hm'. by injection Hm' as ->.
  - destruct (IH Hnd ltac:(done) net1 st1) as (net' & Ho' & Hst).
    + by eapply only_inv.
    + done.
    + intros v Hv. destruct (Hms v) as (Hpv & Hvr); [by right|]. split; [by eapply sent_frame|].
      rw Hr not_elem_of_app. split; [done|]. intros ->%list_elem_of_singleton. done.
    + by rw Hr -app_assoc.
    + exists net'. split; [by eapply only_trans|]. by rw Hr -app_assoc in Hst.
Qed.

(** Everyone who can be started runs its process. *)
Lemma all_start (good : PeerID → list Action → Prop) net s ready W :
  network_inv net → starts net s ready → pr_fresh s = true →
  NoDup W → (∀ w, w ∈ W → waits net w ∧ w ∈ peerstore leader) →
  (∀ r, r ∈ leader :: W → startable good (tp_StartParams (pr_coordinated s) ready) r) →
  ∃ net', rtc network_step net net' ∧ ∀ r, r ∈ leader :: W → runs good net' r.
Proof.
  intros Hinv [(m & Hm & Hs & Hin) (payload & Hmar & Hpk)] Hst Hnd HW Hgood.
  destruct (process_runs good net leader m true (tp_StartParams (pr_coordinated s) ready)) as (net1 & Ho & Hsig);
    [done|done|by rw Hs|done|by apply Hgood; left|].
  assert (∀ w, w ∈ W → w ≠ leader) as Hwl by (intros w [[??] _]%HW; done).
  destruct (for_each (λ n w, waits n w ∧ packet_to leader w TssStartMsg payload ∈ sent n) (runs good) (λ _, True) W Hnd)
    with (net := net1) as (net' & Hr & _ & _ & HQ & Hq).
  - intros n n' w q Hon Hne. split; [|by eapply runs_frame].
    intros [??]. split; [by eapply waits_frame|by eapply sent_frame].
  - intros n w Hw Hn _ [Hwait Hp].
    destruct (relayer_starts good n w _ payload Hn Hwait Hmar Hp) as (n' & ? & ?); [by apply Hgood; right|].
    by exists n'.
  - by eapply only_inv.
  - done.
  - intros w Hw. destruct (HW w Hw) as [Hwait Hps]. split; [eapply waits_frame; [done|by apply Hwl|done]|].
    eapply sent_frame; [done|]. apply Hpk; [done|by apply Hwl].
  - exists net'. split; [destruct Ho as [Ho _]; by etrans|].
    intros r [->|Hr']%elem_of_cons; [|by apply HQ]. apply Hq; [|done]. intros Hl. by apply Hwl in Hl.
Qed.

(** Everyone answers the leader. *)
Lemma all_answer net s st W :
  network_inv net → leads net s st → ticking st = true → NoDup W →
  (∀ w, w ∈ W → waits net w ∧ w ∈ peerstore leader) →
  ∃ net', rtc network_step net net' ∧ network_inv net' ∧ leads net' s st ∧
    ∀ w, w ∈ W → waits net' w ∧ packet_to w leader TssReadyMsg [] ∈ sent net'.
Proof.
  intros Hinv Hlead Ht Hnd HW.
  destruct (leader_ticks net s st Hinv Hlead Ht) as (net1 & Ho & Hlead1 & Hp).
  destruct (for_each (λ n w, waits n w ∧ packet_to leader w TssInitiateMsg [] ∈ sent n)
    (λ n w, waits n w ∧ packet_to w leader TssReadyMsg [] ∈ sent n) (λ n, leads n s st) W Hnd)
    with (net := net1) as (net' & Hr & Hinv' & Hlead' & HQ & _).
  - intros n n' w q Hon Hne. split; (intros [??]; split; [by eapply waits_frame|by eapply sent_frame]).
  - intros n w Hw Hn Hl [Hwait Hpk]. destruct (relayer_answers n w Hn Hwait Hpk) as (n' & Ho' & ? & ?).
    exists n'. split_and!; try done. eapply leads_frame; [done|by destruct Hwait|done].
  - by eapply only_inv.
  - done.
  - intros w Hw. destruct (HW w Hw) as [[Hne Hwait] Hps].
    split; [eapply waits_frame; [done|done|by split]|by apply Hp].
  - exists net'. split_and!; try done. destruct Ho as [Ho _]. by etrans.
Qed.

(** From any state that a session can reach: if the leader is in its loop and
    has not started, those of [W] wait, and the leader would start once it has
    counted all of them, then the leader and [W] can run their processes. *)
Lemma all_can_run (good : PeerID → list Action → Prop) net s st W :
  let missing := filter (λ w, w ∉ readyPeers st) W in
  network_reachable net → leads net s st → ticking st = true → NoDup W → missing ≠ [] →
  (∀ w, w ∈ W → waits net w ∧ w ∈ peerstore leader) →
  tp_Ready (pr_coordinated s) (readyPeers st ++ missing) [] = Ok true →
  (∀ r, r ∈ leader :: W → startable good (tp_StartParams (pr_coordinated s) (readyPeers st ++ missing)) r) →
  ∃ net', rtc network_step net net' ∧ ∀ r, r ∈ leader :: W → runs good net' r.
Proof.
  intros missing Hreach Hlead Htick Hnd Hne HW Hready Hgood.
  pose proof (network_reachable_inv _ Hone Hreach) as Hinv.
  destruct (all_answer net s st W Hinv Hlead Htick Hnd HW) as (net1 & Hr1 & Hinv1 & Hlead1 & Hans).
  destruct (leader_counts_all s missing) with (net := net1) (st := st) as (net2 & Ho2 & Hstarts); try done.
  { by apply NoDup_filter. }
  { intros w [Hwr Hw]%list_elem_of_filter. by split; [apply Hans|]. }
  destruct (all_start good net2 s (readyPeers st ++ missing) W) as (net' & Hr' & Hruns); try done.
  - by eapply only_inv.
  - by destruct Hlead as (? & _ & _ & _ & _ & ?).
  - intros w Hw. destruct (HW w Hw) as ([Hl ?] & ?). split; [|done].
    eapply waits_frame; [done|done|by apply Hans].
  - exists net'. split; [|done]. destruct Ho2 as [Ho2 _]. etrans; [done|]. by etrans.
Qed.
End liveness.
End leader.
End network.
