(* ===== verification/Session.v ===== *)
(** * A signing session on the network (src/tss/ecdsa/signing)

    The processes of [Signing] on the network of [Network]: the relayers of a
    session make the same party, and a session can always start. *)
From S2P Require Import Prelude GoStd Encoding Json Libs JsonCodec Comm PeerSort TssCommon Keyshare TssCoordinator Signing Network.

(** The network and the members of a signing session. *)
Abbreviation signing_network S := (@network (@Signing S) signing_action).
Abbreviation signing_member S := (@member (@Signing S) signing_action).

Section session.
Context {SaveData : Type}.
Context `{PeerLib, Keccak, TssLib, EthCommon}.
Abbreviation Signing := (@Signing SaveData).

(** What a relayer reads of start parameters is the subset. *)
#[export, refine] Instance signing_Process : Process Signing signing_action (result (list PeerID)) := {|
  pr_coordinated := signing_process;
  pr_run r ans subID s coordinator params := Done (Signing.Run r ans subID s coordinator params);
  pr_fresh s := negb (Started (sg_base s));
  pr_read := unmarshallStartParams;
  pr_ok _ := True;
|}.
Proof.
  - intros r ans sub s c params acts s' res [= Hrun].
    pose proof (Run_process r ans sub s c params) as (_ & _ & _ & _ & Hst).
    pose proof (Run_acts r ans sub s c params) as Ha. rw Hrun /= in Hst Ha. rw Hst. split; [done|].
    intros Hs%negb_false_iff. destruct Ha as [?|[Hf _]]; [done|]. by rw Hs in Hf.
  - intros r ans sub s c params acts s' res [= Hrun].
    pose proof (Run_process r ans sub s c params) as (_ & _ & _ & Hp & _). rw Hrun /= in Hp. by rw Hp.
  - intros s ready. by eexists.
  - intros s r1 r2 Hp H1' H2'. f_equal. by apply (stable_start (p := signing_process s) r1 r2 []).
Defined.

Context (relayers : gmap PeerID (Signing * PeerID)).
Context (peerstore : PeerID → list PeerID).
Abbreviation network := (signing_network SaveData).
Abbreviation member := (signing_member SaveData).
Abbreviation network_reachable := (network_reachable relayers peerstore).
Abbreviation network_step := (network_step relayers peerstore).
Abbreviation arrives := (arrives relayers peerstore).

Definition makes (r : PeerID) (subset : list PeerID) (s : Signing) (acts : list signing_action) : Prop :=
  ∃ me rest, acts = NewLocalParty (sg_msg s) (PartiesFromPeers subset) (Some me)
      (Z.of_nat (length subset)) (Threshold (sg_key s)) (big.SetBytes (bytes_of (SID (sg_base s)))) :: rest ∧
    (rest = [] ∨ rest = [SubscribeTss (SID (sg_base s)) TssKeySignMsg; StartPool; PartyStart]) ∧
    r ∈ subset ∧ me ∈ PartiesFromPeers subset ∧ party_Id me = peer_String r.

(** The party of a relayer is the one that its process makes. *)
Lemma party_makes r ans subID s c params acts s' res msg parties me n t num :
  pr_run r ans subID s c params = Done (acts, s', res) → NewLocalParty msg parties me n t num ∈ acts →
  ∃ subset, unmarshallStartParams params = Ok subset ∧ makes r subset s acts ∧
    msg = sg_msg s ∧ parties = PartiesFromPeers subset ∧ n = Z.of_nat (length subset) ∧
    t = Threshold (sg_key s) ∧ num = big.SetBytes (bytes_of (SID (sg_base s))) ∧
    (∃ p, me = Some p ∧ p ∈ parties ∧ party_Id p = peer_String r).
Proof.
  intros [= Hrun] Hin. pose proof (Run_acts r ans subID s c params) as Ha. rw Hrun /= in Ha.
  destruct Ha as [->|(_ & subset & p & rest & Hu & Hself & _ & _ & -> & Hrest & Hp & Hid)].
  { by apply not_elem_of_nil in Hin. }
  exists subset. assert (msg = sg_msg s ∧ parties = PartiesFromPeers subset ∧ me = Some p ∧
    n = Z.of_nat (length subset) ∧ t = Threshold (sg_key s) ∧
    num = big.SetBytes (bytes_of (SID (sg_base s)))) as (-> & -> & -> & -> & -> & ->).
  { apply elem_of_cons in Hin as [[= -> -> -> -> -> ->]|Hin]; [done|].
    destruct Hrest as [-> | ->]; [by apply not_elem_of_nil in Hin|by elem_cases Hin]. }
  split_and!; try done; [by exists p, rest|by exists p].
Qed.

(** Every relayer signs its own message, whoever leads the session and
    whatever it sends. *)
Lemma party_own_message (net : network) r (m : member) msg parties me n t num :
  network_reachable net → members net !! r = Some m →
  NewLocalParty msg parties me n t num ∈ mb_actions m →
  ∃ s c, relayers !! r = Some (s, c) ∧ msg = sg_msg s.
Proof.
  intros Hr Hm Hin. destruct (run_origin relayers peerstore net r m Hr Hm) as (s & c & Hs & _ & _ & Ha). exists s, c. split; [done|].
  destruct Ha as [Ha|(ans & sub & b & params & s' & res & _ & Hrun)]; [rw Ha in Hin; by apply not_elem_of_nil in Hin|].
  by destruct (party_makes _ _ _ _ _ _ _ _ _ _ _ _ _ _ _ Hrun Hin) as (_ & _ & _ & ? & _).
Qed.

Section leader.
Context (leader : PeerID) (sid : string).
Abbreviation one_session := (one_session relayers peerstore leader sid).
Abbreviation network_inv := (network_inv relayers peerstore leader sid).
Abbreviation chosen := (chosen leader).

(** The subset that the leader has chosen. *)
Lemma chosen_subset (net : network) v :
  network_inv net → chosen net v →
  (∀ s c, relayers !! leader = Some (s, c) → (0 ≤ Threshold (sg_key s))%Z ∧ Forall peer_valid (Peers (sg_key s))) →
  ∃ subset s c, relayers !! leader = Some (s, c) ∧ v = Ok subset ∧
    Z.of_nat (length subset) = (Threshold (sg_key s) + 1)%Z ∧ NoDup subset ∧
    ∀ q, q ∈ subset → q ∈ Peers (sg_key s) ∧ (q = leader ∨ ∃ b, arrives net q leader TssReadyMsg sid b).
Proof.
  intros Hinv Hch Hwf.
  destruct (chosen_ready relayers peerstore leader sid net v Hinv Hch) as (s & c & ready & Hs & Hr & -> & Hnd & _ & Hq).
  destruct (Hwf s c Hs) as [Ht Hv]. destruct (start_subset_ready s ready [] Ht Hr) as [Hperm Hlen].
  exists (start_subset s ready), s, c. split_and!.
  - done.
  - apply (json_Unmarshal_Marshal (start_subset s ready)). simpl. rw Hperm.
    apply Forall_forall. intros q [Hin _]%list_elem_of_filter. by eapply Forall_forall in Hv.
  - by rw Hperm.
  - rw Hperm. by apply NoDup_filter.
  - intros q. rw Hperm. intros [Hin Hq']%list_elem_of_filter. split; [done|by apply Hq].
Qed.

(** Parties of one session. *)
Lemma party_parties (net : network) r (m : member) msg parties me n t num :
  one_session → network_inv net → members net !! r = Some m →
  NewLocalParty msg parties me n t num ∈ mb_actions m →
  ∃ subset s c, chosen net (Ok subset) ∧ r ∈ subset ∧
    relayers !! r = Some (s, c) ∧ msg = sg_msg s ∧ t = Threshold (sg_key s) ∧
    parties = PartiesFromPeers subset ∧ n = Z.of_nat (length subset) ∧
    num = big.SetBytes (bytes_of sid) ∧
    (∃ p, me = Some p ∧ p ∈ parties ∧ party_Id p = peer_String r) ∧
    Forall (λ a, match a with NewLocalParty _ _ _ _ _ _ => False | _ => True end) (tail (mb_actions m)).
Proof.
  intros (_ & _ & Hall) Hinv Hm Hin. destruct (acted _ _ _ _ _ _ _ Hinv Hm) as
    (s & c & ans & sub & b & params & s' & res & Hs & Hch & Hrun).
  { intros Ha. rw Ha in Hin. by apply not_elem_of_nil in Hin. }
  destruct (party_makes _ _ _ _ _ _ _ _ _ _ _ _ _ _ _ Hrun Hin) as
    (subset & Hu & (me' & rest & Hacts & Hrest & Hself & _) & -> & -> & -> & -> & -> & Hme).
  rw /= Hu in Hch. destruct (Hall r s c Hs) as (_ & Hsid & _). simpl in Hsid.
  exists subset, s, c. split_and!; try done; [by rw Hsid|].
  rw Hacts /=. destruct Hrest as [-> | ->]; by repeat constructor.
Qed.

(** C1: the relayers of a signing session make the same party.  Whatever the
    network does with the messages and whatever peers that are not relayers
    send, in every state the session can reach: the parties that two relayers
    have made are made of the same parties, threshold + 1 of them by the
    keyshare of the leader, under the same session number, and both relayers
    are among them; every member holds a keyshare and is the leader, a peer
    outside the model, or a relayer that told the leader that it is ready;
    and each relayer signs the message of its own process, with the threshold
    of its own keyshare, and makes no second party. *)
Theorem session_agreement (net : network) (r1 r2 : PeerID) (m1 m2 : member)
    (msg1 msg2 : Z) (parties1 parties2 : list PartyID) (me1 me2 : option PartyID)
    (n1 n2 t1 t2 num1 num2 : Z) (s s1 s2 : Signing) (c c1 c2 : PeerID) :
  one_session → network_reachable net →
  relayers !! leader = Some (s, c) → (0 ≤ Threshold (sg_key s))%Z → Forall peer_valid (Peers (sg_key s)) →
  relayers !! r1 = Some (s1, c1) → relayers !! r2 = Some (s2, c2) →
  members net !! r1 = Some m1 → members net !! r2 = Some m2 →
  NewLocalParty msg1 parties1 me1 n1 t1 num1 ∈ mb_actions m1 →
  NewLocalParty msg2 parties2 me2 n2 t2 num2 ∈ mb_actions m2 →
  parties1 = parties2 ∧ n1 = n2 ∧ num1 = num2 ∧
  n1 = (Threshold (sg_key s) + 1)%Z ∧
  msg1 = sg_msg s1 ∧ t1 = Threshold (sg_key s1) ∧
  (∃ p, me1 = Some p ∧ p ∈ parties1 ∧ party_Id p = peer_String r1) ∧
  (∃ subset, parties1 = PartiesFromPeers subset ∧ NoDup subset ∧ r1 ∈ subset ∧ r2 ∈ subset ∧
     ∀ q, q ∈ subset → q ∈ Peers (sg_key s) ∧
       (q = leader ∨ ∃ b, arrives net q leader TssReadyMsg sid b)) ∧
  Forall (λ a, match a with NewLocalParty _ _ _ _ _ _ => False | _ => True end) (tail (mb_actions m1)).
Proof.
  intros Hone Hr Hs Ht Hv Hr1 Hr2 Hm1 Hm2 Hp1 Hp2. pose proof (network_reachable_inv _ _ _ _ _ Hone Hr) as Hinv.
  destruct (party_parties _ _ _ _ _ _ _ _ _ Hone Hinv Hm1 Hp1) as
    (sub1 & s1' & c1' & Hch1 & Hin1 & Hr1' & -> & -> & -> & -> & -> & Hme & Hno).
  destruct (party_parties _ _ _ _ _ _ _ _ _ Hone Hinv Hm2 Hp2) as
    (sub2 & s2' & c2' & Hch2 & Hin2 & Hr2' & -> & -> & -> & -> & -> & _).
  pose proof (chosen_unique _ _ _ _ Hch1 Hch2) as [= <-].
  destruct (chosen_subset net (Ok sub1) Hinv Hch1) as (subset & s' & c' & Hs' & [= <-] & Hlen & Hnd & Hq).
  { intros s'' c'' Hs''. rw Hs in Hs''. by injection Hs'' as <- <-. }
  rw Hs in Hs'. injection Hs' as <- <-. rw Hr1 in Hr1'. injection Hr1' as <- <-.
  split_and!; try done. by exists sub1.
Qed.

(** A relayer that has made its party and waits for it. *)
Definition signing (net : network) (r : PeerID) : Prop :=
  ∃ m msg parties me n t num, members net !! r = Some m ∧ mb_running m = true ∧
    NewLocalParty msg parties me n t num ∈ mb_actions m.
Abbreviation leads := (leads leader).
Abbreviation waits := (waits leader).

(** C7: a session can always start.  In every state the session can reach,
    whatever has been lost, delayed or sent by others: if the leader is in its
    loop and has not started, and as many other holders of the keyshare as
    its threshold wait in theirs, not all of them counted yet and no other
    holder counted, then there is a run of the network (the next tick, the
    answers, the start message) after which the leader and all of them have
    made the party and wait for its result. *)
Theorem session_can_start (net : network) (s : Signing) (st : initiate_state) (W : list PeerID) :
  one_session → network_reachable net → leads net s st → ticking st = true →
  Forall peer_valid (Peers (sg_key s)) → leader ∈ Peers (sg_key s) →
  NoDup W → Z.of_nat (length W) = Threshold (sg_key s) →
  (∀ w, w ∈ W → waits net w ∧ w ∈ Peers (sg_key s) ∧ w ∈ peerstore leader) →
  (∃ w, w ∈ W ∧ w ∉ readyPeers st) →
  (∀ q, q ∈ readyPeers st → q ∈ Peers (sg_key s) → q ∈ leader :: W) →
  ∃ net', rtc network_step net net' ∧ ∀ r, r ∈ leader :: W → signing net' r.
Proof.
  intros Hone Hreach Hlead Htick Hv Hlk Hnd Hlen HW (w0 & Hw0 & Hw0r) Hready.
  pose proof (network_reachable_inv _ _ _ _ _ Hone Hreach) as Hinv.
  destruct (leads_ready relayers peerstore leader sid net s st Hinv Hlead) as [Hlr Hndr].
  set (missing := filter (λ w, w ∉ readyPeers st) W).
  assert (Hperm : readyParticipants s (readyPeers st) ++ missing ≡ₚ leader :: W).
  { apply NoDup_Permutation.
    - apply NoDup_app. split_and!; [by apply NoDup_filter| |by apply NoDup_filter].
      intros q [_ Hq]%list_elem_of_filter [Hq' _]%list_elem_of_filter. done.
    - apply NoDup_cons. split; [|done]. intros [[? _] _]%HW. done.
    - intros q. rw elem_of_app elem_of_cons !list_elem_of_filter. split.
      + intros [[Hk Hq]|[_ Hq]]; [|by right]. apply elem_of_cons. by apply Hready.
      + intros [->|Hq]; [by left|]. destruct (HW q Hq) as (_ & Hk & _).
        destruct (decide (q ∈ readyPeers st)); auto. }
  assert (Hparts : readyParticipants s (readyPeers st ++ missing) ≡ₚ leader :: W).
  { rw -Hperm /readyParticipants filter_app (filter_true _ missing) //.
    by intros q [_ (_ & ? & _)%HW]%list_elem_of_filter. }
  assert (Ready s (readyPeers st ++ missing) [] = Ok true) as Hen.
  { rw /Ready (Permutation_length Hparts). f_equal. apply bool_decide_eq_true. simpl. lia. }
  destruct (start_subset_ready s (readyPeers st ++ missing) [] ltac:(lia) Hen) as [Hsub _]. rw Hparts in Hsub.
  destruct (all_can_run relayers peerstore leader sid Hone
    (λ r acts, ∃ msg ps me n t num, NewLocalParty msg ps me n t num ∈ acts) net s st W) as (net' & Hr' & Hruns); try done.
  - intros Hm. apply (not_elem_of_nil w0). rw -Hm. by apply list_elem_of_filter.
  - intros w Hw. by destruct (HW w Hw) as (? & _ & ?).
  - intros r Hr s0 c0 b Hs0 Hst%negb_true_iff.
    assert (unmarshallStartParams (StartParams s (readyPeers st ++ missing)) = Ok (start_subset s (readyPeers st ++ missing))) as Hu.
    { apply (json_Unmarshal_Marshal (start_subset s (readyPeers st ++ missing))). simpl. rw Hsub.
      apply Forall_forall. intros q Hq. eapply Forall_forall in Hv; [done|].
      apply elem_of_cons in Hq as [->|Hq]; [done|by destruct (HW q Hq) as (_ & ? & _)]. }
    assert (r ∈ start_subset s (readyPeers st ++ missing)) as Hrin by by rw Hsub.
    destruct (Run_starts r "" s0 b _ _ Hst Hu Hrin) as [Hne Hres].
    set (ans := {| ans_NewParameters := None; ans_NewLocalParty := None; ans_Start := None |}) in *.
    pose proof (Run_acts r ans "" s0 b (StartParams s (readyPeers st ++ missing))) as Ha.
    destruct (Signing.Run r ans "" s0 b (StartParams s (readyPeers st ++ missing))) as [[acts s'] res] eqn:Hrun.
    simpl in Hne, Hres, Ha. subst res. exists ans, acts, s'. split; [by rw /= Hrun|].
    destruct Ha as [?|(_ & sub & p & rest & _ & _ & _ & _ & -> & _)]; [done|]. do 6 eexists. by left.
  - exists net'. split; [done|]. intros r Hr. destruct (Hruns r Hr) as (m & Hm & Hrun & msg & ps & me & n & t & num & Hin).
    by exists m, msg, ps, me, n, t, num.
Qed.
End leader.
End session.

Section witnesses.
Import Toy ToyJson.

Definition demo_peerstore (r : PeerID) : list PeerID := ["a"; "b"; "c"].
Definition demo_relayers : gmap PeerID (Signing (SaveData := unit) * PeerID) :=
  list_to_map ((λ r, (r, (demo_signing, "a"))) <$> ["a"; "b"; "c"]).

Definition demo_answers : party_answers :=
  {| ans_NewParameters := None; ans_NewLocalParty := None; ans_Start := None |}.

(** [c] and [b] answer [a]; the answer of [b] gets there first. *)
Definition demo_schedule : list choice :=
  [Join "b"; Join "a"; Join "c"; Receive "c" (EvWait (WaitInit "a")); Receive "b" (EvWait (WaitInit "a"));
   Receive "a" (EvInitiate (InitReady "b")); Receive "a" (EvInitiate (InitReady "c"));
   RunNext "a" demo_answers "sub" true;
   Receive "b" (EvWait (WaitStart "a" (json_Marshal {| Params := StartParams demo_signing ["a"; "b"] |})));
   RunNext "b" demo_answers "sub" true].

Definition parties_of (net : option (signing_network unit)) (r : PeerID) : option (list PeerID) :=
  n ← net; m ← members n !! r;
  match mb_actions m with NewLocalParty _ ps _ _ _ _ :: _ => Some (party_Id <$> ps) | _ => None end.

Lemma parties_of_spec net r ids :
  parties_of (Some net) r = Some ids →
  ∃ m msg ps me n t num, members net !! r = Some m ∧ NewLocalParty msg ps me n t num ∈ mb_actions m ∧
    ids = party_Id <$> ps.
Proof.
  rw /parties_of /=. destruct (members net !! r) as [m|]; [|done]. simpl.
  destruct (mb_actions m) as [|[msg ps me n t num| | | | | | |] l] eqn:E; try done. intros [= <-].
  exists m, msg, ps, me, n, t, num. split_and!; [done| |done]. rw E. by left.
Qed.

Lemma demo_session : one_session demo_relayers demo_peerstore "a" "s".
Proof.
  split; [done|]. split; [by exists (demo_signing, "a")|].
  intros r s c Hin%elem_of_list_to_map_2. apply list_elem_of_fmap in Hin as (q & [= -> -> ->] & Hq).
  split_and!; [done|done|left]. by elem_cases Hq.
Qed.

Lemma session_agreement_witness :
  ∃ (net : signing_network unit) (ps : list PartyID),
    network_reachable demo_relayers demo_peerstore net ∧
    parties_of (Some net) "a" = Some (party_Id <$> ps) ∧ parties_of (Some net) "b" = Some (party_Id <$> ps).
Proof.
  assert (parties_of (play demo_relayers demo_peerstore empty_network demo_schedule) "a" = Some ["a"; "b"]) as Ha
    by (vm_compute; reflexivity).
  assert (parties_of (play demo_relayers demo_peerstore empty_network demo_schedule) "b" = Some ["a"; "b"]) as Hb
    by (vm_compute; reflexivity).
  destruct (play demo_relayers demo_peerstore empty_network demo_schedule) as [net|] eqn:E; [|done].
  apply play_steps in E.
  destruct (parties_of_spec _ _ _ Ha) as (m1 & msg1 & ps1 & me1 & n1 & t1 & num1 & Hm1 & Hp1 & Hi1).
  destruct (parties_of_spec _ _ _ Hb) as (m2 & msg2 & ps2 & me2 & n2 & t2 & num2 & Hm2 & Hp2 & Hi2).
  destruct (session_agreement demo_relayers demo_peerstore "a" "s" net "a" "b" m1 m2 msg1 msg2 ps1 ps2
    me1 me2 n1 n2 t1 t2 num1 num2 demo_signing demo_signing demo_signing "a" "a" "a") as (Heq & _).
  - exact demo_session.
  - exact E.
  - reflexivity.
  - by vm_compute.
  - by repeat constructor.
  - reflexivity.
  - reflexivity.
  - done.
  - done.
  - done.
  - done.
  - exists net, ps1. split_and!; [done|by rewrite -Hi1|rewrite Heq; by rewrite -Hi2].
Defined.

Lemma session_can_start_witness :
  ∃ net, network_reachable demo_relayers demo_peerstore net ∧ signing net "a" ∧ signing net "b".
Proof.
  epose proof (play_steps demo_relayers demo_peerstore empty_network [Join "a"; Join "b"; Join "c"] _ eq_refl) as Hr.
  match type of Hr with rtc _ _ ?n => set (net := n) in * end.
  destruct (session_can_start demo_relayers demo_peerstore "a" "s" net demo_signing
    {| readyPeers := ["a"]; ticking := true |} ["b"]) as (net' & Hr' & Hs).
  - exact demo_session.
  - exact Hr.
  - eexists. split_and!; reflexivity.
  - done.
  - by repeat constructor.
  - by left.
  - by repeat constructor; intros ?%not_elem_of_nil.
  - by vm_compute.
  - intros w Hw. elem_cases Hw. split_and!; [split; [done|]; eexists; split_and!; reflexivity|right; by left|right; by left].
  - exists "b". split; [by left|]. simpl. intros Hin. by elem_cases Hin.
  - simpl. intros q Hq _. elem_cases Hq. by left.
  - exists net'. split_and!; [rw /network_reachable; etrans; [exact Hr|exact Hr']|apply Hs; by left|apply Hs; right; by left].
Defined.
End witnesses.
