(* ===== verification/Keygen.v ===== *)
(** * Key generation (src/tss/ecdsa/keygen/keygen.go)

    All peers generate a key together; the process holds the keyshare lock
    from the moment it runs until it is stopped. *)
From S2P Require Import Prelude GoStd Encoding Json Libs JsonCodec Comm TssCommon Keyshare TssCoordinator.

Inductive keygen_action :=
  | KgLockKeyshare
  | KgUnlockKeyshare
  | KgSubscribe (sessionID : string) (t : MessageType)
  | KgUnSubscribe (subscriptionID : string)
  | KgNewLocalParty (parties : list PartyID) (self : option PartyID)
      (partyCount threshold sessionNumber : Z)
  | KgStartPool
  | KgPartyStart
  | KgCancel.

Section keygen.
Context {SaveData : Type} `{PeerLib, Keccak, TssLib, SaveDataJson SaveData}.
(** [k.Host.ID()]; [k.Host.Peerstore().Peers()] is read anew at each call and
    is an argument. *)
Context (self : PeerID).

Record Keygen := {
  kg_base : BaseTss;
  kg_threshold : Z;
  kg_subscriptionID : string;
}.

Definition NewKeygen (sessionID : string) (threshold : Z) (peerstore : list PeerID) : Keygen :=
  {| kg_base := NewBaseTss sessionID peerstore; kg_threshold := threshold;
     kg_subscriptionID := "" |}.

(** Up to the wait for the pool ([None]). *)
Definition Run (peerstore : list PeerID) (ans : party_answers) (subID : string) (k : Keygen)
    (coordinator : bool) (params : bytes)
    : list keygen_action * Keygen * option (option error) :=
  if Started (kg_base k) then ([], k, Some (Some ErrProcessStarted)) else
  let parties := PartiesFromPeers peerstore in
  let store := PopulatePartyStore (PartyStore (kg_base k)) parties in
  let k1 sub := {| kg_base := set_peers (set_Started (kg_base k)) (base_Peers (kg_base k)) store;
                   kg_threshold := kg_threshold k; kg_subscriptionID := sub |} in
  match ans_NewParameters ans with
  | Some e => ([KgLockKeyshare], k1 (kg_subscriptionID k), Some (Some e))
  | None =>
      let acts := [KgLockKeyshare; KgSubscribe (SID (kg_base k)) TssKeyGenMsg;
        KgNewLocalParty parties (store !! peer_String self) (Z.of_nat (length parties))
          (kg_threshold k) (big.SetBytes (bytes_of (SID (kg_base k))))] in
      match ans_NewLocalParty ans with
      | Some e => (acts, k1 subID, Some (Some e))
      | None =>
          (acts ++ [KgStartPool; KgPartyStart], k1 subID,
           match ans_Start ans with Some e => Some (Some e) | None => None end)
      end
  end.

Definition Stop (k : Keygen) : list keygen_action :=
  [KgUnSubscribe (kg_subscriptionID k); KgUnlockKeyshare; KgCancel].

Definition Ready (peerstore : list PeerID) (k : Keygen) (readyPeers excludedPeers : list PeerID)
    : result bool :=
  if bool_decide (0 < length excludedPeers) then Err (Errorf "error")
  else Ok (bool_decide (length readyPeers = length peerstore)).

Definition ValidCoordinators (peerstore : list PeerID) (k : Keygen) : list PeerID := peerstore.

Definition StartParams (k : Keygen) (readyPeers : list PeerID) : bytes := [].

(** On [<-endChn] with the generated key, and on [<-ctx.Done()]. *)
Definition processEndMessage (fs : fs_answers) (ks : ECDSAKeyshareStore) (k : Keygen)
    (key : option SaveData) : option error * ECDSAKeyshareStore * list keygen_action :=
  match key with
  | Some key =>
      let keyshare := NewECDSAKeyshare key (kg_threshold k) (base_Peers (kg_base k)) in
      let '(err, ks') := StoreKeyshare fs ks keyshare in (err, ks', [KgCancel])
  | None => (None, ks, [KgCancel])
  end.

Definition keygen_process (peerstore : list PeerID) (k : Keygen) : TssProcess := {|
  tp_SessionID := SID (kg_base k);
  tp_Ready := Ready peerstore k;
  tp_StartParams := StartParams k;
  tp_ValidCoordinators := ValidCoordinators peerstore k;
|}.

#[export] Instance keygen_stable peerstore k : StableStart (keygen_process peerstore k).
Proof. done. Qed.

(** The coordinator starts key generation only when every peer of its
    peerstore has reported ready: no key is generated that some relayer has
    no share of. *)
Theorem keygen_everyone_ready (peerstore : list PeerID) (k : Keygen)
    (evs : list initiate_event) (to : list PeerID) (payload : bytes) :
  (∀ q, q ∈ received evs → q ∈ peerstore) → self ∈ peerstore →
  ActBroadcast to payload TssStartMsg (SID (kg_base k)) ∈
    (initiate self peerstore (keygen_process peerstore k) [] evs).1 →
  ∀ q, q ∈ peerstore → q = self ∨ q ∈ received evs.
Proof.
  intros Hrec Hself (_ & evs1 & [rest ->] & Hready & _)%initiate_start_msg q Hq.
  simpl in Hready. injection Hready as Hlen%bool_decide_eq_true.
  set (r := ready_after [] [self] evs1) in *.
  assert (NoDup r) as Hnd by apply ready_after_NoDup, NoDup_singleton.
  assert (∀ x, x ∈ r → x = self ∨ x ∈ received evs1) as Hr.
  { intros x [Hx|[Hx _]]%elem_of_ready_after; [by elem_cases Hx; left|by right]. }
  assert (∀ x, x ∈ received evs1 → x ∈ received (evs1 ++ rest)) as Hsub.
  { intros x Hx. rw /received omap_app. apply elem_of_app. by left. }
  assert (r ⊆+ peerstore) as Hsm.
  { apply NoDup_submseteq; [done|]. intros x [->|?]%Hr; auto. }
  assert (r ≡ₚ peerstore) as Hperm by (apply submseteq_length_Permutation; [done|lia]).
  rw -Hperm in Hq. destruct (Hr q Hq); auto.
Qed.

(** ** The keyshare lock over an execution *)

(** What the runs and stops of a trace do to the process, in that order. *)
Fixpoint process_effects (peerstore : list PeerID) (ans : party_answers) (subID : string)
    (k : Keygen) (acts : list action) : list keygen_action :=
  match acts with
  | [] => []
  | ActRun coordinator params :: acts' =>
      let '(effects, k', _) := Run peerstore ans subID k coordinator params in
      effects ++ process_effects peerstore ans subID k' acts'
  | ActStop 0 :: acts' => Stop k ++ process_effects peerstore ans subID k acts'
  | _ :: acts' => process_effects peerstore ans subID k acts'
  end.

Definition lock_op (a : keygen_action) : option Mutex.op :=
  match a with
  | KgLockKeyshare => Some Mutex.OpLock
  | KgUnlockKeyshare => Some Mutex.OpUnlock
  | _ => None
  end.

Definition lock_ops (effects : list keygen_action) : list Mutex.op := omap lock_op effects.

Lemma keygen_Run_lock_ops peerstore ans subID k c params :
  let '(effects, k', _) := Run peerstore ans subID k c params in
  lock_ops effects = (if Started (kg_base k) then [] else [Mutex.OpLock]) ∧
  Started (kg_base k') = true.
Proof.
  rw /Run. destruct (Started (kg_base k)) eqn:E; [done|].
  by destruct (ans_NewParameters ans), (ans_NewLocalParty ans).
Qed.

(** However often it is run and stopped, it locks once and unlocks at each
    stop. *)
Lemma process_effects_count peerstore ans subID k acts :
  let ops := lock_ops (process_effects peerstore ans subID k acts) in
  Mutex.locks ops ≤ Nat.b2n (negb (Started (kg_base k))) ∧ Mutex.unlocks ops = stops acts.
Proof.
  revert k. induction acts as [|a acts IH]; intros k; [split; [apply Nat.le_0_l|done]|].
  destruct a as [| | |c params|i| | |]; try apply IH.
  - pose proof (keygen_Run_lock_ops peerstore ans subID k c params) as Hrun. simpl.
    destruct (Run peerstore ans subID k c params) as [[effects k'] res].
    destruct Hrun as [Hops Hst]. specialize (IH k') as [IH1 IH2]. rw Hst /= in IH1.
    rw /lock_ops omap_app -/(lock_ops effects) Hops.
    destruct (Started (kg_base k)); simpl;
      rw ?Mutex.locks_cons ?Mutex.unlocks_cons -/(lock_ops _); split; try exact IH2; lia.
  - destruct i as [|i]; [|apply IH]. specialize (IH k) as [IH1 IH2]. simpl.
    rw Mutex.locks_cons Mutex.unlocks_cons -/(lock_ops _). split; [done|].
    rw IH2 /stops filter_cons. by case_decide.
Qed.

(** A process that is not run locks nothing. *)
Lemma process_effects_unrun peerstore ans subID k acts :
  (∀ c params, ActRun c params ∉ acts) →
  Mutex.locks (lock_ops (process_effects peerstore ans subID k acts)) = 0.
Proof.
  intros Hrun. induction acts as [|a acts IH]; [done|].
  assert (∀ c params, ActRun c params ∉ acts) as Hrun' by by intros c params Hin; eapply Hrun; right.
  destruct a as [| | |c params|[|i]| | |]; try by apply IH.
  destruct (Hrun c params). by left.
Qed.

(** A key generation that times out kills the relayer: the watcher and
    the deferred function of [Execute] both stop the process, each stop
    unlocks the keyshare, and the keyshare is locked at most once, by the
    first run; in whatever order these effects happen, the second unlock (or
    the first, if no run has locked) is a fatal error. *)
Theorem keygen_timeout_fatal (peerstore : list PeerID) (ans : party_answers) (subID : string)
    (sessionID : string) (threshold : Z) (ex ex1 ex2 : execution) (ops : list Mutex.op) :
  exec_step peerstore ex (EvWatch WatchTimeout) = Some ex1 →
  rtc (exec_any peerstore) ex1 ex2 →
  ops ≡ₚ lock_ops (process_effects peerstore ans subID
           (NewKeygen sessionID threshold peerstore) (ex_trace ex2 ++ deferred_stops ex2)) →
  ∃ msg, Mutex.exec false ops = Some (Panic msg).
Proof.
  intros Ht Hr Hp. pose proof (timeout_stops_twice peerstore ex ex1 ex2 Ht Hr) as H2'.
  destruct (process_effects_count peerstore ans subID (NewKeygen sessionID threshold peerstore)
    (ex_trace ex2 ++ deferred_stops ex2)) as [Hl Hu]. simpl in Hl.
  assert (Mutex.locks ops ≤ 1) by by rw /Mutex.locks Hp.
  assert (2 ≤ Mutex.unlocks ops) by by rw /Mutex.unlocks Hp -/(Mutex.unlocks _) Hu.
  destruct (Mutex.exec_excess false ops) as [Hn|?]; [simpl; lia| |done].
  by apply Mutex.exec_one_lock in Hn; [|simpl; lia].
Qed.

(** C38: a key generation that ends before it has run kills the relayer.  If
    [Execute] returns without having run the process - the coordinator sent a
    fail message or a start message that does not parse, or the caller gave
    up - its deferred stop unlocks the keyshare, which only a run locks. *)
Theorem keygen_unrun_fatal (peerstore : list PeerID) (ans : party_answers) (subID sessionID : string)
    (threshold : Z) (coordinator : PeerID) (evs : list exec_event) (ex : execution) :
  exec_events peerstore (begin_execution self peerstore
    (keygen_process peerstore (NewKeygen sessionID threshold peerstore)) [] coordinator) evs = Some ex →
  (∀ c params, ActRun c params ∉ ex_trace ex) →
  ∃ msg, Mutex.exec false (lock_ops (process_effects peerstore ans subID
    (NewKeygen sessionID threshold peerstore) (ex_trace ex ++ deferred_stops ex))) = Some (Panic msg).
Proof.
  intros Hev Hrun. pose proof (execute_stops _ _ _ _ _ _ _ Hev) as Hstops.
  destruct (process_effects_count peerstore ans subID (NewKeygen sessionID threshold peerstore)
    (ex_trace ex ++ deferred_stops ex)) as [_ Hu]. rw Hstops in Hu.
  assert (Mutex.locks (lock_ops (process_effects peerstore ans subID
    (NewKeygen sessionID threshold peerstore) (ex_trace ex ++ deferred_stops ex))) = 0) as Hl.
  { apply process_effects_unrun. intros c params [Hin|Hin]%elem_of_app; [by eapply Hrun|].
    by apply list_elem_of_fmap in Hin as (? & ? & _). }
  destruct (Mutex.exec_excess false (lock_ops (process_effects peerstore ans subID
    (NewKeygen sessionID threshold peerstore) (ex_trace ex ++ deferred_stops ex)))) as [Hn|?]; [|exfalso|done].
  - rw Hl Hu. by destruct (existsb is_timeout evs); simpl; lia.
  - apply Mutex.exec_one_lock in Hn; [done|]. rw Hl. simpl. lia.
Qed.
End keygen.

Section witnesses.
Import Toy.
Import ToyJson.

Definition demo_keygen : Keygen := NewKeygen "keygen-1" 1 ["a"; "b"].

Lemma keygen_everyone_ready_witness :
  let payload := match MarshalStartMessage [] with Ok b => b | Err _ => [] end in
  ActBroadcast ["a"; "b"] payload TssStartMsg "keygen-1" ∈
    (initiate "a" ["a"; "b"] (keygen_process ["a"; "b"] demo_keygen) [] [InitReady "b"]).1 ∧
  ("b" = "a" ∨ "b" ∈ received [InitReady "b"]).
Proof.
  intros payload.
  assert (ActBroadcast ["a"; "b"] payload TssStartMsg "keygen-1" ∈
    (initiate "a" ["a"; "b"] (keygen_process ["a"; "b"] demo_keygen) [] [InitReady "b"]).1) as Hin.
  { apply (bool_decide_unpack _). by vm_compute. }
  split; [exact Hin|].
  eapply (keygen_everyone_ready "a" ["a"; "b"] demo_keygen [InitReady "b"]); [| |exact Hin|].
  - intros q Hq. cbn in Hq. elem_cases Hq. right. by left.
  - by left.
  - right. by left.
Defined.

Definition demo_timed_out : execution :=
  let ex := begin_execution "a" ["a"; "b"] (keygen_process ["a"; "b"] demo_keygen) [] "" in
  match exec_step ["a"; "b"] ex (EvWatch WatchTimeout) with Some ex' => ex' | None => ex end.

(** [b] leads and gives up before it has started. *)
Definition demo_unrun : option execution :=
  exec_events ["a"; "b"] (begin_execution "a" ["a"; "b"] (keygen_process ["a"; "b"] demo_keygen) [] "b")
    [EvWatch (WatchFail "b"); EvWait WaitDone].

Lemma keygen_unrun_fatal_witness :
  ∃ ex msg, demo_unrun = Some ex ∧ execute_result ex ≠ None ∧
    Mutex.exec false (lock_ops (process_effects "a" ["a"; "b"]
      {| ans_NewParameters := None; ans_NewLocalParty := None; ans_Start := None |} "sub" demo_keygen
      (ex_trace ex ++ deferred_stops ex))) = Some (Panic msg).
Proof.
  assert (match demo_unrun with
          | Some ex => negb (existsb (λ a, match a with ActRun _ _ => true | _ => false end) (ex_trace ex)) &&
                       match execute_result ex with Some _ => true | None => false end
          | None => false end = true) as Hok by (vm_compute; reflexivity).
  destruct demo_unrun as [ex|] eqn:E; [|done]. apply andb_true_iff in Hok as [Hrun Hres]. exists ex.
  destruct (keygen_unrun_fatal "a" ["a"; "b"]
    {| ans_NewParameters := None; ans_NewLocalParty := None; ans_Start := None |} "sub" "keygen-1" 1 "b"
    [EvWatch (WatchFail "b"); EvWait WaitDone] ex E) as [msg Hm].
  - intros c params Hin%list_elem_of_In. apply negb_true_iff, not_true_iff_false in Hrun. apply Hrun, existsb_exists.
    by exists (ActRun c params).
  - exists msg. split_and!; [done|by destruct (execute_result ex)|exact Hm].
Defined.

Lemma keygen_timeout_fatal_witness :
  ∃ msg, Mutex.exec false [Mutex.OpUnlock; Mutex.OpUnlock] = Some (Panic msg).
Proof.
  apply (keygen_timeout_fatal "a" ["a"; "b"]
    {| ans_NewParameters := None; ans_NewLocalParty := None; ans_Start := None |} "sub" "keygen-1" 1
    (begin_execution "a" ["a"; "b"] (keygen_process ["a"; "b"] demo_keygen) [] "")
    demo_timed_out demo_timed_out).
  - reflexivity.
  - apply rtc_refl.
  - reflexivity.
Defined.
End witnesses.
