(* ===== verification/Resharing.v ===== *)
(** * Resharing the key (src/tss/ecdsa/resharing/resharing.go)

    Holders of the old key and newcomers run the process together; the
    coordinator tells the newcomers who the old holders are.  The keyshare
    lock is held from construction until the process is stopped. *)
From S2P Require Import Prelude GoStd Encoding Json Libs JsonCodec Comm PeerSort TssCommon Keyshare TssCoordinator.

Record startParams := { OldThreshold : Z; OldSubset : list PeerID }.

#[export] Instance startParams_eq_dec : EqDecision startParams.
Proof. solve_decision. Defined.

(** Its struct tags. *)
#[export] Instance startParams_json `{PeerLib} : Json startParams := {|
  json_zero := {| OldThreshold := 0%Z; OldSubset := [] |};
  json_type := go.struct [go.field_of "oldThreshold" go.int64 OldThreshold;
                          go.field_of "oldSubset" (go.slice peer_type "" (or_introl eq_refl)) OldSubset] eq_refl
                 ltac:(all_fields_set) ltac:(all_sets_typed);
  json_level := ltac:(done);
  json_zero_typed := ltac:(zero_typed);
|}.

Inductive resharing_action :=
  | RsUnlockKeyshare
  | RsSubscribe (sessionID : string) (t : MessageType)
  | RsUnSubscribe (subscriptionID : string)
  | RsNewReSharingParameters (oldParties : list PartyID) (newParties : list PartyID)
      (self : option PartyID) (oldPartyCount oldThreshold newPartyCount newThreshold : Z)
  | RsNewLocalParty (sessionNumber : Z)
  | RsStartPool
  | RsPartyStart
  | RsCancel.

Section resharing.
Context {SaveData : Type} (emptyKey : SaveData).
Context `{PeerLib, Keccak, TssLib, 
          SaveDataJson SaveData}.
(** [r.Host.ID()]; the peerstore is read anew at each call. *)
Context (self : PeerID).

Record Resharing := {
  rs_base : BaseTss;
  rs_key : ECDSAKeyshare SaveData;
  rs_subscriptionID : string;
  rs_newThreshold : Z;
}.

(** The constructor locks the keyshare and does not unlock it ([None]: it
    waits for the lock). *)
Definition NewResharing (sessionID : string) (threshold : Z) (peerstore : list PeerID)
    (fs : fs_answers) (ks : ECDSAKeyshareStore) : option (Resharing * ECDSAKeyshareStore) :=
  ks' ← LockKeyshare ks;
  let key := match GetKeyshare fs ks' with
             | Ok key => key
             | Err _ => {| Key := emptyKey; Threshold := 0; Peers := [] |}
             end in
  Some ({| rs_base := NewBaseTss sessionID peerstore; rs_key := key;
           rs_subscriptionID := ""; rs_newThreshold := threshold |}, ks').

(** ** Start parameters *)
Definition Ready (peerstore : list PeerID) (r : Resharing) (readyPeers excludedPeers : list PeerID)
    : result bool :=
  Ok (bool_decide (length readyPeers = length peerstore)).

(** Peers of the peerstore that some keyshare peer prints like. *)
Definition ValidCoordinators (peerstore : list PeerID) (r : Resharing) : list PeerID :=
  filter (λ p, existsb (λ q, bool_decide (peer_String q = peer_String p)) (Peers (rs_key r)) = true)
    peerstore.

Definition StartParams (peerstore : list PeerID) (r : Resharing) (readyPeers : list PeerID) : bytes :=
  let oldSubset := PeersIntersection (Peers (rs_key r)) peerstore in
  match Marshal {| OldThreshold := Threshold (rs_key r); OldSubset := oldSubset |} with
  | Ok b => b
  | Err _ => []
  end.

(** Both slices are sorted in place: the parameters and the process as they
    are afterwards, with the error. *)
Definition validateStartParams (peerstore : list PeerID) (r : Resharing) (params : startParams)
    : startParams * Resharing * option error :=
  if (OldThreshold params <=? 0)%Z then (params, r, Some (Errorf "threshold too small")) else
  if (Z.of_nat (length (OldSubset params)) <? OldThreshold params)%Z
  then (params, r, Some (Errorf "threshold bigger then subset")) else
  let params := {| OldThreshold := OldThreshold params;
                   OldSubset := slices.Sort (OldSubset params) |} in
  let r := {| rs_base := rs_base r;
              rs_key := {| Key := Key (rs_key r); Threshold := Threshold (rs_key r);
                           Peers := slices.Sort (Peers (rs_key r)) |};
              rs_subscriptionID := rs_subscriptionID r; rs_newThreshold := rs_newThreshold r |} in
  if negb (bool_decide (length (Peers (rs_key r)) = 0)) &&
     negb (bool_decide (OldSubset params = PeersIntersection (Peers (rs_key r)) peerstore))
  then (params, r, Some (Errorf "invalid peers subset in start params"))
  else (params, r, None).

Definition unmarshallStartParams (peerstore : list PeerID) (r : Resharing) (paramBytes : bytes)
    : startParams * Resharing * option error :=
  match Unmarshal paramBytes with
  | Err e => ({| OldThreshold := 0; OldSubset := [] |}, r, Some e)
  | Ok params => validateStartParams peerstore r params
  end.

(** ** The order of the parties *)
Definition set_Index (p : PartyID) (i : nat) : PartyID :=
  {| party_Id := party_Id p; party_Moniker := party_Moniker p;
     party_Key := party_Key p; party_Index := Z.of_nat i |}.

(** [copy(dst, src)] into a slice of nil pointers. *)
Definition copy_into (n : nat) (src : list PartyID) : list (option PartyID) :=
  take n (Some <$> src) ++ replicate (n - length src) None.

Fixpoint place_parties (newParties : list (option PartyID)) (index : nat)
    (oldPeers : list PeerID) (parties : list PartyID) : outcome (list (option PartyID)) :=
  match parties with
  | [] => Done newParties
  | party :: parties' =>
      let peerID := match peer_Decode (party_Id party) with Ok p => p | Err _ => "" end in
      if IsParticipant peerID oldPeers then place_parties newParties index oldPeers parties'
      else if bool_decide (index < length newParties)
      then place_parties (<[index := Some (set_Index party index)]> newParties) (S index)
             oldPeers parties'
      else Panic "index out of range"
  end.

Definition sortParties (parties oldParties : list PartyID) : outcome (list (option PartyID)) :=
  let oldPeers := match PeersFromParties oldParties with Ok ps => ps | Err _ => [] end in
  place_parties (copy_into (length parties) oldParties) (length oldParties) oldPeers parties.

(** Reading a field of a nil party panics. *)
Fixpoint deref_all (l : list (option PartyID)) : outcome (list PartyID) :=
  match l with
  | [] => Done []
  | None :: _ => Panic "nil pointer dereference"
  | Some p :: l' => ps ← deref_all l'; Done (p :: ps)
  end.

(** ** Run *)
Definition Run (peerstore : list PeerID) (ans : party_answers) (subID : string) (r : Resharing)
    (coordinator : bool) (params : bytes)
    : outcome (list resharing_action * Resharing * option (option error)) :=
  if Started (rs_base r) then Done ([], r, Some (Some ErrProcessStarted)) else
  let r0 := {| rs_base := set_Started (rs_base r); rs_key := rs_key r;
               rs_subscriptionID := rs_subscriptionID r; rs_newThreshold := rs_newThreshold r |} in
  let '(start, r1, err) := unmarshallStartParams peerstore r0 params in
  match err with
  | Some e => Done ([], r1, Some (Some e))
  | None =>
      let oldParties := PartiesFromPeers (OldSubset start) in
      sorted ← sortParties (PartiesFromPeers peerstore) oldParties;
      newParties ← deref_all sorted;
      let store := PopulatePartyStore (PartyStore (rs_base r1)) newParties in
      let r2 sub := {| rs_base := set_peers (rs_base r1) (base_Peers (rs_base r1)) store;
                       rs_key := rs_key r1; rs_subscriptionID := sub;
                       rs_newThreshold := rs_newThreshold r1 |} in
      let tssParams := RsNewReSharingParameters oldParties newParties (store !! peer_String self)
        (Z.of_nat (length oldParties)) (OldThreshold start)
        (Z.of_nat (length newParties)) (rs_newThreshold r1) in
      match ans_NewParameters ans with
      | Some e => Done ([tssParams], r2 (rs_subscriptionID r1), Some (Some e))
      | None =>
          let acts := [tssParams; RsSubscribe (SID (rs_base r1)) TssReshareMsg;
                       RsNewLocalParty (big.SetBytes (bytes_of (SID (rs_base r1))))] in
          match ans_NewLocalParty ans with
          | Some e => Done (acts, r2 subID, Some (Some e))
          | None => Done (acts ++ [RsStartPool; RsPartyStart], r2 subID,
                          match ans_Start ans with Some e => Some (Some e) | None => None end)
          end
      end
  end.

Definition Stop (r : Resharing) : list resharing_action :=
  [RsUnSubscribe (rs_subscriptionID r); RsUnlockKeyshare; RsCancel].

(** On [<-endChn] with the new key, and on [<-ctx.Done()]. *)
Definition processEndMessage (fs : fs_answers) (ks : ECDSAKeyshareStore) (r : Resharing)
    (key : option SaveData) : option error * ECDSAKeyshareStore * list resharing_action :=
  match key with
  | Some key =>
      let keyshare := NewECDSAKeyshare key (rs_newThreshold r) (base_Peers (rs_base r)) in
      let '(err, ks') := StoreKeyshare fs ks keyshare in (err, ks', [RsCancel])
  | None => (None, ks, [RsCancel])
  end.

Definition resharing_process (peerstore : list PeerID) (r : Resharing) : TssProcess := {|
  tp_SessionID := SID (rs_base r);
  tp_Ready := Ready peerstore r;
  tp_StartParams := StartParams peerstore r;
  tp_ValidCoordinators := ValidCoordinators peerstore r;
|}.

#[export] Instance resharing_stable peerstore r : StableStart (resharing_process peerstore r).
Proof. done. Qed.

(** ** The order of the parties: facts *)
Definition is_new (oldPeers : list PeerID) (party : PartyID) : bool :=
  negb (IsParticipant (match peer_Decode (party_Id party) with Ok p => p | Err _ => "" end) oldPeers).

Definition newcomers (oldPeers : list PeerID) (parties : list PartyID) : list PartyID :=
  filter (λ p, is_new oldPeers p = true) parties.

Lemma place_parties_skip l i oldPeers party parties :
  is_new oldPeers party = false →
  place_parties l i oldPeers (party :: parties) = place_parties l i oldPeers parties.
Proof. rw /is_new /=. by intros ->%negb_false_iff. Qed.

Lemma place_parties_new l i oldPeers party parties :
  is_new oldPeers party = true →
  place_parties l i oldPeers (party :: parties) =
  if bool_decide (i < length l)
  then place_parties (<[i := Some (set_Index party i)]> l) (S i) oldPeers parties
  else Panic "index out of range".
Proof. rw /is_new /=. by intros ->%negb_true_iff. Qed.

Lemma place_parties_ok pre m oldPeers parties :
  length (newcomers oldPeers parties) ≤ m →
  place_parties (pre ++ replicate m None) (length pre) oldPeers parties =
  Done (pre ++ imap (λ i p, Some (set_Index p (length pre + i))) (newcomers oldPeers parties) ++
        replicate (m - length (newcomers oldPeers parties)) None).
Proof.
  rw /newcomers. revert pre m. induction parties as [|party parties IH]; intros pre m Hm.
  { by rw /= Nat.sub_0_r. }
  rw filter_cons in Hm. rw filter_cons. destruct (is_new oldPeers party) eqn:E; last first.
  { rw place_parties_skip //. repeat case_decide; try done. by apply IH. }
  repeat case_decide; try done.
  destruct m as [|m]; [simpl in Hm; lia|].
  rw place_parties_new // bool_decide_true; [|rw length_app length_replicate; lia].
  rw insert_app_r_alt // Nat.sub_diag /=.
  specialize (IH (pre ++ [Some (set_Index party (length pre))]) m ltac:(simpl in Hm; lia)).
  rw -app_assoc length_app /= Nat.add_1_r in IH. rw IH. f_equal. rw -app_assoc /=. f_equal.
  rw Nat.add_0_r. f_equal. f_equal. apply imap_ext. intros j p _. simpl. by rw Nat.add_succ_r.
Qed.

Lemma place_parties_panic l i oldPeers parties :
  length l < i + length (newcomers oldPeers parties) → newcomers oldPeers parties ≠ [] →
  place_parties l i oldPeers parties = Panic "index out of range".
Proof.
  rw /newcomers. revert l i. induction parties as [|party parties IH]; intros l i Hl Hne; [done|].
  rw filter_cons in Hl. rw filter_cons in Hne. destruct (is_new oldPeers party) eqn:E; last first.
  { rw place_parties_skip //. repeat case_decide; try done. by apply IH. }
  repeat case_decide; try done. clear Hne. rw place_parties_new //. case_bool_decide; [|done].
  simpl in Hl. apply IH; [rw length_insert; lia|].
  destruct (filter _ parties); [simpl in Hl; lia|done].
Qed.

(** Decoding the ID of a party made from a peer. *)
Lemma newcomers_parties oldPeers peers :
  Forall peer_valid peers →
  party_Id <$> newcomers oldPeers (PartiesFromPeers peers) ≡ₚ
  peer_String <$> filter (λ p, p ∉ oldPeers) peers.
Proof.
  intros Hv.
  set (Q := λ id : string, is_new oldPeers
    {| party_Id := id; party_Moniker := ""; party_Key := 0; party_Index := 0 |} = true).
  assert (∀ l, party_Id <$> newcomers oldPeers l = filter Q (party_Id <$> l)) as ->.
  { intros l. by rw /newcomers filter_fmap. }
  rw PartiesFromPeers_Ids filter_fmap.
  rewrite (filter_ext_in _ (λ p, p ∉ oldPeers)); [done|].
  intros p Hin. rewrite Forall_forall in Hv. specialize (Hv p Hin).
  rw /Q /is_new /= peer_Decode_String // negb_true_iff -not_true_iff_false IsParticipant_spec. done.
Qed.

Lemma old_peers_perm old :
  Forall peer_valid old →
  ∃ ps, PeersFromParties (PartiesFromPeers old) = Ok ps ∧ ps ≡ₚ old.
Proof. apply PeersFromParties_PartiesFromPeers. Qed.

(** How many peers are new. *)
Lemma filter_split_length (old peers : list PeerID) :
  length (filter (λ p, p ∉ old) peers) + length (filter (λ p, p ∈ old) peers) = length peers.
Proof.
  induction peers as [|p peers IH]; [done|]. rw !filter_cons /=.
  repeat case_decide; simpl; try done; lia.
Qed.

Lemma filter_split_perm (old peers : list PeerID) :
  filter (λ p, p ∈ old) peers ++ filter (λ p, p ∉ old) peers ≡ₚ peers.
Proof.
  induction peers as [|p peers IH]; [done|]. rw !filter_cons.
  case_decide as Hp; case_decide as Hq; try done; simpl; [by rw IH|].
  by rw -Permutation_middle IH.
Qed.

Lemma filter_old_perm (old peers : list PeerID) :
  NoDup old → NoDup peers → old ⊆ peers → filter (λ p, p ∈ old) peers ≡ₚ old.
Proof.
  intros Hnd Hndp Hsub. apply NoDup_Permutation; [by apply NoDup_filter|done|]. intros x.
  rw list_elem_of_filter. split; [tauto|]. intros Hx. split; [done|by apply Hsub].
Qed.

Lemma newcomers_length old peers ps :
  Forall peer_valid peers → ps ≡ₚ old →
  length (newcomers ps (PartiesFromPeers peers)) = length (filter (λ p, p ∉ old) peers).
Proof.
  intros Hv Hps. pose proof (newcomers_parties ps peers Hv) as Hp%Permutation_length.
  rw !length_fmap in Hp. rw Hp. f_equal. apply filter_ext_in. intros p _. by rw Hps.
Qed.

Lemma sortParties_newcomers (peers old : list PeerID) :
  Forall peer_valid peers → NoDup old → old ⊆ peers → NoDup peers →
  ∃ ps, ps ≡ₚ old ∧ length (newcomers ps (PartiesFromPeers peers)) = length peers - length old ∧
    sortParties (PartiesFromPeers peers) (PartiesFromPeers old) =
      Done (Some <$> PartiesFromPeers old ++
              imap (λ i p, set_Index p (length old + i)) (newcomers ps (PartiesFromPeers peers))).
Proof.
  intros Hv Hnd Hsub Hndp.
  assert (Forall peer_valid old) as Hvo.
  { apply Forall_forall. rewrite Forall_forall in Hv. auto. }
  destruct (old_peers_perm old Hvo) as (ps & Hps & Hperm). exists ps.
  pose proof (newcomers_length old peers ps Hv Hperm) as Hn.
  pose proof (filter_split_length old peers) as Hsplit.
  rewrite (Permutation_length (filter_old_perm old peers Hnd Hndp Hsub)) in Hsplit.
  split; [done|]. split; [lia|].
  set (fresh := newcomers ps (PartiesFromPeers peers)) in *.
  rw /sortParties Hps /copy_into !length_PartiesFromPeers take_ge; [|rw length_fmap length_PartiesFromPeers; lia].
  pose proof (place_parties_ok (Some <$> PartiesFromPeers old) (length peers - length old) ps
    (PartiesFromPeers peers)) as Hok.
  rw length_fmap length_PartiesFromPeers -/fresh in Hok. rw Hok; [|lia].
  replace (length peers - length old - length fresh) with 0 by lia.
  by rw fmap_app app_nil_r fmap_imap.
Qed.

(** C33: the parties of a resharing are ordered so that tss-lib routes every
    message to the right one: each peer gets exactly one party, the holders
    of the old key come first, in the order they have among themselves, and
    the newcomers follow with the indexes of their positions. *)
Theorem sortParties_order (peers old : list PeerID) :
  Forall peer_valid peers → NoDup old → old ⊆ peers → NoDup peers →
  ∃ fresh,
    sortParties (PartiesFromPeers peers) (PartiesFromPeers old) =
      Done (Some <$> PartiesFromPeers old ++ fresh) ∧
    (∀ i p, fresh !! i = Some p → party_Index p = Z.of_nat (length old + i)) ∧
    party_Id <$> PartiesFromPeers old ++ fresh ≡ₚ peer_String <$> peers.
Proof.
  intros Hv Hnd Hsub Hndp.
  destruct (sortParties_newcomers peers old Hv Hnd Hsub Hndp) as (ps & Hperm & _ & Hsort).
  pose proof (newcomers_parties ps peers Hv) as Hids.
  assert (filter (λ p, p ∉ ps) peers = filter (λ p, p ∉ old) peers) as Hpso
    by (apply filter_ext_in; intros p _; by rw Hperm).
  rw Hpso in Hids. set (fresh := newcomers ps (PartiesFromPeers peers)) in *.
  exists (imap (λ i p, set_Index p (length old + i)) fresh). split_and!; [done|..].
  - intros i p. rw list_lookup_imap. destruct (fresh !! i); [by intros [= <-]|done].
  - rw fmap_app fmap_imap. rw (imap_ext _ (λ _ p, party_Id p)) //. rw imap_const Hids PartiesFromPeers_Ids.
    rewrite <-(filter_old_perm old peers Hnd Hndp Hsub) at 1. rw -fmap_app. apply fmap_Permutation, filter_split_perm.
Qed.

(** A relayer that holds no keyshare cannot check who the old holders
    are, and start parameters that name a peer it does not know crash it:
    the panic is in the goroutine of [startProcess], which nothing
    recovers. *)
Theorem unknown_old_peer_panics (peerstore : list PeerID) (ans : party_answers) (subID : string)
    (r : Resharing) (coordinator : bool) (b : bytes) (params : startParams) (q : PeerID) :
  Started (rs_base r) = false → Peers (rs_key r) = [] → Unmarshal b = Ok params →
  (0 < OldThreshold params ≤ Z.of_nat (length (OldSubset params)))%Z →
  Forall peer_valid peerstore → Forall peer_valid (OldSubset params) →
  self ∈ peerstore → self ∉ OldSubset params →
  q ∈ OldSubset params → q ∉ peerstore → NoDup peerstore →
  Run peerstore ans subID r coordinator b = Panic "index out of range".
Proof.
  intros Hst Hkey Hb Ht Hv Hvo Hself Hnself Hq Hnq Hnd. set (old := OldSubset params) in *.
  rw /Run Hst /unmarshallStartParams Hb /validateStartParams /=.
  rewrite (proj2 (Z.leb_gt _ _)); [|lia]. rewrite (proj2 (Z.ltb_ge _ _)); [|fold old; lia].
  rw /= Hkey /= -/old. set (sorted := slices.Sort old).
  assert (sorted ≡ₚ old) as Hs by apply slices.perm_Sort.
  assert (Forall peer_valid sorted) as Hvs by by rw Hs.
  destruct (old_peers_perm sorted Hvs) as (ps & Hps & Hperm).
  pose proof (newcomers_length sorted peerstore ps Hv Hperm) as Hn.
  pose proof (filter_split_length sorted peerstore) as Hsplit.
  assert (length (filter (λ p, p ∈ sorted) peerstore) < length sorted) as Hlt.
  { assert (q :: filter (λ p, p ∈ sorted) peerstore ⊆+ sorted) as Hsm%submseteq_length; [|simpl in Hsm; lia].
    apply NoDup_submseteq.
    - constructor; [|by apply NoDup_filter]. rw list_elem_of_filter. by intros [_ ?].
    - intros x Hx. apply elem_of_cons in Hx as [->|Hx]; [by rw Hs|].
      by apply list_elem_of_filter in Hx as [? _]. }
  assert (self ∈ filter (λ p, p ∉ sorted) peerstore) as Hin.
  { apply list_elem_of_filter. by rw Hs. }
  rw /sortParties Hps place_parties_panic //.
  - rw Hn length_PartiesFromPeers /copy_into length_app length_take length_replicate length_fmap
      !length_PartiesFromPeers. lia.
  - intros Hnil. rw Hnil /= in Hn. by destruct (filter _ peerstore); [apply not_elem_of_nil in Hin|].
Qed.

(** ** Agreement on the old holders *)
Lemma validateStartParams_None (peerstore : list PeerID) (r : Resharing)
    (params : startParams) :
  (validateStartParams peerstore r params).2 = None ↔
  (0 < OldThreshold params ≤ Z.of_nat (length (OldSubset params)))%Z ∧
  (Peers (rs_key r) ≠ [] →
   OldSubset params ≡ₚ PeersIntersection (Peers (rs_key r)) peerstore).
Proof.
  rw /validateStartParams. destruct (Z.leb_spec (OldThreshold params) 0); [split; [done|lia]|].
  destruct (Z.ltb_spec (Z.of_nat (length (OldSubset params))) (OldThreshold params)); [split; [done|lia]|].
  assert (slices.Sort (OldSubset params) = PeersIntersection (slices.Sort (Peers (rs_key r))) peerstore ↔
          OldSubset params ≡ₚ PeersIntersection (Peers (rs_key r)) peerstore) as Heq.
  { rewrite (slices.Sort_unique (PeersIntersection (Peers (rs_key r)) peerstore)
      (PeersIntersection (slices.Sort (Peers (rs_key r))) peerstore)).
    - apply slices.Sort_eq_perm.
    - apply slices.StronglySorted_filter, slices.sorted_Sort.
    - rw /PeersIntersection. by rw slices.perm_Sort. }
  simpl. rewrite (Permutation_length (slices.perm_Sort (Peers (rs_key r)))).
  destruct (Peers (rs_key r)) as [|k ks]; [split; [intros _; split; [lia|done]|done]|].
  simpl. case_bool_decide as Hd; simpl; rw Heq in Hd; split; [|done|done|].
  - intros _. split; [lia|done].
  - intros [_ Hp]. by destruct Hd; apply Hp.
Qed.

(** A relayer accepts start parameters exactly when they decode, carry a
    positive threshold, at least that many old holders and, if it holds a
    keyshare itself, exactly the holders it knows from its keyshare and
    peerstore, in any order. *)
Theorem unmarshallStartParams_accepts (peerstore : list PeerID) (r : Resharing) (b : bytes) :
  (unmarshallStartParams peerstore r b).2 = None ↔
  ∃ params, Unmarshal b = Ok params ∧
    (0 < OldThreshold params ≤ Z.of_nat (length (OldSubset params)))%Z ∧
    (Peers (rs_key r) ≠ [] →
     OldSubset params ≡ₚ PeersIntersection (Peers (rs_key r)) peerstore).
Proof.
  rw /unmarshallStartParams. destruct (Unmarshal b) as [params|e].
  - rw validateStartParams_None. split; [by exists params|]. by intros (? & [= <-] & ?).
  - split; [done|]. by intros (? & ? & _).
Qed.

(** The start parameters that a holder sends as the coordinator are accepted
    by the others that know the same peers and have a keyshare with the same
    peers or none; they then run with those old holders and that threshold. *)
Lemma StartParams_accepted (peerstore peerstore' : list PeerID) (r r' : Resharing)
    (readyPeers : list PeerID) :
  Forall peer_valid (Peers (rs_key r)) → (Threshold (rs_key r) < 2 ^ 63)%Z →
  Peers (rs_key r') = [] ∨ Peers (rs_key r) ≡ₚ Peers (rs_key r') → peerstore ≡ₚ peerstore' →
  let old := PeersIntersection (Peers (rs_key r)) peerstore in
  (0 < Threshold (rs_key r) ≤ Z.of_nat (length old))%Z →
  ∃ params r'', unmarshallStartParams peerstore' r' (StartParams peerstore r readyPeers) =
    (params, r'', None) ∧ OldThreshold params = Threshold (rs_key r) ∧
    OldSubset params = slices.Sort old.
Proof.
  intros Hv Hmax Hkey Hstore old Hth.
  set (params := {| OldThreshold := Threshold (rs_key r); OldSubset := old |}).
  assert (json_wf params) as Hwf.
  { wf_fields; [simpl; lia|]. apply Forall_forall. intros q [_ Hq]%list_elem_of_filter.
    by eapply Forall_forall in Hv. }
  rw /StartParams /unmarshallStartParams /= (json_Unmarshal_Marshal params) //.
  pose proof (proj2 (validateStartParams_None peerstore' r' params)) as Hacc.
  destruct (validateStartParams peerstore' r' params) as [[params' r''] err] eqn:E. simpl in Hacc.
  assert (err = None) as ->.
  { apply Hacc. split; [done|]. destruct Hkey as [->|Hkey]; [done|]. intros _.
    rw /= /old /PeersIntersection Hkey.
    rewrite (filter_ext_in _ (λ p, p ∈ peerstore')); [done|]. intros p _. by rw Hstore. }
  do 2 eexists. split; [done|]. rw /validateStartParams in E.
  repeat case_match; by simplify_eq/=.
Qed.

(** ** What Run does *)
Lemma deref_all_Some l : deref_all (Some <$> l) = Done l.
Proof. induction l as [|p l IH]; [done|]. by rw /= IH. Qed.

Lemma deref_all_Done l ps : deref_all l = Done ps → l = Some <$> ps.
Proof.
  revert ps. induction l as [|[p|] l IH]; intros ps; simpl; [by intros [= <-]| |done].
  destruct (deref_all l) as [qs|]; [|done]. intros [= <-]. by rw (IH qs).
Qed.

(** Reading the start parameters sorts the peers of the keyshare. *)
Lemma unmarshallStartParams_key peerstore (r : Resharing) b params r' err :
  unmarshallStartParams peerstore r b = (params, r', err) →
  rs_base r' = rs_base r ∧ rs_newThreshold r' = rs_newThreshold r ∧
  Threshold (rs_key r') = Threshold (rs_key r) ∧ Peers (rs_key r') ≡ₚ Peers (rs_key r) ∧
  (err = None → ∃ sent, Unmarshal b = Ok sent ∧ OldThreshold params = OldThreshold sent ∧
     OldSubset params = slices.Sort (OldSubset sent)).
Proof.
  rw /unmarshallStartParams /validateStartParams. destruct (Unmarshal b) as [sent|e]; [|by intros [= _ <- <-]].
  repeat case_match; intros [= <- <- <-]; simpl; split_and!; try done; try by rw slices.perm_Sort.
  intros _. by exists sent.
Qed.

(** A call that sets up a resharing has accepted its parameters, and sets up
    one. *)
Lemma Run_spec peerstore ans subID (r : Resharing) c b acts r' res :
  Run peerstore ans subID r c b = Done (acts, r', res) →
  Started (rs_base r') = true ∧ SID (rs_base r') = SID (rs_base r) ∧
  Threshold (rs_key r') = Threshold (rs_key r) ∧ Peers (rs_key r') ≡ₚ Peers (rs_key r) ∧
  (Started (rs_base r) = true → acts = []) ∧
  ∀ old new me oldCount oldThreshold newCount newThreshold,
    RsNewReSharingParameters old new me oldCount oldThreshold newCount newThreshold ∈ acts →
    ∃ params, Unmarshal b = Ok params ∧
      (Peers (rs_key r) ≠ [] → OldSubset params ≡ₚ PeersIntersection (Peers (rs_key r)) peerstore) ∧
      old = PartiesFromPeers (slices.Sort (OldSubset params)) ∧
      sortParties (PartiesFromPeers peerstore) old = Done (Some <$> new) ∧
      me = PopulatePartyStore (PartyStore (rs_base r)) new !! peer_String self ∧
      oldCount = Z.of_nat (length old) ∧ oldThreshold = OldThreshold params ∧
      newCount = Z.of_nat (length new) ∧ newThreshold = rs_newThreshold r.
Proof.
  rw /Run. destruct (Started (rs_base r)) eqn:Hst.
  { intros [= <- <- _]. split_and!; try done. by intros ??????? ?%not_elem_of_nil. }
  set (r0 := {| rs_base := set_Started (rs_base r) |}).
  destruct (unmarshallStartParams peerstore r0 b) as [[start r1] err] eqn:Hu.
  pose proof (unmarshallStartParams_accepts peerstore r0 b) as Hacc. rw Hu in Hacc. cbn [snd] in Hacc.
  destruct (unmarshallStartParams_key _ _ _ _ _ _ Hu) as (Hb & Hn & Ht & Hp & Hs).
  destruct err as [e|].
  { intros [= <- <- _]. rw Hb Hp Ht. split_and!; try done. by intros ??????? ?%not_elem_of_nil. }
  destruct (Hs eq_refl) as (params & Hpar & Hthr & Hsub).
  destruct (sortParties _ _) as [sorted|] eqn:Hsort; [|done]. simpl.
  destruct (deref_all sorted) as [new|] eqn:Hd; [|done]. apply deref_all_Done in Hd as ->. simpl.
  intros Hrun. assert (rs_base r' = set_peers (rs_base r1) (base_Peers (rs_base r1))
      (PopulatePartyStore (PartyStore (rs_base r1)) new) ∧ rs_key r' = rs_key r1) as [-> ->].
  { by destruct (ans_NewParameters ans), (ans_NewLocalParty ans); simplify_eq. }
  rw /= Hb Hp Ht. split_and!; try done.
  intros old new' me oc ot nc nt Hin. exists params.
  assert (old = PartiesFromPeers (OldSubset start) ∧ new' = new ∧
    me = PopulatePartyStore (PartyStore (rs_base r1)) new !! peer_String self ∧
    oc = Z.of_nat (length old) ∧ ot = OldThreshold start ∧ nc = Z.of_nat (length new) ∧
    nt = rs_newThreshold r1) as (-> & -> & -> & -> & -> & -> & ->).
  { destruct (ans_NewParameters ans), (ans_NewLocalParty ans); simplify_eq; elem_cases Hin;
      by injection Hin as -> -> -> -> -> -> ->. }
  rw -Hsub Hthr Hn Hb. split_and!; try done.
  intros Hne. destruct (proj1 Hacc eq_refl) as (params' & Hpar' & _ & Hold). rw Hpar in Hpar'.
  injection Hpar' as <-. by apply Hold.
Qed.

(** Accepted parameters that name only known peers set up a resharing. *)
Lemma Run_sets_up peerstore subID (r : Resharing) c b params r1 :
  let r0 := {| rs_base := set_Started (rs_base r); rs_key := rs_key r;
               rs_subscriptionID := rs_subscriptionID r; rs_newThreshold := rs_newThreshold r |} in
  Started (rs_base r) = false → unmarshallStartParams peerstore r0 b = (params, r1, None) →
  Forall peer_valid peerstore → NoDup peerstore → NoDup (OldSubset params) → OldSubset params ⊆ peerstore →
  ∃ acts r', Run peerstore {| ans_NewParameters := None; ans_NewLocalParty := None; ans_Start := None |}
      subID r c b = Done (acts, r', None) ∧
    ∃ old new me oldCount oldThreshold newCount newThreshold,
      RsNewReSharingParameters old new me oldCount oldThreshold newCount newThreshold ∈ acts.
Proof.
  intros r0 Hst Hu Hv Hnd Hndo Hsub. rw /Run Hst -/r0 Hu.
  destruct (sortParties_newcomers peerstore (OldSubset params) Hv Hndo Hsub Hnd) as (ps & _ & _ & Hsort).
  rw Hsort /= deref_all_Some /=. do 2 eexists. split; [done|]. do 7 eexists. by left.
Qed.

(** ** The keyshare lock over an execution *)

(** What the runs and stops of a trace do, in that order. *)
Fixpoint process_effects (peerstore : list PeerID) (ans : party_answers) (subID : string)
    (r : Resharing) (acts : list action) : outcome (list resharing_action) :=
  match acts with
  | [] => Done []
  | ActRun coordinator params :: acts' =>
      '(effects, r', _) ← Run peerstore ans subID r coordinator params;
      rest ← process_effects peerstore ans subID r' acts'; Done (effects ++ rest)
  | ActStop 0 :: acts' =>
      rest ← process_effects peerstore ans subID r acts'; Done (Stop r ++ rest)
  | _ :: acts' => process_effects peerstore ans subID r acts'
  end.

Definition lock_ops (effects : list resharing_action) : list Mutex.op :=
  omap (λ a, match a with RsUnlockKeyshare => Some Mutex.OpUnlock | _ => None end) effects.

Lemma resharing_Run_lock_ops peerstore ans subID r c params effects r' res :
  Run peerstore ans subID r c params = Done (effects, r', res) → lock_ops effects = [].
Proof.
  rw /Run. destruct (Started (rs_base r)); [by intros [= <- _ _]|].
  destruct (unmarshallStartParams _ _ _) as [[start r1] [e|]]; [by intros [= <- _ _]|].
  destruct (sortParties _ _) as [sorted|]; [|done]. simpl.
  destruct (deref_all sorted) as [newParties|]; [|done]. simpl.
  by destruct (ans_NewParameters ans), (ans_NewLocalParty ans); intros [= <- _ _].
Qed.

Lemma process_effects_stops peerstore ans subID r acts effects :
  process_effects peerstore ans subID r acts = Done effects →
  lock_ops effects = replicate (stops acts) Mutex.OpUnlock.
Proof.
  revert r effects. induction acts as [|a acts IH]; intros r effects; [by intros [= <-]|].
  destruct a as [| | |c params|i| | |]; try apply IH; simpl.
  - destruct (Run _ _ _ r c params) as [[[eff r'] res]|] eqn:E; [|done]. simpl.
    destruct (process_effects _ _ _ r' acts) as [rest|] eqn:Er; [|done]. intros [= <-].
    apply resharing_Run_lock_ops in E. rw /lock_ops omap_app -/(lock_ops eff) E /=. by eapply IH.
  - destruct i as [|i]; [|apply IH].
    destruct (process_effects _ _ _ r acts) as [rest|] eqn:Er; [|done]. intros [= <-].
    trans (Mutex.OpUnlock :: lock_ops rest); [done|]. rw (IH _ _ Er).
    replace (stops (ActStop 0 :: acts)) with (S (stops acts)); [done|].
    rw {2}/stops filter_cons. by case_decide.
Qed.

(** A resharing takes the keyshare lock when it is constructed.  An
    execution that ends in any way but by the timeout releases it exactly
    once, so that signing can go on; one that times out unlocks it twice,
    which is a fatal error of the relayer. *)
Theorem resharing_lock (sessionID : string) (threshold : Z) (peerstore : list PeerID)
    (fs : fs_answers) (ks ks' : ECDSAKeyshareStore) (r : Resharing) (coordinator : PeerID)
    (evs : list exec_event) (ex : execution) (ans : party_answers) (subID : string)
    (effects : list resharing_action) :
  NewResharing sessionID threshold peerstore fs ks = Some (r, ks') →
  exec_events peerstore
    (begin_execution self peerstore (resharing_process peerstore r) [] coordinator) evs = Some ex →
  process_effects peerstore ans subID r (ex_trace ex ++ deferred_stops ex) = Done effects →
  mu ks' = true ∧
  Mutex.exec (mu ks') (lock_ops effects) =
    Some (if existsb is_timeout evs then Panic "fatal error: sync: unlock of unlocked mutex"
          else Done false).
Proof.
  intros Hnew Hev%execute_stops Heff%process_effects_stops.
  assert (mu ks' = true) as Hmu.
  { rw /NewResharing /LockKeyshare in Hnew. destruct (mu ks); [done|]. by simplify_eq/=. }
  split; [done|]. rw Hmu Heff Hev. by destruct (existsb is_timeout evs).
Qed.
End resharing.

Section witnesses.
Import Toy.
Import ToyJson.

Definition demo_fs : fs_answers := {| open_error := None; write_error := None; read_error := None |}.
Definition demo_answers : party_answers :=
  {| ans_NewParameters := None; ans_NewLocalParty := None; ans_Start := None |}.

(** A relayer with a keyshare, and one without. *)
Definition demo_holder : Resharing := {|
  rs_base := NewBaseTss "resharing-1" ["a"; "b"; "c"];
  rs_key := {| Key := tt; Threshold := 1; Peers := ["b"; "a"] |};
  rs_subscriptionID := ""; rs_newThreshold := 2 |}.
Definition demo_newcomer : Resharing := {|
  rs_base := NewBaseTss "resharing-1" ["a"; "b"; "c"];
  rs_key := {| Key := tt; Threshold := 0; Peers := [] |};
  rs_subscriptionID := ""; rs_newThreshold := 2 |}.

Lemma demo_NoDup : NoDup ["a"; "b"; "c"].
Proof. apply (bool_decide_unpack _). by vm_compute. Qed.

Lemma sortParties_order_witness :
  ∃ fresh, sortParties (PartiesFromPeers ["a"; "b"; "c"]) (PartiesFromPeers ["a"; "b"]) =
    Done (Some <$> PartiesFromPeers ["a"; "b"] ++ fresh).
Proof.
  destruct (sortParties_order ["a"; "b"; "c"] ["a"; "b"]) as (fresh & Hf & _ & _).
  - repeat constructor; done.
  - apply (bool_decide_unpack _). by vm_compute.
  - intros x Hx. elem_cases Hx; [by left|by right; left].
  - apply demo_NoDup.
  - by exists fresh.
Defined.

Lemma unknown_old_peer_panics_witness :
  Run "c" ["a"; "b"; "c"] demo_answers "sub" demo_newcomer false
    (json_Marshal {| OldThreshold := 1; OldSubset := ["a"; "z"] |}) = Panic "index out of range".
Proof.
  apply (unknown_old_peer_panics "c" ["a"; "b"; "c"] demo_answers "sub" demo_newcomer false _
    {| OldThreshold := 1; OldSubset := ["a"; "z"] |} "z").
  - done.
  - done.
  - by vm_compute.
  - by simpl.
  - repeat constructor; done.
  - repeat constructor; done.
  - do 2 right. by left.
  - intros Hin. simpl in Hin. by elem_cases Hin.
  - right. by left.
  - intros Hin. by elem_cases Hin.
  - apply demo_NoDup.
Defined.

Definition demo_store : ECDSAKeyshareStore := {| mu := false; file := None |}.

Lemma resharing_lock_witness :
  Mutex.exec true [Mutex.OpUnlock] = Some (Done false).
Proof.
  refine (proj2 (resharing_lock tt "a" "resharing-1" 2 ["a"; "b"; "c"] demo_fs demo_store
    {| mu := true; file := None |} demo_newcomer "b" [EvCancel; EvWatch WatchDone; EvWait WaitDone] _
    demo_answers "sub" [RsUnSubscribe ""; RsUnlockKeyshare; RsCancel] _ _ _)).
  - reflexivity.
  - vm_compute. reflexivity.
  - vm_compute. reflexivity.
Defined.
End witnesses.
