(* ===== verification/KeySessions.v ===== *)
(** * Sessions that change the key, on the network
      (src/tss/ecdsa/keygen, src/tss/ecdsa/resharing)

    [Keygen] and [Resharing] say what one relayer does; here the relayers of
    one session run them on the network of [Network].  Every relayer keeps
    its peerstore through the session: the topology that sets it is applied
    before a resharing starts. *)
From S2P Require Import Prelude GoStd Encoding Json Libs JsonCodec Comm TssCommon Keyshare TssCoordinator Network.
From S2P Require Import Keygen.
From S2P Require Import Resharing.

(** The number that tss-lib sorts a party by. *)
Definition peer_key `{PeerLib} (p : PeerID) : Z := big.SetBytes (bytes_of (peer_String p)).

(** The parties of a set of peers do not depend on the order in which the
    peerstore lists them. *)
Lemma PartiesFromPeers_perm `{PeerLib, TssLib} (peers peers' : list PeerID) :
  peers ≡ₚ peers' → NoDup (peer_key <$> peers) → PartiesFromPeers peers = PartiesFromPeers peers'.
Proof.
  intros Hp Hnd. rw /PartiesFromPeers. apply SortPartyIDs_perm; [by rw Hp|].
  rw -list_fmap_compose. erewrite list_fmap_ext; [exact Hnd|].
  intros i p _. rw /= /CreatePartyID NewPartyID_Key //. by apply big.SetBytes_bounds.
Qed.

(** Everyone is ready. *)
Lemma everyone_ready (peers ready : list PeerID) :
  length ready = length peers → NoDup ready → ready ⊆ peers → ready ≡ₚ peers.
Proof.
  intros Hlen Hnd Hr. apply submseteq_length_Permutation; [|lia]. by apply NoDup_submseteq.
Qed.

Lemma ready_missing (peers ready W : list PeerID) (leader : PeerID) :
  NoDup peers → leader :: W ≡ₚ peers → NoDup ready → leader ∈ ready → ready ⊆ peers →
  ready ++ filter (λ w, w ∉ ready) W ≡ₚ peers.
Proof.
  intros Hnd Hp Hndr Hl Hr. rw -Hp in Hnd. apply NoDup_cons in Hnd as [HlW HndW].
  apply NoDup_Permutation.
  - apply NoDup_app. split_and!; [done| |by apply NoDup_filter].
    by intros q Hq [? _]%list_elem_of_filter.
  - rw -Hp. by apply NoDup_cons.
  - intros q. rw -Hp elem_of_app list_elem_of_filter. split.
    + intros [Hq|[_ Hq]]; [rw Hp; by apply Hr|by right].
    + intros [->|Hq]%elem_of_cons; [by left|]. destruct (decide (q ∈ ready)); auto.
Qed.

(** ** Key generation *)
Section keygen.
Context `{PeerLib, Keccak, TssLib}.

(** A peerstore and the process that was made with it.  [Run] is called once
    it has the keyshare lock. *)
#[export, refine] Instance keygen_Process : Process (list PeerID * Keygen) keygen_action unit := {|
  pr_coordinated s := keygen_process s.1 s.2;
  pr_run r ans subID s coordinator params :=
    let '(acts, k, res) := Keygen.Run r s.1 ans subID s.2 coordinator params in Done (acts, (s.1, k), res);
  pr_fresh s := negb (Started (kg_base s.2));
  pr_read _ := tt;
  pr_ok _ := True;
|}.
Proof.
  - intros r ans sub [p k] c params acts [p' k'] res. rw /Keygen.Run /=.
    destruct (Started (kg_base k)) eqn:E; simpl; [intros [= <- _ <- _]; by rw E|].
    by destruct (ans_NewParameters ans), (ans_NewLocalParty ans); intros [= <- _ <- _].
  - intros r ans sub [p k] c params acts [p' k'] res. rw /Keygen.Run /=.
    destruct (Started (kg_base k)) eqn:E; simpl; [by intros [= _ <- <- _]|].
    by destruct (ans_NewParameters ans), (ans_NewLocalParty ans); intros [= _ <- <- _].
  - intros s ready. by eexists.
  - done.
Defined.

(** The party of a relayer is made of its own peerstore. *)
Lemma keygen_party r ans sub s c params acts s' res parties me n t num :
  pr_run r ans sub s c params = Done (acts, s', res) → KgNewLocalParty parties me n t num ∈ acts →
  parties = PartiesFromPeers s.1 ∧
  me = PopulatePartyStore (PartyStore (kg_base s.2)) (PartiesFromPeers s.1) !! peer_String r ∧
  n = Z.of_nat (length s.1) ∧ t = kg_threshold s.2 ∧ num = big.SetBytes (bytes_of (SID (kg_base s.2))).
Proof.
  rw /= /Keygen.Run -length_PartiesFromPeers. destruct s as [p k]. simpl.
  destruct (Started (kg_base k)); [by intros [= <- _ _] ?%not_elem_of_nil|].
  destruct (ans_NewParameters ans), (ans_NewLocalParty ans); intros [= <- _ _] Hin; by elem_cases Hin; simplify_eq.
Qed.

Context (relayers : gmap PeerID (list PeerID * Keygen * PeerID)) (peerstore : PeerID → list PeerID).
Abbreviation network := (@network (list PeerID * Keygen) keygen_action).
Abbreviation member := (@member (list PeerID * Keygen) keygen_action).
Abbreviation network_reachable := (network_reachable relayers peerstore).
Abbreviation network_step := (network_step relayers peerstore).
Abbreviation arrives := (arrives relayers peerstore).
Context (leader : PeerID) (sid : string).
Abbreviation one_session := (one_session relayers peerstore leader sid).

(** The relayers of a key generation make the same party.  In every
    state the session can reach: two relayers that have made a party and
    know the same peers made it of the same parties, one for each of these
    peers, under the same session number, each with the threshold it was
    made with and its own place among the parties; and by then every peer of
    the leader's peerstore has told the leader that it is ready, as long as
    it counts only peers of its peerstore: no key is generated that some
    relayer has no share of. *)
Lemma keygen_agreement (net : network) (r1 r2 : PeerID) (m1 m2 : member)
    (parties1 parties2 : list PartyID) (me1 me2 : option PartyID) (n1 n2 t1 t2 num1 num2 : Z)
    (p p1 p2 : list PeerID) (k k1 k2 : Keygen) (c c1 c2 : PeerID) :
  one_session → network_reachable net →
  relayers !! leader = Some (p, k, c) →
  (∀ q, counted leader net q → q ∈ p) →
  relayers !! r1 = Some (p1, k1, c1) → relayers !! r2 = Some (p2, k2, c2) →
  p1 ≡ₚ p2 → NoDup (peer_key <$> p1) → r1 ∈ p1 →
  members net !! r1 = Some m1 → members net !! r2 = Some m2 →
  KgNewLocalParty parties1 me1 n1 t1 num1 ∈ mb_actions m1 →
  KgNewLocalParty parties2 me2 n2 t2 num2 ∈ mb_actions m2 →
  parties1 = parties2 ∧ n1 = n2 ∧ num1 = num2 ∧ t1 = kg_threshold k1 ∧
  party_Id <$> parties1 ≡ₚ peer_String <$> p1 ∧
  (∃ me, me1 = Some me ∧ me ∈ parties1 ∧ party_Id me = peer_String r1) ∧
  ∀ q, q ∈ p → q = leader ∨ ∃ b, arrives net q leader TssReadyMsg sid b.
Proof.
  intros Hone Hr Hl Hallow Hr1 Hr2 Hperm Hnd Hself Hm1 Hm2 Hp1 Hp2.
  pose proof (network_reachable_inv relayers peerstore leader sid net Hone Hr) as Hinv.
  destruct (acted relayers peerstore leader sid net r1 m1 Hinv Hm1) as
    (s1 & c1' & ans1 & sub1 & b1 & ps1 & s1' & res1 & Hs1 & Hch & Hrun1).
  { intros Ha. rw Ha in Hp1. by apply not_elem_of_nil in Hp1. }
  destruct (acted relayers peerstore leader sid net r2 m2 Hinv Hm2) as
    (s2 & c2' & ans2 & sub2 & b2 & ps2 & s2' & res2 & Hs2 & _ & Hrun2).
  { intros Ha. rw Ha in Hp2. by apply not_elem_of_nil in Hp2. }
  rw Hr1 in Hs1. injection Hs1 as <- <-. rw Hr2 in Hs2. injection Hs2 as <- <-.
  destruct (keygen_party _ _ _ _ _ _ _ _ _ _ _ _ _ _ Hrun1 Hp1) as (-> & -> & -> & -> & ->).
  destruct (keygen_party _ _ _ _ _ _ _ _ _ _ _ _ _ _ Hrun2 Hp2) as (-> & _ & -> & _ & ->).
  destruct Hone as (_ & _ & Hall). destruct (Hall _ _ _ Hr1) as (_ & Hsid1 & _).
  destruct (Hall _ _ _ Hr2) as (_ & Hsid2 & _). simpl in Hsid1, Hsid2 |- *. rw Hsid1 Hsid2.
  split_and!; try done.
  - by apply PartiesFromPeers_perm.
  - by rw Hperm.
  - apply PartiesFromPeers_Ids.
  - by apply PopulatePartyStore_peers.
  - destruct (chosen_ready relayers peerstore leader sid net tt Hinv) as (s & c' & ready & Hs & Hready & _ & Hndr & Hcnt & Hq).
    { by destruct (pr_read ps1). }
    rw Hl in Hs. injection Hs as <- <-. simpl in Hready. injection Hready as Hlen%bool_decide_eq_true.
    assert (ready ≡ₚ p) as Hready.
    { apply everyone_ready; [done..|]. intros q Hin. by apply Hallow, Hcnt. }
    intros q. rw -Hready. apply Hq.
Qed.

(** A relayer that has made its party and waits for the key. *)
Definition generating (net : network) (r : PeerID) : Prop :=
  ∃ m parties me n t num, members net !! r = Some m ∧ mb_running m = true ∧
    KgNewLocalParty parties me n t num ∈ mb_actions m.

(** A key generation can always start.  In every state the session can
    reach: if the leader is in its loop and has not started, and every other
    peer of its peerstore waits in its own, not all of them counted yet, then
    there is a run of the network after which all of them have made their
    party and wait for the key. *)
Lemma keygen_can_start (net : network) (k : Keygen) (st : initiate_state) (W : list PeerID) :
  one_session → network_reachable net → leads leader net (peerstore leader, k) st → ticking st = true →
  NoDup (peerstore leader) → leader :: W ≡ₚ peerstore leader →
  (∀ w, w ∈ W → waits leader net w) →
  readyPeers st ⊆ peerstore leader → (∃ w, w ∈ W ∧ w ∉ readyPeers st) →
  ∃ net', rtc network_step net net' ∧ ∀ r, r ∈ peerstore leader → generating net' r.
Proof.
  intros Hone Hreach Hlead Htick Hnd HW Hwait Hsub (w0 & Hw0 & Hw0r).
  pose proof (network_reachable_inv relayers peerstore leader sid net Hone Hreach) as Hinv.
  destruct (leads_ready relayers peerstore leader sid net (peerstore leader, k) st Hinv Hlead) as [Hlr Hndr].
  pose proof (ready_missing _ _ _ _ Hnd HW Hndr Hlr Hsub) as Hperm.
  assert (NoDup W) as HndW by (rw -HW in Hnd; by apply NoDup_cons in Hnd as [_ ?]).
  destruct (all_can_run relayers peerstore leader sid Hone
    (λ _ acts, ∃ parties me n t num, KgNewLocalParty parties me n t num ∈ acts)
    net (peerstore leader, k) st W) as (net' & Hr' & Hruns); try done.
  - intros Hm. apply (not_elem_of_nil w0). rw -Hm. by apply list_elem_of_filter.
  - intros w Hw. split; [by apply Hwait|]. rw -HW. by right.
  - simpl. rw /Keygen.Ready (Permutation_length Hperm). by rw (bool_decide_true (_ = _)).
  - intros r _ [p k0] c b _ Hst%negb_true_iff.
    exists {| ans_NewParameters := None; ans_NewLocalParty := None; ans_Start := None |}.
    rw /= /Keygen.Run /= Hst /=. do 2 eexists. split; [done|]. do 5 eexists. right. right. by left.
  - exists net'. split; [done|]. intros r. rw -HW. intros Hr.
    destruct (Hruns r Hr) as (m & Hm & Hrun & ps & me & n & t & num & Hin). by exists m, ps, me, n, t, num.
Qed.
End keygen.

(** ** Resharing *)
Section resharing.
Context {SaveData : Type}.
Context `{PeerLib, Keccak, TssLib}.
Abbreviation Resharing := (@Resharing SaveData).

(** What a relayer reads of start parameters, once it has sorted them. *)
Definition read_startParams (b : bytes) : option (Z * list PeerID) :=
  match Unmarshal b with
  | Ok params => Some (OldThreshold params, slices.Sort (OldSubset params))
  | Err _ => None
  end.

Definition key_wf (key : ECDSAKeyshare SaveData) : Prop :=
  Forall peer_valid (Peers key) ∧ (- 2 ^ 63 ≤ Threshold key < 2 ^ 63)%Z.

Lemma read_StartParams p (k : Resharing) ready :
  key_wf (rs_key k) →
  read_startParams (StartParams p k ready) =
    Some (Threshold (rs_key k), slices.Sort (PeersIntersection (Peers (rs_key k)) p)).
Proof.
  intros [Hv Ht]. set (params := {| OldThreshold := Threshold (rs_key k);
    OldSubset := PeersIntersection (Peers (rs_key k)) p |}).
  assert (json_wf params) as Hwf.
  { wf_fields. apply Forall_forall. intros q [_ Hq]%list_elem_of_filter.
    by eapply Forall_forall in Hv. }
  by rw /read_startParams /StartParams /= (json_Unmarshal_Marshal params).
Qed.

#[export, refine] Instance resharing_Process :
    Process (list PeerID * Resharing) resharing_action (option (Z * list PeerID)) := {|
  pr_coordinated s := resharing_process s.1 s.2;
  pr_run r ans subID s coordinator params :=
    '(acts, k, res) ← Resharing.Run r s.1 ans subID s.2 coordinator params; Done (acts, (s.1, k), res);
  pr_fresh s := negb (Started (rs_base s.2));
  pr_read := read_startParams;
  pr_ok s := key_wf (rs_key s.2);
|}.
Proof.
  - intros r ans sub [p k] c params acts [p' k'] res Hrun. simpl in Hrun.
    destruct (Resharing.Run r p ans sub k c params) as [[[acts' k''] res']|] eqn:E; [|done].
    simpl in Hrun. injection Hrun as -> <- -> ->. simpl.
    destruct (Run_spec _ _ _ _ _ _ _ _ _ _ E) as (-> & _ & _ & _ & Ha & _).
    split; [done|]. by intros ?%negb_false_iff%Ha.
  - intros r ans sub [p k] c params acts [p' k'] res Hrun. simpl in Hrun.
    destruct (Resharing.Run r p ans sub k c params) as [[[acts' k''] res']|] eqn:E; [|done].
    simpl in Hrun. injection Hrun as -> <- -> ->. simpl.
    destruct (Run_spec _ _ _ _ _ _ _ _ _ _ E) as (_ & Hsid & Ht & Hp & _ & _).
    split_and!; [done|done|]. intros Hwf. assert (key_wf (rs_key k')) as Hwf'.
    { destruct Hwf as [Hv Hr]. split; [by rw Hp|by rw Ht]. }
    split; [done|]. intros ready. rw !read_StartParams // Ht. do 2 f_equal.
    apply slices.Sort_eq_perm. by rw /PeersIntersection Hp.
  - intros s ready. by eexists.
  - done.
Defined.

Context (relayers : gmap PeerID (list PeerID * Resharing * PeerID)) (peerstore : PeerID → list PeerID).
Abbreviation network := (@network (list PeerID * Resharing) resharing_action).
Abbreviation member := (@member (list PeerID * Resharing) resharing_action).
Abbreviation network_reachable := (network_reachable relayers peerstore).
Abbreviation network_step := (network_step relayers peerstore).
Abbreviation arrives := (arrives relayers peerstore).
Context (leader : PeerID) (sid : string).
Abbreviation one_session := (one_session relayers peerstore leader sid).
Abbreviation network_inv := (network_inv relayers peerstore leader sid).
Abbreviation chosen := (chosen leader).

(** A relayer that has set up a resharing. *)
Lemma resharing_party (net : network) r (m : member) p k c old new me oldCount oldThreshold newCount newThreshold :
  network_inv net → relayers !! r = Some (p, k, c) → members net !! r = Some m →
  RsNewReSharingParameters old new me oldCount oldThreshold newCount newThreshold ∈ mb_actions m →
  ∃ subset, chosen net (Some (oldThreshold, subset)) ∧
    (Peers (rs_key k) ≠ [] → subset ≡ₚ PeersIntersection (Peers (rs_key k)) p) ∧
    old = PartiesFromPeers subset ∧
    sortParties (PartiesFromPeers p) old = Done (Some <$> new) ∧
    me = PopulatePartyStore (PartyStore (rs_base k)) new !! peer_String r ∧
    oldCount = Z.of_nat (length old) ∧ newCount = Z.of_nat (length new) ∧ newThreshold = rs_newThreshold k.
Proof.
  intros Hinv Hr Hm Hin. destruct (acted relayers peerstore leader sid net r m Hinv Hm) as
    (s & c' & ans & sub & b & params & s' & res & Hs & Hch & Hrun).
  { intros Ha. rw Ha in Hin. by apply not_elem_of_nil in Hin. }
  rw Hr in Hs. injection Hs as <- <-. simpl in Hrun.
  destruct (Resharing.Run r p ans sub k b params) as [[[acts' k''] res']|] eqn:E; [|done].
  simpl in Hrun. injection Hrun as Ha _ _. rw -Ha in Hin.
  destruct (Run_spec _ _ _ _ _ _ _ _ _ _ E) as (_ & _ & _ & _ & _ & Hspec).
  destruct (Hspec _ _ _ _ _ _ _ Hin) as (sent & Hu & Hold & -> & Hsort & -> & -> & -> & -> & ->).
  exists (slices.Sort (OldSubset sent)). rw /= /read_startParams Hu in Hch.
  split_and!; try done. intros Hne. rw slices.perm_Sort. by apply Hold.
Qed.

(** The relayers of a resharing session give tss-lib the same old
    committee.  Whatever the network does and whatever is sent by others, in
    every state the session can reach: two relayers that have set up the
    resharing did it with the same old parties and old threshold, those of
    the keyshare of the leader that are in its peerstore; a relayer that holds
    a keyshare has the same old peers by its own; each goes to the threshold
    it was made with; relayers that know the same peers have the same new
    parties; and every peer of the leader's peerstore has told it that it is
    ready, as long as it counts only peers of its peerstore. *)
Lemma resharing_agreement (net : network) (r1 r2 : PeerID) (m1 m2 : member)
    (old1 old2 new1 new2 : list PartyID) (me1 me2 : option PartyID)
    (oc1 oc2 ot1 ot2 nc1 nc2 nt1 nt2 : Z)
    (p p1 p2 : list PeerID) (k k1 k2 : Resharing) (c c1 c2 : PeerID) :
  one_session → network_reachable net →
  relayers !! leader = Some (p, k, c) →
  (∀ q, counted leader net q → q ∈ p) →
  relayers !! r1 = Some (p1, k1, c1) → relayers !! r2 = Some (p2, k2, c2) →
  members net !! r1 = Some m1 → members net !! r2 = Some m2 →
  RsNewReSharingParameters old1 new1 me1 oc1 ot1 nc1 nt1 ∈ mb_actions m1 →
  RsNewReSharingParameters old2 new2 me2 oc2 ot2 nc2 nt2 ∈ mb_actions m2 →
  let committee := PeersIntersection (Peers (rs_key k)) p in
  old1 = old2 ∧ oc1 = oc2 ∧ ot1 = ot2 ∧
  old1 = PartiesFromPeers (slices.Sort committee) ∧ ot1 = Threshold (rs_key k) ∧
  (Peers (rs_key k1) ≠ [] → PeersIntersection (Peers (rs_key k1)) p1 ≡ₚ committee) ∧
  nt1 = rs_newThreshold k1 ∧ nt2 = rs_newThreshold k2 ∧
  (p1 ≡ₚ p2 → NoDup (peer_key <$> p1) → new1 = new2 ∧ nc1 = nc2) ∧
  ∀ q, q ∈ p → q = leader ∨ ∃ b, arrives net q leader TssReadyMsg sid b.
Proof.
  intros Hone Hr Hl Hallow Hr1 Hr2 Hm1 Hm2 Hp1 Hp2 committee.
  pose proof (network_reachable_inv relayers peerstore leader sid net Hone Hr) as Hinv.
  destruct (resharing_party _ _ _ _ _ _ _ _ _ _ _ _ _ Hinv Hr1 Hm1 Hp1) as
    (sub1 & Hch1 & Hold1 & -> & Hs1 & _ & -> & -> & ->).
  destruct (resharing_party _ _ _ _ _ _ _ _ _ _ _ _ _ Hinv Hr2 Hm2 Hp2) as
    (sub2 & Hch2 & _ & -> & Hs2 & _ & -> & -> & ->).
  pose proof (chosen_unique _ _ _ _ Hch1 Hch2) as [= <- <-].
  destruct (chosen_ready relayers peerstore leader sid net _ Hinv Hch1) as (s & c' & ready & Hs & Hready & Hv & Hndr & Hcnt & Hq).
  pose proof (ni_ok _ _ _ _ _ Hinv _ _ _ Hl) as Hok.
  rw Hl in Hs. injection Hs as <- <-. rw /= read_StartParams // in Hv. injection Hv as -> ->.
  simpl in Hready. injection Hready as Hlen%bool_decide_eq_true.
  split_and!; try done.
  - intros Hne. rw -(Hold1 Hne) /committee. by rw slices.perm_Sort.
  - intros Hperm Hnd. rw -(PartiesFromPeers_perm _ _ Hperm Hnd) Hs1 in Hs2. injection Hs2 as Heq.
    apply (inj (fmap Some)) in Heq as ->. done.
  - assert (ready ≡ₚ p) as Hrp.
    { apply everyone_ready; [done..|]. intros q Hin. by apply Hallow, Hcnt. }
    intros q. rw -Hrp. apply Hq.
Qed.

(** A relayer that has set up the resharing and waits for the new key. *)
Definition resharing (net : network) (r : PeerID) : Prop :=
  ∃ m old new me oc ot nc nt, members net !! r = Some m ∧ mb_running m = true ∧
    RsNewReSharingParameters old new me oc ot nc nt ∈ mb_actions m.

(** A resharing can always start.  In every state the session can
    reach, whatever has been lost, delayed or sent by others: if the leader
    is in its loop and has not started, holds a keyshare with a threshold
    that its old committee meets, and every other peer of its peerstore waits
    in its own loop, not all of them counted yet, then there is a run of the
    network after which all of them have set up the resharing and wait for
    the new key: no relayer refuses the start parameters or panics on them,
    where the relayers know the same peers and hold keyshares with the same
    peers or none. *)
Lemma resharing_can_start (net : network) (k : Resharing) (st : initiate_state) (W : list PeerID) :
  let p := peerstore leader in
  one_session → network_reachable net → leads leader net (p, k) st → ticking st = true →
  NoDup p → Forall peer_valid p → leader :: W ≡ₚ p →
  (∀ w, w ∈ W → waits leader net w) →
  readyPeers st ⊆ p → (∃ w, w ∈ W ∧ w ∉ readyPeers st) →
  NoDup (Peers (rs_key k)) →
  (0 < Threshold (rs_key k) ≤ Z.of_nat (length (PeersIntersection (Peers (rs_key k)) p)))%Z →
  (∀ r p' k' c, relayers !! r = Some (p', k', c) →
     p' ≡ₚ p ∧ (Peers (rs_key k') = [] ∨ Peers (rs_key k) ≡ₚ Peers (rs_key k'))) →
  ∃ net', rtc network_step net net' ∧ ∀ r, r ∈ p → resharing net' r.
Proof.
  intros p Hone Hreach Hlead Htick Hnd Hval HW Hwait Hsub (w0 & Hw0 & Hw0r) Hndk Hth Hall.
  pose proof (network_reachable_inv relayers peerstore leader sid net Hone Hreach) as Hinv.
  destruct (leads_ready relayers peerstore leader sid net (p, k) st Hinv Hlead) as [Hlr Hndr].
  pose proof (ready_missing _ _ _ _ Hnd HW Hndr Hlr Hsub) as Hperm.
  assert (NoDup W) as HndW by (rw -HW in Hnd; by apply NoDup_cons in Hnd as [_ ?]).
  assert (key_wf (rs_key k)) as [Hvk Htk].
  { destruct Hlead as (m & Hm & _ & _ & Hp & _).
    pose proof (member_ok _ _ _ _ _ _ _ Hinv (ni_members _ _ _ _ _ Hinv _ _ Hm)) as Hok. by rw Hp in Hok. }
  set (ready := readyPeers st ++ filter (λ w, w ∉ readyPeers st) W) in *.
  destruct (all_can_run relayers peerstore leader sid Hone
    (λ _ acts, ∃ old new me oc ot nc nt, RsNewReSharingParameters old new me oc ot nc nt ∈ acts)
    net (p, k) st W) as (net' & Hr' & Hruns); try done.
  - intros Hm. apply (not_elem_of_nil w0). rw -Hm. by apply list_elem_of_filter.
  - intros w Hw. split; [by apply Hwait|]. rw -/p -HW. by right.
  - simpl. rw /Resharing.Ready (Permutation_length Hperm). by rw bool_decide_true.
  - intros r _ [p' k'] c b Hrel Hst%negb_true_iff. destruct (Hall _ _ _ _ Hrel) as [Hp' Hk'].
    set (k0 := {| rs_base := set_Started (rs_base k'); rs_key := rs_key k';
                  rs_subscriptionID := rs_subscriptionID k'; rs_newThreshold := rs_newThreshold k' |}).
    destruct (StartParams_accepted p p' k k0 ready) as (params & k1 & Hu & _ & Hsubset); try done; [lia|].
    destruct (Run_sets_up r p' "" k' b _ params k1 Hst Hu) as (acts & k2 & Hrun & Hgood).
    + by rw Hp'.
    + by rw Hp'.
    + rw Hsubset slices.perm_Sort. by apply NoDup_filter.
    + rw Hsubset. intros q. rw slices.perm_Sort Hp'. by intros [? _]%list_elem_of_filter.
    + do 3 eexists. split; [|exact Hgood].
      exact (f_equal (λ o, '(acts, k, res) ← o; Done (acts, (p', k), res)) Hrun).
  - exists net'. split; [done|]. intros r. rw -HW. intros Hr.
    destruct (Hruns r Hr) as (m & Hm & Hrun & old & new & me & oc & ot & nc & nt & Hin).
    by exists m, old, new, me, oc, ot, nc, nt.
Qed.
End resharing.
