(* ===== verification/Sessions.v ===== *)
(** * The sessions of the relayers, all at once (src/comm, src/tss)

    [Network] follows the relayers of one session.  Relayers have many: a
    process for each request, and those that make or change the key.  All
    their messages travel over the same connections, tagged with the session
    they belong to, and a process reads what is tagged with its own.  Here
    every session is one of the network, of whatever kind, and all sessions
    share the messages. *)
From S2P Require Import Prelude GoStd Encoding Json Libs JsonCodec Comm PeerSort TssCommon TssCoordinator Network.
From S2P Require Import Keyshare Signing Session Keygen.
From S2P Require Import KeySessions.

(** ** One session among the messages of others *)
Section shared_wire.
Context {State Action Meaning : Type} `{Process State Action Meaning}.
Context (relayers : gmap PeerID (State * PeerID)) (peerstore : PeerID → list PeerID) (sid : string).
Abbreviation network := (@network State Action).
Abbreviation member := (@member State Action).
Abbreviation network_step := (network_step relayers peerstore).

Definition of_session (p : packet) : Prop := pk_Session p = sid.
#[export] Instance of_session_dec p : Decision (of_session p).
Proof. rw /of_session. apply _. Defined.

(** The processes of the session have its ID. *)
Definition tagged : Prop :=
  ∀ r s c, relayers !! r = Some (s, c) → tp_SessionID (pr_coordinated s) = sid.
Definition in_session (ms : gmap PeerID member) : Prop :=
  ∀ r m, ms !! r = Some m →
    ex_sid (mb_execution m) = sid ∧ tp_SessionID (pr_coordinated (mb_process m)) = sid.

Lemma in_session_insert (ms : gmap PeerID member) r m :
  ex_sid (mb_execution m) = sid → tp_SessionID (pr_coordinated (mb_process m)) = sid →
  in_session ms → in_session (<[r := m]> ms).
Proof. intros He Hp Hms q mq [[_ <-]|[_ Hq]]%lookup_insert_Some; [done|by eapply Hms]. Qed.

Lemma caused_wire (ms : gmap PeerID member) (l l' : list packet) r s ev :
  (∀ p, pk_Session p = s → p ∈ l → p ∈ l') →
  caused relayers peerstore {| members := ms; sent := l |} r s ev →
  caused relayers peerstore {| members := ms; sent := l' |} r s ev.
Proof.
  intros Hl. assert (∀ from t b, arrives relayers peerstore {| members := ms; sent := l |} from r t s b →
    arrives relayers peerstore {| members := ms; sent := l' |} from r t s b) as Ha.
  { intros from t b [?|?]; [by left|right]. by apply Hl. }
  destruct ev as [[]|[]|[]|]; simpl; try done; try apply Ha; intros [b Hb]; exists b; by apply Ha.
Qed.

(** What an execution sends belongs to its session. *)
Lemma moved_tagged (net : network) r ex ex' :
  moved relayers peerstore net r ex ex' →
  ex_sid ex' = ex_sid ex ∧ Forall (λ p, pk_Session p = ex_sid ex) (sends r (new_actions ex ex')).
Proof.
  intros (Hp & _ & _ & ev & _ & Hj)%moved_justified. split; [by rw /ex_sid Hp|].
  apply Forall_forall. intros p (to & Hin & _)%elem_of_sends.
  eapply Forall_forall in Hj; [|exact Hin]. by destruct Hj.
Qed.

(** A step depends on the messages of its session only. *)
Lemma step_wire (ms : gmap PeerID member) l l' net' :
  tagged → in_session ms → (∀ p, of_session p → p ∈ l → p ∈ l') →
  network_step {| members := ms; sent := l |} net' →
  ∃ ms' new, net' = {| members := ms'; sent := l ++ new |} ∧ Forall of_session new ∧ in_session ms' ∧
    network_step {| members := ms; sent := l' |} {| members := ms'; sent := l' ++ new |}.
Proof.
  intros Htag Hms Hl Hstep.
  assert (∀ r m0 m ex, ms !! r = Some m0 → ex_sid (mb_execution m) = sid →
    tp_SessionID (pr_coordinated (mb_process m)) = sid →
    moved relayers peerstore {| members := ms; sent := l |} r (mb_execution m) ex →
    network_step {| members := ms; sent := l' |} (advance {| members := ms; sent := l' |} r m ex) →
    ∃ ms' new, advance {| members := ms; sent := l |} r m ex = {| members := ms'; sent := l ++ new |} ∧
      Forall of_session new ∧ in_session ms' ∧
      network_step {| members := ms; sent := l' |} {| members := ms'; sent := l' ++ new |}) as Hadv.
  { intros r m0 m ex Hm He Hp [Hsid Hnew]%moved_tagged Hs. do 2 eexists. split; [done|].
    split_and!; [|apply in_session_insert; [by rw /= Hsid|done..]|exact Hs]. by rw He in Hnew. }
  inversion Hstep as [r s c Hr Hnone|r m ev ex Hm Hc Hs|r m before c params after ans sub acts s' res sel Hm Hs Hrun
    |r m err sel Hm Hrun]; subst; simpl in *.
  - do 2 eexists. split; [done|]. pose proof (Htag _ _ _ Hr) as Hs. split_and!.
    + apply Forall_forall. intros p (to & Hin & _)%elem_of_sends.
      pose proof (begin_execution_acts peerstore r (pr_coordinated s) [] c) as HF.
      eapply Forall_forall in HF; [|exact Hin]. destruct HF as [_ HF]. by rw /of_session HF.
    + apply in_session_insert; [|done..]. rw /ex_sid /= /begin_execution. by case_match.
    + by apply (step_join relayers peerstore {| members := ms; sent := l' |} r s c).
  - destruct (Hms _ _ Hm) as [He Hp]. apply (Hadv r m m ex Hm He Hp).
    + right. exists ev. by auto.
    + apply (step_receive relayers peerstore {| members := ms; sent := l' |} r m ev ex); [done| |done].
      eapply caused_wire; [|exact Hc]. by rw He.
  - destruct (Hms _ _ Hm) as [He Hp]. apply (Hadv r m (has_run m s' (before ++ after) acts res)); [done| |..].
    + rw /ex_sid /=. by destruct (run_same_process _ _ _ _ _ _ _ _ _ Hrun) as [-> _].
    + simpl. by destruct (run_same_process _ _ _ _ _ _ _ _ _ Hrun) as [-> _].
    + apply after_run_moved.
    + by eapply (step_run relayers peerstore {| members := ms; sent := l' |}).
  - destruct (Hms _ _ Hm) as [He Hp]. apply (Hadv r m {| mb_execution := mb_execution m; mb_process := mb_process m;
      mb_starting := mb_starting m; mb_running := false; mb_actions := mb_actions m |}); [done..| |].
    + apply report_error_moved.
    + by apply (step_ran relayers peerstore {| members := ms; sent := l' |}).
Qed.
End shared_wire.

(** ** All sessions *)
Section sessions.
Context `{PeerLib, Keccak}.

(** A session of some kind: its relayers, with the process each of them makes
    and the coordinator it passes to [Execute], and their peerstores, as they
    stay through the session. *)
Record session := {
  ss_State : Type;
  ss_Action : Type;
  ss_Meaning : Type;
  ss_Process :: Process ss_State ss_Action ss_Meaning;
  ss_relayers : gmap PeerID (ss_State * PeerID);
  ss_peerstore : PeerID → list PeerID;
}.

(** The session of each ID; one without relayers is none. *)
Context (sessions : string → session).
Abbreviation session_members sid :=
  (gmap PeerID (@member (ss_State (sessions sid)) (ss_Action (sessions sid)))).
Abbreviation session_step sid := (network_step (ss_relayers (sessions sid)) (ss_peerstore (sessions sid))).
Abbreviation session_reachable sid :=
  (network_reachable (ss_relayers (sessions sid)) (ss_peerstore (sessions sid))).

(** The relayers in all sessions, and all that was sent. *)
Record world := { in_sessions : ∀ sid, session_members sid; wire : list packet }.

Definition empty_world : world := {| in_sessions _ := ∅; wire := [] |}.

(** A session among the messages of all. *)
Definition among (w : world) (sid : string) : network :=
  {| members := in_sessions w sid; sent := wire w |}.
(** A session with its own messages. *)
Definition alone (w : world) (sid : string) : network :=
  {| members := in_sessions w sid; sent := filter (of_session sid) (wire w) |}.

(** A relayer makes a step in one of the sessions. *)
Definition world_step (w w' : world) : Prop :=
  ∃ sid, session_step sid (among w sid) (among w' sid) ∧
    ∀ sid', sid' ≠ sid → in_sessions w' sid' = in_sessions w sid'.

(** The processes of every session have its ID. *)
Context (Htagged : ∀ sid, tagged (ss_relayers (sessions sid)) sid).
Definition in_own_sessions (w : world) : Prop := ∀ sid, in_session sid (in_sessions w sid).

Definition set_members (f : ∀ sid, session_members sid) (sid : string) (ms : session_members sid) :
    ∀ sid, session_members sid :=
  λ sid', match decide (sid = sid') with left e => eq_rect sid (λ s, session_members s) ms sid' e | right _ => f sid' end.

Lemma set_members_eq f sid ms : set_members f sid ms sid = ms.
Proof. rw /set_members. destruct (decide (sid = sid)) as [e|]; [|done]. by rw (proof_irrel e eq_refl). Qed.

Lemma set_members_ne f sid ms sid' : sid' ≠ sid → set_members f sid ms sid' = f sid'.
Proof. intros Hne. rw /set_members. by destruct (decide (sid = sid')) as [<-|]. Qed.

(** New messages of one session are none of another. *)
Lemma filter_new sid l new : Forall (of_session sid) new →
  filter (of_session sid) (l ++ new) = filter (of_session sid) l ++ new ∧
  ∀ sid', sid' ≠ sid → filter (of_session sid') (l ++ new) = filter (of_session sid') l.
Proof.
  intros Hnew. rw Forall_forall in Hnew. split; [by rw filter_app (filter_true _ new)|].
  intros sid' Hne. rw filter_app (filter_none _ new) ?app_nil_r //.
  intros p Hp%Hnew Hs. rw /of_session in Hp Hs. congruence.
Qed.

Lemma world_step_alone w w' :
  in_own_sessions w → world_step w w' →
  in_own_sessions w' ∧ ∃ sid, session_step sid (alone w sid) (alone w' sid) ∧
    ∀ sid', sid' ≠ sid → alone w' sid' = alone w sid'.
Proof.
  intros Hw (sid & Hstep & Hother).
  destruct (step_wire (ss_relayers (sessions sid)) (ss_peerstore (sessions sid)) sid (in_sessions w sid) (wire w) (filter (of_session sid) (wire w)) (among w' sid)) as
    (ms & new & Heq & Hnew & Hms & Hs); [done|done|by intros p Hp ?; apply list_elem_of_filter|done|].
  injection Heq as Hms' Hwire. destruct (filter_new sid (wire w) new Hnew) as [Hf Hf']. split.
  - intros sid'. destruct (decide (sid' = sid)) as [->|Hne]; [by rw Hms'|]. rw (Hother sid' Hne). apply Hw.
  - exists sid. rw /alone Hwire. split; [by rw Hf Hms'|]. intros sid' Hne. by rw (Hother sid' Hne) Hf'.
Qed.

Lemma alone_step_world w sid net :
  in_own_sessions w → session_step sid (alone w sid) net →
  ∃ w', world_step w w' ∧ alone w' sid = net ∧ ∀ sid', sid' ≠ sid → alone w' sid' = alone w sid'.
Proof.
  intros Hw Hstep.
  destruct (step_wire (ss_relayers (sessions sid)) (ss_peerstore (sessions sid)) sid (in_sessions w sid) (filter (of_session sid) (wire w)) (wire w) net) as
    (ms & new & -> & Hnew & _ & Hs); [done|done|by intros p _ [_ ?]%list_elem_of_filter|done|].
  destruct (filter_new sid (wire w) new Hnew) as [Hf Hf'].
  exists {| in_sessions := set_members (in_sessions w) sid ms; wire := wire w ++ new |}. split_and!.
  - exists sid. rw /among /= set_members_eq. split; [exact Hs|]. intros sid'. apply set_members_ne.
  - by rw /alone /= set_members_eq Hf.
  - intros sid' Hne. by rw /alone /= set_members_ne // Hf'.
Qed.

Lemma empty_in_own_sessions : in_own_sessions empty_world.
Proof. intros sid r m. by rw lookup_empty. Qed.

Definition world_reachable (w : world) : Prop := rtc world_step empty_world w.

Lemma world_in_own_sessions w : world_reachable w → in_own_sessions w.
Proof.
  apply (rtc_ind_r in_own_sessions); [apply empty_in_own_sessions|].
  intros w1 w2 _ Hs Hw. by destruct (world_step_alone w1 w2 Hw Hs).
Qed.

Lemma alone_reachable w sid : world_reachable w → session_reachable sid (alone w sid).
Proof.
  apply (rtc_ind_r (λ w, session_reachable sid (alone w sid))); [apply rtc_refl|].
  intros w1 w2 Hr Hs IH. destruct (world_step_alone w1 w2) as (_ & sid' & Hstep & Hother);
    [by apply world_in_own_sessions|done|].
  destruct (decide (sid = sid')) as [->|Hne]; [by eapply rtc_r|by rw Hother].
Qed.

Lemma alone_steps_world w sid net :
  world_reachable w → rtc (session_step sid) (alone w sid) net →
  ∃ w', rtc world_step w w' ∧ alone w' sid = net ∧ ∀ sid', sid' ≠ sid → alone w' sid' = alone w sid'.
Proof.
  intros Hw Hr. remember (alone w sid) as net0 eqn:E. revert w Hw E.
  induction Hr as [|n1 n2 n3 Hs _ IH]; intros w Hw ->; [by exists w|].
  destruct (alone_step_world w sid n2) as (w1 & Hs1 & <- & Hother); [by apply world_in_own_sessions|done|].
  destruct (IH w1) as (w2 & Hr2 & <- & Hother2); [by eapply rtc_r|done|].
  exists w2. split_and!; [by eapply rtc_l|done|]. intros sid' Hne. by rw Hother2 // Hother.
Qed.

(** What each of several sessions could do, they can do together. *)
Lemma alone_steps_together w (targets : list string) (net : ∀ sid, network) :
  world_reachable w → NoDup targets →
  (∀ sid, sid ∈ targets → rtc (session_step sid) (alone w sid) (net sid)) →
  ∃ w', rtc world_step w w' ∧ (∀ sid, sid ∈ targets → alone w' sid = net sid) ∧
    ∀ sid, sid ∉ targets → alone w' sid = alone w sid.
Proof.
  intros Hw Hnd. revert w Hw. induction Hnd as [|sid targets Hsid Hnd IH]; intros w Hw Hnet.
  { exists w. split_and!; [done| |done]. by intros sid ?%not_elem_of_nil. }
  destruct (alone_steps_world w sid (net sid)) as (w1 & Hr1 & Heq & Hother); [done|by apply Hnet; left|].
  destruct (IH w1) as (w2 & Hr2 & Hin & Hout).
  - rw /world_reachable. by trans w.
  - intros s Hs. rw Hother; [by apply Hnet; right|by intros ->].
  - exists w2. split_and!; [by trans w1| |].
    + intros s [->|Hs]%elem_of_cons; [by rw Hout|by apply Hin].
    + intros s [Hne Hs]%not_elem_of_cons. by rw Hout // Hother.
Qed.

End sessions.

Section witnesses.
Import Toy ToyJson.

Definition demo_peers : list PeerID := ["a"; "b"].
Definition demo_generators : gmap PeerID (list PeerID * Keygen * PeerID) :=
  list_to_map ((λ r, (r, (demo_peers, NewKeygen "k" 1 demo_peers, "b"))) <$> demo_peers).

(** A signing session and a key generation. *)
Definition signing_part : session := {|
  ss_State := Signing (SaveData := unit); ss_Action := signing_action; ss_Meaning := result (list PeerID);
  ss_relayers := demo_relayers; ss_peerstore := demo_peerstore |}.
Definition keygen_part : session := {|
  ss_State := list PeerID * Keygen; ss_Action := keygen_action; ss_Meaning := unit;
  ss_relayers := demo_generators; ss_peerstore _ := demo_peers |}.
Definition no_part : session := {|
  ss_State := list PeerID * Keygen; ss_Action := keygen_action; ss_Meaning := unit;
  ss_relayers := ∅; ss_peerstore _ := [] |}.
Definition demo_sessions (sid : string) : session :=
  if decide (sid = "s") then signing_part else if decide (sid = "k") then keygen_part else no_part.

Lemma demo_tagged sid : tagged (ss_relayers (demo_sessions sid)) sid.
Proof.
  rw /demo_sessions. destruct (decide (sid = "s")) as [->|]; [|destruct (decide (sid = "k")) as [->|]].
  - intros r s c Hin%elem_of_list_to_map_2. by apply list_elem_of_fmap in Hin as (q & [= -> -> ->] & _).
  - intros r s c Hin%elem_of_list_to_map_2. by apply list_elem_of_fmap in Hin as (q & [= -> -> ->] & _).
  - by intros r s c.
Qed.

Definition demo_keygen_schedule : list choice :=
  [Join "a"; Join "b"; Receive "a" (EvWait (WaitInit "b")); Receive "b" (EvInitiate (InitReady "a"));
   RunNext "b" demo_answers "sub" true].

Lemma played {A} (o : option A) : bool_decide (is_Some o) = true → ∃ x, o = Some x.
Proof. by intros [x Hx]%bool_decide_eq_true; exists x. Qed.

Section demo.
Context (n1 : signing_network unit) (n2 : @network (list PeerID * Keygen) keygen_action).

Definition demo_parts (sid : string) :
    @network (ss_State (demo_sessions sid)) (ss_Action (demo_sessions sid)) :=
  {| members := set_members demo_sessions (set_members demo_sessions (λ _, ∅) "s" (members n1)) "k" (members n2) sid;
     sent := if decide (sid = "s") then sent n1 else sent n2 |}.

Lemma demo_parts_signing : demo_parts "s" = n1.
Proof. rw /demo_parts set_members_ne // set_members_eq /=. by destruct n1. Qed.

Lemma demo_parts_keygen : demo_parts "k" = n2.
Proof. rw /demo_parts set_members_eq /=. by destruct n2. Qed.
End demo.

End witnesses.
