(* ===== verification/Listener.v ===== *)
(** * Key generation and refresh events (src/chains/evm/listener/tss.go,
      src/chains/evm/calls/events/listener.go)

    The admin contract of a chain starts key generation and resharing; the
    handlers below run on each range of blocks. *)
From Stdlib Require Import Ascii.
From S2P Require Import Prelude GoStd Encoding Json Libs JsonCodec Topology Comm P2P Keyshare TssCommon TssCoordinator Keygen Resharing.

(** ** events.go *)
Definition StartKeygenSig : string := "StartKeygen()".
Definition KeyRefreshSig : string := "KeyRefresh(string)".

Record Refresh := { Hash_ : string }.

(** ** listener.go: [FetchEventLogs] is the client for one contract and range *)
Definition FetchKeygenEvents (FetchEventLogs : string → result (list Log)) : result (list Log) :=
  FetchEventLogs StartKeygenSig.

(** The first event that can be unpacked. *)
Fixpoint first_refresh (UnpackRefresh : bytes → result Refresh) (logs : list Log)
    : option (Refresh * Log) :=
  match logs with
  | [] => None
  | re :: logs' =>
      match UnpackRefresh (log_Data re) with
      | Err _ => first_refresh UnpackRefresh logs'
      | Ok r => Some (r, re)
      end
  end.

Definition FetchRefreshEvents (FetchEventLogs : string → result (list Log))
    (UnpackRefresh : bytes → result Refresh) : result (option (Refresh * Log)) :=
  match FetchEventLogs KeyRefreshSig with
  | Err e => Err e
  | Ok logs => Ok (first_refresh UnpackRefresh logs)
  end.

(** ** tss.go *)
Definition keygen_session (block : Z) : string := "keygen-" +:+ fmt_d block.
Definition resharing_session (block : Z) : string := "resharing-" +:+ fmt_d block.

Section listener.
Context {SaveData : Type}.
Context `{PeerLib, AesBlock, Sha256, AddrLib, AddrInfoJson,
          SaveDataJson SaveData}.
Context (emptyKey : SaveData).

Inductive listener_action :=
  | StoreFile (file : option bytes)        (** the topology file after [StoreTopology] *)
  | SetTopology (topology : NetworkTopology)
  | Peerstore (a : peerstore_action)
  | ExecuteKeygen (k : Keygen)
  | ExecuteResharing (r : Resharing (SaveData := SaveData)).

(** [KeygenEventHandler.HandleEvents]; an error of [Execute] is logged. *)
Definition HandleKeygen (keyshare : result (ECDSAKeyshare SaveData))
    (FetchEventLogs : string → result (list Log)) (threshold : Z) (peerstore : list PeerID)
    : io listener_action (option error) :=
  if match keyshare with Ok key => negb (Threshold key =? 0)%Z | Err _ => false end then mret None else
  match FetchKeygenEvents FetchEventLogs with
  | Err e => mret (Some (Wrapf "unable to fetch keygen events because of: " e))
  | Ok [] => mret None
  | Ok (l :: _) =>
      emit (ExecuteKeygen (NewKeygen (keygen_session (log_BlockNumber l)) threshold peerstore)) ≫= λ _,
      mret None
  end.

(** The peerstore actions among those of the handler. *)
Definition lift_peerstore (m : io peerstore_action unit) : io listener_action unit :=
  (Peerstore <$> events m, returned m).

(** What the handler finds around it: the answer of the topology fetcher,
    the topology file, the peers before and after, the keyshare store. *)
Record refresh_env := {
  rf_get : result (result bytes);
  rf_key : bytes;
  rf_fs : fs_answers;
  rf_file : option bytes;
  rf_peers : list PeerID;
  rf_peers_after : list PeerID;
  rf_keyshare_fs : fs_answers;
  rf_store : ECDSAKeyshareStore;
}.

(** [RefreshEventHandler.HandleEvents]; [None] when it waits for the
    keyshare lock.  Failures after the event was read are only logged. *)
Definition HandleRefresh (env : refresh_env) (FetchEventLogs : string → result (list Log))
    (UnpackRefresh : bytes → result Refresh) : io listener_action (option (option error)) :=
  match FetchRefreshEvents FetchEventLogs UnpackRefresh with
  | Err e => mret (Some (Some (Wrapf "unable to fetch keygen events because of: " e)))
  | Ok None => mret (Some None)
  | Ok (Some (refreshEvent, l)) =>
      topology ← lift (FetchTopology (rf_key env) (rf_get env) (Hash_ refreshEvent));
      match topology with
      | Err _ => mret (Some None)
      | Ok topology =>
          let '(err, file) := StoreTopology (rf_fs env) (rf_file env) topology in
          emit (StoreFile file) ≫= λ _,
          match err with
          | Some _ => mret (Some None)
          | None =>
              emit (SetTopology topology) ≫= λ _,
              lift_peerstore (LoadPeers (rf_peers env) (nt_Peers topology)) ≫= λ _,
              match NewResharing emptyKey (resharing_session (log_BlockNumber l)) (nt_Threshold topology)
                      (rf_peers_after env) (rf_keyshare_fs env) (rf_store env) with
              | None => mret None
              | Some (r, _) => emit (ExecuteResharing r) ≫= λ _, mret (Some None)
              end
          end
      end
  end.

(** ** What the handlers do *)
Lemma first_refresh_spec UnpackRefresh logs r l :
  first_refresh UnpackRefresh logs = Some (r, l) ↔
  ∃ before after, logs = before ++ l :: after ∧ UnpackRefresh (log_Data l) = Ok r ∧
    Forall (λ l, is_ok (UnpackRefresh (log_Data l)) = false) before.
Proof.
  split.
  - induction logs as [|l' logs IH]; [done|]. simpl.
    destruct (UnpackRefresh (log_Data l')) as [r'|e] eqn:Eu.
    + intros [= -> ->]. by exists [], logs.
    + intros (before & after & -> & ? & ?)%IH. exists (l' :: before), after.
      split_and!; [done..|]. constructor; [by rw Eu|done].
  - intros (before & after & -> & Hu & Hb).
    induction Hb as [|l' before Hl _ IH]; simpl; [by rw Hu|].
    by destruct (UnpackRefresh (log_Data l')).
Qed.

Lemma events_bind_Done {E A B} (m : io E A) (f : A → io E B) a :
  returned m = Done a → events (mbind f m) = events m ++ events (f a).
Proof. by destruct m as [es o]; simpl; intros ->. Qed.

Lemma NewResharing_fields sid threshold peers fs ks r ks' :
  NewResharing emptyKey sid threshold peers fs ks = Some (r, ks') →
  rs_newThreshold r = threshold ∧ SID (rs_base r) = sid.
Proof. rw /NewResharing. destruct (LockKeyshare ks); [|done]. by intros [= <- <-]. Qed.

(** Key generation runs exactly when there is no usable keyshare and some
    event was found, in the session of the first one. *)
Theorem keygen_on_first_event (keyshare : result (ECDSAKeyshare SaveData))
    (FetchEventLogs : string → result (list Log)) (threshold : Z) (peerstore : list PeerID) (k : Keygen) :
  ExecuteKeygen k ∈ events (HandleKeygen keyshare FetchEventLogs threshold peerstore) ↔
  (∀ key, keyshare = Ok key → Threshold key = 0%Z) ∧
  ∃ l logs, FetchEventLogs StartKeygenSig = Ok (l :: logs) ∧
    k = NewKeygen (keygen_session (log_BlockNumber l)) threshold peerstore.
Proof.
  rw /HandleKeygen /FetchKeygenEvents.
  assert (match keyshare with Ok key => negb (Threshold key =? 0)%Z | Err _ => false end = false ↔
    ∀ key, keyshare = Ok key → Threshold key = 0%Z) as Hk.
  { destruct keyshare as [key|e]; [|done]. rw negb_false_iff Z.eqb_eq. split; [by intros ? ? [= <-]|by intros ->]. }
  destruct (match keyshare with Ok _ => _ | Err _ => _ end) eqn:E.
  - split; [by intros ?%not_elem_of_nil|]. by intros [?%Hk _].
  - destruct (FetchEventLogs StartKeygenSig) as [[|l logs]|e] eqn:Ef.
    + split; [by intros ?%not_elem_of_nil|]. by intros (_ & ? & ? & ? & _).
    + rw (events_bind_Done (emit _) _ tt) //= list_elem_of_singleton. split.
      * intros [= ->]. split; [by apply Hk|]. by exists l, logs.
      * by intros (_ & ? & ? & [= <- <-] & ->).
    + split; [by intros ?%not_elem_of_nil|]. by intros (_ & ? & ? & ? & _).
Qed.

(** The sessions of both handlers hold the separator of subscription IDs. *)
Lemma listener_sessions_dashed (block : Z) :
  strings.free "-"%char (keygen_session block) = false ∧ strings.free "-"%char (resharing_session block) = false.
Proof. rw /keygen_session /resharing_session !strings.free_app. by split. Qed.

(** A resharing that is executed, with all that happened before. *)
Lemma refresh_executes (env : refresh_env) (FetchEventLogs : string → result (list Log))
    (UnpackRefresh : bytes → result Refresh) (r : Resharing) :
  ExecuteResharing r ∈ events (HandleRefresh env FetchEventLogs UnpackRefresh) →
  ∃ ev l topology file ks,
    FetchRefreshEvents FetchEventLogs UnpackRefresh = Ok (Some (ev, l)) ∧
    FetchTopology (rf_key env) (rf_get env) (Hash_ ev) = Done (Ok topology) ∧
    StoreTopology (rf_fs env) (rf_file env) topology = (None, file) ∧
    returned (LoadPeers (rf_peers env) (nt_Peers topology)) = Done tt ∧
    events (HandleRefresh env FetchEventLogs UnpackRefresh) =
      [StoreFile file; SetTopology topology] ++
      (Peerstore <$> events (LoadPeers (rf_peers env) (nt_Peers topology))) ++ [ExecuteResharing r] ∧
    NewResharing emptyKey (resharing_session (log_BlockNumber l)) (nt_Threshold topology)
      (rf_peers_after env) (rf_keyshare_fs env) (rf_store env) = Some (r, ks).
Proof.
  rw /HandleRefresh. destruct (FetchRefreshEvents FetchEventLogs UnpackRefresh) as [[[ev l]|]|];
    [|by intros ?%not_elem_of_nil..].
  destruct (FetchTopology _ _ _) as [[topology|e]|p] eqn:Et;
    [|by intros ?%not_elem_of_nil|by intros ?%not_elem_of_nil].
  rw (events_bind_Done (lift _) _ (Ok topology)) //. cbn beta iota.
  destruct (StoreTopology _ _ _) as [[e|] file] eqn:Es.
  { rw (events_bind_Done (emit _) _ tt) //=. intros Hin. by elem_cases Hin. }
  rw (events_bind_Done (emit _) _ tt) // (events_bind_Done (emit _) _ tt) //.
  destruct (LoadPeers (rf_peers env) (nt_Peers topology)) as [acts [[]|p]] eqn:El.
  - rw (events_bind_Done (lift_peerstore _) _ tt) //. cbn beta.
    destruct (NewResharing _ _ _ _ _ _) as [[r0 ks']|] eqn:En; intros Hin; simpl in Hin.
    + assert (ExecuteResharing r = ExecuteResharing r0) as Heq.
      { rw !elem_of_cons elem_of_app list_elem_of_singleton in Hin.
        destruct Hin as [?|[?|[(a & ? & _)%list_elem_of_fmap|Heq]]]; [done..|exact Heq]. }
      injection Heq as ->. exists ev, l, topology, file, ks'. by split_and!; rewrite ?El.
    + rewrite app_nil_r !elem_of_cons in Hin.
      by destruct Hin as [?|[?|(a & ? & _)%list_elem_of_fmap]].
  - rw /lift_peerstore /mbind /io_bind /=. intros Hin. rw !elem_of_cons in Hin.
    by destruct Hin as [?|[?|(a & ? & _)%list_elem_of_fmap]].
Qed.

(** The keyshare of a resharing is that of the file, or none. *)
Lemma NewResharing_key sid threshold peers fs ks r ks' :
  NewResharing emptyKey sid threshold peers fs ks = Some (r, ks') →
  GetKeyshare fs ks = Ok (rs_key r) ∨
  is_ok (GetKeyshare fs ks) = false ∧ rs_key r = {| Key := emptyKey; Threshold := 0; Peers := [] |}.
Proof.
  rw /NewResharing /LockKeyshare. destruct (Mutex.Lock (mu ks)); [|done]. intros [= <- _]. simpl.
  rw /GetKeyshare /=. repeat case_match; auto.
Qed.

(** C29: a resharing is started only by the first event of the range that can
    be read, and only with the topology that its hash identifies: the
    topology was stored, the connection gate set to it and the peerstore
    reloaded before, in this order, and the resharing has the topology's
    threshold and the session of the event's block. *)
Theorem resharing_after_topology (env : refresh_env) (FetchEventLogs : string → result (list Log))
    (UnpackRefresh : bytes → result Refresh) (r : Resharing) :
  ExecuteResharing r ∈ events (HandleRefresh env FetchEventLogs UnpackRefresh) →
  ∃ before after ev l topology file,
    FetchEventLogs KeyRefreshSig = Ok (before ++ l :: after) ∧ UnpackRefresh (log_Data l) = Ok ev ∧
    Forall (λ l, is_ok (UnpackRefresh (log_Data l)) = false) before ∧
    FetchTopology (rf_key env) (rf_get env) (Hash_ ev) = Done (Ok topology) ∧
    StoreTopology (rf_fs env) (rf_file env) topology = (None, file) ∧
    returned (LoadPeers (rf_peers env) (nt_Peers topology)) = Done tt ∧
    events (HandleRefresh env FetchEventLogs UnpackRefresh) =
      [StoreFile file; SetTopology topology] ++
      (Peerstore <$> events (LoadPeers (rf_peers env) (nt_Peers topology))) ++ [ExecuteResharing r] ∧
    rs_newThreshold r = nt_Threshold topology ∧
    SID (rs_base r) = resharing_session (log_BlockNumber l).
Proof.
  intros (ev & l & topology & file & ks & Hf & Ht & Hs & Hl & He & Hn)%refresh_executes.
  rw /FetchRefreshEvents in Hf. destruct (FetchEventLogs KeyRefreshSig) as [logs|]; [|done]. injection Hf as Hf.
  apply first_refresh_spec in Hf as (before & after & -> & Hu & Hb). apply NewResharing_fields in Hn as [Hth Hsid].
  by exists before, after, ev, l, topology, file.
Qed.
End listener.

Section witnesses.
Import Toy.
Import ToyJson.

Definition demo_event : Log := {|
  log_Address := []; log_Topics := []; log_Data := [Byte.x01]; log_BlockNumber := 7; log_Removed := false |}.
Definition demo_unpack (data : bytes) : result Refresh :=
  if bool_decide (data = []) then Err (Errorf "abi: empty") else Ok {| Hash_ := "" |}.
Definition demo_logs (event : string) : result (list Log) :=
  Ok [{| log_Address := []; log_Topics := []; log_Data := []; log_BlockNumber := 6; log_Removed := false |};
      demo_event].
Definition demo_env : refresh_env := {|
  rf_get := Ok (Ok (bytes_of (hex.EncodeToString demo_ciphertext))); rf_key := demo_key;
  rf_fs := demo_fs; rf_file := None; rf_peers := ["a"]; rf_peers_after := ["a"; "b"];
  rf_keyshare_fs := demo_fs; rf_store := {| mu := false; file := None |} |}.
Definition demo_started : option (Resharing (SaveData := unit) * ECDSAKeyshareStore) :=
  NewResharing tt "resharing-7" 2 ["a"; "b"] demo_fs {| mu := false; file := None |}.

Lemma resharing_after_topology_witness :
  match demo_started with
  | Some (r, _) => rs_newThreshold r = 2%Z
  | None => False
  end.
Proof.
  destruct demo_started as [[r ks]|] eqn:E; [|by vm_compute in E].
  destruct (resharing_after_topology tt demo_env demo_logs demo_unpack r)
    as (before & after & ev & l & topology & file & Hl & Hu & Hb & Ht & _ & _ & _ & -> & _).
  - vm_compute in E. injection E as <- <-.
    vm_compute. repeat (apply list_elem_of_here || apply list_elem_of_further).
  - assert (Hash_ ev = "") as Hh.
    { rw /demo_unpack in Hu. case_bool_decide; [done|]. by injection Hu as <-. }
    rw Hh in Ht. vm_compute in Ht. by injection Ht as <-.
Defined.
End witnesses.
