(* ===== verification/KeyshareLock.v ===== *)
(** * The goroutines of a relayer around its keyshare
      (src/keyshare, src/tss/ecdsa, src/chains/evm/listener)

    Signing, key generation and resharing run side by side and share one
    [ECDSAKeyshareStore].  [Keyshare] models each call as one step; here the
    calls of several goroutines interleave, and a call reads or writes its
    file piece by piece.  The lock makes this the same as calls in one step. *)
From S2P Require Import Prelude GoStd Encoding Json Libs JsonCodec Comm TssCommon Keyshare.
From S2P Require Import TssCoordinator Signing Keygen Resharing Topology P2P Listener.

Section calls.
Context {SaveData : Type} `{PeerLib, SaveDataJson SaveData}.
Abbreviation keyshare := (ECDSAKeyshare SaveData).
Abbreviation store := ECDSAKeyshareStore.

(** What a goroutine asks of the store.  [pieces] are the lengths of the
    pieces in which the operating system moves the bytes, before the last. *)
Inductive call :=
  | CallLock
  | CallUnlock
  | CallGet (fs : fs_answers) (pieces : list nat)
  | CallStore (fs : fs_answers) (k : keyshare) (pieces : list nat).

(** What others can tell of it. *)
Inductive event :=
  | Got (r : result keyshare)
  | Put (k : keyshare) (err : option error).

(** A call in one step; [None]: it waits for the lock. *)
Definition atomic (ks : store) (c : call) : option (outcome (store * list event)) :=
  match c with
  | CallLock => ks' ← LockKeyshare ks; Some (Done (ks', []))
  | CallUnlock => Some (ks' ← UnlockKeyshare ks; Done (ks', []))
  | CallGet fs _ => Some (Done (ks, [Got (GetKeyshare fs ks)]))
  | CallStore fs k _ => let '(err, ks') := StoreKeyshare fs ks k in Some (Done (ks', [Put k err]))
  end.

(** ** Calls in pieces *)

(** What is left of a call: the bytes to write after those written, or the
    bytes read so far. *)
Inductive progress :=
  | Writing (off : nat) (rest : bytes) (pieces : list nat) (finish : event)
  | Reading (got : bytes) (pieces : list nat).

(** The bytes that [StoreKeyshare] gets to write to the truncated file. *)
Definition written (fs : fs_answers) (k : keyshare) : bytes * option error :=
  match Marshal k with
  | Err e => ([], Some e)
  | Ok kb => match write_error fs with Some (n, e) => (take n kb, Some e) | None => (kb, None) end
  end.

(** [json.Unmarshal] of what [GetKeyshare] has read. *)
Definition decoded (kb : bytes) : result keyshare :=
  match Unmarshal kb with
  | Err e => Err (Errorf ("error on unmarshaling keyshare file: " +:+ error_string e))
  | Ok k => Ok k
  end.

Definition set_file (f : option bytes) (ks : store) : store := {| mu := mu ks; file := f |}.

(** [write(2)] at an offset. *)
Definition write_at (off : nat) (chunk : bytes) (f : bytes) : bytes :=
  take off f ++ replicate (off - length f) x00 ++ chunk ++ drop (off + length chunk) f.

(** Opening the file: with [O_TRUNC] it is emptied; a missing file cannot
    be read. *)
Definition begin (ks : store) (c : call) : option (outcome (store * list event * option progress)) :=
  match c with
  | CallStore fs k pieces =>
      match open_error fs with
      | Some e => Some (Done (ks, [Put k (Some e)], None))
      | None => let '(kb, err) := written fs k in
                Some (Done (set_file (Some []) ks, [], Some (Writing 0 kb pieces (Put k err))))
      end
  | CallGet fs pieces =>
      match read_error fs, file ks with
      | None, Some _ => Some (Done (ks, [], Some (Reading [] pieces)))
      | _, _ => Some (Done (ks, [Got (GetKeyshare fs ks)], None))
      end
  | _ => r ← atomic ks c; Some ('(ks', evs) ← r; Done (ks', evs, None))
  end.

(** The next piece; the last one ends the call. *)
Definition resume (ks : store) (p : progress) : store * list event * option progress :=
  let f := default [] (file ks) in
  match p with
  | Writing off rest (n :: pieces) fin =>
      (set_file (Some (write_at off (take n rest) f)) ks, [],
       Some (Writing (off + length (take n rest)) (drop n rest) pieces fin))
  | Writing off rest [] fin => (set_file (Some (write_at off rest f)) ks, [fin], None)
  | Reading got (n :: pieces) =>
      (ks, [], Some (Reading (got ++ take n (drop (length got) f)) pieces))
  | Reading got [] => (ks, [Got (decoded (got ++ drop (length got) f))], None)
  end.

(** ** Goroutines *)
Record thread := { th_current : option (call * progress); th_calls : list call }.
Record machine := { m_store : store; m_threads : list thread; m_log : list (nat * event) }.

Inductive machine_step : machine → machine → Prop :=
  | step_begin s i c cs ks evs p :
      m_threads s !! i = Some {| th_current := None; th_calls := c :: cs |} →
      begin (m_store s) c = Some (Done (ks, evs, p)) →
      machine_step s {| m_store := ks; m_log := m_log s ++ (pair i <$> evs);
        m_threads := <[i := {| th_current := pair c <$> p; th_calls := cs |}]> (m_threads s) |}
  | step_resume s i c cs p ks evs p' :
      m_threads s !! i = Some {| th_current := Some (c, p); th_calls := cs |} →
      resume (m_store s) p = (ks, evs, p') →
      machine_step s {| m_store := ks; m_log := m_log s ++ (pair i <$> evs);
        m_threads := <[i := {| th_current := pair c <$> p'; th_calls := cs |}]> (m_threads s) |}.

(** The next step of goroutine [i], and steps in a given order. *)
Definition advance (s : machine) (i : nat) : option machine :=
  th ← m_threads s !! i;
  let next c cs ks evs p :=
    {| m_store := ks; m_log := m_log s ++ (pair i <$> evs);
       m_threads := <[i := {| th_current := pair c <$> p; th_calls := cs |}]> (m_threads s) |} in
  match th_current th, th_calls th with
  | Some (c, p), cs => let '(ks, evs, p') := resume (m_store s) p in Some (next c cs ks evs p')
  | None, c :: cs =>
      match begin (m_store s) c with
      | Some (Done (ks, evs, p)) => Some (next c cs ks evs p)
      | _ => None
      end
  | None, [] => None
  end.

Fixpoint advances (s : machine) (schedule : list nat) : option machine :=
  match schedule with
  | [] => Some s
  | i :: schedule' => s' ← advance s i; advances s' schedule'
  end.

Lemma advance_step s i s' : advance s i = Some s' → machine_step s s'.
Proof.
  rw /advance. intros ([cur cs] & Hi & Hs)%bind_Some. destruct cur as [[c p]|]; simpl in Hs.
  - destruct (resume (m_store s) p) as [[ks evs] p'] eqn:E. injection Hs as <-. by eapply step_resume.
  - destruct cs as [|c cs]; [done|]. destruct (begin (m_store s) c) as [[[[ks evs] p]|]|] eqn:E; [|done..].
    injection Hs as <-. by eapply step_begin.
Qed.

Lemma advances_steps s schedule s' : advances s schedule = Some s' → rtc machine_step s s'.
Proof.
  revert s. induction schedule as [|i schedule IH]; intros s; simpl; [by intros [= ->]|].
  intros (s1 & Hs%advance_step & Hr)%bind_Some. eapply rtc_l; [exact Hs|by apply IH].
Qed.

Lemma advances_reach s schedule (P : machine → Prop) :
  match advances s schedule with Some s' => P s' | None => False end → ∃ s', rtc machine_step s s' ∧ P s'.
Proof.
  destruct (advances s schedule) as [s'|] eqn:E; [|done]. exists s'. split; [by eapply advances_steps|done].
Qed.

(** An unlock of the unlocked mutex ends the relayer. *)
Definition fatal (s : machine) : Prop :=
  ∃ i c cs msg, m_threads s !! i = Some {| th_current := None; th_calls := c :: cs |} ∧
    begin (m_store s) c = Some (Panic msg).

Definition start (ks : store) (tasks : list (list call)) : machine :=
  {| m_store := ks; m_log := [];
     m_threads := (λ cs, {| th_current := None; th_calls := cs |}) <$> tasks |}.

(** ** The same with calls in one step *)
Record atomic_machine := { a_store : store; a_threads : list (list call); a_log : list (nat * event) }.

Inductive atomic_step : atomic_machine → atomic_machine → Prop :=
  | step_atomic a i c cs ks evs :
      a_threads a !! i = Some (c :: cs) → atomic (a_store a) c = Some (Done (ks, evs)) →
      atomic_step a {| a_store := ks; a_log := a_log a ++ (pair i <$> evs);
        a_threads := <[i := cs]> (a_threads a) |}.

Definition atomic_start (ks : store) (tasks : list (list call)) : atomic_machine :=
  {| a_store := ks; a_threads := tasks; a_log := [] |}.

(** ** Who touches the file holds the lock *)
Fixpoint disciplined (held : bool) (cs : list call) : bool :=
  match cs with
  | [] => true
  | CallLock :: cs' => negb held && disciplined true cs'
  | CallUnlock :: cs' => held && disciplined false cs'
  | _ :: cs' => held && disciplined held cs'
  end.

(** A call in progress, over the file as it was when the call began. *)
Definition piece_ok (f f0 : option bytes) (c : call) (p : progress) : Prop :=
  match p, c with
  | Writing off rest _ fin, CallStore fs k _ =>
      open_error fs = None ∧ ∃ w err, f = Some w ∧ length w = off ∧ written fs k = (w ++ rest, err) ∧ fin = Put k err
  | Reading got _, CallGet fs _ =>
      f = f0 ∧ read_error fs = None ∧ ∃ rest, f = Some (got ++ rest)
  | _, _ => False
  end.

Lemma write_at_end (w chunk : bytes) : write_at (length w) chunk w = w ++ chunk.
Proof. by rw /write_at firstn_all Nat.sub_diag /= drop_ge ?app_nil_r //; lia. Qed.

Lemma StoreKeyshare_written fs ks k :
  open_error fs = None →
  StoreKeyshare fs ks k = ((written fs k).2, set_file (Some (written fs k).1) ks).
Proof.
  intros Ho. rw /StoreKeyshare /TruncWrite Ho /written. destruct (Marshal k) as [kb|e]; [|done].
  by destruct (write_error fs) as [[n e]|].
Qed.

Lemma begin_atomic ks c :
  match begin ks c with
  | Some (Done (ks', evs, None)) => atomic ks c = Some (Done (ks', evs))
  | Some (Done (ks', evs, Some p)) => evs = [] ∧ mu ks' = mu ks ∧ piece_ok (file ks') (file ks) c p
  | Some (Panic msg) => atomic ks c = Some (Panic msg)
  | None => atomic ks c = None
  end.
Proof.
  destruct c as [| |fs ps|fs k ps]; simpl.
  - by destruct (LockKeyshare ks).
  - by destruct (UnlockKeyshare ks).
  - destruct (read_error fs) eqn:Er; [done|]. destruct (file ks) as [b|] eqn:Ef; simpl; [|done].
    rw Ef. split_and!; try done. by exists b.
  - destruct (open_error fs) as [e|] eqn:Eo; [by rw /StoreKeyshare /TruncWrite Eo; destruct ks|].
    destruct (written fs k) as [kb err] eqn:Ew. simpl. split_and!; try done. by exists [], err.
Qed.

Lemma resume_ok ks f0 c p ks' evs p' :
  piece_ok (file ks) f0 c p → resume ks p = (ks', evs, p') →
  mu ks' = mu ks ∧
  match p' with
  | Some p' => evs = [] ∧ piece_ok (file ks') f0 c p'
  | None => atomic (set_file f0 ks) c = Some (Done (ks', evs))
  end.
Proof.
  destruct p as [off rest ps fin|got ps], c as [| |fs ps0|fs k ps0]; try done; simpl.
  - intros (Ho & w & err & Hf & <- & Hw & ->). rw Hf /=.
    destruct ps as [|n ps]; intros [= <- <- <-]; simpl; (split; [done|]).
    + by rw StoreKeyshare_written // Hw write_at_end.
    + split; [done|]. split; [done|]. exists (w ++ take n rest), err. rw write_at_end length_app -app_assoc take_drop.
      by split_and!.
  - intros (Hf0 & Hr & rest & Hf). rw Hf /= drop_app_length.
    destruct ps as [|n ps]; intros [= <- <- <-]; simpl; (split; [done|]).
    + rw -Hf0 /GetKeyshare /ReadFile Hr /= Hf /= /decoded /set_file -Hf. by destruct ks.
    + rw Hf. split_and!; [done|by rw -Hf0|done|]. exists (drop n rest). by rw -app_assoc take_drop.
Qed.

(** ** The simulation *)
Definition current (s : machine) (i : nat) : option (call * progress) := th ← m_threads s !! i; th_current th.
Definition thread_calls (th : thread) : list call :=
  match th_current th with Some (c, _) => c :: th_calls th | None => th_calls th end.

(** [holder] has the lock; a call in progress is its call, and the atomic
    machine has not taken it yet. *)
Record simulated (holder : option nat) (s : machine) (a : atomic_machine) : Prop := {
  sim_calls : a_threads a = thread_calls <$> m_threads s;
  sim_log : a_log a = m_log s;
  sim_mu : mu (a_store a) = mu (m_store s);
  sim_lock : mu (m_store s) = bool_decide (is_Some holder);
  sim_disciplined i cs : a_threads a !! i = Some cs → disciplined (bool_decide (holder = Some i)) cs = true;
  sim_current i x : current s i = Some x → holder = Some i;
  sim_file : match holder ≫= current s with
             | Some (c, p) => piece_ok (file (m_store s)) (file (a_store a)) c p
             | None => file (m_store s) = file (a_store a)
             end;
}.

(** Who has the lock after a call of [i]. *)
Definition next_holder (i : nat) (c : call) (holder : option nat) : option nat :=
  match c with CallLock => Some i | CallUnlock => None | _ => holder end.

Lemma disciplined_call i c cs holder ks ks' evs :
  disciplined (bool_decide (holder = Some i)) (c :: cs) = true →
  mu ks = bool_decide (is_Some holder) → atomic ks c = Some (Done (ks', evs)) →
  (c = CallLock ∧ holder = None ∨ holder = Some i) ∧
  disciplined (bool_decide (next_holder i c holder = Some i)) cs = true ∧
  (∀ j, j ≠ i → bool_decide (next_holder i c holder = Some j) = bool_decide (holder = Some j)) ∧
  mu ks' = bool_decide (is_Some (next_holder i c holder)).
Proof.
  destruct c as [| |fs ps|fs k ps]; simpl; intros [Hh Hd]%andb_true_iff Hmu.
  - rw /LockKeyshare Hmu. destruct holder as [h|]; [done|]. intros [= <- <-]. split_and!; [by left|..].
    + by rw bool_decide_true.
    + intros j Hj. rw !bool_decide_false //. congruence.
    + done.
  - apply bool_decide_eq_true in Hh as ->. rw /UnlockKeyshare Hmu. intros [= <- <-].
    split_and!; [by right|done| |done]. intros j Hj. rw !bool_decide_false //. congruence.
  - intros [= <- _]. apply bool_decide_eq_true in Hh as ->. by split_and!; [right|..].
  - destruct (StoreKeyshare fs ks k) as [err f] eqn:E. intros [= <- _]. apply bool_decide_eq_true in Hh as ->.
    split_and!; [by right|done..|]. rw /StoreKeyshare in E. destruct (TruncWrite _ _ _). by injection E as _ <-.
Qed.

Lemma current_insert ks l (threads : list thread) i th j :
  is_Some (threads !! i) →
  current {| m_store := ks; m_threads := <[i := th]> threads; m_log := l |} j =
  if decide (j = i) then th_current th else threads !! j ≫= th_current.
Proof.
  intros Hi%lookup_lt_is_Some. rw /current /=. case_decide as Hj.
  - by rw Hj list_lookup_insert_eq.
  - by rw list_lookup_insert_ne.
Qed.

Lemma sim_next h s a i th c cs :
  simulated h s a → m_threads s !! i = Some th → thread_calls th = c :: cs → a_threads a !! i = Some (c :: cs).
Proof. intros Hs Hi Hth. by rw (sim_calls _ _ _ Hs) list_lookup_fmap Hi /= Hth. Qed.

Lemma sim_complete h s a i th c cs ks evs :
  simulated h s a → m_threads s !! i = Some th → thread_calls th = c :: cs →
  atomic (a_store a) c = Some (Done (ks, evs)) →
  ∃ a', atomic_step a a' ∧
    simulated (next_holder i c h) {| m_store := ks; m_log := m_log s ++ (pair i <$> evs);
      m_threads := <[i := {| th_current := None; th_calls := cs |}]> (m_threads s) |} a'.
Proof.
  intros Hs Hi Hth Hat. pose proof (sim_next _ _ _ _ _ _ _ Hs Hi Hth) as Ha.
  eexists. split; [by eapply step_atomic|].
  pose proof (sim_lock _ _ _ Hs) as Hmu. rw -(sim_mu _ _ _ Hs) in Hmu.
  destruct (disciplined_call _ _ _ _ _ _ _ (sim_disciplined _ _ _ Hs _ _ Ha) Hmu Hat) as (Hh & Hd & Hother & Hmu').
  assert (∀ j, j ≠ i → current s j = None) as Hnone.
  { intros j Hj. destruct (current s j) eqn:E; [|done]. pose proof (sim_current _ _ _ Hs _ _ E).
    by destruct Hh as [[_ ?]|?]; congruence. }
  assert (∀ j, current {| m_store := ks; m_log := m_log s ++ (pair i <$> evs);
      m_threads := <[i := {| th_current := None; th_calls := cs |}]> (m_threads s) |} j = None) as Hcur.
  { intros j. rw current_insert; last by exists th. destruct (decide (j = i)); [done|]. by apply Hnone. }
  split; simpl; try done.
  - by rw (sim_calls _ _ _ Hs) list_fmap_insert.
  - by rw (sim_log _ _ _ Hs).
  - intros j cs'. destruct (decide (j = i)) as [->|Hj].
    + rw list_lookup_insert_eq; [by intros [= <-]|by eapply lookup_lt_Some].
    + rw list_lookup_insert_ne // Hother //. apply (sim_disciplined _ _ _ Hs).
  - intros j x. by rw Hcur.
  - destruct (next_holder i c h) as [j|]; simpl; [by rw Hcur|done].
Qed.

Lemma sim_continue s a i th c cs ks p :
  simulated (Some i) s a → m_threads s !! i = Some th → thread_calls th = c :: cs →
  mu ks = mu (m_store s) → piece_ok (file ks) (file (a_store a)) c p →
  simulated (Some i) {| m_store := ks; m_log := m_log s;
    m_threads := <[i := {| th_current := Some (c, p); th_calls := cs |}]> (m_threads s) |} a.
Proof.
  intros Hs Hi Hth Hmu Hp. assert (is_Some (m_threads s !! i)) as Hsome by by rw Hi.
  split; simpl.
  - rw list_fmap_insert (sim_calls _ _ _ Hs). symmetry. apply list_insert_id. by rw list_lookup_fmap Hi /= Hth.
  - apply (sim_log _ _ _ Hs).
  - by rw (sim_mu _ _ _ Hs).
  - by rw Hmu (sim_lock _ _ _ Hs).
  - apply (sim_disciplined _ _ _ Hs).
  - intros j x. rw current_insert //. case_decide; [by subst|]. apply (sim_current _ _ _ Hs).
  - rw current_insert //. by case_decide.
Qed.

Lemma simulation_step h s a s' :
  simulated h s a → machine_step s s' → ∃ h' a', rtc atomic_step a a' ∧ simulated h' s' a'.
Proof.
  intros Hs. destruct 1 as [s i c cs ks evs p Hi Hb|s i c cs p ks evs p' Hi Hr].
  - pose proof (begin_atomic (m_store s) c) as Hat. rw Hb in Hat.
    pose proof (sim_next _ _ _ i _ c cs Hs Hi eq_refl) as Ha.
    pose proof (sim_disciplined _ _ _ Hs _ _ Ha) as Hd.
    assert (current s i = None) as Hcur by by rw /current Hi.
    destruct p as [p|]; simpl.
    + destruct Hat as (-> & Hmu & Hp). rw app_nil_r. exists h, a. split; [done|].
      assert (h = Some i) as ->.
      { destruct c as [| |fs ps|fs k ps]; [by destruct p..| |]; by apply andb_true_iff in Hd as [?%bool_decide_eq_true _]. }
      pose proof (sim_file _ _ _ Hs) as Hf. rw /= Hcur in Hf. rw Hf in Hp.
      by eapply sim_continue; [|exact Hi|..].
    + assert (a_store a = m_store s) as Heq.
      { pose proof (sim_mu _ _ _ Hs) as Hmu. pose proof (sim_file _ _ _ Hs) as Hf.
        destruct (disciplined_call _ _ _ _ _ _ _ Hd (sim_lock _ _ _ Hs) Hat) as (Hh & _).
        assert (h ≫= current s = None) as Hn by by destruct Hh as [[_ ->]| ->].
        rw Hn in Hf. destruct (a_store a), (m_store s); simpl in *; congruence. }
      rw -Heq in Hat. destruct (sim_complete _ _ _ _ _ _ _ _ _ Hs Hi eq_refl Hat) as (a' & Hstep & Hs').
      exists (next_holder i c h), a'. split; [by apply rtc_once|done].
  - assert (current s i = Some (c, p)) as Hcur by by rw /current Hi.
    pose proof (sim_current _ _ _ Hs _ _ Hcur) as ->. pose proof (sim_file _ _ _ Hs) as Hp. rw /= Hcur in Hp.
    destruct (resume_ok _ _ _ _ _ _ _ Hp Hr) as [Hmu Hp']. destruct p' as [p'|]; simpl.
    + destruct Hp' as [-> Hp']. rw app_nil_r. exists (Some i), a. split; [done|]. by eapply sim_continue.
    + assert (set_file (file (a_store a)) (m_store s) = a_store a) as Heq.
      { rw /set_file -(sim_mu _ _ _ Hs). by destruct (a_store a). }
      rw Heq in Hp'. destruct (sim_complete _ _ _ _ _ _ _ _ _ Hs Hi eq_refl Hp') as (a' & Hstep & Hs').
      exists (next_holder i c (Some i)), a'. split; [by apply rtc_once|done].
Qed.

Lemma simulation ks tasks s :
  mu ks = false → Forall (λ cs, disciplined false cs = true) tasks → rtc machine_step (start ks tasks) s →
  ∃ h a, rtc atomic_step (atomic_start ks tasks) a ∧ simulated h s a.
Proof.
  intros Hmu Ht Hr.
  refine (rtc_ind_r (λ s, ∃ h a, rtc atomic_step (atomic_start ks tasks) a ∧ simulated h s a) _ _ _ _ Hr).
  - exists None, (atomic_start ks tasks). split; [done|]. split; simpl; try done.
    + rw -list_fmap_compose. symmetry. apply list_fmap_id.
    + intros i cs Hi. rewrite Forall_lookup in Ht. by apply (Ht i).
    + intros i x. rw /current /= list_lookup_fmap. by destruct (tasks !! i).
  - intros s1 s2 _ Hstep (h & a & Ha & Hs). destruct (simulation_step _ _ _ _ Hs Hstep) as (h' & a' & Ha' & Hs').
    exists h', a'. split; [by etrans|done].
Qed.

Lemma simulated_safe h s a : simulated h s a → ¬ fatal s.
Proof.
  intros Hs (i & c & cs & msg & Hi & Hb). pose proof (begin_atomic (m_store s) c) as Hat. rw Hb in Hat.
  pose proof (sim_disciplined _ _ _ Hs _ _ (sim_next _ _ _ i _ c cs Hs Hi eq_refl)) as Hd.
  destruct c as [| |fs ps|fs k ps]; simpl in Hat.
  - by destruct (LockKeyshare _).
  - apply andb_true_iff in Hd as [->%bool_decide_eq_true _]. rw /UnlockKeyshare (sim_lock _ _ _ Hs) in Hat. done.
  - done.
  - by destruct (StoreKeyshare _ _ _).
Qed.

(** ** What a reader gets *)

(** No error of the file system, and keyshares that JSON can carry. *)
Definition fault_free (c : call) : Prop :=
  match c with
  | CallGet fs _ => read_error fs = None
  | CallStore fs k _ => open_error fs = None ∧ write_error fs = None ∧ json_wf k
  | _ => True
  end.

(** A file that holds a keyshare, or none. *)
Definition holds (v : option keyshare) (ks : store) : Prop :=
  file ks = json_Marshal <$> v ∧ match v with Some k => json_wf k | None => True end.

Definition last_put (v : option keyshare) (evs : list event) : option keyshare :=
  foldl (λ v e, match e with Put k _ => Some k | Got _ => v end) v evs.

(** A read gives what was stored last. *)
Definition reads (v : option keyshare) (r : result keyshare) : Prop :=
  match v with Some k => r = Ok k | None => is_ok r = false end.

Lemma holds_reads v ks fs : holds v ks → read_error fs = None → reads v (GetKeyshare fs ks).
Proof.
  intros [Hf Hv] Hr. rw /reads /GetKeyshare /ReadFile Hr Hf. destruct v as [k|]; [|done]. simpl.
  by rw json_Unmarshal_Marshal.
Qed.

Lemma atomic_holds v ks c ks' evs :
  holds v ks → fault_free c → atomic ks c = Some (Done (ks', evs)) →
  holds (last_put v evs) ks' ∧ (evs = [] ∨ ∃ e, evs = [e] ∧ ∀ r, e = Got r → reads v r).
Proof.
  intros Hv Hc. destruct c as [| |fs ps|fs k ps]; simpl in *.
  - rw /LockKeyshare. destruct (Mutex.Lock (mu ks)); [|done]. intros [= <- <-]. by split; [|left].
  - rw /UnlockKeyshare. destruct (Mutex.Unlock (mu ks)); [|done]. intros [= <- <-]. by split; [|left].
  - intros [= <- <-]. split; [done|]. right. eexists. split; [done|]. intros r [= <-]. by apply holds_reads.
  - destruct Hc as (Ho & Hw & Hk). rw StoreKeyshare_written // /written /= Hw. intros [= <- <-].
    split; [done|]. right. by eexists.
Qed.

(** Along the runs of the atomic machine. *)
Definition reads_last (v : option keyshare) (log : list (nat * event)) : Prop :=
  ∀ before i r after, log = before ++ (i, Got r) :: after → reads (last_put v (before.*2)) r.

Lemma reads_last_snoc v log i e :
  reads_last v log → (∀ r, e = Got r → reads (last_put v (log.*2)) r) → reads_last v (log ++ [(i, e)]).
Proof.
  intros Hlog He before j r after. destruct after as [|x after _] using rev_ind.
  - intros [-> [= -> ->]]%app_inj_tail. by apply He.
  - rw app_comm_cons app_assoc. intros [Heq _]%app_inj_tail. by eapply Hlog.
Qed.

Lemma atomic_reads ks v tasks a :
  holds v ks → Forall (Forall fault_free) tasks → rtc atomic_step (atomic_start ks tasks) a →
  Forall (Forall fault_free) (a_threads a) ∧ holds (last_put v ((a_log a).*2)) (a_store a) ∧ reads_last v (a_log a).
Proof.
  intros Hv Ht Hr. refine (rtc_ind_r (λ a, Forall (Forall fault_free) (a_threads a) ∧
    holds (last_put v ((a_log a).*2)) (a_store a) ∧ reads_last v (a_log a)) _ _ _ _ Hr).
  - split_and!; [done..|]. by intros [|??] ???.
  - intros a1 a2 _ Hstep (Hff & Hh & Hl). destruct Hstep as [a0 i c cs ks' evs Hi Hat]. simpl.
    pose proof Hff as Hff'. rewrite Forall_lookup in Hff'. apply Hff' in Hi as Hcs.
    apply Forall_cons in Hcs as [Hc Hcs]. destruct (atomic_holds _ _ _ _ _ Hh Hc Hat) as [Hh' Hevs].
    split_and!; [by apply Forall_insert|..].
    + rw fmap_app /last_put foldl_app. by destruct Hevs as [->|(e & -> & _)].
    + destruct Hevs as [->|(e & -> & He)]; [by rw app_nil_r|]. by apply reads_last_snoc.
Qed.
End calls.

(** ** The goroutines that the relayer starts *)
Section tasks.
Context {SaveData : Type} (emptyKey : SaveData).
Context `{PeerLib, Keccak, TssLib, AesBlock, Sha256, AddrLib, AddrInfoJson, SaveDataJson SaveData}.
Context (self : PeerID).
Abbreviation Resharing := (@Resharing SaveData).

Definition keygen_call (a : keygen_action) : option (call (SaveData := SaveData)) :=
  match a with
  | KgLockKeyshare => Some CallLock
  | KgUnlockKeyshare => Some CallUnlock
  | _ => None
  end.
Definition resharing_call (a : resharing_action) : option (call (SaveData := SaveData)) :=
  match a with RsUnlockKeyshare => Some CallUnlock | _ => None end.

(** What [processEndMessage] asks of the store, with the key of [<-endChn]
    or none. *)
Definition end_calls (fs : fs_answers) (pieces : list nat) (threshold : Z) (peers : list PeerID)
    (key : option SaveData) : list call :=
  match key with
  | Some key => [CallStore fs (NewECDSAKeyshare key threshold peers) pieces]
  | None => []
  end.

(** The calls of [NewSigning], the deferred unlock last. *)
Definition signing_calls (fs : fs_answers) (pieces : list nat) : list (call (SaveData := SaveData)) :=
  [CallLock; CallGet fs pieces; CallUnlock].
(** Those of [NewResharing]. *)
Definition constructor_calls (fs : fs_answers) (pieces : list nat) : list (call (SaveData := SaveData)) :=
  [CallLock; CallGet fs pieces].

(** A signing process only reads the keyshare when it is made; key generation
    and resharing are run, end with a key or without, and are stopped once,
    as when [Execute] returns because the process has ended.  ([Execute] that
    is cut off may stop a process that still stores, or one that has not run:
    [keygen_timeout_fatal] and [keygen_unrun_fatal] of [Keygen].) *)
Inductive keyshare_task : list call → Prop :=
  | task_signing fs pieces : keyshare_task (signing_calls fs pieces)
  | task_keygen peerstore ans subID k coordinator params acts k' res fs pieces key :
      Started (kg_base k) = false →
      Keygen.Run self peerstore ans subID k coordinator params = (acts, k', res) →
      keyshare_task (omap keygen_call acts ++
        end_calls fs pieces (kg_threshold k') (base_Peers (kg_base k')) key ++
        omap keygen_call (Keygen.Stop k'))
  | task_resharing peerstore ans subID (r : Resharing) coordinator params acts r' res fs fs' pieces pieces' key :
      Resharing.Run self peerstore ans subID r coordinator params = Done (acts, r', res) →
      keyshare_task (constructor_calls fs pieces ++ omap resharing_call acts ++
        end_calls fs' pieces' (rs_newThreshold r') (base_Peers (rs_base r')) key ++
        omap resharing_call (Resharing.Stop r')).

Lemma Keygen_Run_calls peerstore ans subID k coordinator params :
  Started (kg_base k) = false →
  omap keygen_call (Keygen.Run self peerstore ans subID k coordinator params).1.1 = [CallLock].
Proof.
  rw /Keygen.Run. intros ->. by destruct (ans_NewParameters ans), (ans_NewLocalParty ans).
Qed.

Lemma Resharing_Run_calls peerstore ans subID (r : Resharing) coordinator params acts r' res :
  Resharing.Run self peerstore ans subID r coordinator params = Done (acts, r', res) →
  omap resharing_call acts = [].
Proof.
  rw /Resharing.Run. destruct (Started (rs_base r)); [by intros [= <- _ _]|].
  destruct (Resharing.unmarshallStartParams _ _ _) as [[start r1] [e|]]; [by intros [= <- _ _]|].
  destruct (sortParties _ _) as [sorted|]; [|done]. simpl. destruct (deref_all sorted); [|done]. simpl.
  by destruct (ans_NewParameters ans), (ans_NewLocalParty ans); intros [= <- _ _].
Qed.

Lemma end_calls_disciplined fs pieces threshold peers key cs :
  disciplined true (end_calls fs pieces threshold peers key ++ cs) = disciplined true cs.
Proof. by destruct key. Qed.

Lemma keyshare_task_disciplined cs : keyshare_task cs → disciplined false cs = true.
Proof.
  destruct 1 as [|ps ans sub k c params acts k' res fs pieces key Hst Hrun
                 |ps ans sub r c params acts r' res fs fs' pieces pieces' key Hrun]; [done|..].
  - pose proof (Keygen_Run_calls ps ans sub k c params Hst) as Ha. rw Hrun /= in Ha.
    by rw Ha /= end_calls_disciplined.
  - by rw (Resharing_Run_calls _ _ _ _ _ _ _ _ _ Hrun) /= end_calls_disciplined.
Qed.

Lemma keyshare_tasks_disciplined tasks :
  Forall keyshare_task tasks → Forall (λ cs, disciplined false cs = true) tasks.
Proof. intros Ht. eapply Forall_impl; [exact Ht|exact keyshare_task_disciplined]. Qed.

(** ** The calls are those of the definitions of each process *)
Fixpoint alone (ks : ECDSAKeyshareStore) (cs : list call) : option (outcome (ECDSAKeyshareStore * list (event (SaveData := SaveData)))) :=
  match cs with
  | [] => Some (Done (ks, []))
  | c :: cs' =>
      match atomic ks c with
      | Some (Done (ks', evs)) => r ← alone ks' cs'; Some ('(ks'', evs') ← r; Done (ks'', evs ++ evs'))
      | r => r
      end
  end.

Lemma alone_NewResharing sid threshold peerstore fs pieces ks :
  NewResharing emptyKey sid threshold peerstore fs ks =
  match alone ks (constructor_calls fs pieces) with
  | Some (Done (ks', [Got r])) =>
      Some ({| rs_base := NewBaseTss sid peerstore;
               rs_key := match r with Ok key => key | Err _ => {| Key := emptyKey; Threshold := 0; Peers := [] |} end;
               rs_subscriptionID := ""; rs_newThreshold := threshold |}, ks')
  | _ => None
  end.
Proof. by rw /NewResharing /= /LockKeyshare; destruct (mu ks). Qed.

Lemma alone_keygen_end fs pieces ks (k : Keygen) key err ks' acts :
  Keygen.processEndMessage fs ks k key = (err, ks', acts) →
  ∃ evs, alone ks (end_calls fs pieces (kg_threshold k) (base_Peers (kg_base k)) key) = Some (Done (ks', evs)).
Proof.
  destruct key as [key|]; simpl; [|intros [= _ <- _]; by eexists].
  destruct (StoreKeyshare _ _ _) as [e ks2]. intros [= _ <- _]. by eexists.
Qed.

Lemma alone_resharing_end fs pieces ks (r : Resharing) key err ks' acts :
  Resharing.processEndMessage fs ks r key = (err, ks', acts) →
  ∃ evs, alone ks (end_calls fs pieces (rs_newThreshold r) (base_Peers (rs_base r)) key) = Some (Done (ks', evs)).
Proof.
  destruct key as [key|]; simpl; [|intros [= _ <- _]; by eexists].
  destruct (StoreKeyshare _ _ _) as [e ks2]. intros [= _ <- _]. by eexists.
Qed.



(** The check of the key generation handler is not under the lock.  It reads
    the keyshare to tell whether a key exists; while a process that another
    listener has started replaces the file, the read fails, and the handler
    starts to generate a new key if an event asks for one, though the relayer
    has a key before and after. *)
Theorem unlocked_check_fooled (tasks : list (list call)) (ks : ECDSAKeyshareStore) (s : machine)
    (i : nat) (fs fs' : fs_answers) (k : ECDSAKeyshare SaveData) (pieces pieces' : list nat) (rest : bytes)
    (fin : event) (cs : list call) (FetchEventLogs : string → result (list Log)) (l : Log) (logs : list Log)
    (threshold : Z) (peerstore : list PeerID) :
  Forall keyshare_task tasks → mu ks = false → rtc machine_step (start ks tasks) s →
  m_threads s !! i = Some {| th_current := Some (CallStore fs k pieces, Writing 0 rest pieces' fin); th_calls := cs |} →
  FetchEventLogs StartKeygenSig = Ok (l :: logs) →
  ExecuteKeygen (NewKeygen (keygen_session (log_BlockNumber l)) threshold peerstore) ∈
    events (HandleKeygen (GetKeyshare fs' (m_store s)) FetchEventLogs threshold peerstore) ∧
  ∀ key : ECDSAKeyshare SaveData, Threshold key ≠ 0%Z → events (HandleKeygen (Ok key) FetchEventLogs threshold peerstore) = [].
Proof.
  intros Ht%keyshare_tasks_disciplined Hmu Hr Hi Hl. destruct (simulation _ _ _ Hmu Ht Hr) as (h & a & Ha & Hs).
  assert (current s i = Some (CallStore fs k pieces, Writing 0 rest pieces' fin)) as Hc by by rw /current Hi.
  pose proof (sim_current _ _ _ Hs _ _ Hc) as ->. pose proof (sim_file _ _ _ Hs) as Hf. rw /= Hc in Hf.
  destruct Hf as (_ & w & err & Hf & Hw%nil_length_inv & _). rw Hw in Hf. split.
  - rw /HandleKeygen /FetchKeygenEvents Hl.
    assert (is_ok (GetKeyshare fs' (m_store s)) = false) as Hg.
    { by rw /GetKeyshare /ReadFile Hf; destruct (read_error fs'). }
    destruct (GetKeyshare fs' (m_store s)) as [key|e]; [done|]. simpl. by left.
  - intros key Hth. rw /HandleKeygen. by rewrite (proj2 (Z.eqb_neq _ _) Hth).
Qed.
End tasks.

Section witnesses.
Import Toy ToyJson.

(** The holder [b] of a key of [a] and [b] reshares it with [c], while it is
    asked to sign. *)
Definition demo_old : ECDSAKeyshare unit := {| Key := tt; Threshold := 1; Peers := ["b"; "a"] |}.
Definition demo_new : ECDSAKeyshare unit := {| Key := tt; Threshold := 2; Peers := ["a"; "b"; "c"] |}.
Definition demo_keyshares : ECDSAKeyshareStore := {| mu := false; file := Some (json_Marshal demo_old) |}.
Definition demo_run : outcome (list resharing_action * Resharing (SaveData := unit) * option (option error)) :=
  Resharing.Run "b" ["a"; "b"; "c"] demo_answers "sub" demo_holder true
    (json_Marshal {| OldThreshold := 1; OldSubset := ["a"; "b"] |}).
Definition demo_tasks : list (list (call (SaveData := unit))) :=
  [[CallLock; CallGet demo_fs [4]; CallStore demo_fs demo_new [3; 5]; CallUnlock]; signing_calls demo_fs [2; 2]].

Lemma demo_keyshare_tasks : Forall (keyshare_task "b") demo_tasks.
Proof.
  apply Forall_cons. split; [|apply Forall_singleton, task_signing].
  assert (match demo_run with
          | Done (acts, r', _) =>
              bool_decide (rs_newThreshold r' = 2%Z) && bool_decide (base_Peers (rs_base r') = ["a"; "b"; "c"])
          | Panic _ => false end = true) as Hok by (vm_compute; reflexivity).
  destruct demo_run as [[[acts r'] res]|] eqn:E; [|done].
  apply andb_true_iff in Hok as [Ht%bool_decide_eq_true Hp%bool_decide_eq_true].
  pose proof (task_resharing "b" _ _ _ _ _ _ _ _ _ demo_fs demo_fs [4] [3; 5] (Some tt) E) as Htask.
  rewrite (Resharing_Run_calls "b" _ _ _ _ _ _ _ _ _ E) Ht Hp in Htask. exact Htask.
Qed.

Lemma demo_fault_free : Forall (Forall fault_free) demo_tasks.
Proof.
  assert (json_wf demo_new) by by wf_fields. rewrite /demo_tasks /signing_calls.
  repeat first [apply List.Forall_nil | apply Forall_cons; split]; done.
Qed.

(** The resharing holds the lock, signing waits, then reads the new key. *)
Definition demo_schedule : list nat := [0; 0; 0; 0; 0; 0; 0; 0; 0; 1; 1; 1; 1; 1; 1].

Lemma demo_reached :
  ∃ s, rtc machine_step (start demo_keyshares demo_tasks) s ∧
    m_log s = [(0, Got (Ok demo_old)); (0, Put demo_new None); (1, Got (Ok demo_new))].
Proof. apply (advances_reach _ demo_schedule). vm_compute. reflexivity. Qed.



(** Signing holds off; the handler looks while the file is empty. *)
Lemma unlocked_check_fooled_witness :
  ∃ s, rtc machine_step (start demo_keyshares demo_tasks) s ∧
    events (HandleKeygen (GetKeyshare demo_fs (m_store s)) demo_logs 1 ["a"; "b"]) ≠ [] ∧
    events (HandleKeygen (Ok demo_old) demo_logs 1 ["a"; "b"]) = [].
Proof.
  assert (∃ s, rtc machine_step (start demo_keyshares demo_tasks) s ∧
    ∃ rest, m_threads s !! 0 = Some {| th_current := Some (CallStore demo_fs demo_new [3; 5],
      Writing 0 rest [3; 5] (Put demo_new None)); th_calls := [CallUnlock] |}) as (s & E & rest & Hi).
  { apply (advances_reach _ [0; 0; 0; 0; 0]). vm_compute. by eexists. }
  exists s. split; [exact E|].
  destruct (unlocked_check_fooled "b" demo_tasks demo_keyshares s 0 demo_fs demo_fs demo_new [3; 5] [3; 5] rest
    (Put demo_new None) [CallUnlock] demo_logs _ _ 1 ["a"; "b"] demo_keyshare_tasks eq_refl E Hi eq_refl) as [Hin Hno].
  split; [intros Hnil; rewrite Hnil in Hin; by apply not_elem_of_nil in Hin|]. by apply (Hno demo_old).
Defined.
End witnesses.
