(* ===== verification/KeyEvents.v ===== *)
(** * The sessions that contract events start
      (src/chains/evm/listener, src/tss, src/comm)

    Every relayer handles an event of the admin contract by itself, with
    [Listener], and calls [Execute] without naming a coordinator.  Here all
    the relayers handle one event: the processes they execute form one
    session of [KeySessions], led by the peer that each of them elects. *)
From Stdlib Require Import Ascii.
From S2P Require Import Prelude GoStd Encoding Json Libs JsonCodec Comm PeerSort Topology P2P TssCommon Keyshare.
From S2P Require Import TssCoordinator Network Keygen.
From S2P Require Import Resharing KeySessions Listener.

(** The coordinator of [Execute] when none is named. *)
Lemma joined_coordinator `{Process State Action Meaning} (peerstore : PeerID → list PeerID) r s :
  ex_coordinator (mb_execution (join peerstore r s "")) =
  Coordinator (tp_SessionID (pr_coordinated s)) (tp_ValidCoordinators (pr_coordinated s)).
Proof.
  rw /join /begin_execution (bool_decide_true (peer_String "" = "")); [|apply peer_String_empty].
  by destruct (bool_decide (_ = peer_String r)).
Qed.

Lemma elected_same `{PeerLib, Keccak} sid peers1 peers2 :
  no_collision sid peers1 → peers1 ≡ₚ peers2 → Coordinator sid peers2 = Coordinator sid peers1.
Proof. intros Hn Hp. by rw /Coordinator (SortPeersForSession_perm _ _ _ Hn Hp). Qed.

(** ** Key generation *)
Section keygen.
Context {SaveData : Type}.
Context `{PeerLib, Keccak, TssLib, AesBlock, Sha256, AddrLib, AddrInfoJson, SaveDataJson SaveData}.

(** What a relayer finds when it handles the event. *)
Record keygen_node := {
  kn_keyshare : result (ECDSAKeyshare SaveData);
  kn_logs : string → result (list Log);
  kn_threshold : Z;
  kn_peers : list PeerID;
}.

Definition executed_keygen (acts : list (listener_action (SaveData := SaveData))) : option Keygen :=
  head (omap (λ a, match a with ExecuteKeygen k => Some k | _ => None end) acts).

(** What it calls [Execute] with. *)
Definition keygen_of (n : keygen_node) : option (list PeerID * Keygen * PeerID) :=
  k ← executed_keygen (events (HandleKeygen (kn_keyshare n) (kn_logs n) (kn_threshold n) (kn_peers n)));
  Some (kn_peers n, k, "").

Lemma keygen_of_spec n p k c :
  keygen_of n = Some (p, k, c) →
  p = kn_peers n ∧ c = "" ∧ (∀ key, kn_keyshare n = Ok key → Threshold key = 0%Z) ∧
  ∃ l logs, FetchKeygenEvents (kn_logs n) = Ok (l :: logs) ∧
    k = NewKeygen (keygen_session (log_BlockNumber l)) (kn_threshold n) (kn_peers n).
Proof.
  rw /keygen_of /HandleKeygen. destruct (match kn_keyshare n with Ok _ => _ | Err _ => _ end) eqn:E; [done|].
  destruct (FetchKeygenEvents (kn_logs n)) as [[|l logs]|e]; [done| |done]. intros [= <- <- <-].
  split_and!; [done|done| |by exists l, logs]. intros key Hk. rw Hk in E. by apply negb_false_iff, Z.eqb_eq in E.
Qed.

Context (nodes : gmap PeerID keygen_node) (block : Z) (peers : list PeerID).
Definition generators : gmap PeerID (list PeerID * Keygen * PeerID) := omap keygen_of nodes.
Definition keygen_peerstore (id : PeerID) : list PeerID := default [] (kn_peers <$> nodes !! id).
Definition keygen_leader : PeerID := Coordinator (keygen_session block) peers.

(** The relayers know the same peers and are among them, and whoever finds an
    event finds it in one block. *)
Record keygen_event : Prop := {
  ke_block id n l logs : nodes !! id = Some n → FetchKeygenEvents (kn_logs n) = Ok (l :: logs) →
    log_BlockNumber l = block;
  ke_peers id n : nodes !! id = Some n → kn_peers n ≡ₚ peers ∧ id ∈ peers;
  ke_named : "" ∉ peers;
  ke_keys : NoDup (peer_key <$> peers);
  ke_no_collision : no_collision (keygen_session block) peers;
  ke_leader : is_Some (generators !! keygen_leader);
}.

Lemma generators_spec id p k c :
  keygen_event → generators !! id = Some (p, k, c) →
  ∃ n, nodes !! id = Some n ∧ p = kn_peers n ∧ c = "" ∧ (∀ key, kn_keyshare n = Ok key → Threshold key = 0%Z) ∧
    k = NewKeygen (keygen_session block) (kn_threshold n) (kn_peers n) ∧ keygen_peerstore id = p.
Proof.
  intros Hev. rw /generators lookup_omap. intros (n & Hn & Hk)%bind_Some.
  apply keygen_of_spec in Hk as (-> & -> & Hkey & l & logs & Hf & ->). exists n.
  rw (ke_block Hev _ _ _ _ Hn Hf). split_and!; try done. by rw /keygen_peerstore Hn.
Qed.

Lemma keygen_one_session :
  keygen_event → one_session generators keygen_peerstore keygen_leader (keygen_session block).
Proof.
  intros Hev. assert (keygen_leader ∈ peers) as Hl.
  { apply Coordinator_elem_of. destruct (ke_leader Hev) as [[[p k] c] Hl].
    apply generators_spec in Hl as (n & Hn & _); [|done]. destruct (ke_peers Hev _ _ Hn) as [_ Hin].
    intros Hp. rw Hp in Hin. by apply not_elem_of_nil in Hin. }
  split; [by intros Heq; rw Heq in Hl; apply (ke_named Hev)|]. split; [exact (ke_leader Hev)|].
  intros id [p k] c Hid. apply generators_spec in Hid as (n & Hn & -> & -> & _ & -> & _); [|done].
  split_and!; [done|done|left]. rw joined_coordinator. simpl. apply elected_same; [apply (ke_no_collision Hev)|].
  symmetry. by destruct (ke_peers Hev _ _ Hn).
Qed.

Lemma keygen_counted net q :
  keygen_event → network_reachable generators keygen_peerstore net → counted keygen_leader net q → q ∈ peers.
Proof.
  intros Hev Hr Hq. pose proof (keygen_one_session Hev) as Hone.
  pose proof (network_reachable_inv _ _ _ _ _ Hone Hr) as Hinv. destruct (ke_leader Hev) as [[[p k] c] Hl].
  apply generators_spec in Hl as (n & Hn & _ & _ & _ & _ & _); [|done]. destruct (ke_peers Hev _ _ Hn) as [Hp Hin].
  destruct (counted_known _ _ _ _ _ _ Hinv Hq) as [->|[[[[p' k'] c'] Hr']|Hr']]; [done| |].
  - apply generators_spec in Hr' as (n' & Hn' & _); [|done]. by destruct (ke_peers Hev _ _ Hn').
  - rw /keygen_peerstore Hn /= Hp in Hr'. done.
Qed.

(** C11: one event, one key.  When relayers that know the same peers handle
    the event that starts key generation, each with the coordinator it
    elects: they run one session of the event's block; no relayer takes part
    that holds a key; in every state that the session can reach on the
    network, any two relayers that have made a party made it of the same
    parties, one for each peer, under the same session number, each with the
    threshold it was configured with and its own place among the parties;
    and by then every peer has told the leader that it is ready: no key is
    generated that some relayer has no share of. *)
Theorem keygen_event_agreement (net : network) (r1 r2 : PeerID) (n1 n2 : keygen_node) (m1 m2 : member)
    (parties1 parties2 : list PartyID) (me1 me2 : option PartyID) (c1 c2 t1 t2 num1 num2 : Z) :
  keygen_event → network_reachable generators keygen_peerstore net →
  nodes !! r1 = Some n1 → nodes !! r2 = Some n2 →
  members net !! r1 = Some m1 → members net !! r2 = Some m2 →
  KgNewLocalParty parties1 me1 c1 t1 num1 ∈ mb_actions m1 →
  KgNewLocalParty parties2 me2 c2 t2 num2 ∈ mb_actions m2 →
  parties1 = parties2 ∧ c1 = c2 ∧ num1 = num2 ∧ t1 = kn_threshold n1 ∧
  party_Id <$> parties1 ≡ₚ peer_String <$> peers ∧
  (∃ me, me1 = Some me ∧ me ∈ parties1 ∧ party_Id me = peer_String r1) ∧
  (∀ key, kn_keyshare n1 = Ok key → Threshold key = 0%Z) ∧
  ∀ q, q ∈ peers → q = keygen_leader ∨
    ∃ b, arrives generators keygen_peerstore net q keygen_leader TssReadyMsg (keygen_session block) b.
Proof.
  intros Hev Hr Hn1 Hn2 Hm1 Hm2 Hp1 Hp2. pose proof (keygen_one_session Hev) as Hone.
  pose proof (network_reachable_inv _ _ _ _ _ Hone Hr) as Hinv.
  destruct (ke_leader Hev) as [[[pl kl] cl] Hl].
  destruct (generators_spec _ _ _ _ Hev Hl) as (nl & Hnl & -> & _).
  destruct (member_joined _ _ _ _ _ _ _ Hinv Hm1) as (([p1' k1] & c1') & Hg1).
  destruct (member_joined _ _ _ _ _ _ _ Hinv Hm2) as (([p2' k2] & c2') & Hg2).
  destruct (generators_spec _ _ _ _ Hev Hg1) as (n1' & Hn1' & -> & -> & Hkey & -> & _). rw Hn1 in Hn1'. injection Hn1' as <-.
  destruct (generators_spec _ _ _ _ Hev Hg2) as (n2' & Hn2' & -> & -> & _ & -> & _). rw Hn2 in Hn2'. injection Hn2' as <-.
  destruct (ke_peers Hev _ _ Hn1) as [Hps1 Hin1], (ke_peers Hev _ _ Hn2) as [Hps2 _], (ke_peers Hev _ _ Hnl) as [Hpl _].
  edestruct keygen_agreement as (? & ? & ? & ? & Hids & ? & Hready); [exact Hone|exact Hr|exact Hl| |exact Hg1|exact Hg2| | | |exact Hm1|exact Hm2|exact Hp1|exact Hp2|].
  - intros q Hq. rw Hpl. by eapply keygen_counted.
  - by rw Hps1.
  - rw Hps1. exact (ke_keys Hev).
  - by rw Hps1.
  - split_and!; try done; [by rw Hids Hps1|]. intros q Hq. apply Hready. by rw Hpl.
Qed.
(** C12: a key generation can always start.  In every state that the session
    of the event can reach: if the leader has not started and the other peers
    wait, not all of them counted yet, there is a run of the network after
    which all of them have made their party and wait for the key. *)
Theorem keygen_event_can_start (net : network) (s : list PeerID * Keygen) (st : initiate_state) (W : list PeerID) :
  keygen_event → network_reachable generators keygen_peerstore net →
  leads keygen_leader net s st → ticking st = true → keygen_leader :: W ≡ₚ peers →
  (∀ w, w ∈ W → waits keygen_leader net w) → (∃ w, w ∈ W ∧ w ∉ readyPeers st) →
  ∃ net', rtc (network_step generators keygen_peerstore) net net' ∧ ∀ r, r ∈ peers → generating net' r.
Proof.
  intros Hev Hr Hlead Htick HW Hwait Hmiss. pose proof (keygen_one_session Hev) as Hone.
  pose proof (network_reachable_inv _ _ _ _ _ Hone Hr) as Hinv.
  destruct (leads_joined _ _ _ _ _ _ _ Hinv Hlead) as [c Hl]. destruct s as [p k].
  destruct (generators_spec _ _ _ _ Hev Hl) as (n & Hn & Heq & _ & _ & _ & Hps). rw -Hps in Hlead.
  destruct (ke_peers Hev _ _ Hn) as [Hp _]. rw -Heq -Hps in Hp.
  destruct (keygen_can_start generators keygen_peerstore _ _ net k st W Hone Hr) as (net' & Hr' & Hall); try done.
  - apply (NoDup_fmap_1 peer_key). rw Hp. exact (ke_keys Hev).
  - by rw Hp.
  - intros q Hq. rw Hp. by eapply keygen_counted, leads_counted.
  - exists net'. split; [done|]. intros r Hin. apply Hall. by rw Hp.
Qed.
End keygen.

(** ** Resharing *)

(** The ciphertext that a relayer fetches. *)
Definition fetched (get : result (result bytes)) : option bytes :=
  match get with
  | Ok (Ok body) => hex.DecodeString (strings.TrimSuffix (string_of body) "010"%char)
  | _ => None
  end.

(** An expected hash is the hash of one topology. *)
Lemma FetchTopology_same `{PeerLib, AesBlock, Sha256, AddrLib, AddrInfoJson} key get get' hash t t' :
  hash ≠ "" → FetchTopology key get hash = Done (Ok t) → FetchTopology key get' hash = Done (Ok t') →
  (∀ ct ct', fetched get = Some ct → fetched get' = Some ct' → sha256 ct = sha256 ct' → ct = ct') →
  t = t'.
Proof.
  intros Hne. rw /FetchTopology /fetched.
  destruct get as [[body|]|]; [|done..]. destruct (hex.DecodeString _) as [ct|] eqn:E; [|done].
  destruct get' as [[body'|]|]; [|done..]. destruct (hex.DecodeString (_ (string_of body') _)) as [ct'|] eqn:E'; [|done].
  rw (bool_decide_false (hash = "")) //=.
  case_bool_decide as Hh; [|done]. case_bool_decide as Hh'; [|done]. simpl. intros Ht Ht' Hct.
  assert (ct = ct') as ->.
  { apply Hct; [done..|]. rw -Hh' in Hh. apply (f_equal hex.DecodeString) in Hh.
    rw !hex.DecodeString_EncodeToString in Hh. by injection Hh. }
  rw Ht' in Ht. by injection Ht.
Qed.

Section resharing.
Context {SaveData : Type} (emptyKey : SaveData) (UnpackRefresh : bytes → result Refresh).
Context `{PeerLib, Keccak, TssLib, AesBlock, Sha256, AddrLib, AddrInfoJson, SaveDataJson SaveData}.
Abbreviation Resharing := (@Resharing SaveData).

(** What a relayer finds when it handles the event. *)
Record refresh_node := {
  rn_env : refresh_env;
  rn_logs : string → result (list Log);
}.

Definition executed_resharing (acts : list (listener_action (SaveData := SaveData))) : option Resharing :=
  head (omap (λ a, match a with ExecuteResharing r => Some r | _ => None end) acts).

(** What it calls [Execute] with. *)
Definition resharing_of (n : refresh_node) : option (list PeerID * Resharing * PeerID) :=
  r ← executed_resharing (events (HandleRefresh emptyKey (rn_env n) (rn_logs n) UnpackRefresh));
  Some (rf_peers_after (rn_env n), r, "").

(** The keyshare and the topology of a relayer. *)
Definition node_keyshare (n : refresh_node) : result (ECDSAKeyshare SaveData) :=
  GetKeyshare (rf_keyshare_fs (rn_env n)) (rf_store (rn_env n)).
Definition node_topology (n : refresh_node) (ev : Refresh) : outcome (result NetworkTopology) :=
  FetchTopology (rf_key (rn_env n)) (rf_get (rn_env n)) (Hash_ ev).

Lemma executed_resharing_spec acts r : executed_resharing acts = Some r → ExecuteResharing r ∈ acts.
Proof.
  rw /executed_resharing. intros Hr%head_Some_elem_of.
  apply list_elem_of_omap in Hr as (a & Ha & Heq). by destruct a; simplify_eq.
Qed.

Lemma resharing_of_spec n p k c :
  resharing_of n = Some (p, k, c) →
  p = rf_peers_after (rn_env n) ∧ c = "" ∧
  ∃ ev l topology, FetchRefreshEvents (rn_logs n) UnpackRefresh = Ok (Some (ev, l)) ∧
    node_topology n ev = Done (Ok topology) ∧ rs_newThreshold k = nt_Threshold topology ∧
    SID (rs_base k) = resharing_session (log_BlockNumber l) ∧
    (node_keyshare n = Ok (rs_key k) ∨
     is_ok (node_keyshare n) = false ∧ Threshold (rs_key k) = 0%Z ∧ Peers (rs_key k) = []).
Proof.
  rw /resharing_of. destruct (executed_resharing _) as [k'|] eqn:E; [|done]. intros [= <- <- <-].
  split_and!; [done..|]. apply executed_resharing_spec, refresh_executes in E as
    (ev & l & topology & file & ks & Hf & Ht & _ & _ & _ & Hn).
  exists ev, l, topology. destruct (NewResharing_fields _ _ _ _ _ _ _ _ Hn) as [? ?]. split_and!; try done.
  by destruct (NewResharing_key _ _ _ _ _ _ _ _ Hn) as [?|[? ->]]; [left|right].
Qed.
Context (nodes : gmap PeerID refresh_node) (ev : Refresh) (block : Z).
Context (topology : NetworkTopology) (committee : list PeerID).
Definition resharers : gmap PeerID (list PeerID * Resharing * PeerID) := omap resharing_of nodes.
Definition refresh_peerstore (id : PeerID) : list PeerID := default [] ((λ n, rf_peers_after (rn_env n)) <$> nodes !! id).
Definition topology_peers : list PeerID := ai_ID <$> nt_Peers topology.
Definition holders : list PeerID := filter (λ p, p ∈ committee) topology_peers.
Definition refresh_leader : PeerID := Coordinator (resharing_session block) holders.

(** The relayers that find an event find this one, which names a topology by
    its hash; what they fetch under this hash does not collide.  Their
    peerstores are those of the topology once it is loaded.  The relayers of
    the committee hold a keyshare with these peers, the others none; and if
    one of them takes part, all peers of the topology are such relayers. *)
Record refresh_event : Prop := {
  re_event id n ev' l : nodes !! id = Some n → FetchRefreshEvents (rn_logs n) UnpackRefresh = Ok (Some (ev', l)) →
    ev' = ev ∧ log_BlockNumber l = block;
  re_hash : Hash_ ev ≠ "";
  re_topology : ∃ id n, nodes !! id = Some n ∧ node_topology n ev = Done (Ok topology);
  re_key id n id' n' : nodes !! id = Some n → nodes !! id' = Some n' → rf_key (rn_env n) = rf_key (rn_env n');
  re_digest id n id' n' ct ct' : nodes !! id = Some n → nodes !! id' = Some n' →
    fetched (rf_get (rn_env n)) = Some ct → fetched (rf_get (rn_env n')) = Some ct' →
    sha256 ct = sha256 ct' → ct = ct';
  re_peers id n : nodes !! id = Some n → rf_peers_after (rn_env n) ≡ₚ topology_peers ∧ id ∈ topology_peers;
  re_named : "" ∉ topology_peers;
  re_committee : Forall peer_valid committee;
  re_keys : NoDup (peer_key <$> topology_peers);
  re_no_collision : no_collision (resharing_session block) topology_peers;
  re_keyshare id n : nodes !! id = Some n →
    match node_keyshare n with
    | Ok key => id ∈ committee ∧ Peers key ≡ₚ committee
    | Err _ => id ∉ committee ∧ ∀ q, q ∈ topology_peers → is_Some (resharers !! q)
    end;
  re_leader : is_Some (resharers !! refresh_leader);
}.

Context (Hev : refresh_event).

Lemma node_topology_same id n t : nodes !! id = Some n → node_topology n ev = Done (Ok t) → t = topology.
Proof.
  intros Hn Ht. destruct (re_topology Hev) as (id' & n' & Hn' & Ht').
  rw /node_topology (re_key Hev _ _ _ _ Hn Hn') in Ht.
  eapply FetchTopology_same; [exact (re_hash Hev)|exact Ht|exact Ht'|]. intros ct ct'. by eapply re_digest.
Qed.

Lemma resharers_spec id p k c :
  resharers !! id = Some (p, k, c) →
  ∃ n, nodes !! id = Some n ∧ p = rf_peers_after (rn_env n) ∧ c = "" ∧ refresh_peerstore id = p ∧
    p ≡ₚ topology_peers ∧ id ∈ topology_peers ∧
    rs_newThreshold k = nt_Threshold topology ∧ SID (rs_base k) = resharing_session block ∧
    (node_keyshare n = Ok (rs_key k) ∧ id ∈ committee ∧ Peers (rs_key k) ≡ₚ committee ∨
     id ∉ committee ∧ Threshold (rs_key k) = 0%Z ∧ Peers (rs_key k) = [] ∧
       ∀ q, q ∈ topology_peers → is_Some (resharers !! q)).
Proof.
  rw /resharers lookup_omap. intros (n & Hn & Hk)%bind_Some.
  apply resharing_of_spec in Hk as (-> & -> & ev' & l & t & Hf & Ht & Hth & Hsid & Hkey).
  destruct (re_event Hev _ _ _ _ Hn Hf) as [-> Hb]. rw Hb in Hsid.
  rw (node_topology_same _ _ _ Hn Ht) in Hth. destruct (re_peers Hev _ _ Hn) as [Hp Hin].
  exists n. split_and!; try done; [by rw /refresh_peerstore Hn|]. pose proof (re_keyshare Hev _ _ Hn) as Hks.
  destruct Hkey as [Hkey|(Hkey & ? & ?)]; rewrite ?Hkey in Hks |- *; [by left|right].
  destruct (node_keyshare n); [done|]. destruct Hks. by split_and!.
Qed.

(** Whom a relayer with a keyshare may elect. *)
Lemma holders_elected p (k : Resharing) :
  p ≡ₚ topology_peers → Peers (rs_key k) ≡ₚ committee → ValidCoordinators p k ≡ₚ holders.
Proof.
  intros Hp Hk. rw /ValidCoordinators /holders Hp. apply Permutation_refl'. apply list_filter_iff.
  intros q. rw existsb_exists -Hk. split.
  - intros (q' & Hq%list_elem_of_In & Heq%bool_decide_eq_true). by apply (inj peer_String) in Heq as <-.
  - intros Hq. exists q. by rw -list_elem_of_In bool_decide_true.
Qed.

Lemma read_keyshare_wf n key : node_keyshare n = Ok key → Forall peer_valid (Peers key) → key_wf key.
Proof.
  rw /node_keyshare /GetKeyshare. destruct (ReadFile _ _) as [kb|]; [|done].
  destruct (Unmarshal kb) as [key'|] eqn:E; [|done]. intros [= ->] Hv. apply json_Unmarshal_typed in E.
  revert E. simpl. rw /go.fields_typed. repeat setoid_rewrite List.Forall_cons_iff. simpl. intros E. destruct_and! E.
  by split.
Qed.

Lemma leader_holds : refresh_leader ∈ committee ∧ refresh_leader ∈ topology_peers.
Proof.
  apply (list_elem_of_filter (λ p, p ∈ committee)), Coordinator_elem_of. intros Hh.
  destruct (re_leader Hev) as [[[p k] c] Hl]. rw /refresh_leader /holders Hh in Hl.
  apply resharers_spec in Hl as (n & _ & _ & _ & _ & _ & Hin & _). by apply (re_named Hev).
Qed.

Lemma refresh_one_session : one_session resharers refresh_peerstore refresh_leader (resharing_session block).
Proof.
  destruct leader_holds as [Hlc Hlp].
  split; [by intros Heq; rw Heq in Hlp; apply (re_named Hev)|]. split; [exact (re_leader Hev)|].
  intros id [p k] c Hid. apply resharers_spec in Hid as (n & Hn & _ & -> & Hps & Hp & Hin & _ & Hsid & Hkey).
  rw joined_coordinator. simpl. rw Hsid. destruct Hkey as [(Hkey & _ & Hpk)|(Hid & Ht & Hpk & Hall)]; (split_and!; [|done|]).
  - apply (read_keyshare_wf n); [done|]. rw Hpk. exact (re_committee Hev).
  - left. apply elected_same; [|by symmetry; apply holders_elected].
    intros q q' [_ Hq]%list_elem_of_filter [_ Hq']%list_elem_of_filter. by apply (re_no_collision Hev).
  - rw /key_wf Ht Hpk. by split.
  - right. rw /ValidCoordinators Hpk. split_and!; [|by intros ->|by intros ->; apply (re_named Hev)|].
    + destruct (filter _ p) as [|x xs] eqn:E; [done|].
      assert (x ∈ x :: xs) as Hx by by left. rw -E in Hx. by apply list_elem_of_filter in Hx as [? _].
    + intros q. rw Hps Hp. apply Hall.
Qed.

Lemma refresh_counted net q :
  network_reachable resharers refresh_peerstore net → counted refresh_leader net q → q ∈ topology_peers.
Proof.
  intros Hr Hq. pose proof refresh_one_session as Hone.
  pose proof (network_reachable_inv _ _ _ _ _ Hone Hr) as Hinv. destruct (re_leader Hev) as [[[p k] c] Hl].
  apply resharers_spec in Hl as (n & _ & _ & _ & Hps & Hp & Hin & _).
  destruct (counted_known _ _ _ _ _ _ Hinv Hq) as [->|[[[[p' k'] c'] Hr']|Hr']]; [done| |by rw Hps Hp in Hr'].
  by apply resharers_spec in Hr' as (n' & _ & _ & _ & _ & _ & ? & _).
Qed.

(** A relayer of the session, with what it handled. *)
Lemma resharer (net : network) r n (m : member) :
  network_reachable resharers refresh_peerstore net → nodes !! r = Some n → members net !! r = Some m →
  ∃ p k, resharers !! r = Some (p, k, "") ∧ p ≡ₚ topology_peers ∧ rs_newThreshold k = nt_Threshold topology.
Proof.
  intros Hr Hn Hm. pose proof (network_reachable_inv _ _ _ _ _ refresh_one_session Hr) as Hinv.
  destruct (member_joined _ _ _ _ _ _ _ Hinv Hm) as (([p k] & c) & Hg).
  destruct (resharers_spec _ _ _ _ Hg) as (n' & _ & _ & -> & _ & Hp & _ & Hth & _).
  by exists p, k.
Qed.

(** C9: one event, one resharing.  When relayers handle the event that
    publishes a topology, each with the topology it fetches, the keyshare it
    finds and the coordinator it can elect (newcomers can elect none): in
    every state that the session can reach on the network, any two relayers
    that have set up the resharing did it with the same old parties, those
    of the committee that the topology keeps, the same old threshold, the
    same new parties and the threshold of the topology; and by then every
    peer of the topology has told the leader that it is ready. *)
Theorem refresh_event_agreement (net : network) (r1 r2 : PeerID) (n1 n2 : refresh_node) (m1 m2 : member)
    (old1 old2 new1 new2 : list PartyID) (me1 me2 : option PartyID)
    (oc1 oc2 ot1 ot2 nc1 nc2 nt1 nt2 : Z) :
  network_reachable resharers refresh_peerstore net →
  nodes !! r1 = Some n1 → nodes !! r2 = Some n2 →
  members net !! r1 = Some m1 → members net !! r2 = Some m2 →
  RsNewReSharingParameters old1 new1 me1 oc1 ot1 nc1 nt1 ∈ mb_actions m1 →
  RsNewReSharingParameters old2 new2 me2 oc2 ot2 nc2 nt2 ∈ mb_actions m2 →
  old1 = old2 ∧ oc1 = oc2 ∧ ot1 = ot2 ∧ new1 = new2 ∧ nc1 = nc2 ∧
  nt1 = nt_Threshold topology ∧ nt2 = nt_Threshold topology ∧
  old1 = PartiesFromPeers (slices.Sort (PeersIntersection committee topology_peers)) ∧
  ∀ q, q ∈ topology_peers → q = refresh_leader ∨
    ∃ b, arrives resharers refresh_peerstore net q refresh_leader TssReadyMsg (resharing_session block) b.
Proof.
  intros Hr Hn1 Hn2 Hm1 Hm2 Hp1 Hp2. destruct (re_leader Hev) as [[[pl kl] cl] Hl].
  destruct (resharers_spec _ _ _ _ Hl) as (nl & _ & _ & _ & _ & Hpl & _ & _ & _ & Hkl).
  destruct (resharer _ _ _ _ Hr Hn1 Hm1) as (p1 & k1 & Hg1 & Hps1 & Ht1).
  destruct (resharer _ _ _ _ Hr Hn2 Hm2) as (p2 & k2 & Hg2 & Hps2 & Ht2).
  destruct (resharing_agreement resharers refresh_peerstore _ _ net r1 r2 m1 m2 old1 old2 new1 new2 me1 me2
    oc1 oc2 ot1 ot2 nc1 nc2 nt1 nt2 pl p1 p2 kl k1 k2 cl "" "" refresh_one_session Hr Hl) as
    (-> & -> & -> & Hold & _ & _ & Hnt1 & Hnt2 & Hnew & Hready); [|done..|].
  { intros q Hq. rw Hpl. by eapply refresh_counted. }
  destruct Hnew as [-> ->]; [by rw Hps1|rw Hps1; exact (re_keys Hev)|].
  split_and!; try done; [by rw Hnt1|by rw Hnt2|..].
  - rw Hold. f_equal. apply slices.Sort_eq_perm. destruct leader_holds as [Hlc _].
    destruct Hkl as [(_ & _ & Hk)|[? _]]; [|done]. rw /PeersIntersection Hk.
    apply Permutation_refl'. apply list_filter_iff. intros q. by rw Hpl.
  - intros q Hq. apply Hready. by rw Hpl.
Qed.

(** C10: a resharing can always start.  In every state that the session of the
    event can reach, whatever has been lost, delayed or sent by others: if
    the leader has not started and the other peers of the topology wait, not
    all of them counted yet, there is a run of the network after which all of
    them have set up the resharing and wait for the new key, as long as the
    topology keeps as many of the committee as the old threshold asks for:
    no relayer, newcomer or not, refuses the start parameters or panics. *)
Theorem refresh_event_can_start (net : network) (n : refresh_node) (key : ECDSAKeyshare SaveData)
    (s : list PeerID * Resharing) (st : initiate_state) (W : list PeerID) :
  network_reachable resharers refresh_peerstore net →
  nodes !! refresh_leader = Some n → node_keyshare n = Ok key →
  (0 < Threshold key ≤ Z.of_nat (length (PeersIntersection committee topology_peers)))%Z →
  NoDup committee → Forall peer_valid topology_peers →
  leads refresh_leader net s st → ticking st = true → refresh_leader :: W ≡ₚ topology_peers →
  (∀ w, w ∈ W → waits refresh_leader net w) → (∃ w, w ∈ W ∧ w ∉ readyPeers st) →
  ∃ net', rtc (network_step resharers refresh_peerstore) net net' ∧ ∀ r, r ∈ topology_peers → resharing net' r.
Proof.
  intros Hr Hn Hkey Hth Hnd Hval Hlead Htick HW Hwait Hmiss.
  pose proof (network_reachable_inv _ _ _ _ _ refresh_one_session Hr) as Hinv.
  destruct (leads_joined _ _ _ _ _ _ _ Hinv Hlead) as [c Hl]. destruct s as [p k].
  destruct (resharers_spec _ _ _ _ Hl) as (n' & Hn' & _ & _ & Hps & Hp & _ & _ & _ & Hk).
  rw Hn in Hn'. injection Hn' as <-. rw -Hps in Hlead Hp. destruct leader_holds as [Hlc _].
  destruct Hk as [(Hk & _ & Hpk)|[? _]]; [|done]. rw Hkey in Hk. injection Hk as ->.
  destruct (resharing_can_start resharers refresh_peerstore _ _ net k st W refresh_one_session Hr) as (net' & Hr' & Hall);
    try done.
  - apply (NoDup_fmap_1 peer_key). rw Hp. exact (re_keys Hev).
  - by rw Hp.
  - by rw Hp.
  - intros q Hq. rw Hp. by eapply refresh_counted, leads_counted.
  - by rw Hpk.
  - split; [lia|]. erewrite Permutation_length; [exact (proj2 Hth)|]. rw /PeersIntersection Hpk.
    apply Permutation_refl'. apply list_filter_iff. intros q. by rw Hp.
  - intros r p' k' c' Hg. apply resharers_spec in Hg as (n' & _ & _ & _ & _ & Hp' & _ & _ & _ & Hk').
    split; [by rw Hp' Hp|]. destruct Hk' as [(_ & _ & Hpk')|(_ & _ & Hpk' & _)]; [right|by left]. by rw Hpk Hpk'.
  - exists net'. split; [done|]. intros r Hin. apply Hall. by rw Hp.
Qed.
End resharing.

Section witnesses.
Import Toy ToyJson.

Definition demo_answers : party_answers :=
  {| ans_NewParameters := None; ans_NewLocalParty := None; ans_Start := None |}.

Section processes.
Context {State Action Meaning : Type} `{Process State Action Meaning}.

(** [other] answers [leader], and both run. *)
Definition demo_schedule (leader other : PeerID) (params : bytes) : list choice :=
  [Join other; Join leader; Receive other (EvWait (WaitInit leader)); Receive leader (EvInitiate (InitReady other));
   RunNext leader demo_answers "sub" true;
   Receive other (EvWait (WaitStart leader (json_Marshal {| Params := params |})));
   RunNext other demo_answers "sub" true].

(** Whether both have done something that [f] accepts. *)
Definition both_acted (f : list Action → bool) (net : @network State Action) : bool :=
  match members net !! "a", members net !! "b" with
  | Some ma, Some mb => f (mb_actions ma) && f (mb_actions mb)
  | _, _ => false
  end.

Lemma both_acted_spec f (net : @network State Action) :
  both_acted f net = true →
  ∃ ma mb, members net !! "a" = Some ma ∧ members net !! "b" = Some mb ∧
    f (mb_actions ma) = true ∧ f (mb_actions mb) = true.
Proof.
  rw /both_acted. destruct (members net !! "a") as [ma|]; [|done].
  destruct (members net !! "b") as [mb|]; [|done]. intros [??]%andb_true_iff. by exists ma, mb.
Qed.

(** The leader has not started, and the other waits. *)
Definition about_to_start (leader other : PeerID) (net : @network State Action) : bool :=
  match members net !! leader, members net !! other with
  | Some m, Some w =>
      match ex_loop (mb_execution m), ex_start (mb_execution m), ex_start (mb_execution w) with
      | Initiating st, None, None =>
          bool_decide (readyPeers st = [leader]) && ticking st && pr_fresh (mb_process m) && pr_fresh (mb_process w)
      | _, _, _ => false
      end
  | _, _ => false
  end.

Lemma about_to_start_spec leader other (net : @network State Action) :
  other ≠ leader → about_to_start leader other net = true →
  waits leader net other ∧
  ∃ s st, leads leader net s st ∧ readyPeers st = [leader] ∧ ticking st = true.
Proof.
  rw /about_to_start. intros Hne. destruct (members net !! leader) as [m|] eqn:Em; [|done].
  destruct (members net !! other) as [w|] eqn:Ew; [|done].
  destruct (ex_loop (mb_execution m)) as [st|] eqn:El; [|done].
  destruct (ex_start (mb_execution m)) eqn:Es, (ex_start (mb_execution w)) eqn:Esw; try done.
  intros [[[Hst%bool_decide_eq_true Ht]%andb_true_iff Hf]%andb_true_iff Hfw]%andb_true_iff. split.
  - split; [done|]. by exists w.
  - exists (mb_process m), st. split; [|done]. by exists m.
Qed.
End processes.

(** The event is found in block 7. *)
Definition demo_found (event : string) : result (list Log) := Ok [demo_event].

(** Neither [a] nor [b] has a key. *)
Definition demo_keygen_node (peers : list PeerID) : keygen_node (SaveData := unit) :=
  {| kn_keyshare := Err (Errorf "no such file"); kn_logs := demo_found; kn_threshold := 1; kn_peers := peers |}.
Definition demo_keygen_nodes : gmap PeerID keygen_node :=
  {["a" := demo_keygen_node ["a"; "b"]; "b" := demo_keygen_node ["b"; "a"]]}.

Lemma demo_collisions sid :
  bool_decide (sort_key {| ID := "a"; SessionID := sid |} = sort_key {| ID := "b"; SessionID := sid |}) = false →
  no_collision sid ["a"; "b"].
Proof.
  intros Hne%bool_decide_eq_false p q Hp Hq. elem_cases Hp; elem_cases Hq; try done; by intros Heq; exfalso; apply Hne.
Qed.

Lemma demo_keys : NoDup (peer_key <$> ["a"; "b"]).
Proof. apply (bool_decide_unpack _). by vm_compute. Qed.

Lemma demo_keygen_event : keygen_event demo_keygen_nodes 7 ["a"; "b"].
Proof.
  assert (∀ id n, demo_keygen_nodes !! id = Some n →
    kn_logs n = demo_found ∧ kn_peers n ≡ₚ ["a"; "b"] ∧ id ∈ ["a"; "b"]) as Hn.
  { intros id n. rw /demo_keygen_nodes lookup_insert_Some. intros [[<- <-]|[_ [<- <-]%lookup_singleton_Some]].
    - split_and!; [done..|by left].
    - split_and!; [done|apply Permutation_swap|right; by left]. }
  split.
  - intros id n l logs (-> & _)%Hn [= <- _]. done.
  - intros id n (_ & ? & ?)%Hn. done.
  - intros Hin. by elem_cases Hin.
  - apply demo_keys.
  - apply demo_collisions. by vm_compute.
  - apply (bool_decide_unpack _). by vm_compute.
Qed.

Definition made_party (acts : list keygen_action) : bool :=
  existsb (λ a, match a with KgNewLocalParty _ _ _ _ _ => true | _ => false end) acts.

Lemma made_party_spec acts :
  made_party acts = true → ∃ parties me n t num, KgNewLocalParty parties me n t num ∈ acts.
Proof.
  intros (a & Ha & Hk)%existsb_exists. destruct a; try done. do 5 eexists. by apply list_elem_of_In.
Qed.

Definition demo_generators := generators demo_keygen_nodes.
Definition demo_keygen_peers := keygen_peerstore demo_keygen_nodes.

Lemma keygen_event_agreement_witness :
  ∃ net ma mb parties me n t num me' n' t' num',
    network_reachable demo_generators demo_keygen_peers net ∧
    members net !! "a" = Some ma ∧ members net !! "b" = Some mb ∧
    KgNewLocalParty parties me n t num ∈ mb_actions ma ∧
    KgNewLocalParty parties me' n' t' num' ∈ mb_actions mb.
Proof.
  set (schedule := demo_schedule "b" "a" []).
  assert (match play demo_generators demo_keygen_peers empty_network schedule with
          | Some net => both_acted made_party net | None => false end = true) as Hok by (vm_compute; reflexivity).
  destruct (play demo_generators demo_keygen_peers empty_network schedule) as [net|] eqn:E; [|done].
  apply play_steps in E. destruct (both_acted_spec _ _ Hok) as (ma & mb & Hma & Hmb & Ha & Hb).
  destruct (made_party_spec _ Ha) as (ps1 & me1 & n1 & t1 & num1 & Hp1).
  destruct (made_party_spec _ Hb) as (ps2 & me2 & n2 & t2 & num2 & Hp2).
  destruct (keygen_event_agreement demo_keygen_nodes 7 ["a"; "b"] net "a" "b" _ _ ma mb ps1 ps2 me1 me2 n1 n2 t1 t2
    num1 num2 demo_keygen_event E eq_refl eq_refl Hma Hmb Hp1 Hp2) as (Heq & _).
  exists net, ma, mb, ps1, me1, n1, t1, num1, me2, n2, t2, num2. split_and!; try done. by rewrite Heq.
Defined.

Lemma keygen_event_can_start_witness :
  ∃ net, network_reachable demo_generators demo_keygen_peers net ∧ generating net "a" ∧ generating net "b".
Proof.
  assert (match play demo_generators demo_keygen_peers empty_network [Join "a"; Join "b"] with
          | Some net => about_to_start "b" "a" net | None => false end = true) as Hok by (vm_compute; reflexivity).
  destruct (play demo_generators demo_keygen_peers empty_network [Join "a"; Join "b"]) as [net|] eqn:E; [|done].
  apply play_steps in E. apply about_to_start_spec in Hok as (Hw & s & st & Hl & Hst & Ht); [|done].
  destruct (keygen_event_can_start demo_keygen_nodes 7 ["a"; "b"] net s st ["a"] demo_keygen_event E Hl Ht)
    as (net' & Hr' & Hs).
  - apply Permutation_swap.
  - intros w Hin. by elem_cases Hin.
  - exists "a". split; [by left|]. rw Hst. intros Hin. by elem_cases Hin.
  - exists net'. split_and!; [rw /network_reachable; etrans; [exact E|exact Hr']|apply Hs; by left|apply Hs; right; by left].
Defined.

(** [a] holds the key, [b] is new; the event names the topology of both. *)
Definition demo_refresh : Refresh := {| Hash_ := hex.EncodeToString (sha256 demo_ciphertext) |}.
Definition demo_unpacked (data : bytes) : result Refresh := Ok demo_refresh.
Definition demo_share : ECDSAKeyshare unit := {| Key := tt; Threshold := 1; Peers := ["a"] |}.
Definition demo_node (peers : list PeerID) (file : option bytes) : refresh_node := {|
  rn_env := {|
    rf_get := Ok (Ok (bytes_of (hex.EncodeToString demo_ciphertext))); rf_key := demo_key;
    rf_fs := demo_fs; rf_file := None; rf_peers := ["a"]; rf_peers_after := peers;
    rf_keyshare_fs := demo_fs; rf_store := {| mu := false; Keyshare.file := file |} |};
  rn_logs := demo_found |}.
Definition demo_holder_node : refresh_node := demo_node ["a"; "b"] (Some (json_Marshal demo_share)).
Definition demo_new_node : refresh_node := demo_node ["b"; "a"] None.
Definition demo_nodes : gmap PeerID refresh_node := {["a" := demo_holder_node; "b" := demo_new_node]}.

Definition demo_resharers := resharers tt demo_unpacked demo_nodes.
Definition demo_refresh_peers := refresh_peerstore demo_nodes.

Lemma demo_nodes_cases id n :
  demo_nodes !! id = Some n → id = "a" ∧ n = demo_holder_node ∨ id = "b" ∧ n = demo_new_node.
Proof.
  rw /demo_nodes lookup_insert_Some. intros [[<- <-]|[_ [<- <-]%lookup_singleton_Some]]; auto.
Qed.

Lemma demo_keyshares :
  node_keyshare demo_holder_node = Ok demo_share ∧ is_ok (node_keyshare (SaveData := unit) demo_new_node) = false.
Proof. split; by vm_compute. Qed.

Lemma demo_refresh_event : refresh_event tt demo_unpacked demo_nodes demo_refresh 7 demo_topology ["a"].
Proof.
  assert (∀ id n, demo_nodes !! id = Some n →
    rn_logs n = demo_found ∧ rf_get (rn_env n) = Ok (Ok (bytes_of (hex.EncodeToString demo_ciphertext))) ∧
    rf_key (rn_env n) = demo_key ∧ rf_peers_after (rn_env n) ≡ₚ ["a"; "b"] ∧ id ∈ ["a"; "b"]) as Hn.
  { intros id n [[-> ->]|[-> ->]]%demo_nodes_cases; (split_and!; [done|done|done|..]).
    - done.
    - by left.
    - apply Permutation_swap.
    - right. by left. }
  split.
  - intros id n ev' l (-> & _)%Hn [= <- <-]. done.
  - by vm_compute.
  - exists "a", demo_holder_node. split; [done|]. by vm_compute.
  - intros id n id' n' (_ & _ & -> & _)%Hn (_ & _ & -> & _)%Hn. done.
  - intros id n id' n' ct ct' (_ & -> & _)%Hn (_ & -> & _)%Hn -> [= ->]. done.
  - intros id n (_ & _ & _ & ? & ?)%Hn. done.
  - rw /topology_peers /=. intros Hin. by elem_cases Hin.
  - by repeat constructor.
  - apply demo_keys.
  - apply demo_collisions. by vm_compute.
  - destruct demo_keyshares as [Ha Hb]. intros id n [[-> ->]|[-> ->]]%demo_nodes_cases; [rw Ha; split; [by left|done]|].
    destruct (node_keyshare demo_new_node); [done|]. split; [intros Hin; by elem_cases Hin|].
    rw /topology_peers /=. intros q Hq. elem_cases Hq; apply (bool_decide_unpack _); by vm_compute.
  - apply (bool_decide_unpack _). by vm_compute.
Qed.

Definition set_up (acts : list resharing_action) : bool :=
  existsb (λ a, match a with RsNewReSharingParameters _ _ _ _ _ _ _ => true | _ => false end) acts.

Lemma set_up_spec acts :
  set_up acts = true →
  ∃ old new me oc ot nc nt, RsNewReSharingParameters old new me oc ot nc nt ∈ acts.
Proof.
  intros (a & Ha & Hk)%existsb_exists. destruct a; try done. do 7 eexists. by apply list_elem_of_In.
Qed.

Lemma refresh_event_agreement_witness :
  ∃ net ma mb old new me oc ot nc nt me' oc' ot' nc' nt',
    network_reachable demo_resharers demo_refresh_peers net ∧
    members net !! "a" = Some ma ∧ members net !! "b" = Some mb ∧
    RsNewReSharingParameters old new me oc ot nc nt ∈ mb_actions ma ∧
    RsNewReSharingParameters old new me' oc' ot' nc' nt' ∈ mb_actions mb.
Proof.
  set (schedule := demo_schedule "a" "b" (json_Marshal {| OldThreshold := 1; OldSubset := ["a"] |})).
  assert (match play demo_resharers demo_refresh_peers empty_network schedule with
          | Some net => both_acted set_up net | None => false end = true) as Hok by (vm_compute; reflexivity).
  destruct (play demo_resharers demo_refresh_peers empty_network schedule) as [net|] eqn:E; [|done].
  apply play_steps in E. destruct (both_acted_spec _ _ Hok) as (ma & mb & Hma & Hmb & Ha & Hb).
  destruct (set_up_spec _ Ha) as (old1 & new1 & me1 & oc1 & ot1 & nc1 & nt1 & Hp1).
  destruct (set_up_spec _ Hb) as (old2 & new2 & me2 & oc2 & ot2 & nc2 & nt2 & Hp2).
  destruct (refresh_event_agreement tt demo_unpacked demo_nodes demo_refresh 7 demo_topology ["a"] demo_refresh_event
    net "a" "b" _ _ ma mb old1 old2 new1 new2 me1 me2 oc1 oc2 ot1 ot2 nc1 nc2 nt1 nt2 E eq_refl eq_refl Hma Hmb Hp1 Hp2)
    as (Heq & _ & _ & Heqn & _).
  exists net, ma, mb, old1, new1, me1, oc1, ot1, nc1, nt1, me2, oc2, ot2, nc2, nt2.
  split_and!; try done. by rewrite Heq Heqn.
Defined.

Lemma refresh_event_can_start_witness :
  ∃ net, network_reachable demo_resharers demo_refresh_peers net ∧ resharing net "a" ∧ resharing net "b".
Proof.
  assert (match play demo_resharers demo_refresh_peers empty_network [Join "a"; Join "b"] with
          | Some net => about_to_start "a" "b" net | None => false end = true) as Hok by (vm_compute; reflexivity).
  destruct (play demo_resharers demo_refresh_peers empty_network [Join "a"; Join "b"]) as [net|] eqn:E; [|done].
  apply play_steps in E. apply about_to_start_spec in Hok as (Hw & s & st & Hl & Hst & Ht); [|done].
  destruct (refresh_event_can_start tt demo_unpacked demo_nodes demo_refresh 7 demo_topology ["a"] demo_refresh_event
    net demo_holder_node demo_share s st ["b"] E eq_refl (proj1 demo_keyshares)) as (net' & Hr' & Hs); try done.
  - apply NoDup_singleton.
  - by repeat constructor.
  - intros w Hin. by elem_cases Hin.
  - exists "b". split; [by left|]. rw Hst. intros Hin. by elem_cases Hin.
  - exists net'. split_and!; [rw /network_reachable; etrans; [exact E|exact Hr']|apply Hs; by left|apply Hs; right; by left].
Defined.
End witnesses.
