(* ===== verification/KeyEpochs.v ===== *)
(** * From one committee to the next
      (src/chains/evm/listener, src/tss/ecdsa, src/keyshare)

    [KeyEvents] follows one event, for relayers whose keyshares name the
    current committee.  Here the keyshares that its session leaves behind are
    those that the next event asks for; and what becomes of a relayer whose
    keyshare names another committee. *)
From S2P Require Import Prelude GoStd Encoding Json Libs JsonCodec Comm PeerSort Topology P2P TssCommon Keyshare.
From S2P Require Import TssCoordinator Network Keygen.
From S2P Require Import Resharing KeySessions Listener KeyEvents.

(** What the processes of a session keep through every run, they have in all
    its states. *)
Section kept.
Context {State Action Meaning : Type} `{Process State Action Meaning}.
Context (relayers : gmap PeerID (State * PeerID)) (peerstore : PeerID → list PeerID).
Context (kept : PeerID → State → Prop).

Lemma process_kept net r m :
  (∀ r s c, relayers !! r = Some (s, c) → kept r s) →
  (∀ r ans sub s c params acts s' res, pr_run r ans sub s c params = Done (acts, s', res) → kept r s → kept r s') →
  network_reachable relayers peerstore net → members net !! r = Some m → kept r (mb_process m).
Proof.
  intros Hinit Hrun Hr. revert r m.
  refine (rtc_ind_r (λ net, ∀ r m, members net !! r = Some m → kept r (mb_process m)) _ _ _ _ Hr).
  - intros r m. by rw lookup_empty.
  - clear net Hr. intros net net' _ Hstep IH r m. destruct Hstep as
      [r' s c Hs _|r' m' ev ex Hm' _ _|r' m' before c params after ans sub acts s res sel Hm' _ Hdo|r' m' err sel Hm' _];
      simpl; rw lookup_insert_Some; intros [[<- <-]|[_ Hm]]; try by eapply IH.
    + simpl. by eapply Hinit.
    + simpl. by apply IH.
    + simpl. eapply Hrun; [exact Hdo|by apply IH].
    + simpl. by apply (IH r' m').
Qed.
End kept.

(** ** Keyshares of a committee *)
Section epochs.
Context {SaveData : Type} (emptyKey : SaveData) (UnpackRefresh : bytes → result Refresh).
Context `{PeerLib, Keccak, TssLib, AesBlock, Sha256, AddrLib, AddrInfoJson, SaveDataJson SaveData}.
Abbreviation Resharing := (@Resharing SaveData).

(** The keyshare that a relayer reads, when the committee is this. *)
Definition keyshare_of (committee : list PeerID) (threshold : Z) (id : PeerID)
    (keyshare : result (ECDSAKeyshare SaveData)) : Prop :=
  match keyshare with
  | Ok key => id ∈ committee ∧ Peers key ≡ₚ committee ∧ Threshold key = threshold
  | Err _ => id ∉ committee
  end.

Lemma Keygen_Run_keeps r peerstore ans sub k c params acts k' res :
  Keygen.Run r peerstore ans sub k c params = (acts, k', res) →
  base_Peers (kg_base k') = base_Peers (kg_base k) ∧ kg_threshold k' = kg_threshold k.
Proof.
  rw /Keygen.Run. destruct (Started (kg_base k)); [by intros [= _ <- _]|].
  by destruct (ans_NewParameters ans), (ans_NewLocalParty ans); intros [= _ <- _].
Qed.

Lemma Resharing_Run_keeps r peerstore ans sub (k : Resharing) c params acts k' res :
  Resharing.Run r peerstore ans sub k c params = Done (acts, k', res) →
  base_Peers (rs_base k') = base_Peers (rs_base k) ∧ rs_newThreshold k' = rs_newThreshold k.
Proof.
  rw /Resharing.Run. destruct (Started (rs_base k)); [by intros [= _ <- _]|].
  destruct (Resharing.unmarshallStartParams _ _ _) as [[start r1] err] eqn:E.
  apply unmarshallStartParams_key in E as (Hb & Hn & _). destruct err; [intros [= _ <- _]; by rw Hb Hn|].
  destruct (sortParties _ _); [|done]. simpl. destruct (deref_all _); [|done]. simpl.
  destruct (ans_NewParameters ans), (ans_NewLocalParty ans); intros [= _ <- _]; simpl; by rw Hb Hn.
Qed.

(** What a relayer's keyshare file holds once a session has made its key. *)
Definition stored_by_keygen (relayers : gmap PeerID (list PeerID * Keygen * PeerID))
    (peerstore : PeerID → list PeerID) (id : PeerID) (f : option bytes) : Prop :=
  ∃ net m p k fs ks ks' key acts, network_reachable relayers peerstore net ∧ members net !! id = Some m ∧
    mb_process m = (p, k) ∧ wf savedata_type key ∧
    Keygen.processEndMessage fs ks k (Some key) = (None, ks', acts) ∧ file ks' = f.
Definition stored_by_resharing (relayers : gmap PeerID (list PeerID * Resharing * PeerID))
    (peerstore : PeerID → list PeerID) (id : PeerID) (f : option bytes) : Prop :=
  ∃ net m p k fs ks ks' key acts, network_reachable relayers peerstore net ∧ members net !! id = Some m ∧
    mb_process m = (p, k) ∧ wf savedata_type key ∧
    Resharing.processEndMessage fs ks k (Some key) = (None, ks', acts) ∧ file ks' = f.

(** A stored keyshare is read back, whoever holds the lock by then. *)
Lemma stored_keyshare_read fs fs' ks ks' ks'' key threshold peers :
  StoreKeyshare fs ks (NewECDSAKeyshare key threshold peers) = (None, ks') → file ks'' = file ks' →
  read_error fs' = None → wf savedata_type key → (- 2 ^ 63 ≤ threshold < 2 ^ 63)%Z → Forall peer_valid peers →
  GetKeyshare fs' ks'' = Ok (NewECDSAKeyshare key threshold peers).
Proof.
  intros Hs Hf Hr Hkey Ht Hp.
  destruct (StoreKeyshare_GetKeyshare fs fs' ks ks' (NewECDSAKeyshare key threshold peers)) as [Hg _]; try done.
  rw -Hg /GetKeyshare /ReadFile. by rw Hf.
Qed.

Lemma keygen_of_base n p k c :
  keygen_of (SaveData := SaveData) n = Some (p, k, c) →
  base_Peers (kg_base k) = kn_peers n ∧ kg_threshold k = kn_threshold n.
Proof. intros (_ & _ & _ & l & logs & _ & ->)%keygen_of_spec. done. Qed.

Lemma resharing_of_base n p k c :
  resharing_of emptyKey UnpackRefresh n = Some (p, k, c) → base_Peers (rs_base k) = rf_peers_after (rn_env n).
Proof.
  rw /resharing_of. destruct (executed_resharing _) as [k'|] eqn:E; [|done]. intros [= _ <- _].
  apply executed_resharing_spec, refresh_executes in E as (ev & l & topology & file & ks & _ & _ & _ & _ & _ & Hn).
  rw /NewResharing in Hn. destruct (LockKeyshare _); [|done]. by injection Hn as <- _.
Qed.

(** A key generation makes its peers the first committee. *)
Theorem keygen_event_renews (nodes : gmap PeerID (keygen_node (SaveData := SaveData))) (block : Z)
    (peers : list PeerID) (id : PeerID) (n : keygen_node) (fs : fs_answers) (ks : ECDSAKeyshareStore) :
  keygen_event nodes block peers → nodes !! id = Some n → (- 2 ^ 63 ≤ kn_threshold n < 2 ^ 63)%Z →
  Forall peer_valid peers → stored_by_keygen (generators nodes) (keygen_peerstore nodes) id (file ks) →
  read_error fs = None → keyshare_of peers (kn_threshold n) id (GetKeyshare fs ks).
Proof.
  intros Hev Hn Ht Hv (net & m & p & k & fs0 & ks0 & ks' & key & acts & Hr & Hm & Hmb & Hkey & Hend & Hf) Hread.
  assert (∃ n', nodes !! id = Some n' ∧ base_Peers (kg_base k) = kn_peers n' ∧ kg_threshold k = kn_threshold n') as
    (n' & Hn' & Hb & Hth).
  { pose proof (process_kept (generators nodes) (keygen_peerstore nodes) (λ r s, ∃ n', nodes !! r = Some n' ∧
      base_Peers (kg_base s.2) = kn_peers n' ∧ kg_threshold s.2 = kn_threshold n') net id m) as Hkept.
    rw Hmb in Hkept. apply Hkept; [| |done|done].
    - intros r [p0 k0] c0. rw /generators lookup_omap. intros (n0 & Hn0 & Hk0)%bind_Some. exists n0.
      by apply keygen_of_base in Hk0.
    - intros r ans sub [p0 k0] c params acts0 [p1 k1] res. simpl.
      destruct (Keygen.Run r p0 ans sub k0 c params) as [[acts1 k2] res1] eqn:E. intros [= _ _ <- _].
      by destruct (Keygen_Run_keeps _ _ _ _ _ _ _ _ _ _ E) as [-> ->]. }
  rw Hn in Hn'. injection Hn' as <-. destruct (ke_peers _ _ _ Hev _ _ Hn) as [Hp Hin].
  simpl in Hend. rw Hb Hth in Hend. destruct (StoreKeyshare fs0 ks0 _) as [err ks1] eqn:E.
  injection Hend as -> -> _. rw (stored_keyshare_read _ fs _ _ ks _ _ _ E) //. by rw Hp.
Qed.

(** C15: each resharing prepares the next.  Every relayer that stores the key
    of a resharing stores it for the peers and the threshold of the topology
    that the event published: what the relayers read when the next event
    comes, those that stored the key and those that are new since, names the
    committee of the next resharing, the same for all, and a relayer reads a
    keyshare exactly if it belongs to this committee. *)
Theorem refresh_event_renews (nodes nodes' : gmap PeerID refresh_node) (ev : Refresh) (block : Z)
    (topology : NetworkTopology) (committee : list PeerID) :
  refresh_event emptyKey UnpackRefresh nodes ev block topology committee →
  (- 2 ^ 63 ≤ nt_Threshold topology < 2 ^ 63)%Z → Forall peer_valid (topology_peers topology) →
  (∀ id n, nodes' !! id = Some n →
    stored_by_resharing (resharers emptyKey UnpackRefresh nodes) (refresh_peerstore nodes) id (file (rf_store (rn_env n))) ∧
      read_error (rf_keyshare_fs (rn_env n)) = None ∨
    file (rf_store (rn_env n)) = None ∧ id ∉ topology_peers topology) →
  ∀ id n, nodes' !! id = Some n →
    keyshare_of (topology_peers topology) (nt_Threshold topology) id (node_keyshare n).
Proof.
  intros Hev Ht Hv Hnext id n' Hn'. destruct (Hnext _ _ Hn') as [[Hstored Hread]|[Hf Hid]]; last first.
  { rw /node_keyshare /GetKeyshare /ReadFile Hf. by destruct (read_error _). }
  destruct Hstored as (net & m & p & k & fs0 & ks0 & ks' & key & acts & Hr & Hm & Hmb & Hkey & Hend & Hf).
  assert (base_Peers (rs_base k) ≡ₚ topology_peers topology ∧ id ∈ topology_peers topology ∧
    rs_newThreshold k = nt_Threshold topology) as (Hb & Hin & Hth).
  { pose proof (process_kept (resharers emptyKey UnpackRefresh nodes) (refresh_peerstore nodes) (λ r s,
      base_Peers (rs_base s.2) ≡ₚ topology_peers topology ∧ r ∈ topology_peers topology ∧
      rs_newThreshold s.2 = nt_Threshold topology) net id m) as Hkept.
    rw Hmb in Hkept. apply Hkept; [| |done|done].
    - intros r [p0 k0] c0 Hk0. destruct (resharers_spec _ _ _ _ _ _ _ Hev _ _ _ _ Hk0) as (n & Hn & -> & _ & _ & Hp & Hin & Hth & _).
      rw /resharers lookup_omap Hn /= in Hk0. apply resharing_of_base in Hk0. simpl. by rw Hk0.
    - intros r ans sub [p0 k0] c params acts0 [p1 k1] res. simpl.
      destruct (Resharing.Run r p0 ans sub k0 c params) as [[[acts1 k2] res1]|] eqn:E; [|done]. intros [= _ _ <- _].
      by destruct (Resharing_Run_keeps _ _ _ _ _ _ _ _ _ _ E) as [-> ->]. }
  simpl in Hend. rw Hth in Hend. destruct (StoreKeyshare fs0 ks0 _) as [err ks1] eqn:E.
  injection Hend as -> -> _. rw /node_keyshare (stored_keyshare_read _ _ _ _ _ _ _ _ E) //; by rw Hb.
Qed.

(** C37: a relayer that left and comes back blocks the resharing.  Its
    keyshare names the committee it was in: though the topology has it again,
    it refuses the start parameters of a leader whose keyshare does not name
    it, makes no party and reports an error, while the leader starts only
    with every peer of its peerstore. *)
Theorem rejoined_relayer_refuses (self : PeerID) (peerstore peerstore' ready : list PeerID)
    (leader r : Resharing) (ans : party_answers) (subID : string) (coordinator : bool) :
  self ∈ Peers (rs_key r) → self ∈ peerstore → self ∉ Peers (rs_key leader) →
  Started (rs_base r) = false → key_wf (rs_key leader) →
  (0 < Threshold (rs_key leader) ≤ Z.of_nat (length (PeersIntersection (Peers (rs_key leader)) peerstore')))%Z →
  (∃ r', Resharing.Run self peerstore ans subID r coordinator (Resharing.StartParams peerstore' leader ready) =
    Done ([], r', Some (Some (Errorf "invalid peers subset in start params")))) ∧
  (NoDup ready → ready ⊆ peerstore' → Resharing.Ready peerstore' leader ready [] = Ok true → ready ≡ₚ peerstore').
Proof.
  intros Hr Hself Hleader Hst [Hv Hth] Hle. split.
  - set (old := PeersIntersection (Peers (rs_key leader)) peerstore') in *.
    assert (json_wf {| OldThreshold := Threshold (rs_key leader); OldSubset := old |}) as Hwf.
    { wf_fields. apply Forall_forall. intros q [_ Hq]%list_elem_of_filter. by eapply Forall_forall in Hv. }
    rw /Resharing.Run Hst /Resharing.unmarshallStartParams /Resharing.StartParams -/old /=.
    rw (json_Unmarshal_Marshal {| OldThreshold := Threshold (rs_key leader); OldSubset := old |}) //.
    rw /validateStartParams /=. rewrite (proj2 (Z.leb_gt _ _)); [|lia]. rewrite (proj2 (Z.ltb_ge _ _)); [|lia].
    rw (bool_decide_false (length _ = 0)).
    2:{ intros Hlen%nil_length_inv. rw -(slices.perm_Sort (Peers (rs_key r))) Hlen in Hr. by apply not_elem_of_nil in Hr. }
    rw (bool_decide_false (slices.Sort old = _)); [by eexists|]. intros Heq.
    assert (self ∈ slices.Sort old) as Hin.
    { rw Heq. apply list_elem_of_filter. split; [done|]. by rw slices.perm_Sort. }
    rw slices.perm_Sort in Hin. by apply list_elem_of_filter in Hin as [_ ?].
  - intros Hnd Hsub [= Hlen%bool_decide_eq_true]. by apply everyone_ready.
Qed.
End epochs.

Section witnesses.
Import Toy ToyJson.

(** The newcomer [b] of the demo event stores the key, and reads it when the
    next event comes. *)
Lemma refresh_event_renews_witness :
  ∃ net m k, network_reachable demo_resharers demo_refresh_peers net ∧ members net !! "b" = Some m ∧
    (mb_process m).2 = k ∧
    keyshare_of (topology_peers demo_topology) (nt_Threshold demo_topology) "b"
      (node_keyshare (demo_node ["a"; "b"] (Some (json_Marshal
         (NewECDSAKeyshare tt (rs_newThreshold k) (base_Peers (rs_base k))))))).
Proof.
  set (schedule := demo_schedule "a" "b" (json_Marshal {| OldThreshold := 1; OldSubset := ["a"] |})).
  assert (match play demo_resharers demo_refresh_peers empty_network schedule with
          | Some net => both_acted set_up net | None => false end = true) as Hok by (vm_compute; reflexivity).
  destruct (play demo_resharers demo_refresh_peers empty_network schedule) as [net|] eqn:E; [|done].
  apply play_steps in E. destruct (both_acted_spec _ _ Hok) as (ma & mb & _ & Hmb & _ & _).
  destruct (mb_process mb) as [p k] eqn:Ep. exists net, mb, k. rewrite Ep. split_and!; [exact E|exact Hmb|done|].
  generalize (eq_refl (Some (json_Marshal (NewECDSAKeyshare tt (rs_newThreshold k) (base_Peers (rs_base k)))))).
  generalize (Some (json_Marshal (NewECDSAKeyshare tt (rs_newThreshold k) (base_Peers (rs_base k))))) at 1 3.
  intros f Hf. apply (refresh_event_renews tt demo_unpacked demo_nodes {["b" := demo_node ["a"; "b"] f]} demo_refresh 7
    demo_topology ["a"] demo_refresh_event).
  - done.
  - by repeat constructor.
  - intros id n [<- <-]%lookup_singleton_Some. left. split; [|done].
    exists net, mb, p, k, demo_fs, {| mu := true; file := None |}, {| mu := true; file := f |}, tt, [RsCancel].
    split_and!; [exact E|exact Hmb|exact Ep|by wf_fields|rewrite Hf; reflexivity|done].
  - apply lookup_singleton_eq.
Defined.

(** [c] was in a committee with [b], and comes back to that of [a] and [b]. *)
Definition demo_rejoined : Resharing := {|
  rs_base := NewBaseTss "resharing-1" ["a"; "b"; "c"];
  rs_key := {| Key := tt; Threshold := 1; Peers := ["b"; "c"] |};
  rs_subscriptionID := ""; rs_newThreshold := 2 |}.

Lemma rejoined_relayer_refuses_witness :
  ∃ r', Resharing.Run "c" ["a"; "b"; "c"] demo_answers "sub" demo_rejoined false
      (Resharing.StartParams ["a"; "b"; "c"] demo_holder ["a"; "b"; "c"]) =
    Done ([], r', Some (Some (Errorf "invalid peers subset in start params"))).
Proof.
  refine (proj1 (rejoined_relayer_refuses "c" ["a"; "b"; "c"] ["a"; "b"; "c"] ["a"; "b"; "c"] demo_holder demo_rejoined
    demo_answers "sub" false _ _ _ eq_refl _ _)).
  - right. by left.
  - do 2 right. by left.
  - intros Hin. simpl in Hin. by elem_cases Hin.
  - split; [by repeat constructor|done].
  - by vm_compute.
Defined.
End witnesses.
