(* ===== verification/Handlers.v ===== *)
(** * What the message handlers share
      (src/chains/evm/message, src/chains/lighter/message)

    A handler reports to the API over [ErrChn], tells the other relayers
    about a request that came from outside, checks it, builds the hash and
    runs a signing session.  What it does is the list of its actions. *)
From S2P Require Import Prelude GoStd Encoding Json Libs JsonCodec Comm Keyshare TssCommon Signing.

Inductive handler_action :=
  | SendErrChn (err : option error)   (** [data.ErrChn <- err] *)
  | Notify (peers : list PeerID) (msg : bytes) (t : MessageType) (sessionID : string)
  | LockKey
  | UnlockKey
  | ExecuteSigning (msg : Z) (sessionID : string) (coordinator : PeerID).

Section handlers.
Context {SaveData : Type} `{PeerLib}.

(** The relayer a handler runs on, and what the calls it makes answer. *)
Record relayer := {
  host_ID : PeerID;
  peerstore : list PeerID;
  broadcast_error : option error;
  keyshare : result (ECDSAKeyshare SaveData);
  execute_error : option error;
}.

(** The field [Coordinator] of the data of a message. *)
Class HasCoordinator (D : Type) := {
  coordinator_of : D → PeerID;
  with_coordinator : PeerID → D → D;
  coordinator_with c d : coordinator_of (with_coordinator c d) = c;
}.

(** [notify]: only a message that names no coordinator is passed on, with
    this relayer as its coordinator; the data and the error. *)
Definition notify {D} `{HasCoordinator D, Codec D} (r : relayer) (t : MessageType)
    (sessionID : string) (data : D) : io handler_action (D * option error) :=
  if negb (bool_decide (coordinator_of data = "")) then mret (data, None) else
  let data := with_coordinator (host_ID r) data in
  match Marshal data with
  | Err e => mret (data, Some e)
  | Ok msgBytes =>
      emit (Notify (peerstore r) msgBytes t sessionID) ≫= λ _, mret (data, broadcast_error r)
  end.

(** [signing.NewSigning] and [coordinator.Execute], as every handler ends. *)
Definition sign (r : relayer) (unlockHash : bytes) (sessionID : string) (coordinator : PeerID)
    : io handler_action (option error) :=
  emit LockKey ≫= λ _, emit UnlockKey ≫= λ _,
  match NewSigning (big.SetBytes unlockHash) sessionID (keyshare r) with
  | Err e => mret (Some e)
  | Ok s =>
      emit (ExecuteSigning (sg_msg s) (SID (sg_base s)) coordinator) ≫= λ _, mret (execute_error r)
  end.

(** Report an error to the API and return it. *)
Definition fail (e : error) : io handler_action (option error) :=
  emit (SendErrChn (Some e)) ≫= λ _, mret (Some e).

(** ** Facts about traces *)
Definition signs (m : Z) (sid : string) (c : PeerID) (acts : list handler_action) : Prop :=
  ExecuteSigning m sid c ∈ acts.

(** The sends on [ErrChn]. *)
Definition reports (acts : list handler_action) : list (option error) :=
  omap (λ a, match a with SendErrChn e => Some e | _ => None end) acts.

Lemma reports_bind {A B} (m : io handler_action A) (f : A → io handler_action B) :
  reports (events (mbind f m)) =
  reports (events m) ++ match returned m with Done a => reports (events (f a)) | Panic _ => [] end.
Proof.
  destruct m as [es [a|s]]; rw /mbind /io_bind /reports /= ?omap_app ?app_nil_r //.
Qed.

Lemma notify_events {D} `{HasCoordinator D, Codec D} r t sid (data : D) :
  reports (events (notify r t sid data)) = [] ∧
  (∀ m s c, ¬ signs m s c (events (notify r t sid data))) ∧
  ∃ data' err, returned (notify r t sid data) = Done (data', err) ∧
    (coordinator_of data = "" ∧ data' = with_coordinator (host_ID r) data ∨
     coordinator_of data ≠ "" ∧ data' = data).
Proof.
  rw /notify /signs. case_bool_decide; simpl; [destruct (Marshal _)|].
  - split_and!; [done| |do 2 eexists; split; [done|by left]].
    intros m s c Hin. rw /mbind /io_bind /= in Hin. by elem_cases Hin.
  - split_and!; [done|by intros ??? ?%not_elem_of_nil|do 2 eexists; split; [done|by left]].
  - split_and!; [done|by intros ??? ?%not_elem_of_nil|do 2 eexists; split; [done|by right]].
Qed.

Lemma sign_events r h sid c m s c' :
  signs m s c' (events (sign r h sid c)) → m = big.SetBytes h ∧ s = sid ∧ c' = c.
Proof.
  rw /sign /signs /NewSigning. destruct (keyshare r); rw /mbind /io_bind /=; intros Hin; by elem_cases Hin.
Qed.

Lemma sign_reports r h sid c : reports (events (sign r h sid c)) = [].
Proof. rw /sign /NewSigning. by destruct (keyshare r). Qed.

Lemma sign_returns r h sid c : ∃ e, returned (sign r h sid c) = Done e.
Proof. rw /sign /NewSigning. destruct (keyshare r); by eexists. Qed.

(** Where a signing session of a sequence of calls comes from. *)
Lemma signs_bind {A B} (x : io handler_action A) (f : A → io handler_action B) m s c :
  signs m s c (events (mbind f x)) ↔
  signs m s c (events x) ∨ ∃ a, returned x = Done a ∧ signs m s c (events (f a)).
Proof. apply elem_of_events_bind. Qed.

Lemma signs_emit_report (e : option error) m s c : ¬ signs m s c (events (emit (SendErrChn e))).
Proof. intros Hin. rw /signs /= in Hin. by elem_cases Hin. Qed.

Lemma fail_events (e : error) m s c : ¬ signs m s c (events (fail e)).
Proof. intros Hin. rw /signs /fail /mbind /io_bind /= in Hin. by elem_cases Hin. Qed.

(** *** The signing sessions of a trace *)
Definition executes (acts : list handler_action) : list (Z * string * PeerID) :=
  omap (λ a, match a with ExecuteSigning m s c => Some (m, s, c) | _ => None end) acts.

Lemma executes_bind {A B} (x : io handler_action A) (f : A → io handler_action B) :
  executes (events (mbind f x)) =
  executes (events x) ++ match returned x with Done a => executes (events (f a)) | Panic _ => [] end.
Proof. destruct x as [es [a|s]]; rw /mbind /io_bind /executes /= ?omap_app ?app_nil_r //. Qed.

Lemma executes_bind_ext {A B} (x : io handler_action A) (f g : A → io handler_action B) :
  (∀ a, returned x = Done a → executes (events (f a)) = executes (events (g a))) →
  executes (events (mbind f x)) = executes (events (mbind g x)).
Proof. intros Hfg. rw !executes_bind. destruct (returned x) eqn:E; [|done]. by rw Hfg. Qed.

Lemma executes_sign r h sid c :
  is_ok (keyshare r) = true → executes (events (sign r h sid c)) = [(big.SetBytes h, sid, c)].
Proof. rw /sign /NewSigning. by destruct (keyshare r). Qed.

Lemma executes_sign_same r1 r2 h sid c :
  is_ok (keyshare r1) = true → is_ok (keyshare r2) = true →
  executes (events (sign r1 h sid c)) = executes (events (sign r2 h sid c)).
Proof. intros. by rw !executes_sign. Qed.

(** A request from outside, and the same request as the other relayers get
    it: nothing but the coordinator depends on who handles it. *)
Lemma executes_notify {D} `{HasCoordinator D, Codec D} {B} r1 r2 t sid (d : D)
    (f1 f2 : D * option error → io handler_action B) :
  coordinator_of d = "" → host_ID r1 ≠ "" →
  let d' := with_coordinator (host_ID r1) d in
  (∀ e1 e2, executes (events (f1 (d', e1))) = executes (events (f2 (d', e2)))) →
  executes (events (notify r1 t sid d ≫= f1)) = executes (events (notify r2 t sid d' ≫= f2)).
Proof.
  intros Hd Hhost d' Hf.
  assert (notify r2 t sid d' = mret (d', None)) as ->.
  { by rw /notify coordinator_with (bool_decide_false _ Hhost). }
  rw io_bind_ret executes_bind /notify Hd /= -/d'. destruct (Marshal d'); simpl; apply Hf.
Qed.

Lemma Forall_executes_bind {A B} (P : Z * string * PeerID → Prop) (x : io handler_action A)
    (f : A → io handler_action B) :
  Forall P (executes (events x)) →
  (∀ a, returned x = Done a → Forall P (executes (events (f a)))) →
  Forall P (executes (events (mbind f x))).
Proof.
  intros Hx Hf. rw executes_bind. apply Forall_app. split; [done|].
  destruct (returned x) eqn:E; [by apply Hf|constructor].
Qed.

Lemma Forall_executes_sign (P : Z * string * PeerID → Prop) r h sid c :
  P (big.SetBytes h, sid, c) → Forall P (executes (events (sign r h sid c))).
Proof. intros HP. rw /sign /NewSigning. destruct (keyshare r); by repeat constructor. Qed.

(** A request of another relayer is not passed on. *)
Lemma notify_relayed {D} `{HasCoordinator D, Codec D} r t sid (d : D) :
  coordinator_of d ≠ "" → notify r t sid d = mret (d, None).
Proof. intros Hd. by rw /notify (bool_decide_false _ Hd). Qed.

(** Only [notify] talks to the other relayers. *)
Definition notified (acts : list handler_action) : list (list PeerID * bytes * MessageType * string) :=
  omap (λ a, match a with Notify ps b t s => Some (ps, b, t, s) | _ => None end) acts.

Lemma notified_notify {D} `{HasCoordinator D, Codec D} r t sid (d : D) b :
  coordinator_of d = "" → Marshal (with_coordinator (host_ID r) d) = Ok b →
  notified (events (notify r t sid d)) = [(peerstore r, b, t, sid)].
Proof. intros Hd Hb. by rw /notify Hd /= Hb. Qed.

Lemma notified_bind {A B} (x : io handler_action A) (f : A → io handler_action B) n :
  n ∈ notified (events x) → n ∈ notified (events (mbind f x)).
Proof.
  destruct x as [es [a|s]]; rw /mbind /io_bind /notified /= ?omap_app //.
  intros Hn. apply elem_of_app. by left.
Qed.
End handlers.
Arguments relayer : clear implicits.

(** What holds of every session that a handler runs. *)
Ltac all_executes :=
  repeat first
    [ apply List.Forall_nil
    | progress cbv zeta
    | by apply Forall_executes_sign
    | apply Forall_executes_bind; [|intros ? _]
    | case_match ].

(** Two runs of a handler on different relayers, step by step. *)
Ltac same_executes :=
  repeat first
    [ done
    | progress cbv zeta
    | by apply executes_sign_same
    | apply executes_bind_ext; intros ? _
    | case_match ].
