(* ===== verification/Across.v ===== *)
(** * Across deposits (src/protocol/across/deposit.go,
      src/chains/evm/calls/events/events.go, src/chains/evm/calls/contracts/hubPool.go,
      src/chains/evm/message/across.go)

    The fetcher finds the deposit event in the receipt of the transaction a
    request names; the handler checks the request against the deposit, waits
    for confirmations and starts a signing session for the fill. *)
From S2P Require Import Prelude GoStd Encoding Json Libs JsonCodec Comm Tokens Confirmations Eip712 Keyshare TssCommon Handlers.

(** ** events.go *)
Definition AcrossDepositSig : string :=
  "FundsDeposited(bytes32,bytes32,uint256,uint256,uint256,uint256,uint32,uint32,uint32,bytes32,bytes32,bytes32,bytes)".

Record AcrossDeposit := {
  InputToken : bytes;
  OutputToken : bytes;
  InputAmount : Z;
  OutputAmount : Z;
  DestinationChainId : Z;
  dep_DepositId : Z;
  QuoteTimestamp : Z;
  ExclusivityDeadline : Z;
  FillDeadline : Z;
  Depositor : bytes;
  Recipient : bytes;
  ExclusiveRelayer : bytes;
  Message : bytes;
}.

Record AcrossV3RelayData := {
  v3_Depositor : bytes;
  v3_Recipient : bytes;
  v3_ExclusiveRelayer : bytes;
  v3_InputToken : bytes;
  v3_OutputToken : bytes;
  v3_InputAmount : Z;
  v3_OutputAmount : Z;
  v3_OriginChainId : Z;
  v3_DepositId : Z;
  v3_FillDeadline : Z;
  v3_ExclusivityDeadline : Z;
  v3_Message : bytes;
}.

Definition ToV3RelayData (a : AcrossDeposit) (originChainID : Z) : AcrossV3RelayData := {|
  v3_Depositor := Depositor a; v3_Recipient := Recipient a;
  v3_ExclusiveRelayer := ExclusiveRelayer a; v3_InputToken := InputToken a;
  v3_OutputToken := OutputToken a; v3_InputAmount := InputAmount a;
  v3_OutputAmount := OutputAmount a; v3_OriginChainId := originChainID;
  v3_DepositId := dep_DepositId a; v3_FillDeadline := FillDeadline a;
  v3_ExclusivityDeadline := ExclusivityDeadline a; v3_Message := Message a;
|}.

(** The ABI of the spoke pool contract: the non-indexed fields of the event
    (the others are left zero), and the call that fills a relay. *)
Class SpokePoolABI := {
  Unpack_FundsDeposited : bytes → result AcrossDeposit;
  Pack_fillRelay : AcrossV3RelayData → Z → bytes → result bytes;
}.

(** ** hubPool.go: [call] is the answer of the contract *)
Definition DestinationToken (tokens : gmap string TokenConfig) (call : Z → Address → result Address)
    (destinationChainId : Z) (symbol : string) : result Address :=
  match tokens !! symbol with
  | None => Err (Errorf ("no hub pool token configured for symbol " +:+ symbol))
  | Some tokenConfig =>
      match call destinationChainId (tc_Address tokenConfig) with
      | Err e => Err e
      | Ok out =>
          if bool_decide (out = replicate 20 Byte.x00)
          then Err (Errorf ("rebalance route not configured for " +:+ symbol))
          else Ok out
      end
  end.

(** ** Interfaces of the handler *)
Class DepositFetcher := {
  Deposit : Hash → option Z → outcome (result AcrossDeposit);
  deposit_found : Hash → option Z → AcrossDeposit → Prop;
  Deposit_found hash id d : Deposit hash id = Done (Ok d) → deposit_found hash id d;
}.

Section fetcher.
Context `{PeerLib, EthCommon, Keccak, MapRange, SpokePoolABI}.

Definition GetTopic (sig : string) : Hash := Keccak256 (bytes_of sig).

Definition Calldata (a : AcrossV3RelayData) (repaymentChainID : Z) (repaymentAddress : Address)
    : result bytes :=
  match Pack_fillRelay a repaymentChainID (LeftPadBytes repaymentAddress 32) with
  | Err e => Err e
  | Ok input => Ok input
  end.

(** ** deposit.go *)
Record AcrossDepositFetcher := {
  df_chainID : Z;
  df_tokenStore : TokenStore;
  df_tokenMatcher : option (Z → string → result Address);   (** nil without a hub pool *)
}.

(** The client is an argument of the fetcher. *)
Definition NewAcrossDepositFetcher (chainID : Z) (tokenStore : TokenStore)
    (tokenMatcher : option (Z → string → result Address)) : AcrossDepositFetcher :=
  {| df_chainID := chainID; df_tokenStore := tokenStore; df_tokenMatcher := tokenMatcher |}.

Definition ZERO_HASH : string :=
  "0000000000000000000000000000000000000000000000000000000000000000".

(** [log_Topics] has at least three elements when this is called. *)
Definition parseDeposit (h : AcrossDepositFetcher) (l : Log) : outcome (result AcrossDeposit) :=
  match Unpack_FundsDeposited (log_Data l) with
  | Err e => Done (Err e)
  | Ok d =>
      if bool_decide (length (log_Topics l) < 4)
      then Done (Err (Errorf "across deposit missing topics"))
      else
        t1 ← index (log_Topics l) 1;
        t2 ← index (log_Topics l) 2;
        t3 ← index (log_Topics l) 3;
        let with_output output :=
          {| InputToken := InputToken d; OutputToken := output; InputAmount := InputAmount d;
             OutputAmount := OutputAmount d; DestinationChainId := big.SetBytes t1;
             dep_DepositId := big.SetBytes t2; QuoteTimestamp := QuoteTimestamp d;
             ExclusivityDeadline := ExclusivityDeadline d; FillDeadline := FillDeadline d;
             Depositor := t3; Recipient := Recipient d;
             ExclusiveRelayer := ExclusiveRelayer d; Message := Message d |} in
        if bool_decide (hex.EncodeToString (OutputToken d) = ZERO_HASH) then
          match ConfigByAddress (df_tokenStore h) (df_chainID h)
                  (BytesToAddress (drop 12 (InputToken d))) with
          | Err e => Done (Err e)
          | Ok (symbol, _) =>
              match df_tokenMatcher h with
              | None => Panic "nil pointer dereference"
              | Some DestinationToken =>
                  match DestinationToken (big.SetBytes t1) symbol with
                  | Err e => Done (Err e)
                  | Ok address => Done (Ok (with_output (LeftPadBytes address 32)))
                  end
              end
          end
        else Done (Ok (with_output (OutputToken d)))
  end.

(** The test of the loop for one log. *)
Definition is_deposit (depositID : Z) (l : Log) : bool :=
  negb (log_Removed l) && bool_decide (3 ≤ length (log_Topics l)) &&
  bool_decide (log_Topics l !! 0 = Some (GetTopic AcrossDepositSig)) &&
  bool_decide (log_Topics l !! 2 =
    Some (HexToHash (hex.EncodeToString (LeftPadBytes (big.Bytes depositID) 32)))).

Fixpoint find_deposit (h : AcrossDepositFetcher) (depositID : Z) (logs : list Log)
    : outcome (result AcrossDeposit) :=
  match logs with
  | [] => Done (Err (Errorf ("deposit with id " +:+ fmt_d depositID +:+ " not found")))
  | l :: logs' =>
      if is_deposit depositID l then parseDeposit h l else find_deposit h depositID logs'
  end.

(** A nil deposit ID is dereferenced when the first log passes the tests
    before it. *)
Definition fetchDepositByHash (h : AcrossDepositFetcher) (receipt : Hash → result (list Log))
    (hash : Hash) (depositID : option Z) : outcome (result AcrossDeposit) :=
  match receipt hash with
  | Err e => Done (Err e)
  | Ok logs =>
      match depositID with
      | Some depositID => find_deposit h depositID logs
      | None =>
          if existsb (λ l, negb (log_Removed l) && bool_decide (3 ≤ length (log_Topics l)) &&
                           bool_decide (log_Topics l !! 0 = Some (GetTopic AcrossDepositSig))) logs
          then Panic "nil pointer dereference"
          else Done (Err (Errorf "deposit with id <nil> not found"))
      end
  end.

(** What a successful fetch says: the log is of the transaction, has the
    topic of the event and the deposit ID, and is where the fields are from. *)
Definition logged (h : AcrossDepositFetcher) (receipt : Hash → result (list Log)) (hash : Hash)
    (depositID : option Z) (d : AcrossDeposit) : Prop :=
  ∃ id logs l, depositID = Some id ∧ receipt hash = Ok logs ∧ l ∈ logs ∧
    is_deposit id l = true ∧ parseDeposit h l = Done (Ok d).

Lemma find_deposit_logged h id logs d :
  find_deposit h id logs = Done (Ok d) →
  ∃ l, l ∈ logs ∧ is_deposit id l = true ∧ parseDeposit h l = Done (Ok d).
Proof.
  induction logs as [|l logs IH]; [done|]. simpl. destruct (is_deposit id l) eqn:E.
  - intros Hp. exists l. by split; [left|].
  - intros (l' & ? & ? & ?)%IH. exists l'. by split; [right|].
Qed.

Lemma fetchDepositByHash_logged h receipt hash depositID d :
  fetchDepositByHash h receipt hash depositID = Done (Ok d) → logged h receipt hash depositID d.
Proof.
  rw /fetchDepositByHash. destruct (receipt hash) as [logs|] eqn:Er; [|done].
  destruct depositID as [id|]; [|by destruct (existsb _ _)].
  intros (l & ? & ? & ?)%find_deposit_logged. by exists id, logs, l.
Qed.

Definition across_fetcher (h : AcrossDepositFetcher) (receipt : Hash → result (list Log))
    : DepositFetcher := {|
  Deposit := fetchDepositByHash h receipt;
  deposit_found := logged h receipt;
  Deposit_found := fetchDepositByHash_logged h receipt;
|}.

Lemma length_be_id id : (0 ≤ id < 2 ^ 256)%Z → length (big.Bytes id) ≤ 32.
Proof. intros Hid. apply (big.Bytes_spec id); [lia|]. change (256 ^ Z.of_nat 32)%Z with (2 ^ 256)%Z. lia. Qed.

(** A fetched deposit is the one that was asked for: it carries the
    deposit ID of the request, and its chain and depositor are the indexed
    topics of an event of that transaction which was not reorganised away. *)
Theorem fetched_deposit (h : AcrossDepositFetcher) (receipt : Hash → result (list Log))
    (hash : Hash) (id : Z) (d : AcrossDeposit) :
  (0 ≤ id < 2 ^ 256)%Z →
  fetchDepositByHash h receipt hash (Some id) = Done (Ok d) →
  dep_DepositId d = id ∧
  ∃ logs l t1 t3, receipt hash = Ok logs ∧ l ∈ logs ∧ log_Removed l = false ∧
    log_Topics l !! 0 = Some (GetTopic AcrossDepositSig) ∧
    log_Topics l !! 1 = Some t1 ∧ DestinationChainId d = big.SetBytes t1 ∧
    log_Topics l !! 3 = Some t3 ∧ Depositor d = t3.
Proof.
  intros Hid (id' & logs & l & [= <-] & Hr & Hl & His & Hp)%fetchDepositByHash_logged.
  rw /is_deposit !andb_true_iff !bool_decide_eq_true negb_true_iff in His.
  destruct His as [[[Hrem Hlen] Ht0] Ht2].
  rw /parseDeposit in Hp. destruct (Unpack_FundsDeposited (log_Data l)) as [d0|]; [|done].
  case_bool_decide; [done|]. rw /index Ht2 in Hp.
  destruct (log_Topics l !! 1) as [t1|] eqn:Ht1; [|done]. simpl in Hp.
  destruct (log_Topics l !! 3) as [t3|] eqn:Ht3; [|done]. simpl in Hp.
  assert (dep_DepositId d = big.SetBytes (HexToHash (hex.EncodeToString (LeftPadBytes (big.Bytes id) 32))) ∧
    DestinationChainId d = big.SetBytes t1 ∧ Depositor d = t3) as (Hdid & ? & ?).
  { repeat case_match; by simplify_eq. }
  split.
  - rw Hdid HexToHash_hex.
    + rw LeftPadBytes_spec big.SetBytes_zeros. apply big.Bytes_spec. lia.
    + rw LeftPadBytes_spec length_app length_replicate. pose proof (length_be_id id Hid). lia.
  - by exists logs, l, t1, t3.
Qed.

(** The fetcher does not look at the contract that emitted the event: the
    outcome is the same whatever the address of each log, so an event of any
    contract counts as a deposit. *)
Theorem any_contract_deposits (h : AcrossDepositFetcher) (logs : list Log) (hash : Hash)
    (depositID : option Z) (f : Log → Address) :
  let moved l := {| log_Address := f l; log_Topics := log_Topics l; log_Data := log_Data l;
                    log_BlockNumber := log_BlockNumber l; log_Removed := log_Removed l |} in
  fetchDepositByHash h (λ _, Ok (moved <$> logs)) hash depositID =
  fetchDepositByHash h (λ _, Ok logs) hash depositID.
Proof.
  intros moved. rw /fetchDepositByHash. destruct depositID as [id|].
  - induction logs as [|l logs IH]; [done|]. simpl. by rw IH.
  - assert (∀ P : Log → bool, (∀ l, P (moved l) = P l) →
      existsb P (moved <$> logs) = existsb P logs) as Hex.
    { intros P HP. induction logs as [|l logs IH]; [done|]. by rw /= IH HP. }
    by rw Hex.
Qed.
End fetcher.

(** ** across.go *)
Record AcrossData := {
  DepositTxHash : Hash;
  DepositId : option Z;        (** [*big.Int] fields may be nil *)
  Nonce : option Z;
  BorrowAmount : option Z;
  LiquidityPool : Address;
  RepaymentChainID : Z;
  Caller : Address;
  ad_Coordinator : PeerID;
  Deadline : Z;
  Source : Z;
  Destination : Z;
}.

(** Its fields, under their Go names; [ErrChn] is not marshalled. *)
#[export, refine] Instance AcrossData_json `{PeerLib, EthJson} : Json AcrossData := {|
  json_zero := Build_AcrossData (replicate 32 Byte.x00) None None None (replicate 20 Byte.x00) 0 (replicate 20 Byte.x00) "" 0 0 0;
  json_type := go.struct
    [go.field_of "DepositTxHash" hash_type DepositTxHash;
     go.field_of "DepositId" go.bigInt DepositId;
     go.field_of "Nonce" go.bigInt Nonce;
     go.field_of "BorrowAmount" go.bigInt BorrowAmount;
     go.field_of "LiquidityPool" address_type LiquidityPool;
     go.field_of "RepaymentChainID" (go.uint 64) RepaymentChainID;
     go.field_of "Caller" address_type Caller;
     go.field_of "Coordinator" peer_type ad_Coordinator;
     go.field_of "Deadline" (go.uint 64) Deadline;
     go.field_of "Source" (go.uint 64) Source;
     go.field_of "Destination" (go.uint 64) Destination]
    eq_refl ltac:(all_fields_set) ltac:(all_sets_typed);
|}.
Proof. { by rw /= ?address_level ?hash_level. } zero_typed. Defined.

Definition set_ad_Coordinator (c : PeerID) (d : AcrossData) : AcrossData := {|
  DepositTxHash := DepositTxHash d; DepositId := DepositId d; Nonce := Nonce d;
  BorrowAmount := BorrowAmount d; LiquidityPool := LiquidityPool d;
  RepaymentChainID := RepaymentChainID d; Caller := Caller d; ad_Coordinator := c;
  Deadline := Deadline d; Source := Source d; Destination := Destination d |}.

#[export, refine] Instance across_coordinator : HasCoordinator AcrossData :=
  {| coordinator_of := ad_Coordinator; with_coordinator := set_ad_Coordinator |}.
Proof. done. Defined.

(** Formatting a [*big.Int] with [%s]. *)
Definition fmt_big (z : option Z) : string :=
  match z with Some z => fmt_d z | None => "<nil>" end.

Record AcrossMessageHandler := {
  ah_chainID : Z;
  ah_tokenStore : TokenStore;
  ah_pools : gmap Z Address;
  ah_repayers : gmap Z Address;
}.

(** The constructor; what the relayer shares between its handlers is the
    [relayer] that they are run with. *)
Definition NewAcrossMessageHandler (chainID : Z) (tokenStore : TokenStore) (pools repayers : gmap Z Address)
    : AcrossMessageHandler :=
  {| ah_chainID := chainID; ah_tokenStore := tokenStore; ah_pools := pools; ah_repayers := repayers |}.

Section handler.
Context {SaveData : Type}.
Context `{PeerLib, EthCommon, Keccak, MapRange, Apitypes, SpokePoolABI, DepositFetcher,
          ConfirmationWatcher, EthJson}.
Context (h : AcrossMessageHandler) (r : relayer SaveData).

Definition across_session (chainID : Z) : string := fmt_d chainID +:+ "-" +:+ AcrossSessionID.

(** [h.pools[chain]] of a missing key is the zero address. *)
Definition pool_of (chain : Z) : Address :=
  default (replicate 20 Byte.x00) (ah_pools h !! chain).

(** From the calldata on: what is signed, and the session. *)
Definition sign_fill (d : AcrossDeposit) (repaymentAddress : Address) (data : AcrossData)
    : io handler_action (option error) :=
  match Calldata (ToV3RelayData d (ah_chainID h)) (RepaymentChainID data) repaymentAddress with
  | Err e => mret (Some e)
  | Ok calldata =>
      match BorrowUnlockHash calldata (BorrowAmount data) (BytesToAddress (OutputToken d))
              (DestinationChainId d) (pool_of (big_Uint64 (DestinationChainId d)))
              (Deadline data) (Caller data) (LiquidityPool data) (Nonce data) with
      | Err e => mret (Some e)
      | Ok unlockHash =>
          sign r unlockHash (fmt_d (ah_chainID h) +:+ "-" +:+ fmt_big (DepositId data))
            (ad_Coordinator data)
      end
  end.

Definition HandleMessage (data : AcrossData) : io handler_action (option error) :=
  match ah_repayers h !! RepaymentChainID data with
  | None => fail (Errorf ("invalid repayment chain " +:+ fmt_d (RepaymentChainID data)))
  | Some repaymentAddress =>
      '(data, _) ← notify r AcrossMsg (across_session (ah_chainID h)) data;
      d ← lift (Deposit (DepositTxHash data) (DepositId data));
      match d with
      | Err e => fail e
      | Ok d =>
          let sourceTokenAddress := BytesToAddress (InputToken d) in
          match ConfigByAddress (ah_tokenStore h) (ah_chainID h) sourceTokenAddress with
          | Err e => fail (Wrapf "failed to get source token: " e)
          | Ok (symbol, srcToken) =>
              match ConfigBySymbol (ah_tokenStore h) (big_Uint64 (DestinationChainId d)) symbol with
              | Err e => fail (Wrapf "failed to get destination token: " e)
              | Ok destToken =>
                  let scaledInputAmount :=
                    ScaleTokenAmount (InputAmount d) (Decimals srcToken) (Decimals destToken) in
                  match BorrowAmount data with
                  | None => panic "nil pointer dereference"
                  | Some borrowAmount =>
                      if (scaledInputAmount <? borrowAmount)%Z
                      then fail (Errorf "borrow amount exceeds input amount")
                      else
                        err ← lift (WaitForToken (ah_chainID h) (DepositTxHash data)
                                      sourceTokenAddress (InputAmount d));
                        match err with
                        | Some e => fail e
                        | None => emit (SendErrChn None) ≫= λ _, sign_fill d repaymentAddress data
                        end
                  end
              end
          end
      end
  end.

(** One message from another relayer; the result is only logged. *)
Definition ListenMessage (payload : bytes) : io handler_action unit :=
  match Unmarshal payload with
  | Err _ => mret tt
  | Ok d => HandleMessage d ≫= λ _, mret tt
  end.

(** What must have been checked before anything is signed. *)
Record fill_authorised (data : AcrossData) (m : Z) (sid : string) (c : PeerID) : Prop := {
  fill_deposit : AcrossDeposit;
  fill_repayment : Address;
  fill_source : string * TokenConfig;
  fill_destination : TokenConfig;
  fill_amount : Z;
  fill_calldata : bytes;
  fill_hash : bytes;
  fill_is_deposit : deposit_found (DepositTxHash data) (DepositId data) fill_deposit;
  fill_repayer : ah_repayers h !! RepaymentChainID data = Some fill_repayment;
  fill_source_token : ConfigByAddress (ah_tokenStore h) (ah_chainID h)
    (BytesToAddress (InputToken fill_deposit)) = Ok fill_source;
  fill_destination_token : ConfigBySymbol (ah_tokenStore h)
    (big_Uint64 (DestinationChainId fill_deposit)) fill_source.1 = Ok fill_destination;
  fill_borrow : BorrowAmount data = Some fill_amount;
  fill_covered : (fill_amount ≤ ScaleTokenAmount (InputAmount fill_deposit)
    (Decimals fill_source.2) (Decimals fill_destination))%Z;
  fill_confirmed : token_confirmed (ah_chainID h) (DepositTxHash data)
    (BytesToAddress (InputToken fill_deposit)) (InputAmount fill_deposit);
  fill_is_calldata : Calldata (ToV3RelayData fill_deposit (ah_chainID h)) (RepaymentChainID data)
    fill_repayment = Ok fill_calldata;
  fill_is_hash : BorrowUnlockHash fill_calldata (Some fill_amount)
    (BytesToAddress (OutputToken fill_deposit)) (DestinationChainId fill_deposit)
    (pool_of (big_Uint64 (DestinationChainId fill_deposit))) (Deadline data) (Caller data)
    (LiquidityPool data) (Nonce data) = Ok fill_hash;
  fill_message : m = big.SetBytes fill_hash;
  fill_session : sid = fmt_d (ah_chainID h) +:+ "-" +:+ fmt_big (DepositId data);
  fill_coordinator : c = if bool_decide (ad_Coordinator data = "") then host_ID r
                         else ad_Coordinator data;
}.

Lemma sign_fill_signs d repayment data m sid c :
  signs m sid c (events (sign_fill d repayment data)) →
  ∃ calldata unlockHash,
    Calldata (ToV3RelayData d (ah_chainID h)) (RepaymentChainID data) repayment = Ok calldata ∧
    BorrowUnlockHash calldata (BorrowAmount data) (BytesToAddress (OutputToken d))
      (DestinationChainId d) (pool_of (big_Uint64 (DestinationChainId d))) (Deadline data)
      (Caller data) (LiquidityPool data) (Nonce data) = Ok unlockHash ∧
    m = big.SetBytes unlockHash ∧
    sid = fmt_d (ah_chainID h) +:+ "-" +:+ fmt_big (DepositId data) ∧ c = ad_Coordinator data.
Proof.
  rw /sign_fill. destruct (Calldata _ _ _) as [calldata|]; [|by intros ?%not_elem_of_nil].
  destruct (BorrowUnlockHash _ _ _ _ _ _ _ _ _) as [unlockHash|] eqn:Eh; [|by intros ?%not_elem_of_nil].
  intros (-> & -> & ->)%sign_events. by exists calldata, unlockHash.
Qed.

(** What is checked before the API is told that the request is accepted. *)
Record fill_checked (hash : Hash) (depositID : option Z) (repaymentChain amount : Z)
    (d : AcrossDeposit) : Prop := {
  chk_deposit : deposit_found hash depositID d;
  chk_repayment : is_Some (ah_repayers h !! repaymentChain);
  chk_source : ∃ symbol src dst,
    ConfigByAddress (ah_tokenStore h) (ah_chainID h) (BytesToAddress (InputToken d)) = Ok (symbol, src) ∧
    ConfigBySymbol (ah_tokenStore h) (big_Uint64 (DestinationChainId d)) symbol = Ok dst ∧
    (amount ≤ ScaleTokenAmount (InputAmount d) (Decimals src) (Decimals dst))%Z;
  chk_confirmed : token_confirmed (ah_chainID h) hash (BytesToAddress (InputToken d)) (InputAmount d);
}.

(** The API hears nil only after all the checks. *)
Lemma across_nil_checked (data : AcrossData) :
  None ∈ reports (events (HandleMessage data)) →
  ∃ amount d, BorrowAmount data = Some amount ∧
    fill_checked (DepositTxHash data) (DepositId data) (RepaymentChainID data) amount d.
Proof.
  assert (∀ e, None ∉ reports (events (fail e))) as Hfail.
  { intros e Hin. simpl in Hin. by elem_cases Hin. }
  assert (None ∉ @nil (option error)) as Hnil by apply not_elem_of_nil.
  rw /HandleMessage. destruct (ah_repayers h !! RepaymentChainID data) as [repayment|] eqn:Er;
    [|by intros ?%Hfail].
  destruct (notify_events r AcrossMsg (across_session (ah_chainID h)) data)
    as (Hrep & _ & data' & err & Hret & Hdata).
  rw reports_bind Hrep Hret. cbn beta iota.
  assert (DepositTxHash data' = DepositTxHash data ∧ DepositId data' = DepositId data ∧
    BorrowAmount data' = BorrowAmount data) as (E1 & E2 & E3) by by destruct Hdata as [[_ ->]|[_ ->]].
  rw reports_bind [returned (lift _)]/=.
  destruct (Deposit (DepositTxHash data') (DepositId data')) as [[d|e]|p] eqn:Ed;
    cbn beta iota; [|by intros ?%Hfail|by intros ?%Hnil].
  destruct (ConfigByAddress _ _ _) as [[symbol src]|] eqn:Esrc; [|by intros ?%Hfail].
  destruct (ConfigBySymbol _ _ _) as [dst|] eqn:Edst; [|by intros ?%Hfail].
  rw E3. destruct (BorrowAmount data) as [amount|] eqn:Ea; [|by intros ?%Hnil].
  destruct (Z.ltb_spec (ScaleTokenAmount (InputAmount d) (Decimals src) (Decimals dst)) amount);
    [by intros ?%Hfail|].
  rw reports_bind [returned (lift _)]/=.
  destruct (WaitForToken _ _ _ _) as [[e|]|p] eqn:Ew; cbn beta iota;
    [by intros ?%Hfail| |by intros ?%Hnil].
  rw E1 E2 in Ed. rw E1 in Ew.
  intros _. exists amount, d. split; [done|].
  split; [by apply Deposit_found|by eexists|by exists symbol, src, dst|by apply WaitForToken_confirmed].
Qed.

Lemma signs_authorised (data : AcrossData) (m : Z) (sid : string) (c : PeerID) :
  signs m sid c (events (HandleMessage data)) → fill_authorised data m sid c.
Proof.
  rw /HandleMessage. destruct (ah_repayers h !! RepaymentChainID data) as [repayment|] eqn:Er;
    [|by intros ?%fail_events].
  destruct (notify_events r AcrossMsg (across_session (ah_chainID h)) data) as (_ & Hno & data' & err & Hret & Hdata).
  rw signs_bind. intros [?%Hno|([d0 e0] & Heq & Hs)]; [done|]. rw Hret in Heq. injection Heq as <- <-.
  assert (DepositTxHash data' = DepositTxHash data ∧ DepositId data' = DepositId data ∧
    Nonce data' = Nonce data ∧ BorrowAmount data' = BorrowAmount data ∧
    LiquidityPool data' = LiquidityPool data ∧ RepaymentChainID data' = RepaymentChainID data ∧
    Caller data' = Caller data ∧ Deadline data' = Deadline data ∧
    ad_Coordinator data' = if bool_decide (ad_Coordinator data = "") then host_ID r else ad_Coordinator data)
    as (E1&E2&E3&E4&E5&E6&E7&E8&E9).
  { destruct Hdata as [[? ->]|[? ->]]; [rewrite bool_decide_true //|rewrite bool_decide_false //]. }
  clear Hdata. rw signs_bind in Hs. destruct Hs as [?%not_elem_of_nil|(dr & Hd & Hs)]; [done|].
  destruct dr as [d|]; [|by apply fail_events in Hs].
  destruct (ConfigByAddress _ _ _) as [[symbol src]|] eqn:Esrc; [|by apply fail_events in Hs].
  destruct (ConfigBySymbol _ _ _) as [dst|] eqn:Edst; [|by apply fail_events in Hs].
  destruct (BorrowAmount data') as [amount|] eqn:Ea; [|by apply not_elem_of_nil in Hs].
  destruct (Z.ltb_spec (ScaleTokenAmount (InputAmount d) (Decimals src) (Decimals dst)) amount);
    [by apply fail_events in Hs|].
  rw signs_bind in Hs. destruct Hs as [?%not_elem_of_nil|(w & Hw & Hs)]; [done|].
  destruct w; [by apply fail_events in Hs|].
  rw signs_bind in Hs. destruct Hs as [?%signs_emit_report|(? & _ & Hs)]; [done|].
  apply sign_fill_signs in Hs as (calldata & unlockHash & Hc & Hh & -> & -> & ->).
  apply Deposit_found in Hd. apply WaitForToken_confirmed in Hw.
  rw E1 E2 in Hd. rw E1 in Hw. rw E6 in Hc. rw Ea E8 E7 E5 E3 in Hh. symmetry in E4.
  econstructor; [exact Hd|exact Er|exact Esrc|exact Edst|exact E4|done|exact Hw|exact Hc|exact Hh|done|..].
  - by rw E2.
  - done.
Qed.

(** C3: a fill is signed only for a deposit that was found, in a repayment
    chain the relayer knows, for no more than the deposited amount in the
    destination's decimals, after the deposit had its confirmations; and what
    is signed is the borrow hash of exactly that fill, in the session of the
    deposit, under the coordinator the request names (or this relayer). *)
Theorem across_signs_only_covered (data : AcrossData) (m : Z) (sid : string) (c : PeerID) :
  signs m sid c (events (HandleMessage data)) → fill_authorised data m sid c.
Proof. apply signs_authorised. Qed.

Lemma across_session_id (data : AcrossData) m sid c :
  signs m sid c (events (HandleMessage data)) →
  sid = fmt_d (ah_chainID h) +:+ "-" +:+ fmt_big (DepositId data).
Proof. by intros []%signs_authorised. Qed.

(** Whenever the handler returns it has reported to the API exactly once,
    an error or nil, so a caller that waits for the one-place channel is
    answered and no send blocks; nothing is reported after the answer. *)
Theorem across_reports_once (data : AcrossData) (err : option error) :
  returned (HandleMessage data) = Done err →
  length (reports (events (HandleMessage data))) = 1.
Proof.
  assert (∀ e, length (reports (events (fail e))) = 1) as Hfail by done.
  rw /HandleMessage. destruct (ah_repayers h !! RepaymentChainID data) as [repayment|]; [|done].
  destruct (notify_events r AcrossMsg (across_session (ah_chainID h)) data) as (Hrep & _ & data' & e & Hret & _).
  rw reports_bind Hrep Hret returned_bind. intros (a & Ha & Hr). rw Hret in Ha. injection Ha as <-.
  cbn beta iota in Hr |- *. rw returned_bind in Hr. destruct Hr as (dr & Hd & Hr).
  rw reports_bind Hd. cbn beta iota.
  destruct dr as [d|]; [|done].
  destruct (ConfigByAddress _ _ _) as [[symbol src]|]; [|done].
  destruct (ConfigBySymbol _ _ _) as [dst|]; [|done].
  destruct (BorrowAmount data') as [amount|] eqn:Ea; [|done].
  destruct (_ <? amount)%Z; [done|].
  rw returned_bind in Hr. destruct Hr as (w & Hw & Hr). rw reports_bind Hw. cbn beta iota.
  destruct w; [done|]. rw reports_bind. clear Hr. rw /sign_fill /=.
  destruct (Calldata _ _ _); [|done]. destruct (BorrowUnlockHash _ _ _ _ _ _ _ _ _); [|done].
  by rw sign_reports.
Qed.
End handler.

Section witnesses.
Import Toy.

#[export] Instance AcrossData_eq_dec : EqDecision AcrossData.
Proof. solve_decision. Defined.

Definition demo_deposit : AcrossDeposit := {|
  InputToken := replicate 12 Byte.x00 ++ demo_token; OutputToken := replicate 32 Byte.x02;
  InputAmount := 5000000; OutputAmount := 4900000; DestinationChainId := 0; dep_DepositId := 0;
  QuoteTimestamp := 0; ExclusivityDeadline := 0; FillDeadline := 9; Depositor := [];
  Recipient := replicate 32 Byte.x03; ExclusiveRelayer := replicate 32 Byte.x00; Message := [] |}.

#[local] Instance demo_abi : SpokePoolABI := {|
  Unpack_FundsDeposited _ := Ok demo_deposit;
  Pack_fillRelay _ _ _ := Ok [Byte.x01];
|}.

Definition demo_store : TokenStore :=
  {| Tokens := {[1%Z := {["USDC" := {| tc_Address := demo_token; Decimals := 6 |}]};
                 10%Z := {["USDC" := {| tc_Address := demo_token; Decimals := 6 |}]}]} |}.

Definition demo_fetcher : AcrossDepositFetcher :=
  {| df_chainID := 1; df_tokenStore := demo_store; df_tokenMatcher := None |}.

Definition demo_log : Log := {|
  log_Address := demo_token;
  log_Topics := [GetTopic AcrossDepositSig; LeftPadBytes (big.Bytes 10) 32;
                 LeftPadBytes (big.Bytes 77) 32; replicate 32 Byte.x04];
  log_Data := []; log_BlockNumber := 10; log_Removed := false |}.

Lemma fetched_deposit_witness :
  ∃ d, fetchDepositByHash demo_fetcher (λ _, Ok [demo_log]) [] (Some 77%Z) = Done (Ok d) ∧
       dep_DepositId d = 77%Z.
Proof.
  eexists. split; [vm_compute; reflexivity|].
  eapply (fetched_deposit demo_fetcher (λ _, Ok [demo_log]) [] 77); [done|by vm_compute].
Defined.

#[local] Instance demo_deposits : DepositFetcher := across_fetcher demo_fetcher (λ _, Ok [demo_log]).
#[local] Instance demo_confirmations : ConfirmationWatcher :=
  watcher_interface demo_watcher demo_price
    (λ _, [{| poll_done := false; poll_receipt := Ok (Some 10%Z); poll_latest := Ok 12%Z |}]).
Import ToyJson.

Definition demo_handler : AcrossMessageHandler :=
  {| ah_chainID := 1; ah_tokenStore := demo_store; ah_pools := {[10%Z := demo_token]};
     ah_repayers := {[10%Z := demo_token]} |}.

Definition demo_relayer : relayer unit :=
  {| host_ID := "a"; peerstore := ["a"; "b"]; broadcast_error := None;
     keyshare := Ok {| Key := tt; Threshold := 1; Peers := ["a"; "b"] |}; execute_error := None |}.

Definition demo_request : AcrossData := {|
  DepositTxHash := []; DepositId := Some 77%Z; Nonce := Some 1%Z; BorrowAmount := Some 5000000%Z;
  LiquidityPool := demo_address; RepaymentChainID := 10; Caller := demo_address;
  ad_Coordinator := "b"; Deadline := 9; Source := 1; Destination := 10 |}.

Definition demo_hash : bytes :=
  match BorrowUnlockHash [Byte.x01] (Some 5000000%Z) (replicate 20 Byte.x02) 10 demo_token 9
          demo_address demo_address (Some 1%Z) with Ok hash => hash | Err _ => [] end.

Lemma across_signs_only_covered_witness :
  fill_authorised demo_handler demo_relayer demo_request (big.SetBytes demo_hash) "1-77" "b".
Proof.
  apply (across_signs_only_covered demo_handler demo_relayer demo_request).
  vm_compute. repeat (apply list_elem_of_here || apply list_elem_of_further).
Defined.

Lemma across_reports_once_witness :
  length (reports (events (HandleMessage demo_handler demo_relayer demo_request))) = 1.
Proof. apply (across_reports_once demo_handler demo_relayer demo_request None). by vm_compute. Defined.
End witnesses.
