(* ===== verification/Lifi.v ===== *)
(** * LiFi intents (src/protocol/lifi/event.go,
      src/chains/evm/message/lifiEscrow.go, src/chains/evm/message/unlock.go)

    The escrow handler signs the borrow that fills an order which was opened
    on chain; the unlock handler signs the release of the escrowed input to
    the repayer.  Orders are parsed, priced and validated by the lifi-solver
    library, which is an interface here. *)
From S2P Require Import Prelude GoStd Encoding Json Libs JsonCodec Comm Tokens Confirmations Eip712 Keyshare TssCommon Handlers.

(** ** github.com/sprintertech/lifi-solver *)
Record LifiOutput := {
  Oracle : option Hash;
  Settler : option Hash;
  out_Recipient : option Hash;
  Token : option Hash;
  ChainID : Z;
  Amount : option Z;
  CallbackData : string;
  Context_ : string;
}.

Record GenericInput := { TokenAddress : bytes; gi_Amount : option Z }.

Record LifiOrder := {
  Inputs : list (Z * Z);
  Outputs : list LifiOutput;
  FillDeadline : Z;                   (** its Unix time *)
  GenericInputs : list GenericInput;
  OrderInitiatedTxHash : option Hash;
  OnChainOrderID : string;
}.

(** The struct packed for each output. *)
Record packed_output := {
  po_Oracle : Hash; po_Settler : Hash; po_Recipient : Hash; po_ChainId : Z; po_Token : Hash;
  po_Amount : option Z; po_CallbackData : bytes; po_Context : bytes;
}.

Class LifiLib := {
  AugmentedLifiOrder : Type;
  AugmentedOrder : LifiOrder → result AugmentedLifiOrder;  (** with the pricer and router *)
  Validate : AugmentedLifiOrder → option error;
  TotalInputsUSDValue : LifiOrder → result float64;
  ParseOpenEvent : Log → string → result LifiOrder;
  hexutil_Decode : string → result bytes;
  Pack_fillOrderOutputs : string → list packed_output → Z → Hash → result bytes;
}.

(** ** api.go: [get] is the HTTP client, [decode] the JSON of an order *)
Definition GetOrder (get : string → result (Z * result bytes)) (decode : bytes → result LifiOrder)
    (orderID : string) : result LifiOrder :=
  let url := "https://order.li.fi/orders/status?onChainOrderId=" +:+ orderID in
  match get url with
  | Err e => Err (Wrapf "request failed: " e)
  | Ok (StatusCode, Body) =>
      if negb (StatusCode =? 200)%Z
      then Err (Errorf ("unexpected status code: " +:+ fmt_d StatusCode +:+ ", " +:+ url))
      else match Body with
           | Err e => Err (Wrapf "failed to read response body: " e)
           | Ok body =>
               match decode body with
               | Err e => Err (Wrapf "failed to unmarshal JSON: " e)
               | Ok s => Ok s
               end
           end
  end.

Section event.
Context `{EthCommon, LifiLib}.

(** ** event.go *)
Record LifiEventFetcher := {
  ef_receipt : Hash → result (list Log);
  ef_inputSettler : Address;
}.

Definition NewLifiEventFetcher (client : Hash → result (list Log)) (inputSettler : Address) : LifiEventFetcher :=
  {| ef_receipt := client; ef_inputSettler := inputSettler |}.

Definition OpenEventTopic : string :=
  "0x9ff74bd56d00785b881ef9fa3f03d7b598686a39a9bcff89a6008db588b18a7b".

Definition is_open_event (h : LifiEventFetcher) (orderID : Hash) (l : Log) : bool :=
  negb (log_Removed l) && bool_decide (2 ≤ length (log_Topics l)) &&
  bool_decide (log_Address l = ef_inputSettler h) &&
  bool_decide (log_Topics l !! 0 = Some (HexToHash OpenEventTopic)) &&
  bool_decide (log_Topics l !! 1 = Some orderID).

Fixpoint find_open (h : LifiEventFetcher) (orderID : Hash) (logs : list Log) : option Log :=
  match logs with
  | [] => None
  | l :: logs' => if is_open_event h orderID l then Some l else find_open h orderID logs'
  end.

Definition fetchOpenEvent (h : LifiEventFetcher) (hash orderID : Hash) : result Log :=
  match ef_receipt h hash with
  | Err e => Err (Wrapf "no receipt found for hash: " e)
  | Ok logs =>
      match find_open h orderID logs with
      | Some l => Ok l
      | None => Err (Errorf "order not found")
      end
  end.

Definition fetchOrder (h : LifiEventFetcher) (hash orderID : Hash) : result LifiOrder :=
  match fetchOpenEvent h hash orderID with
  | Err e => Err e
  | Ok log => ParseOpenEvent log (Address_Hex (ef_inputSettler h))
  end.

(** The order was opened in this transaction by the settler's contract. *)
Definition opened_on_chain (h : LifiEventFetcher) (hash orderID : Hash) (order : LifiOrder) : Prop :=
  ∃ logs l, ef_receipt h hash = Ok logs ∧ l ∈ logs ∧ log_Removed l = false ∧
    log_Address l = ef_inputSettler h ∧
    log_Topics l !! 0 = Some (HexToHash OpenEventTopic) ∧ log_Topics l !! 1 = Some orderID ∧
    ParseOpenEvent l (Address_Hex (ef_inputSettler h)) = Ok order.

Lemma find_open_spec h orderID logs l :
  find_open h orderID logs = Some l → l ∈ logs ∧ is_open_event h orderID l = true.
Proof.
  induction logs as [|l0 logs IH]; [done|]. simpl. destruct (is_open_event h orderID l0) eqn:E.
  - intros [= ->]. by split; [left|].
  - intros [??]%IH. by split; [right|].
Qed.

Lemma fetchOrder_opened h hash orderID order :
  fetchOrder h hash orderID = Ok order → opened_on_chain h hash orderID order.
Proof.
  rw /fetchOrder /fetchOpenEvent. destruct (ef_receipt h hash) as [logs|] eqn:Er; [|done].
  destruct (find_open h orderID logs) as [l|] eqn:El; [|done]. intros Hp.
  apply find_open_spec in El as [Hin His].
  rw /is_open_event !andb_true_iff !bool_decide_eq_true negb_true_iff in His.
  destruct His as [[[[? ?] ?] ?] ?]. by exists logs, l.
Qed.
End event.

(** What the handler needs of the fetcher. *)
Class OrderFetcher := {
  Order : Hash → Hash → result LifiOrder;
  order_opened : Hash → Hash → LifiOrder → Prop;
  Order_opened hash id order : Order hash id = Ok order → order_opened hash id order;
}.

Definition event_orders `{EthCommon, LifiLib} (h : LifiEventFetcher) : OrderFetcher := {|
  Order := fetchOrder h;
  order_opened := opened_on_chain h;
  Order_opened := fetchOrder_opened h;
|}.

(** ** lifiEscrow.go *)
Record LifiEscrowData := {
  le_OrderID : string;
  le_Coordinator : PeerID;
  le_LiquidityPool : Address;
  le_Caller : Address;
  le_DepositTxHash : string;
  le_BorrowAmount : option Z;
  le_Deadline : Z;
  le_Nonce : option Z;
  le_Source : Z;
  le_Destination : Z;
}.

(** Its fields, under their Go names; the channel is not marshalled. *)
#[export, refine] Instance LifiEscrowData_json `{PeerLib, EthJson} : Json LifiEscrowData := {|
  json_zero := Build_LifiEscrowData "" "" (replicate 20 Byte.x00) (replicate 20 Byte.x00) "" None 0 None 0 0;
  json_type := go.struct
    [go.field_of "OrderID" go.string_ le_OrderID;
     go.field_of "Coordinator" peer_type le_Coordinator;
     go.field_of "LiquidityPool" address_type le_LiquidityPool;
     go.field_of "Caller" address_type le_Caller;
     go.field_of "DepositTxHash" go.string_ le_DepositTxHash;
     go.field_of "BorrowAmount" go.bigInt le_BorrowAmount;
     go.field_of "Deadline" (go.uint 64) le_Deadline;
     go.field_of "Nonce" go.bigInt le_Nonce;
     go.field_of "Source" (go.uint 64) le_Source;
     go.field_of "Destination" (go.uint 64) le_Destination]
    eq_refl ltac:(all_fields_set) ltac:(all_sets_typed);
|}.
Proof. { by rw /= ?address_level ?hash_level. } zero_typed. Defined.

Definition set_le_Coordinator (c : PeerID) (d : LifiEscrowData) : LifiEscrowData := {|
  le_OrderID := le_OrderID d; le_Coordinator := c; le_LiquidityPool := le_LiquidityPool d;
  le_Caller := le_Caller d; le_DepositTxHash := le_DepositTxHash d;
  le_BorrowAmount := le_BorrowAmount d; le_Deadline := le_Deadline d; le_Nonce := le_Nonce d;
  le_Source := le_Source d; le_Destination := le_Destination d |}.

#[export, refine] Instance escrow_coordinator : HasCoordinator LifiEscrowData :=
  {| coordinator_of := le_Coordinator; with_coordinator := set_le_Coordinator |}.
Proof. done. Defined.

(** ** unlock.go *)
Record LifiUnlockData := {
  lu_OrderID : string;
  lu_Settler : Address;
  lu_Coordinator : PeerID;
  lu_Source : Z;
  lu_Destination : Z;
}.

(** Its fields, under their Go names; the channel is not marshalled. *)
#[export, refine] Instance LifiUnlockData_json `{PeerLib, EthJson} : Json LifiUnlockData := {|
  json_zero := Build_LifiUnlockData "" (replicate 20 Byte.x00) "" 0 0;
  json_type := go.struct
    [go.field_of "OrderID" go.string_ lu_OrderID;
     go.field_of "Settler" address_type lu_Settler;
     go.field_of "Coordinator" peer_type lu_Coordinator;
     go.field_of "Source" (go.uint 64) lu_Source;
     go.field_of "Destination" (go.uint 64) lu_Destination]
    eq_refl ltac:(all_fields_set) ltac:(all_sets_typed);
|}.
Proof. { by rw /= ?address_level ?hash_level. } zero_typed. Defined.

Definition set_lu_Coordinator (c : PeerID) (d : LifiUnlockData) : LifiUnlockData := {|
  lu_OrderID := lu_OrderID d; lu_Settler := lu_Settler d; lu_Coordinator := c;
  lu_Source := lu_Source d; lu_Destination := lu_Destination d |}.

#[export, refine] Instance unlock_coordinator : HasCoordinator LifiUnlockData :=
  {| coordinator_of := lu_Coordinator; with_coordinator := set_lu_Coordinator |}.
Proof. done. Defined.

Record LifiEscrowMessageHandler := {
  lh_chainID : Z;
  lh_lifiAddresses : gmap Z Address;
  lh_tokenStore : TokenStore;
  lh_mpcAddress : Address;
}.

Definition NewLifiEscrowMessageHandler (chainID : Z) (mpcAddress : Address) (lifiAddresses : gmap Z Address)
    (tokenStore : TokenStore) : LifiEscrowMessageHandler :=
  {| lh_chainID := chainID; lh_lifiAddresses := lifiAddresses; lh_tokenStore := tokenStore;
     lh_mpcAddress := mpcAddress |}.

Record LifiUnlockHandler := { uh_chainID : Z; uh_repayers : gmap Z Address }.

Definition NewLifiUnlockHandler (chainID : Z) (repayers : gmap Z Address) : LifiUnlockHandler :=
  {| uh_chainID := chainID; uh_repayers := repayers |}.

Section handlers.
Context {SaveData : Type}.
Context `{PeerLib, EthCommon, Keccak, MapRange, Apitypes, LifiLib, OrderFetcher, ConfirmationWatcher, EthJson}.

Section escrow.
Context (h : LifiEscrowMessageHandler) (r : relayer SaveData).

Definition deref {A} (p : option A) : outcome A :=
  match p with Some a => Done a | None => Panic "nil pointer dereference" end.

Definition borrowToken (order : LifiOrder) : outcome (result Address * Z) :=
  out ← index (Outputs order) 0;
  let destChainID := ChainID out in
  input ← index (GenericInputs order) 0;
  match ConfigByAddress (lh_tokenStore h) (lh_chainID h) (BytesToAddress (TokenAddress input)) with
  | Err e => Done (Err e, destChainID)
  | Ok (symbol, _) =>
      match ConfigBySymbol (lh_tokenStore h) destChainID symbol with
      | Err e => Done (Err e, destChainID)
      | Ok destinationBorrowToken => Done (Ok (tc_Address destinationBorrowToken), destChainID)
      end
  end.

Fixpoint pack_outputs (outs : list LifiOutput) : outcome (result (list packed_output)) :=
  match outs with
  | [] => Done (Ok [])
  | o :: outs' =>
      match hexutil_Decode (CallbackData o) with
      | Err e => Done (Err e)
      | Ok callbackData =>
          match hexutil_Decode (Context_ o) with
          | Err e => Done (Err e)
          | Ok context =>
              oracle ← deref (Oracle o); settler ← deref (Settler o);
              recipient ← deref (out_Recipient o); token ← deref (Token o);
              rest ← pack_outputs outs';
              Done (match rest with
                    | Err e => Err e
                    | Ok outputs =>
                        Ok ({| po_Oracle := oracle; po_Settler := settler; po_Recipient := recipient;
                               po_ChainId := ChainID o; po_Token := token; po_Amount := Amount o;
                               po_CallbackData := callbackData; po_Context := context |} :: outputs)
                    end)
          end
      end
  end.

Definition escrow_calldata (order : LifiOrder) : outcome (result bytes) :=
  outputs ← pack_outputs (Outputs order);
  Done (match outputs with
        | Err e => Err e
        | Ok outputs =>
            Pack_fillOrderOutputs (OnChainOrderID order) outputs (FillDeadline order)
              (HexToHash (Address_Hex (lh_mpcAddress h)))
        end).

(** The error of [verifyOrder]. *)
Definition verifyOrder (order : LifiOrder) (borrowAmount : option Z) : outcome (option error) :=
  if bool_decide (1 < length (Inputs order) ∨ length (Inputs order) = 0)
  then Done (Some (Errorf "orders with multiple inputs not supported"))
  else if bool_decide (1 < length (Outputs order))
  then Done (Some (Errorf "orders with multiple outputs not supported"))
  else
    input ← index (GenericInputs order) 0;
    match ConfigByAddress (lh_tokenStore h) (lh_chainID h) (BytesToAddress (TokenAddress input)) with
    | Err e => Done (Some e)
    | Ok (symbol, srcToken) =>
        out ← index (Outputs order) 0;
        match ConfigBySymbol (lh_tokenStore h) (ChainID out) symbol with
        | Err e => Done (Some e)
        | Ok dstToken =>
            amount ← deref (gi_Amount input);
            let scaledInputAmount := ScaleTokenAmount amount (Decimals srcToken) (Decimals dstToken) in
            borrow ← deref borrowAmount;
            if (scaledInputAmount <? borrow)%Z
            then Done (Some (Errorf "order input is less than requested borrow amount"))
            else match AugmentedOrder order with
                 | Err e => Done (Some e)
                 | Ok augmentedOrder => Done (Validate augmentedOrder)
                 end
        end
    end.

Definition escrow_session (chainID : Z) : string := fmt_d chainID +:+ "-" +:+ LifiEscrowSessionID.

Definition lifi_address (chain : Z) : Address :=
  default (replicate 20 Byte.x00) (lh_lifiAddresses h !! chain).

(** From the calldata on. *)
Definition sign_escrow (order : LifiOrder) (token : Address) (destChainID : Z)
    (data : LifiEscrowData) : io handler_action (option error) :=
  calldata ← lift (escrow_calldata order);
  match calldata with
  | Err e => mret (Some e)
  | Ok calldata =>
      match BorrowUnlockHash calldata (le_BorrowAmount data) token destChainID
              (lifi_address destChainID) (le_Deadline data) (le_Caller data)
              (le_LiquidityPool data) (le_Nonce data) with
      | Err e => mret (Some e)
      | Ok unlockHash =>
          sign r unlockHash (fmt_d (lh_chainID h) +:+ "-" +:+ le_OrderID data) (le_Coordinator data)
      end
  end.

Definition HandleEscrow (data : LifiEscrowData) : io handler_action (option error) :=
  '(data, _) ← notify r LifiEscrowMsg (escrow_session (lh_chainID h)) data;
  match Order (HexToHash (le_DepositTxHash data)) (HexToHash (le_OrderID data)) with
  | Err e => fail e
  | Ok order =>
      verr ← lift (verifyOrder order (le_BorrowAmount data));
      match verr with
      | Some e => fail e
      | None =>
          match TotalInputsUSDValue order with
          | Err e => fail e
          | Ok orderValue =>
              borrow ← lift (borrowToken order);
              match borrow with
              | (Err e, _) => fail e
              | (Ok token, destChainID) =>
                  txHash ← lift (deref (OrderInitiatedTxHash order));
                  werr ← lift (WaitForOrder (lh_chainID h) txHash orderValue);
                  match werr with
                  | Some e => fail e
                  | None => emit (SendErrChn None) ≫= λ _, sign_escrow order token destChainID data
                  end
              end
          end
      end
  end.

Definition ListenEscrow (payload : bytes) : io handler_action unit :=
  match Unmarshal payload with
  | Err _ => mret tt
  | Ok d => HandleEscrow d ≫= λ _, mret tt
  end.
End escrow.

Section unlock.
Context (h : LifiUnlockHandler) (r : relayer SaveData).

Definition lifiUnlockHash (data : LifiUnlockData) : result bytes :=
  match uh_repayers h !! uh_chainID h with
  | None => Err (Errorf ("invalid repayment chain " +:+ fmt_d (uh_chainID h)))
  | Some repaymentAddress =>
      typed_data_hash (lifi_typed_data (uh_chainID h) (lu_OrderID data) repaymentAddress (lu_Settler data))
  end.

Definition unlock_session (chainID : Z) : string := fmt_d chainID +:+ "-" +:+ LifiUnlockSessionID.

Definition HandleUnlock (data : LifiUnlockData) : io handler_action (option error) :=
  '(data, _) ← notify r LifiUnlockMsg (unlock_session (uh_chainID h)) data;
  match lifiUnlockHash data with
  | Err e => mret (Some e)
  | Ok unlockHash =>
      sign r unlockHash (fmt_d (uh_chainID h) +:+ "-" +:+ lu_OrderID data) (lu_Coordinator data)
  end.

Definition ListenUnlock (payload : bytes) : io handler_action unit :=
  match Unmarshal payload with
  | Err _ => mret tt
  | Ok d => HandleUnlock d ≫= λ _, mret tt
  end.
End unlock.

(** ** Properties *)
Lemma verifyOrder_ok h order borrow :
  verifyOrder h order borrow = Done None →
  ∃ out input symbol src dst amount b augmented,
    length (Inputs order) = 1 ∧ Outputs order = [out] ∧ GenericInputs order !! 0 = Some input ∧
    ConfigByAddress (lh_tokenStore h) (lh_chainID h) (BytesToAddress (TokenAddress input)) = Ok (symbol, src) ∧
    ConfigBySymbol (lh_tokenStore h) (ChainID out) symbol = Ok dst ∧
    gi_Amount input = Some amount ∧ borrow = Some b ∧
    (b ≤ ScaleTokenAmount amount (Decimals src) (Decimals dst))%Z ∧
    AugmentedOrder order = Ok augmented ∧ Validate augmented = None.
Proof.
  rw /verifyOrder. case_bool_decide as Hin; [done|]. case_bool_decide as Hout; [done|].
  rw /index. destruct (GenericInputs order !! 0) as [input|] eqn:Ei; [|done]. simpl.
  destruct (ConfigByAddress _ _ _) as [[symbol src]|] eqn:Es; [|done].
  destruct (Outputs order) as [|out [|? ?]] eqn:Eo; [done| |simpl in Hout; lia]. simpl.
  destruct (ConfigBySymbol _ _ _) as [dst|] eqn:Ed; [|done].
  destruct (gi_Amount input) as [amount|] eqn:Ea; [|done]. simpl.
  destruct borrow as [b|]; [|done]. simpl.
  destruct (Z.ltb_spec (ScaleTokenAmount amount (Decimals src) (Decimals dst)) b); [done|].
  destruct (AugmentedOrder order) as [augmented|] eqn:Eaug; [|done]. intros [= Hv].
  exists out, input, symbol, src, dst, amount, b, augmented. split_and!; try done. lia.
Qed.

(** What must have been checked before an escrow borrow is signed. *)
Record escrow_authorised (h : LifiEscrowMessageHandler) (r : relayer SaveData)
    (data : LifiEscrowData) (m : Z) (sid : string) (c : PeerID) : Prop := {
  ea_order : LifiOrder;
  ea_out : LifiOutput;
  ea_input : GenericInput;
  ea_source : string * TokenConfig;
  ea_destination : TokenConfig;
  ea_deposited : Z;
  ea_amount : Z;
  ea_augmented : AugmentedLifiOrder;
  ea_value : float64;
  ea_tx : Hash;
  ea_calldata : bytes;
  ea_hash : bytes;
  ea_opened : order_opened (HexToHash (le_DepositTxHash data)) (HexToHash (le_OrderID data)) ea_order;
  ea_single_input : length (Inputs ea_order) = 1;
  ea_single_output : Outputs ea_order = [ea_out];
  ea_is_input : GenericInputs ea_order !! 0 = Some ea_input;
  ea_source_token : ConfigByAddress (lh_tokenStore h) (lh_chainID h)
    (BytesToAddress (TokenAddress ea_input)) = Ok ea_source;
  ea_destination_token : ConfigBySymbol (lh_tokenStore h) (ChainID ea_out) ea_source.1 = Ok ea_destination;
  ea_is_deposited : gi_Amount ea_input = Some ea_deposited;
  ea_borrow : le_BorrowAmount data = Some ea_amount;
  ea_covered : (ea_amount ≤ ScaleTokenAmount ea_deposited (Decimals ea_source.2) (Decimals ea_destination))%Z;
  ea_is_augmented : AugmentedOrder ea_order = Ok ea_augmented;
  ea_valid : Validate ea_augmented = None;
  ea_is_value : TotalInputsUSDValue ea_order = Ok ea_value;
  ea_is_tx : OrderInitiatedTxHash ea_order = Some ea_tx;
  ea_confirmed : order_confirmed (lh_chainID h) ea_tx ea_value;
  ea_is_calldata : escrow_calldata h ea_order = Done (Ok ea_calldata);
  ea_is_hash : BorrowUnlockHash ea_calldata (Some ea_amount) (tc_Address ea_destination)
    (ChainID ea_out) (lifi_address h (ChainID ea_out)) (le_Deadline data) (le_Caller data)
    (le_LiquidityPool data) (le_Nonce data) = Ok ea_hash;
  ea_message : m = big.SetBytes ea_hash;
  ea_session : sid = fmt_d (lh_chainID h) +:+ "-" +:+ le_OrderID data;
  ea_coordinator : c = if bool_decide (le_Coordinator data = "") then host_ID r else le_Coordinator data;
}.

Lemma sign_escrow_signs h r order token chain data m sid c :
  signs m sid c (events (sign_escrow h r order token chain data)) →
  ∃ calldata unlockHash,
    escrow_calldata h order = Done (Ok calldata) ∧
    BorrowUnlockHash calldata (le_BorrowAmount data) token chain (lifi_address h chain)
      (le_Deadline data) (le_Caller data) (le_LiquidityPool data) (le_Nonce data) = Ok unlockHash ∧
    m = big.SetBytes unlockHash ∧ sid = fmt_d (lh_chainID h) +:+ "-" +:+ le_OrderID data ∧
    c = le_Coordinator data.
Proof.
  rw /sign_escrow signs_bind. intros [?%not_elem_of_nil|(cd & Hcd & Hs)]; [done|].
  destruct cd as [calldata|]; [|by apply not_elem_of_nil in Hs].
  destruct (BorrowUnlockHash _ _ _ _ _ _ _ _ _) as [unlockHash|] eqn:Eh; [|by apply not_elem_of_nil in Hs].
  apply sign_events in Hs as (-> & -> & ->). by exists calldata, unlockHash.
Qed.

Lemma borrowToken_single h order out input symbol src dst token chain :
  Outputs order = [out] → GenericInputs order !! 0 = Some input →
  ConfigByAddress (lh_tokenStore h) (lh_chainID h) (BytesToAddress (TokenAddress input)) = Ok (symbol, src) →
  ConfigBySymbol (lh_tokenStore h) (ChainID out) symbol = Ok dst →
  borrowToken h order = Done (Ok token, chain) → token = tc_Address dst ∧ chain = ChainID out.
Proof.
  intros Ho Hi Hs Hd. rw /borrowToken /index Ho Hi /= Hs Hd. by intros [= <- <-].
Qed.

Lemma HandleEscrow_signs (h : LifiEscrowMessageHandler) (r : relayer SaveData)
    (data : LifiEscrowData) (m : Z) (sid : string) (c : PeerID) :
  signs m sid c (events (HandleEscrow h r data)) → escrow_authorised h r data m sid c.
Proof.
  rw /HandleEscrow signs_bind.
  destruct (notify_events r LifiEscrowMsg (escrow_session (lh_chainID h)) data)
    as (_ & Hno & data' & err & Hret & Hdata).
  intros [?%Hno|([d0 e0] & Heq & Hs)]; [done|]. rw Hret in Heq. injection Heq as <- <-.
  assert (le_OrderID data' = le_OrderID data ∧ le_LiquidityPool data' = le_LiquidityPool data ∧
    le_Caller data' = le_Caller data ∧ le_DepositTxHash data' = le_DepositTxHash data ∧
    le_BorrowAmount data' = le_BorrowAmount data ∧ le_Deadline data' = le_Deadline data ∧
    le_Nonce data' = le_Nonce data ∧
    le_Coordinator data' = if bool_decide (le_Coordinator data = "") then host_ID r else le_Coordinator data)
    as (E1&E2&E3&E4&E5&E6&E7&E8).
  { destruct Hdata as [[? ->]|[? ->]]; [rewrite bool_decide_true //|rewrite bool_decide_false //]. }
  clear Hdata. cbn beta iota in Hs.
  destruct (Order _ _) as [order|] eqn:Eo; [|by apply fail_events in Hs].
  rw signs_bind in Hs. destruct Hs as [?%not_elem_of_nil|(verr & Hv & Hs)]; [done|].
  destruct verr; [by apply fail_events in Hs|].
  destruct (TotalInputsUSDValue order) as [value|] eqn:Eval; [|by apply fail_events in Hs].
  rw signs_bind in Hs. destruct Hs as [?%not_elem_of_nil|([[token|] chain] & Hb & Hs)];
    [done| |by apply fail_events in Hs].
  rw signs_bind in Hs. destruct Hs as [?%not_elem_of_nil|(tx & Htx & Hs)]; [done|].
  rw signs_bind in Hs. destruct Hs as [?%not_elem_of_nil|(werr & Hw & Hs)]; [done|].
  destruct werr; [by apply fail_events in Hs|].
  rw signs_bind in Hs. destruct Hs as [?%signs_emit_report|(? & _ & Hs)]; [done|].
  apply sign_escrow_signs in Hs as (calldata & unlockHash & Hc & Hh & -> & -> & ->).
  apply Order_opened in Eo. apply WaitForOrder_confirmed in Hw.
  apply verifyOrder_ok in Hv as (out & input & symbol & src & dst & amount & b & augmented &
    Hin & Hout & Hgi & Hsrc & Hdst & Hamount & Hbor & Hcov & Haug & Hval).
  destruct (borrowToken_single h order out input symbol src dst token chain) as [-> ->]; [done..|].
  assert (OrderInitiatedTxHash order = Some tx) as Htx'.
  { destruct (OrderInitiatedTxHash order); [by injection Htx as ->|done]. }
  rw E4 E1 in Eo. rw Hbor E6 E3 E2 E7 in Hh. rw E5 in Hbor.
  econstructor; [exact Eo|exact Hin|exact Hout|exact Hgi|exact Hsrc|exact Hdst|exact Hamount|exact Hbor|
    exact Hcov|exact Haug|exact Hval|exact Eval|exact Htx'|exact Hw|exact Hc|exact Hh|done|..].
  - by rw E1.
  - done.
Qed.

(** C22: the borrow of an escrow order is signed only if the order was opened
    in the named transaction, has exactly one input and one output, passes
    the solver's validation, covers the borrow amount in the destination's
    decimals and has the confirmations its dollar value asks for; the hash is
    the one of the borrow of the destination token that fills the order. *)
Theorem escrow_signs_only_verified (h : LifiEscrowMessageHandler) (r : relayer SaveData)
    (data : LifiEscrowData) (m : Z) (sid : string) (c : PeerID) :
  signs m sid c (events (HandleEscrow h r data)) → escrow_authorised h r data m sid c.
Proof. apply HandleEscrow_signs. Qed.

Lemma HandleUnlock_signs (h : LifiUnlockHandler) (r : relayer SaveData)
    (data : LifiUnlockData) (m : Z) (sid : string) (c : PeerID) :
  signs m sid c (events (HandleUnlock h r data)) →
  ∃ repayer unlockHash, uh_repayers h !! uh_chainID h = Some repayer ∧
    typed_data_hash (lifi_typed_data (uh_chainID h) (lu_OrderID data) repayer (lu_Settler data)) = Ok unlockHash ∧
    m = big.SetBytes unlockHash ∧ sid = fmt_d (uh_chainID h) +:+ "-" +:+ lu_OrderID data ∧
    c = if bool_decide (lu_Coordinator data = "") then host_ID r else lu_Coordinator data.
Proof.
  rw /HandleUnlock signs_bind.
  destruct (notify_events r LifiUnlockMsg (unlock_session (uh_chainID h)) data)
    as (_ & Hno & data' & err & Hret & Hdata).
  intros [?%Hno|([d0 e0] & Heq & Hs)]; [done|]. rw Hret in Heq. injection Heq as <- <-.
  assert (lu_OrderID data' = lu_OrderID data ∧ lu_Settler data' = lu_Settler data ∧
    lu_Coordinator data' = if bool_decide (lu_Coordinator data = "") then host_ID r else lu_Coordinator data)
    as (E1&E2&E3).
  { destruct Hdata as [[? ->]|[? ->]]; [rewrite bool_decide_true //|rewrite bool_decide_false //]. }
  cbn beta iota in Hs. rw /lifiUnlockHash E1 E2 in Hs.
  destruct (uh_repayers h !! uh_chainID h) as [repayer|]; [|by apply not_elem_of_nil in Hs].
  destruct (typed_data_hash _) as [unlockHash|] eqn:Eh; [|by apply not_elem_of_nil in Hs].
  apply sign_events in Hs as (-> & -> & ->). by exists repayer, unlockHash.
Qed.

(** An unlock is signed only to the repayer configured for the chain: the
    hash is that of the order's release to this address, by the settler the
    request names, in the session of the order. *)
Theorem unlock_signs_repayer (h : LifiUnlockHandler) (r : relayer SaveData)
    (data : LifiUnlockData) (m : Z) (sid : string) (c : PeerID) :
  signs m sid c (events (HandleUnlock h r data)) →
  ∃ repayer unlockHash, uh_repayers h !! uh_chainID h = Some repayer ∧
    typed_data_hash (lifi_typed_data (uh_chainID h) (lu_OrderID data) repayer (lu_Settler data)) = Ok unlockHash ∧
    m = big.SetBytes unlockHash ∧ sid = fmt_d (uh_chainID h) +:+ "-" +:+ lu_OrderID data ∧
    c = if bool_decide (lu_Coordinator data = "") then host_ID r else lu_Coordinator data.
Proof. apply HandleUnlock_signs. Qed.

(** The borrow and the unlock of one order are signed in the same
    session, so that one of them is refused while the other runs and their
    signatures share one place in the cache. *)
Theorem escrow_unlock_share_session (h : LifiEscrowMessageHandler) (u : LifiUnlockHandler)
    (r : relayer SaveData) (data : LifiEscrowData) (udata : LifiUnlockData)
    (m m' : Z) (sid sid' : string) (c c' : PeerID) :
  lh_chainID h = uh_chainID u → le_OrderID data = lu_OrderID udata →
  signs m sid c (events (HandleEscrow h r data)) →
  signs m' sid' c' (events (HandleUnlock u r udata)) → sid = sid'.
Proof.
  intros Hch Hord [] %HandleEscrow_signs (? & ? & _ & _ & _ & -> & _)%HandleUnlock_signs.
  subst sid. by rw Hch Hord.
Qed.

(** An order with one input and no output passes the checks on their
    number and crashes the handler at its first output. *)
Theorem verifyOrder_no_output_panics (h : LifiEscrowMessageHandler) (order : LifiOrder)
    (borrow : option Z) (input : GenericInput) (config : string * TokenConfig) :
  length (Inputs order) = 1 → Outputs order = [] → GenericInputs order !! 0 = Some input →
  ConfigByAddress (lh_tokenStore h) (lh_chainID h) (BytesToAddress (TokenAddress input)) = Ok config →
  verifyOrder h order borrow = Panic "index out of range".
Proof.
  intros Hin Hout Hgi Hc. rw /verifyOrder bool_decide_false; [|lia].
  rw Hout bool_decide_false; [|simpl; lia]. rw /index Hgi /= Hc. by destruct config.
Qed.
End handlers.

Section witnesses.
Import Toy.

#[export] Instance LifiEscrowData_eq_dec : EqDecision LifiEscrowData.
Proof. solve_decision. Defined.
#[export] Instance LifiUnlockData_eq_dec : EqDecision LifiUnlockData.
Proof. solve_decision. Defined.

Definition demo_output : LifiOutput := {|
  Oracle := Some (replicate 32 Byte.x01); Settler := Some (replicate 32 Byte.x02);
  out_Recipient := Some (replicate 32 Byte.x03); Token := Some (replicate 32 Byte.x04);
  ChainID := 10; Amount := Some 4900000%Z; CallbackData := "0x"; Context_ := "0x" |}.

Definition demo_order : LifiOrder := {|
  Inputs := [(1, 5000000)%Z]; Outputs := [demo_output]; FillDeadline := 1700000000;
  GenericInputs := [{| TokenAddress := demo_token; gi_Amount := Some 5000000%Z |}];
  OrderInitiatedTxHash := Some []; OnChainOrderID := "order" |}.

#[local] Instance demo_lifi : LifiLib := {|
  AugmentedLifiOrder := LifiOrder;
  AugmentedOrder := Ok;
  Validate _ := None;
  TotalInputsUSDValue _ := Ok (Finite 5 0);
  ParseOpenEvent _ _ := Ok demo_order;
  hexutil_Decode _ := Ok [];
  Pack_fillOrderOutputs _ _ _ _ := Ok [Byte.x05];
|}.

Definition demo_opened : Log := {|
  log_Address := demo_token; log_Topics := [HexToHash OpenEventTopic; HexToHash "order"];
  log_Data := []; log_BlockNumber := 10; log_Removed := false |}.

#[local] Instance demo_orders : OrderFetcher :=
  event_orders {| ef_receipt _ := Ok [demo_opened]; ef_inputSettler := demo_token |}.
#[local] Instance demo_confirmations : ConfirmationWatcher :=
  watcher_interface demo_watcher demo_price
    (λ _, [{| poll_done := false; poll_receipt := Ok (Some 10%Z); poll_latest := Ok 12%Z |}]).
Import ToyJson.

Definition demo_relayer : relayer unit :=
  {| host_ID := "a"; peerstore := ["a"; "b"]; broadcast_error := None;
     keyshare := Ok {| Key := tt; Threshold := 1; Peers := ["a"; "b"] |}; execute_error := None |}.

Definition demo_escrow : LifiEscrowMessageHandler := {|
  lh_chainID := 1; lh_lifiAddresses := {[10%Z := demo_address]};
  lh_tokenStore := {| Tokens := {[1%Z := {["USDC" := {| tc_Address := demo_token; Decimals := 6 |}]};
                                  10%Z := {["USDC" := {| tc_Address := demo_token; Decimals := 6 |}]}]} |};
  lh_mpcAddress := demo_address |}.

Definition demo_request : LifiEscrowData := {|
  le_OrderID := "order"; le_Coordinator := "b"; le_LiquidityPool := demo_address;
  le_Caller := demo_address; le_DepositTxHash := "tx"; le_BorrowAmount := Some 5000000%Z;
  le_Deadline := 9; le_Nonce := Some 1%Z; le_Source := 1; le_Destination := 10 |}.

Definition demo_hash : bytes :=
  match BorrowUnlockHash [Byte.x05] (Some 5000000%Z) demo_token 10 demo_address 9
          demo_address demo_address (Some 1%Z) with Ok hash => hash | Err _ => [] end.

Lemma escrow_signs_only_verified_witness :
  escrow_authorised demo_escrow demo_relayer demo_request (big.SetBytes demo_hash) "1-order" "b".
Proof.
  apply (escrow_signs_only_verified demo_escrow demo_relayer demo_request).
  vm_compute. repeat (apply list_elem_of_here || apply list_elem_of_further).
Defined.

Definition demo_unlock : LifiUnlockData := {|
  lu_OrderID := "order"; lu_Settler := demo_address; lu_Coordinator := "b"; lu_Source := 1;
  lu_Destination := 1 |}.
Definition demo_unlocker : LifiUnlockHandler :=
  {| uh_chainID := 1; uh_repayers := {[1%Z := demo_address]} |}.

Lemma unlock_signs_repayer_witness :
  ∃ repayer, uh_repayers demo_unlocker !! 1%Z = Some repayer.
Proof.
  destruct (unlock_signs_repayer demo_unlocker demo_relayer demo_unlock
    (big.SetBytes (match lifiUnlockHash demo_unlocker demo_unlock with Ok hash => hash | Err _ => [] end))
    "1-order" "b") as (repayer & hash & Hr & _).
  - vm_compute. repeat (apply list_elem_of_here || apply list_elem_of_further).
  - by exists repayer.
Defined.
End witnesses.
