(* ===== verification/Sprinter.v ===== *)
(** * Sprinter credit liquidations (src/chains/evm/message/sprinter.go)

    A liquidation is signed if it goes to the liquidator configured for the
    token. *)
From S2P Require Import Prelude GoStd Encoding Json Libs JsonCodec Comm Eip712 Keyshare TssCommon Handlers.

Record SprinterCreditData := {
  sc_DepositID : string;
  sc_BorrowAmount : option Z;
  sc_Calldata : string;
  sc_Deadline : Z;
  sc_LiquidityPool : Address;
  sc_Caller : Address;
  sc_Nonce : option Z;
  sc_Coordinator : PeerID;
  sc_Source : Z;
  sc_Destination : Z;
  sc_TokenOut : string;
}.

(** Its fields, under their Go names; [ErrChn] is not marshalled. *)
#[export, refine] Instance SprinterCreditData_json `{PeerLib, EthJson} : Json SprinterCreditData := {|
  json_zero := Build_SprinterCreditData "" None "" 0 (replicate 20 Byte.x00) (replicate 20 Byte.x00) None "" 0 0 "";
  json_type := go.struct
    [go.field_of "DepositID" go.string_ sc_DepositID;
     go.field_of "BorrowAmount" go.bigInt sc_BorrowAmount;
     go.field_of "Calldata" go.string_ sc_Calldata;
     go.field_of "Deadline" (go.uint 64) sc_Deadline;
     go.field_of "LiquidityPool" address_type sc_LiquidityPool;
     go.field_of "Caller" address_type sc_Caller;
     go.field_of "Nonce" go.bigInt sc_Nonce;
     go.field_of "Coordinator" peer_type sc_Coordinator;
     go.field_of "Source" (go.uint 64) sc_Source;
     go.field_of "Destination" (go.uint 64) sc_Destination;
     go.field_of "TokenOut" go.string_ sc_TokenOut]
    eq_refl ltac:(all_fields_set) ltac:(all_sets_typed);
|}.
Proof. { by rw /= ?address_level ?hash_level. } zero_typed. Defined.

Definition set_sc_Coordinator (c : PeerID) (d : SprinterCreditData) : SprinterCreditData := {|
  sc_DepositID := sc_DepositID d; sc_BorrowAmount := sc_BorrowAmount d;
  sc_Calldata := sc_Calldata d; sc_Deadline := sc_Deadline d;
  sc_LiquidityPool := sc_LiquidityPool d; sc_Caller := sc_Caller d; sc_Nonce := sc_Nonce d;
  sc_Coordinator := c; sc_Source := sc_Source d; sc_Destination := sc_Destination d;
  sc_TokenOut := sc_TokenOut d |}.

#[export, refine] Instance sprinter_coordinator : HasCoordinator SprinterCreditData :=
  {| coordinator_of := sc_Coordinator; with_coordinator := set_sc_Coordinator |}.
Proof. done. Defined.

Record SprinterCreditMessageHandler := {
  sh_chainID : Z;
  sh_liquidators : gmap Address Address;
}.

Definition NewSprinterCreditMessageHandler (chainID : Z) (liquidators : gmap Address Address)
    : SprinterCreditMessageHandler := {| sh_chainID := chainID; sh_liquidators := liquidators |}.

Section handler.
Context {SaveData : Type}.
Context `{PeerLib, EthCommon, Keccak, Apitypes, EthJson}.
Context (h : SprinterCreditMessageHandler) (r : relayer SaveData).

Definition sprinter_session (chainID : Z) : string := fmt_d chainID +:+ "-" +:+ SprinterCreditSessionID.

Definition HandleMessage (data : SprinterCreditData) : io handler_action (option error) :=
  '(data, _) ← notify r SprinterCreditMsg (sprinter_session (sh_chainID h)) data;
  match hex.DecodeString (sc_Calldata data) with
  | None => fail (Errorf "encoding/hex: invalid")
  | Some calldata =>
      let token := HexToAddress (sc_TokenOut data) in
      match sh_liquidators h !! token with
      | None => fail (Errorf ("no liquidator for token " +:+ sc_TokenOut data))
      | Some liquidator =>
          match BorrowUnlockHash calldata (sc_BorrowAmount data) token (sh_chainID h) liquidator
                  (sc_Deadline data) (sc_Caller data) (sc_LiquidityPool data) (sc_Nonce data) with
          | Err e => fail e
          | Ok unlockHash =>
              emit (SendErrChn None) ≫= λ _,
              sign r unlockHash (fmt_d (sh_chainID h) +:+ "-" +:+ sc_DepositID data)
                (sc_Coordinator data)
          end
      end
  end.

Definition ListenMessage (payload : bytes) : io handler_action unit :=
  match Unmarshal payload with
  | Err _ => mret tt
  | Ok d => HandleMessage d ≫= λ _, mret tt
  end.

(** C31: a liquidation is signed only with the liquidator configured for its
    token as the target of the call, and the request is answered exactly
    once, with nil if a session is started. *)
Theorem sprinter_signs_liquidator (data : SprinterCreditData) (m : Z) (sid : string) (c : PeerID) :
  signs m sid c (events (HandleMessage data)) →
  reports (events (HandleMessage data)) = [None] ∧
  ∃ calldata liquidator unlockHash,
    hex.DecodeString (sc_Calldata data) = Some calldata ∧
    sh_liquidators h !! HexToAddress (sc_TokenOut data) = Some liquidator ∧
    BorrowUnlockHash calldata (sc_BorrowAmount data) (HexToAddress (sc_TokenOut data)) (sh_chainID h)
      liquidator (sc_Deadline data) (sc_Caller data) (sc_LiquidityPool data) (sc_Nonce data) = Ok unlockHash ∧
    m = big.SetBytes unlockHash ∧ sid = fmt_d (sh_chainID h) +:+ "-" +:+ sc_DepositID data ∧
    c = if bool_decide (sc_Coordinator data = "") then host_ID r else sc_Coordinator data.
Proof.
  rw /HandleMessage signs_bind reports_bind.
  destruct (notify_events r SprinterCreditMsg (sprinter_session (sh_chainID h)) data)
    as (Hrep & Hno & data' & err & Hret & Hdata). rw Hrep Hret.
  intros [?%Hno|([d0 e0] & Heq & Hs)]; [done|]. injection Heq as <- <-.
  assert (sc_Calldata data' = sc_Calldata data ∧ sc_TokenOut data' = sc_TokenOut data ∧
    sc_BorrowAmount data' = sc_BorrowAmount data ∧ sc_Deadline data' = sc_Deadline data ∧
    sc_Caller data' = sc_Caller data ∧ sc_LiquidityPool data' = sc_LiquidityPool data ∧
    sc_Nonce data' = sc_Nonce data ∧ sc_DepositID data' = sc_DepositID data ∧
    sc_Coordinator data' = if bool_decide (sc_Coordinator data = "") then host_ID r else sc_Coordinator data)
    as (E1&E2&E3&E4&E5&E6&E7&E8&E9).
  { destruct Hdata as [[? ->]|[? ->]]; [rewrite bool_decide_true //|rewrite bool_decide_false //]. }
  cbn beta iota in Hs |- *. rw E1 E2 E3 E4 E5 E6 E7 E8 E9 in Hs. rw E1 E2 E3 E4 E5 E6 E7 E8 E9.
  destruct (hex.DecodeString (sc_Calldata data)) as [calldata|]; [|by apply fail_events in Hs].
  destruct (sh_liquidators h !! _) as [liquidator|] eqn:El; [|by apply fail_events in Hs].
  destruct (BorrowUnlockHash _ _ _ _ _ _ _ _ _) as [unlockHash|] eqn:Eh; [|by apply fail_events in Hs].
  rw signs_bind in Hs. destruct Hs as [?%signs_emit_report|(? & _ & Hs)]; [done|].
  apply sign_events in Hs as (-> & -> & ->). rw reports_bind [returned (emit _)]/= sign_reports.
  split; [done|]. by exists calldata, liquidator, unlockHash.
Qed.
End handler.

Section witnesses.
Import Toy.

#[export] Instance SprinterCreditData_eq_dec : EqDecision SprinterCreditData.
Proof. solve_decision. Defined.
Import ToyJson.

Definition demo_token_text : string := "01234567890123456789".
Definition demo_handler : SprinterCreditMessageHandler :=
  {| sh_chainID := 1; sh_liquidators := {[HexToAddress demo_token_text := demo_address]} |}.
Definition demo_relayer : relayer unit :=
  {| host_ID := "a"; peerstore := ["a"; "b"]; broadcast_error := None;
     keyshare := Ok {| Key := tt; Threshold := 1; Peers := ["a"; "b"] |}; execute_error := None |}.
Definition demo_request : SprinterCreditData := {|
  sc_DepositID := "7"; sc_BorrowAmount := Some 5%Z; sc_Calldata := "0aff"; sc_Deadline := 9;
  sc_LiquidityPool := demo_address; sc_Caller := demo_address; sc_Nonce := Some 1%Z;
  sc_Coordinator := "b"; sc_Source := 1; sc_Destination := 1; sc_TokenOut := demo_token_text |}.
Definition demo_hash : bytes :=
  match BorrowUnlockHash [Byte.x0a; Byte.xff] (Some 5%Z) (HexToAddress demo_token_text) 1 demo_address 9
          demo_address demo_address (Some 1%Z) with Ok hash => hash | Err _ => [] end.

Lemma sprinter_signs_liquidator_witness :
  reports (events (HandleMessage demo_handler demo_relayer demo_request)) = [None].
Proof.
  eapply (sprinter_signs_liquidator demo_handler demo_relayer demo_request (big.SetBytes demo_hash) "1-7" "b").
  vm_compute. repeat (apply list_elem_of_here || apply list_elem_of_further).
Defined.
End witnesses.
