(* ===== verification/Lighter.v ===== *)
(** * Lighter withdrawals (src/chains/lighter/message/lighter.go,
      src/chains/lighter/chain.go, src/protocol/lighter/api.go)

    A fast withdrawal is signed for a transfer that the Lighter API returned,
    if it went to the repayment account in USDC and is small enough. *)
From S2P Require Import Prelude GoStd Encoding Json Libs JsonCodec Comm Confirmations Eip712 Keyshare TssCommon Handlers.

(** ** protocol/lighter/api.go *)
Definition TX_NOT_FOUND_ERROR_CODE : Z := 21500.
Definition TX_FOUND_STATUS_CODE : Z := 200.
Definition TxTypeL2Transfer : Z := 12.
Definition StatusOK : Z := 200.

(** A byte slice: its elements, and the elements of its array after them,
    which a slice expression may reach. *)
Record byte_slice := { sl_elems : bytes; sl_spare : bytes }.

(** [s[:n]] *)
Definition slice_to (s : byte_slice) (n : nat) : outcome bytes :=
  if bool_decide (n ≤ length (sl_elems s ++ sl_spare s))
  then Done (take n (sl_elems s ++ sl_spare s))
  else Panic "slice bounds out of range".

Record Transfer := {
  Amount : Z;
  AssetIndex : Z;
  FromAccountIndex : Z;
  ToAccountIndex : Z;
  Fee : Z;
  Memo : byte_slice;
}.

Record LighterTx := {
  Code : Z;
  tx_Hash : string;
  Type_ : Z;
  Info : string;
  L1Address : string;
  tx_Transfer : option Transfer;
}.

(** A member of a JSON object decoded into an [interface{}]. *)
Inductive json_value :=
  | JNumber (x : float64)
  | JString (s : string)
  | JOther.

(** What [encoding/json] decodes: the struct without its method, the
    transfer (which the text null leaves nil), the code of a [LighterError],
    and an object of any shape. *)
Class LighterJSON := {
  decode_tx : bytes → result LighterTx;
  decode_transfer : bytes → result (option Transfer);
  decode_error_code : bytes → result Z;
  decode_object : bytes → result (gmap string json_value);
}.

(** [x == n] for a float and an untyped integer constant. *)
Definition float_eqb (x : float64) (n : Z) : bool :=
  match x with
  | Finite m e =>
      if (0 <=? e)%Z then (m * 2 ^ e =? n)%Z else (m =? n * 2 ^ (- e))%Z
  | Inf _ | NaN => false
  end.

Section api.
Context `{LighterJSON}.

Definition set_Transfer (t : option Transfer) (tx : LighterTx) : LighterTx := {|
  Code := Code tx; tx_Hash := tx_Hash tx; Type_ := Type_ tx; Info := Info tx;
  L1Address := L1Address tx; tx_Transfer := t |}.

Definition UnmarshalJSON (data : bytes) : result LighterTx :=
  match decode_tx data with
  | Err e => Err e
  | Ok tx =>
      if (Type_ tx =? TxTypeL2Transfer)%Z then
        match decode_transfer (bytes_of (Info tx)) with
        | Err e => Err (Wrapf "failed to unmarshal info: " e)
        | Ok t => Ok (set_Transfer t tx)
        end
      else Err (Errorf ("unsupported transaction type: " +:+ fmt_d (Type_ tx)))
  end.

(** A response: its status and what reading its body gives. *)
Definition LighterCheckRetry (ctx_err err : option error) (StatusCode : Z) (Body : result bytes)
    : bool * option error :=
  match ctx_err, err with
  | Some e, _ => (false, Some e)
  | None, Some e => (false, Some e)
  | None, None =>
      if negb (StatusCode =? StatusOK)%Z then (false, None) else
      match Body with
      | Err e => (false, Some e)
      | Ok body =>
          if match decode_error_code body with
             | Ok code => (code =? TX_NOT_FOUND_ERROR_CODE)%Z
             | Err _ => false
             end then (true, None) else
          match decode_object body with
          | Err _ => (false, None)
          | Ok raw =>
              match raw !! "code" with
              | Some (JNumber code) =>
                  if float_eqb code TX_FOUND_STATUS_CODE then
                    match raw !! "info" with
                    | Some (JString info) => (bool_decide (info = ""), None)
                    | _ => (true, None)
                    end
                  else (false, None)
              | _ => (false, None)
              end
          end
      end
  end.

(** [get] is the HTTP client with its retries. *)
Definition GetTx (get : string → result (Z * result bytes)) (hash : string) : result LighterTx :=
  let url := "https://mainnet.zklighter.elliot.ai/api/v1/tx?by=hash&value=" +:+ hash in
  match get url with
  | Err e => Err (Wrapf "request failed: " e)
  | Ok (StatusCode, Body) =>
      if negb (StatusCode =? StatusOK)%Z
      then Err (Errorf ("unexpected status code: " +:+ fmt_d StatusCode +:+ ", " +:+ url))
      else match Body with
           | Err e => Err (Wrapf "failed to read response body: " e)
           | Ok body => UnmarshalJSON body
           end
  end.

Lemma GetTx_type get hash tx : GetTx get hash = Ok tx → Type_ tx = TxTypeL2Transfer.
Proof.
  rw /GetTx /UnmarshalJSON. destruct (get _) as [[status body]|]; [|done].
  destruct (negb _); [done|]. destruct body as [body|]; [|done].
  destruct (decode_tx body) as [tx0|]; [|done].
  destruct (Z.eqb_spec (Type_ tx0) TxTypeL2Transfer) as [He|]; [|done].
  by destruct (decode_transfer _); intros [= <-].
Qed.
End api.

(** ** chain.go *)
Definition LIGHTER_DOMAIN_ID : Z := 1701984817.

(** ** message.go, lighter.go *)
Record LighterData := {
  ld_OrderHash : string;
  ld_Coordinator : PeerID;
  ld_LiquidityPool : Address;
  ld_DepositTxHash : string;
  ld_Calldata : string;
  ld_Nonce : option Z;
  ld_Deadline : Z;
  ld_Source : Z;
  ld_Destination : Z;
}.

(** Its fields, under their Go names; [ErrChn] is not marshalled. *)
#[export, refine] Instance LighterData_json `{PeerLib, EthJson} : Json LighterData := {|
  json_zero := Build_LighterData "" "" (replicate 20 Byte.x00) "" "" None 0 0 0;
  json_type := go.struct
    [go.field_of "OrderHash" go.string_ ld_OrderHash;
     go.field_of "Coordinator" peer_type ld_Coordinator;
     go.field_of "LiquidityPool" address_type ld_LiquidityPool;
     go.field_of "DepositTxHash" go.string_ ld_DepositTxHash;
     go.field_of "Calldata" go.string_ ld_Calldata;
     go.field_of "Nonce" go.bigInt ld_Nonce;
     go.field_of "Deadline" (go.uint 64) ld_Deadline;
     go.field_of "Source" (go.uint 64) ld_Source;
     go.field_of "Destination" (go.uint 64) ld_Destination]
    eq_refl ltac:(all_fields_set) ltac:(all_sets_typed);
|}.
Proof. { by rw /= ?address_level ?hash_level. } zero_typed. Defined.

Definition set_ld_Coordinator (c : PeerID) (d : LighterData) : LighterData := {|
  ld_OrderHash := ld_OrderHash d; ld_Coordinator := c; ld_LiquidityPool := ld_LiquidityPool d;
  ld_DepositTxHash := ld_DepositTxHash d; ld_Calldata := ld_Calldata d; ld_Nonce := ld_Nonce d;
  ld_Deadline := ld_Deadline d; ld_Source := ld_Source d; ld_Destination := ld_Destination d |}.

#[export, refine] Instance lighter_coordinator : HasCoordinator LighterData :=
  {| coordinator_of := ld_Coordinator; with_coordinator := set_ld_Coordinator |}.
Proof. done. Defined.

Definition ARBITRUM_CHAIN_ID : Z := 42161.
Definition USDC_ACCOUNT_INDEX : Z := 3.

(** [LighterABI.Pack("fulfillWithdraw", ...)]: see
    src/chains/evm/calls/consts/lighter.go. *)
Class LighterABI := {
  Pack_fulfillWithdraw : Hash → Address → Z → result bytes;
}.

Record LighterMessageHandler := {
  lh_lighterAddress : Address;
  lh_usdcAddress : Address;
  lh_repaymentAccount : string;
  lh_confirmations : gmap Z Z;
}.

Definition NewLighterMessageHandler (lighterAddress usdcAddress : Address) (repaymentAccount : string)
    (confirmations : gmap Z Z) : LighterMessageHandler :=
  {| lh_lighterAddress := lighterAddress; lh_usdcAddress := usdcAddress;
     lh_repaymentAccount := repaymentAccount; lh_confirmations := confirmations |}.

Section handler.
Context {SaveData : Type}.
Context `{PeerLib, EthCommon, Keccak, Apitypes, LighterABI, EthJson}.
Context (h : LighterMessageHandler) (r : relayer SaveData) (GetTx : string → result LighterTx).

Fixpoint find_value_bucket (buckets : list Z) (orderValue : Z) : option error :=
  match buckets with
  | [] => Some (Errorf ("order value " +:+ fmt_d orderValue +:+ " exceeds confirmation buckets"))
  | bucket :: buckets' =>
      if (orderValue <? bucket)%Z then None else find_value_bucket buckets' orderValue
  end.

Definition verifyOrderSize (orderValue : Z) : option error :=
  find_value_bucket (sort_Z (map_to_list (lh_confirmations h)).*1) orderValue.

(** A nil [tx.Transfer] is dereferenced. *)
Definition verifyWithdrawal (tx : LighterTx) : outcome (option error) :=
  if negb (Type_ tx =? TxTypeL2Transfer)%Z
  then Done (Some (Errorf "invalid transaction type"))
  else match tx_Transfer tx with
  | None => Panic "nil pointer dereference"
  | Some t =>
      if negb (bool_decide (fmt_d (ToAccountIndex t) = lh_repaymentAccount h))
      then Done (Some (Errorf "transfer account index invalid"))
      else if negb (AssetIndex t =? USDC_ACCOUNT_INDEX)%Z
      then Done (Some (Errorf "only usdc asset supported on lighter"))
      else Done (verifyOrderSize (Amount t / 10 ^ 6)%Z)
  end.

Definition lighter_calldata (tx : LighterTx) : outcome (result bytes) :=
  match tx_Transfer tx with
  | None => Panic "nil pointer dereference"
  | Some t =>
      memo ← slice_to (Memo t) 20;
      Done (Pack_fulfillWithdraw (HexToHash (tx_Hash tx)) (BytesToAddress memo) (Amount t))
  end.

Definition lighter_amount (tx : LighterTx) : outcome Z :=
  match tx_Transfer tx with Some t => Done (Amount t) | None => Panic "nil pointer dereference" end.

Definition HandleMessage (data : LighterData) : io handler_action (option error) :=
  '(data, _) ← notify r LighterMsg LighterSessionID data;
  match GetTx (ld_DepositTxHash data) with
  | Err e => fail e
  | Ok tx =>
      err ← lift (verifyWithdrawal tx);
      match err with
      | Some e => fail e
      | None =>
          emit (SendErrChn None) ≫= λ _,
          calldata ← lift (lighter_calldata tx);
          match calldata with
          | Err e => mret (Some e)
          | Ok calldata =>
              amount ← lift (lighter_amount tx);
              match BorrowUnlockHash calldata (Some amount) (lh_usdcAddress h) ARBITRUM_CHAIN_ID
                      (lh_lighterAddress h) (ld_Deadline data) (lh_lighterAddress h)
                      (ld_LiquidityPool data) (ld_Nonce data) with
              | Err e => fail e
              | Ok unlockHash =>
                  sign r unlockHash (fmt_d LIGHTER_DOMAIN_ID +:+ "-" +:+ ld_OrderHash data)
                    (ld_Coordinator data)
              end
          end
      end
  end.

(** One message from another relayer.  [d.ErrChn] has room for one value
    and no reader: a handler that sends twice blocks the loop for good. *)
Definition ListenMessage (payload : bytes) : io handler_action unit :=
  match Unmarshal payload with
  | Err _ => mret tt
  | Ok d => HandleMessage d ≫= λ _, mret tt
  end.

Definition listen_blocks (payload : bytes) : bool :=
  bool_decide (1 < length (reports (events (ListenMessage payload)))).

(** ** What is signed *)
Lemma find_value_bucket_None buckets v :
  find_value_bucket buckets v = None ↔ ∃ bucket, bucket ∈ buckets ∧ (v < bucket)%Z.
Proof.
  induction buckets as [|b buckets IH]; simpl.
  - split; [done|]. intros (? & ?%not_elem_of_nil & _). done.
  - destruct (Z.ltb_spec v b).
    + split; [|done]. intros _. exists b. by split; [left|].
    + rw IH. split; intros (b' & Hb & Hv); exists b'; (split; [|done]); [by right|].
      apply elem_of_cons in Hb as [->|]; [lia|done].
Qed.

Lemma verifyOrderSize_None v :
  verifyOrderSize v = None ↔ ∃ bucket, is_Some (lh_confirmations h !! bucket) ∧ (v < bucket)%Z.
Proof.
  rw /verifyOrderSize find_value_bucket_None /sort_Z.
  split; intros (b & Hb & Hv); exists b; (split; [|done]).
  - rw merge_sort_Permutation in Hb. apply list_elem_of_fmap in Hb as ([b' n] & -> & Hb).
    apply elem_of_map_to_list in Hb. by exists n.
  - rw merge_sort_Permutation. destruct Hb as [n Hb]. apply list_elem_of_fmap.
    exists (b, n). by rw elem_of_map_to_list.
Qed.

(** A withdrawal the relayer accepts. *)
Record withdrawal_ok (tx : LighterTx) (t : Transfer) : Prop := {
  wd_type : Type_ tx = TxTypeL2Transfer;
  wd_transfer : tx_Transfer tx = Some t;
  wd_account : fmt_d (ToAccountIndex t) = lh_repaymentAccount h;
  wd_usdc : AssetIndex t = USDC_ACCOUNT_INDEX;
  wd_size : ∃ bucket, is_Some (lh_confirmations h !! bucket) ∧ (Amount t < bucket * 10 ^ 6)%Z;
}.

Lemma verifyWithdrawal_ok tx :
  verifyWithdrawal tx = Done None ↔ ∃ t, withdrawal_ok tx t.
Proof.
  rw /verifyWithdrawal. destruct (Z.eqb_spec (Type_ tx) TxTypeL2Transfer) as [Ht|Ht]; simpl;
    [|split; [done|by intros [t []]]].
  destruct (tx_Transfer tx) as [t|] eqn:Et; [|split; [done|intros [t []]; congruence]].
  case_bool_decide as Ha; simpl; [|split; [done|intros [t' []]; congruence]].
  destruct (Z.eqb_spec (AssetIndex t) USDC_ACCOUNT_INDEX) as [Hu|Hu]; simpl;
    [|split; [done|intros [t' []]; congruence]].
  assert (∀ b, Amount t / 10 ^ 6 < b ↔ Amount t < b * 10 ^ 6)%Z as Hdiv.
  { intros b. change (10 ^ 6)%Z with 1000000%Z. pose proof (Z.div_mod (Amount t) 1000000 ltac:(lia)).
    pose proof (Z.mod_pos_bound (Amount t) 1000000 ltac:(lia)). lia. }
  split.
  - intros [= (b & Hb & Hv)%verifyOrderSize_None]. exists t. split; [done..|].
    exists b. by rw -Hdiv.
  - intros [t' [_ Ht' _ _ (b & Hb & Hv)]]. assert (t' = t) as -> by congruence.
    f_equal. apply verifyOrderSize_None. exists b. by rw Hdiv.
Qed.

(** Which hash the handler asks for, once the withdrawal is accepted. *)
Definition withdrawal_hash (data : LighterData) (tx : LighterTx) (t : Transfer) (calldata : bytes)
    : result bytes :=
  BorrowUnlockHash calldata (Some (Amount t)) (lh_usdcAddress h) ARBITRUM_CHAIN_ID
    (lh_lighterAddress h) (ld_Deadline data) (lh_lighterAddress h) (ld_LiquidityPool data)
    (ld_Nonce data).

(** The handler after [notify]. *)
Lemma HandleMessage_notified data :
  ∃ c es, c = (if bool_decide (ld_Coordinator data = "") then host_ID r else ld_Coordinator data) ∧
    reports es = [] ∧ (∀ m s c', ¬ signs m s c' es) ∧
    HandleMessage data =
    match GetTx (ld_DepositTxHash data) with
    | Err e => (es, Done tt) ≫= λ _, fail e
    | Ok tx =>
        match verifyWithdrawal tx with
        | Panic p => (es, Panic p)
        | Done (Some e) => (es, Done tt) ≫= λ _, fail e
        | Done None =>
            (es, Done tt) ≫= λ _, emit (SendErrChn None) ≫= λ _,
            match lighter_calldata tx, tx_Transfer tx with
            | Panic p, _ => panic p
            | Done (Err e), _ => mret (Some e)
            | Done (Ok calldata), None => panic "nil pointer dereference"
            | Done (Ok calldata), Some t =>
                match withdrawal_hash data tx t calldata with
                | Err e => fail e
                | Ok unlockHash =>
                    sign r unlockHash (fmt_d LIGHTER_DOMAIN_ID +:+ "-" +:+ ld_OrderHash data) c
                end
            end
        end
    end.
Proof.
  destruct (notify_events r LighterMsg LighterSessionID data)
    as (Hrep & Hno & data' & err & Hret & Hdata).
  do 2 eexists. split_and!; [done|exact Hrep|exact Hno|].
  assert (ld_OrderHash data' = ld_OrderHash data ∧ ld_LiquidityPool data' = ld_LiquidityPool data ∧
    ld_DepositTxHash data' = ld_DepositTxHash data ∧ ld_Nonce data' = ld_Nonce data ∧
    ld_Deadline data' = ld_Deadline data ∧
    ld_Coordinator data' = if bool_decide (ld_Coordinator data = "") then host_ID r else ld_Coordinator data)
    as (E1&E2&E3&E4&E5&E6).
  { destruct Hdata as [[? ->]|[? ->]]; [rewrite bool_decide_true //|rewrite bool_decide_false //]. }
  rw /HandleMessage. destruct (notify _ _ _ _) as [es o]. simpl in Hret. subst o.
  rw {1}/mbind {1}/io_bind. cbn beta iota. rw E1 E2 E3 E4 E5 E6.
  rw /withdrawal_hash /lighter_amount.
  destruct (GetTx _) as [tx|]; [|done]. destruct (verifyWithdrawal tx) as [[e|]|p]; simpl.
  - done.
  - destruct (lighter_calldata tx) as [[calldata|e]|p]; [|done..].
    by destruct (tx_Transfer tx).
  - by rw app_nil_r.
Qed.

(** C32: a withdrawal is signed only for a transfer the Lighter API returned
    for the requested hash, to the repayment account, in USDC, of less than
    some configured bucket of dollars; the request was answered with nil; and
    what is signed is the borrow hash of the transfer's own amount, paid to
    the address in its memo. *)
Theorem lighter_signs_verified (data : LighterData) (m : Z) (sid : string) (c : PeerID) :
  signs m sid c (events (HandleMessage data)) →
  reports (events (HandleMessage data)) = [None] ∧
  ∃ tx t memo calldata unlockHash,
    GetTx (ld_DepositTxHash data) = Ok tx ∧ withdrawal_ok tx t ∧
    slice_to (Memo t) 20 = Done memo ∧
    Pack_fulfillWithdraw (HexToHash (tx_Hash tx)) (BytesToAddress memo) (Amount t) = Ok calldata ∧
    withdrawal_hash data tx t calldata = Ok unlockHash ∧
    m = big.SetBytes unlockHash ∧ sid = fmt_d LIGHTER_DOMAIN_ID +:+ "-" +:+ ld_OrderHash data ∧
    c = if bool_decide (ld_Coordinator data = "") then host_ID r else ld_Coordinator data.
Proof.
  destruct (HandleMessage_notified data) as (c0 & es & Hc & Hrep & Hno & ->).
  destruct (GetTx _) as [tx|] eqn:Eg;
    [|rw signs_bind; by intros [?%Hno|(? & _ & ?%fail_events)]].
  destruct (verifyWithdrawal tx) as [[e|]|p] eqn:Ev;
    [rw signs_bind; by intros [?%Hno|(? & _ & ?%fail_events)]| |by intros ?%Hno].
  rw signs_bind. intros [?%Hno|(? & _ & Hs)]; [done|].
  rw signs_bind in Hs. destruct Hs as [?%signs_emit_report|(? & _ & Hs)]; [done|].
  rw !reports_bind Hrep [returned (es, _)]/= [returned (emit _)]/= [reports (events (emit _))]/=.
  pose proof (proj1 (verifyWithdrawal_ok tx) Ev) as [t Ht]. destruct (Ht) as [_ Htt _ _ _].
  rw /lighter_calldata Htt in Hs |- *.
  destruct (slice_to (Memo t) 20) as [memo|] eqn:Em; [|by apply not_elem_of_nil in Hs].
  simpl in Hs |- *. destruct (Pack_fulfillWithdraw _ _ _) as [calldata|] eqn:Ep;
    [|by apply not_elem_of_nil in Hs].
  destruct (withdrawal_hash data tx t calldata) as [unlockHash|] eqn:Eh; [|by apply fail_events in Hs].
  apply sign_events in Hs as (-> & -> & ->). rw sign_reports. split; [done|].
  by exists tx, t, memo, calldata, unlockHash.
Qed.

(** A message of another relayer stops the listener for good exactly if
    its withdrawal is accepted and its hash cannot be computed (a message
    without nonce is enough): the handler then sends to [ErrChn] twice. *)
Theorem lighter_listener_blocks (payload : bytes) :
  listen_blocks payload = true ↔
  ∃ data tx t calldata e,
    Unmarshal payload = Ok data ∧ GetTx (ld_DepositTxHash data) = Ok tx ∧ withdrawal_ok tx t ∧
    lighter_calldata tx = Done (Ok calldata) ∧ withdrawal_hash data tx t calldata = Err e.
Proof.
  rw /listen_blocks bool_decide_eq_true /ListenMessage.
  destruct (Unmarshal payload) as [data|] eqn:Eu; [|split; [simpl; lia|naive_solver]].
  rw reports_bind. destruct (HandleMessage_notified data) as (c0 & es & Hc & Hrep & Hno & ->).
  assert (∀ o : outcome (option error), match o with Done _ => [] | Panic _ => [] end = @nil (option error))
    as Hnil by by intros [].
  simpl (reports (events (mret tt))). rw Hnil app_nil_r.
  destruct (GetTx _) as [tx|] eqn:Eg; [|rw reports_bind Hrep /=; split;
    [lia|intros (d & tx' & t & cd & e' & [= <-] & Hg & _); congruence]].
  destruct (verifyWithdrawal tx) as [[e|]|p] eqn:Ev.
  - rw reports_bind Hrep /=. split; [lia|]. intros (d & tx' & t & cd & e' & [= <-] & [= <-]%(eq_trans (eq_sym Eg)) & Ht & _).
    assert (verifyWithdrawal tx = Done None) by (apply verifyWithdrawal_ok; by exists t). congruence.
  - rw !reports_bind Hrep [returned (es, _)]/= [returned (emit _)]/= [reports (events (emit _))]/=.
    pose proof (proj1 (verifyWithdrawal_ok tx) Ev) as [t Ht]. destruct (Ht) as [_ Htt _ _ _].
    destruct (lighter_calldata tx) as [[calldata|e]|p] eqn:Ec; [|simpl; split;
      [lia|intros (d & tx' & t' & cd & e' & [= <-] & [= <-]%(eq_trans (eq_sym Eg)) & _ & ? & _); congruence]..].
    rw Htt. destruct (withdrawal_hash data tx t calldata) as [unlockHash|e] eqn:Eh.
    + rw sign_reports. split; [simpl; lia|]. intros (d & tx' & t' & cd & e' & [= <-] & [= <-]%(eq_trans (eq_sym Eg)) & Ht' & Hcd & He).
      destruct Ht' as [_ Htt' _ _ _]. congruence.
    + split; [|simpl; lia]. intros _. by exists data, tx, t, calldata, e.
  - rw Hrep /=. split; [lia|]. intros (d & tx' & t & cd & e' & [= <-] & [= <-]%(eq_trans (eq_sym Eg)) & Ht & _).
    assert (verifyWithdrawal tx = Done None) by (apply verifyWithdrawal_ok; by exists t). congruence.
Qed.
End handler.

(** The constant of chain.go is the last four bytes of the text "lighter:1"
    itself, not of its digest. *)
Lemma lighter_domain_is_text :
  LIGHTER_DOMAIN_ID = big.SetBytes (drop 5 (bytes_of "lighter:1")).
Proof. reflexivity. Qed.

Section witnesses.
Import Toy.

#[export] Instance LighterData_eq_dec : EqDecision LighterData.
Proof. solve_decision. Defined.
Import ToyJson.

#[local] Instance demo_abi : LighterABI := {| Pack_fulfillWithdraw _ _ _ := Ok [Byte.x01] |}.
Definition demo_handler : LighterMessageHandler :=
  {| lh_lighterAddress := demo_address; lh_usdcAddress := demo_address; lh_repaymentAccount := "7";
     lh_confirmations := {[1000%Z := 1%Z; 5000%Z := 2%Z]} |}.
Definition demo_tx : LighterTx := {|
  Code := 200; tx_Hash := "ab"; Type_ := 12; Info := ""; L1Address := "";
  tx_Transfer := Some {| Amount := 4999999999; AssetIndex := 3; FromAccountIndex := 1;
    ToAccountIndex := 7; Fee := 0;
    Memo := {| sl_elems := replicate 19 Byte.x05; sl_spare := replicate 2 Byte.x00 |} |} |}.
Definition demo_relayer : relayer unit :=
  {| host_ID := "a"; peerstore := ["a"; "b"]; broadcast_error := None;
     keyshare := Ok {| Key := tt; Threshold := 1; Peers := ["a"; "b"] |}; execute_error := None |}.
Definition demo_request (nonce : option Z) : LighterData := {|
  ld_OrderHash := "o"; ld_Coordinator := "b"; ld_LiquidityPool := demo_address;
  ld_DepositTxHash := "ab"; ld_Calldata := ""; ld_Nonce := nonce; ld_Deadline := 9;
  ld_Source := 0; ld_Destination := LIGHTER_DOMAIN_ID |}.
Definition demo_hash : bytes :=
  match withdrawal_hash demo_handler (demo_request (Some 1%Z)) demo_tx
          {| Amount := 4999999999; AssetIndex := 3; FromAccountIndex := 1; ToAccountIndex := 7;
             Fee := 0; Memo := {| sl_elems := []; sl_spare := [] |} |} [Byte.x01]
  with Ok hash => hash | Err _ => [] end.

Lemma lighter_signs_verified_witness :
  reports (events (HandleMessage demo_handler demo_relayer (λ _, Ok demo_tx) (demo_request (Some 1%Z)))) = [None].
Proof.
  eapply (lighter_signs_verified demo_handler demo_relayer (λ _, Ok demo_tx) (demo_request (Some 1%Z))
            (big.SetBytes demo_hash) "1701984817-o" "b").
  vm_compute. repeat (apply list_elem_of_here || apply list_elem_of_further).
Defined.

(** Integers that are nil are not hashed. *)
#[local, refine] Instance strict_apitypes : Apitypes := {|
  HashStruct types name m :=
    match m !! "nonce" with
    | Some (TVBig None) => Err (Errorf "invalid integer value")
    | _ => Ok (replicate 32 Byte.x00)
    end;
|}.
Proof. intros types name m hash Hm. repeat case_match; by simplify_eq. Defined.

Lemma null_nonce_blocks :
  listen_blocks demo_handler demo_relayer (λ _, Ok demo_tx) (json_Marshal (demo_request None)) = true.
Proof.
  refine (proj2 (lighter_listener_blocks demo_handler demo_relayer (λ _, Ok demo_tx) _) _).
  exists (demo_request None), demo_tx. do 3 eexists.
  split_and!; [by vm_compute|reflexivity| |reflexivity|reflexivity].
  split; [reflexivity|reflexivity|reflexivity|reflexivity|]. exists 5000%Z. by split; [eexists|].
Qed.
End witnesses.
