(* ===== verification/Contracts.v ===== *)
(** * What the contracts are called with and what their events say
      (src/chains/evm/calls, src/protocol/across)

    [Across], [Lighter] and [Listener] are written against interfaces for the
    calls they pack and the events they read.  Here these interfaces are
    implemented from the ABIs of [Abi], by the names of the fields of the Go
    structs, and what the relayer reads and signs is related to what the
    contracts log and are called with. *)
From S2P Require Import Prelude GoStd Encoding Json Libs JsonCodec Abi Comm Tokens Confirmations Eip712 Keyshare TssCommon.
From S2P Require Import Handlers.
From S2P Require Import Listener Across Lighter.

(** The declarations that the code uses by name. *)
Definition entry (kind name : string) (entries : list abi_entry) : abi_entry :=
  default {| en_kind := kind; en_name := name; en_inputs := [] |} (find_entry kind name entries).
Definition FundsDeposited : abi_entry := Eval vm_compute in entry "event" "FundsDeposited" consts.SpokePoolABI.
Definition fillRelay : abi_entry := Eval vm_compute in entry "function" "fillRelay" consts.SpokePoolABI.
Definition KeyRefresh : abi_entry := Eval vm_compute in entry "event" "KeyRefresh" consts.BridgeABI.
Definition StartKeygen : abi_entry := Eval vm_compute in entry "event" "StartKeygen" consts.BridgeABI.
Definition fulfillWithdraw : abi_entry := Eval vm_compute in entry "function" "fulfillWithdraw" consts.LighterABI.

(** ** events.go: the structs as fields *)
Definition AcrossDeposit_fields (d : AcrossDeposit) : list (string * abi_value) :=
  [("InputToken", VFixedBytes (InputToken d)); ("OutputToken", VFixedBytes (OutputToken d));
   ("InputAmount", VUint (InputAmount d)); ("OutputAmount", VUint (OutputAmount d));
   ("DestinationChainId", VUint (DestinationChainId d)); ("DepositId", VUint (dep_DepositId d));
   ("QuoteTimestamp", VUint (QuoteTimestamp d)); ("ExclusivityDeadline", VUint (ExclusivityDeadline d));
   ("FillDeadline", VUint (FillDeadline d)); ("Depositor", VFixedBytes (Depositor d));
   ("Recipient", VFixedBytes (Recipient d)); ("ExclusiveRelayer", VFixedBytes (ExclusiveRelayer d));
   ("Message", VBytes (Message d))].

Definition AcrossV3RelayData_fields (a : AcrossV3RelayData) : list (string * abi_value) :=
  [("Depositor", VFixedBytes (v3_Depositor a)); ("Recipient", VFixedBytes (v3_Recipient a));
   ("ExclusiveRelayer", VFixedBytes (v3_ExclusiveRelayer a)); ("InputToken", VFixedBytes (v3_InputToken a));
   ("OutputToken", VFixedBytes (v3_OutputToken a)); ("InputAmount", VUint (v3_InputAmount a));
   ("OutputAmount", VUint (v3_OutputAmount a)); ("OriginChainId", VUint (v3_OriginChainId a));
   ("DepositId", VUint (v3_DepositId a)); ("FillDeadline", VUint (v3_FillDeadline a));
   ("ExclusivityDeadline", VUint (v3_ExclusivityDeadline a)); ("Message", VBytes (v3_Message a))].

(** A field that is not set is zero. *)
Definition hash_field (fields : list (string * abi_value)) (name : string) : Hash :=
  match lookup_field fields name with Some (VFixedBytes b) => b | _ => replicate 32 Byte.x00 end.
Definition uint_field (fields : list (string * abi_value)) (name : string) : Z :=
  match lookup_field fields name with Some (VUint z) => z | _ => 0 end.
Definition bytes_field (fields : list (string * abi_value)) (name : string) : bytes :=
  match lookup_field fields name with Some (VBytes b) => b | _ => [] end.

Definition AcrossDeposit_of (fields : list (string * abi_value)) : AcrossDeposit := {|
  InputToken := hash_field fields "InputToken"; OutputToken := hash_field fields "OutputToken";
  InputAmount := uint_field fields "InputAmount"; OutputAmount := uint_field fields "OutputAmount";
  DestinationChainId := uint_field fields "DestinationChainId"; dep_DepositId := uint_field fields "DepositId";
  QuoteTimestamp := uint_field fields "QuoteTimestamp"; ExclusivityDeadline := uint_field fields "ExclusivityDeadline";
  FillDeadline := uint_field fields "FillDeadline"; Depositor := hash_field fields "Depositor";
  Recipient := hash_field fields "Recipient"; ExclusiveRelayer := hash_field fields "ExclusiveRelayer";
  Message := bytes_field fields "Message" |}.

Section contracts.
Context `{PeerLib, EthCommon, Keccak, MapRange, AbiCodec}.

(** [UnpackIntoInterface] asks for a field for each argument. *)
Definition UnpackDeposit (data : bytes) : result AcrossDeposit :=
  match unpack_fields FundsDeposited data with
  | Err e => Err e
  | Ok fields =>
      if forallb (λ f, existsb (λ g, bool_decide (f.1 = g.1)) (AcrossDeposit_fields (AcrossDeposit_of []))) fields
      then Ok (AcrossDeposit_of fields)
      else Err (Errorf "abi: field can't be found in the given value")
  end.

Definition PackFillRelay (a : AcrossV3RelayData) (repaymentChainID : Z) (repaymentAddress : bytes) : result bytes :=
  match en_inputs fillRelay with
  | {| arg_type := TTuple components |} :: _ =>
      match struct_value components (AcrossV3RelayData_fields a) with
      | Some relayData => Pack fillRelay [relayData; VUint repaymentChainID; VFixedBytes repaymentAddress]
      | None => Err (Errorf "abi: field can't be found in the given value")
      end
  | _ => Err (Errorf "abi: cannot use struct")
  end.

#[export] Instance spoke_pool : SpokePoolABI :=
  {| Unpack_FundsDeposited := UnpackDeposit; Pack_fillRelay := PackFillRelay |}.

#[export] Instance lighter_contract : LighterABI :=
  {| Pack_fulfillWithdraw hash address amount :=
       Pack fulfillWithdraw [VFixedBytes hash; VAddress address; VUint amount] |}.

(** [UnpackRefresh]: the only argument of the event is the first field. *)
Definition UnpackRefresh (data : bytes) : result Refresh :=
  match abi_decode (arg_type <$> NonIndexed KeyRefresh) data with
  | Ok [VString hash] => Ok {| Hash_ := hash |}
  | Ok _ => Err (Errorf "abi: cannot unmarshal")
  | Err e => Err e
  end.

(** The topics that the relayer asks for are those of the declared events. *)
Lemma event_signatures :
  StartKeygenSig = signature StartKeygen ∧ KeyRefreshSig = signature KeyRefresh ∧
  AcrossDepositSig = signature FundsDeposited.
Proof. split_and!; vm_compute; reflexivity. Qed.

(** ** Deposits *)
Record deposit_wf (d : AcrossDeposit) : Prop := {
  wf_InputToken : length (InputToken d) = 32;
  wf_OutputToken : length (OutputToken d) = 32;
  wf_InputAmount : (0 ≤ InputAmount d < 2 ^ 256)%Z;
  wf_OutputAmount : (0 ≤ OutputAmount d < 2 ^ 256)%Z;
  wf_DestinationChainId : (0 ≤ DestinationChainId d < 2 ^ 256)%Z;
  wf_DepositId : (0 ≤ dep_DepositId d < 2 ^ 256)%Z;
  wf_QuoteTimestamp : (0 ≤ QuoteTimestamp d < 2 ^ 32)%Z;
  wf_ExclusivityDeadline : (0 ≤ ExclusivityDeadline d < 2 ^ 32)%Z;
  wf_FillDeadline : (0 ≤ FillDeadline d < 2 ^ 32)%Z;
  wf_Depositor : length (Depositor d) = 32;
  wf_Recipient : length (Recipient d) = 32;
  wf_ExclusiveRelayer : length (ExclusiveRelayer d) = 32;
}.

(** Values whose ranges are among the hypotheses. *)
Ltac solve_typed :=
  simpl; rewrite ?andb_true_iff ?bool_decide_eq_true ?Z.leb_le ?Z.ltb_lt; split_and!; first [done | lia].

(** The names of the Go fields. *)
Ltac camel := simpl; rewrite ?ToCamelCase_plain //=.
Ltac camel_in Hx := simpl in Hx; rewrite ?ToCamelCase_plain //= in Hx.

(** The log of a deposit, spelled out. *)
Lemma emitted_deposit d contract block l :
  emitted FundsDeposited (AcrossDeposit_fields d) contract block = Some l →
  log_Topics l = [GetTopic AcrossDepositSig; LeftPadBytes (big.Bytes (DestinationChainId d)) 32;
                  LeftPadBytes (big.Bytes (dep_DepositId d)) 32; Depositor d] ∧
  log_Removed l = false ∧
  abi_encode (arg_type <$> NonIndexed FundsDeposited)
    [VFixedBytes (InputToken d); VFixedBytes (OutputToken d); VUint (InputAmount d); VUint (OutputAmount d);
     VUint (QuoteTimestamp d); VUint (FillDeadline d); VUint (ExclusivityDeadline d); VFixedBytes (Recipient d);
     VFixedBytes (ExclusiveRelayer d); VBytes (Message d)] = Ok (log_Data l).
Proof.
  intros He. destruct event_signatures as (_ & _ & Hsig). rw /emitted /field /= -Hsig in He. camel_in He.
  destruct (abi_encode _ _) as [b|] eqn:E; [|done]. injection He as <-. by split_and!.
Qed.

Lemma padded_number z : (0 ≤ z < 2 ^ 256)%Z →
  big.SetBytes (LeftPadBytes (big.Bytes z) 32) = z ∧ length (LeftPadBytes (big.Bytes z) 32) = 32.
Proof.
  intros Hz. rw LeftPadBytes_spec big.SetBytes_zeros length_app length_replicate. pose proof (length_be_id z Hz).
  split; [apply big.Bytes_spec; lia|lia].
Qed.

Lemma unpack_deposit d data :
  deposit_wf d →
  abi_encode (arg_type <$> NonIndexed FundsDeposited)
    [VFixedBytes (InputToken d); VFixedBytes (OutputToken d); VUint (InputAmount d); VUint (OutputAmount d);
     VUint (QuoteTimestamp d); VUint (FillDeadline d); VUint (ExclusivityDeadline d); VFixedBytes (Recipient d);
     VFixedBytes (ExclusiveRelayer d); VBytes (Message d)] = Ok data →
  UnpackDeposit data = Ok {|
    InputToken := InputToken d; OutputToken := OutputToken d; InputAmount := InputAmount d;
    OutputAmount := OutputAmount d; DestinationChainId := 0; dep_DepositId := 0; QuoteTimestamp := QuoteTimestamp d;
    ExclusivityDeadline := ExclusivityDeadline d; FillDeadline := FillDeadline d;
    Depositor := replicate 32 Byte.x00; Recipient := Recipient d; ExclusiveRelayer := ExclusiveRelayer d;
    Message := Message d |}.
Proof.
  intros Hwf He. rw /UnpackDeposit /unpack_fields. erewrite abi_decode_encode; [| |exact He]; [by camel|].
  destruct Hwf. solve_typed.
Qed.

Lemma is_deposit_emitted d contract block l :
  deposit_wf d → emitted FundsDeposited (AcrossDeposit_fields d) contract block = Some l →
  is_deposit (dep_DepositId d) l = true.
Proof.
  intros Hwf (Ht & Hr & _)%emitted_deposit. rw /is_deposit Ht Hr /= (bool_decide_true (Some _ = Some _)) //.
  apply bool_decide_eq_true. f_equal. symmetry. apply HexToHash_hex, padded_number, (wf_DepositId _ Hwf).
Qed.

(** C17: what the spoke pool logs is what is fetched.  When the receipt of the
    transaction holds the event of a deposit with an output token, as the ABI
    declares it, and no earlier event of the same ID, the fetcher returns
    this deposit: every field, those in topics and those in the data, is the
    one that was logged. *)
Theorem deposit_event_fetched (h : AcrossDepositFetcher) (receipt : Hash → result (list Log)) (hash : Hash)
    (d : AcrossDeposit) (contract : Address) (block : Z) (l : Log) (before after : list Log) :
  deposit_wf d → OutputToken d ≠ replicate 32 Byte.x00 →
  emitted FundsDeposited (AcrossDeposit_fields d) contract block = Some l →
  receipt hash = Ok (before ++ l :: after) → Forall (λ l', is_deposit (dep_DepositId d) l' = false) before →
  fetchDepositByHash h receipt hash (Some (dep_DepositId d)) = Done (Ok d).
Proof.
  intros Hwf Hout He Hr Hb. pose proof (is_deposit_emitted _ _ _ _ Hwf He) as Hl.
  apply emitted_deposit in He as (Ht & _ & Hdata). rw /fetchDepositByHash Hr.
  assert (find_deposit h (dep_DepositId d) (before ++ l :: after) = parseDeposit h l) as ->.
  { clear Hr. induction Hb as [|l' before Hl' _ IH]; simpl; [by rw Hl|]. by rw Hl' IH. }
  rw /parseDeposit /= (unpack_deposit d) // Ht /=. destruct Hwf.
  rw !(proj1 (padded_number _ _)) // bool_decide_false; [by destruct d|].
  intros Hz. apply Hout. apply (f_equal hex.DecodeString) in Hz. rw hex.DecodeString_EncodeToString in Hz.
  vm_compute in Hz. by injection Hz.
Qed.

(** ** Fills *)

(** What [fillRelay] is to be called with, in the order of the contract. *)
Definition fill_args (d : AcrossDeposit) (origin repaymentChainID : Z) (repaymentAddress : Address) : list abi_value :=
  [VTuple [VFixedBytes (Depositor d); VFixedBytes (Recipient d); VFixedBytes (ExclusiveRelayer d);
           VFixedBytes (InputToken d); VFixedBytes (OutputToken d); VUint (InputAmount d);
           VUint (OutputAmount d); VUint origin; VUint (dep_DepositId d); VUint (FillDeadline d);
           VUint (ExclusivityDeadline d); VBytes (Message d)];
   VUint repaymentChainID; VFixedBytes (replicate 12 Byte.x00 ++ repaymentAddress)].

(** The calldata carries the deposit.  For a deposit with fields of their Go
    types, an origin chain, a repayment chain and a repayment address, packing
    does not fail; the calldata begins with the selector of [fillRelay], and
    the spoke pool reads back from it, as the ABI declares it, each field of
    the deposit in its place, the repayment chain and the padded address. *)
Lemma fill_calldata_decodes (d : AcrossDeposit) (origin repaymentChainID : Z) (repaymentAddress : Address) :
  deposit_wf d → (0 ≤ origin < 2 ^ 256)%Z → (0 ≤ repaymentChainID < 2 ^ 256)%Z → length repaymentAddress = 20 →
  ∃ calldata, Calldata (ToV3RelayData d origin) repaymentChainID repaymentAddress = Ok calldata ∧
    call_args fillRelay calldata = Ok (fill_args d origin repaymentChainID repaymentAddress).
Proof.
  intros Hwf Ho Hc Ha. rw /Calldata /Pack_fillRelay /= /PackFillRelay /struct_value /field /= LeftPadBytes_spec Ha. camel.
  set (args := [VTuple _; _; _]).
  assert (all_typed (arg_type <$> en_inputs fillRelay) args = true) as Ht.
  { destruct Hwf. rw /args. assert (length (replicate (32 - 20) Byte.x00 ++ repaymentAddress) = 32).
    { by rw length_app length_replicate Ha. }
    solve_typed. }
  destruct (Pack fillRelay args) as [calldata|] eqn:E.
  - exists calldata. split; [done|]. by apply call_args_Pack.
  - pose proof (abi_encode_typed _ _ Ht) as Hok. rw /Pack in E. by destruct (abi_encode _ args).
Qed.

(** What is unpacked has the declared types. *)
Lemma unpacked_typed data d :
  UnpackDeposit data = Ok d →
  length (InputToken d) = 32 ∧ length (OutputToken d) = 32 ∧ (0 ≤ InputAmount d < 2 ^ 256)%Z ∧
  (0 ≤ OutputAmount d < 2 ^ 256)%Z ∧ (0 ≤ QuoteTimestamp d < 2 ^ 32)%Z ∧
  (0 ≤ ExclusivityDeadline d < 2 ^ 32)%Z ∧ (0 ≤ FillDeadline d < 2 ^ 32)%Z ∧
  length (Recipient d) = 32 ∧ length (ExclusiveRelayer d) = 32.
Proof.
  rw /UnpackDeposit /unpack_fields. destruct (abi_decode _ data) as [vs|] eqn:E; [|done].
  apply abi_decode_typed in E. change (arg_type <$> NonIndexed FundsDeposited) with
    [TFixedBytes 32; TFixedBytes 32; TUint 256; TUint 256; TUint 32; TUint 32; TUint 32; TFixedBytes 32;
     TFixedBytes 32; TBytes] in E.
  typed_inv E. camel. intros [= <-]. exact (conj Hv (conj Hv0 (conj Hv1 (conj Hv2 (conj Hv3 (conj Hv5 (conj Hv4 (conj Hv6 Hv7)))))))).
Qed.

Lemma topic_number t : length t = 32 → (0 ≤ big.SetBytes t < 2 ^ 256)%Z.
Proof. intros Ht. pose proof (big.SetBytes_bounds t) as Hb. by rw Ht in Hb. Qed.

Lemma parseDeposit_wf h l d :
  (∀ t, t ∈ log_Topics l → length t = 32) →
  (∀ f z s a, df_tokenMatcher h = Some f → f z s = Ok a → length a = 20) →
  parseDeposit h l = Done (Ok d) → deposit_wf d.
Proof.
  intros Ht Hm. rw /parseDeposit /=. destruct (UnpackDeposit (log_Data l)) as [d0|] eqn:E; [|done].
  apply unpacked_typed in E as (?&?&?&?&?&?&?&?&?). case_bool_decide; [done|].
  destruct (log_Topics l) as [|t0 [|t1 [|t2 [|t3 ts]]]]; simpl in *; try lia.
  assert (length t1 = 32 ∧ length t2 = 32 ∧ length t3 = 32) as (H1' & H2' & H3').
  { split_and!; apply Ht; rw !elem_of_cons; auto. }
  pose proof (topic_number _ H1'). pose proof (topic_number _ H2').
  case_bool_decide.
  - destruct (ConfigByAddress _ _ _) as [[symbol tc]|]; [|done].
    destruct (df_tokenMatcher h) as [f|]; [|done]. destruct (f _ symbol) as [a|] eqn:Ea; [|done].
    intros [= <-]. split; simpl; try done. rw LeftPadBytes_spec length_app length_replicate (Hm _ _ _ _ eq_refl Ea). done.
  - intros [= <-]. by split.
Qed.

(** ** What is signed *)
Section signed.
Context {SaveData : Type} `{Apitypes, ConfirmationWatcher, EthJson}.
Context (df : AcrossDepositFetcher) (receipt : Hash → result (list Log)).
#[local] Instance contract_deposits : DepositFetcher := across_fetcher df receipt.

(** C16: what is signed pays out what was logged.  When the handler signs, the
    number signed is the borrow hash of a calldata that the spoke pool reads,
    by its ABI, as a fill of a deposit that was found in the transaction of
    the request: each field in its place, with the origin chain of the
    handler, the repayment chain of the request and the repayer configured
    for it, padded. *)
Theorem signed_fill_decodes (h : AcrossMessageHandler) (r : relayer SaveData) (data : AcrossData)
    (m : Z) (sid : string) (c : PeerID) :
  (∀ hash logs l t, receipt hash = Ok logs → l ∈ logs → t ∈ log_Topics l → length t = 32) →
  (∀ f z s a, df_tokenMatcher df = Some f → f z s = Ok a → length a = 20) →
  (∀ chain a, ah_repayers h !! chain = Some a → length a = 20) →
  (0 ≤ ah_chainID h < 2 ^ 64)%Z → (0 ≤ RepaymentChainID data < 2 ^ 64)%Z →
  signs m sid c (events (Across.HandleMessage h r data)) →
  ∃ d repayment amount calldata unlockHash,
    logged df receipt (DepositTxHash data) (DepositId data) d ∧
    ah_repayers h !! RepaymentChainID data = Some repayment ∧ BorrowAmount data = Some amount ∧
    call_args fillRelay calldata = Ok (fill_args d (ah_chainID h) (RepaymentChainID data) repayment) ∧
    BorrowUnlockHash calldata (Some amount) (BytesToAddress (OutputToken d)) (DestinationChainId d)
      (pool_of h (big_Uint64 (DestinationChainId d))) (Deadline data) (Caller data) (LiquidityPool data)
      (Nonce data) = Ok unlockHash ∧ m = big.SetBytes unlockHash.
Proof.
  intros Ht Hm Ha Ho Hc Hs%Across.signs_authorised.
  destruct Hs as [d repayment src dst amount calldata unlockHash Hd Hrep _ _ Hb _ _ Hcd Hh Hmsg _ _].
  exists d, repayment, amount, calldata, unlockHash. split_and!; try done. simpl in Hd.
  assert (deposit_wf d) as Hwf.
  { destruct Hd as (id & logs & l & _ & Hr & Hl & _ & Hp). apply (parseDeposit_wf df l); [|exact Hm|exact Hp].
    intros t. by apply (Ht _ _ _ _ Hr Hl). }
  destruct (fill_calldata_decodes d (ah_chainID h) (RepaymentChainID data) repayment Hwf) as (b & Hcd' & Hargs);
    [lia|lia|by eapply Ha|]. rw Hcd in Hcd'. by injection Hcd' as <-.
Qed.
End signed.

(** What [fulfillWithdraw] is called with. *)
Lemma withdrawal_calldata_decodes hash address amount :
  length hash = 32 → length address = 20 → (0 ≤ amount < 2 ^ 64)%Z →
  ∃ calldata, Pack_fulfillWithdraw hash address amount = Ok calldata ∧
    call_args fulfillWithdraw calldata = Ok [VFixedBytes hash; VAddress address; VUint amount].
Proof.
  intros Hh Ha Hz. simpl. set (args := [_; _; _]).
  assert (all_typed (arg_type <$> en_inputs fulfillWithdraw) args = true) as Ht.
  { rw /args. assert (0 ≤ amount < 2 ^ 256)%Z by lia. solve_typed. }
  destruct (Pack fulfillWithdraw args) as [calldata|] eqn:E.
  - exists calldata. split; [done|]. by apply call_args_Pack.
  - pose proof (abi_encode_typed _ _ Ht) as Hok. rw /Pack in E. by destruct (abi_encode _ args).
Qed.

(** ** Key refreshes *)

(** A filter by the first topic, as nodes answer it. *)
Definition filter_logs (logs : list Log) (event : string) : result (list Log) :=
  Ok (filter (λ l, log_Topics l !! 0 = Some (GetTopic event)) logs).

(** The refresh event that the admin contract logs is the one that is
    read: of the logs of a range of blocks, the first with the topic of the
    declared event is taken, and its hash is the one that was logged. *)
Theorem refresh_event_read (hash : string) (contract : Address) (block : Z) (l : Log) (before after : list Log) :
  emitted KeyRefresh [("Hash", VString hash)] contract block = Some l →
  Forall (λ l', log_Topics l' !! 0 ≠ Some (GetTopic KeyRefreshSig)) before →
  FetchRefreshEvents (filter_logs (before ++ l :: after)) UnpackRefresh = Ok (Some ({| Hash_ := hash |}, l)).
Proof.
  intros He Hb. destruct event_signatures as (_ & Hsig & _). rw /emitted /field /= -Hsig in He. camel_in He.
  destruct (abi_encode _ _) as [b|] eqn:E; [|done]. injection He as <-.
  assert (filter (λ l, log_Topics l !! 0 = Some (GetTopic KeyRefreshSig)) before = []) as Hnone.
  { apply filter_none. by apply Forall_forall. }
  rw /FetchRefreshEvents /filter_logs filter_app Hnone filter_cons /=. rewrite decide_True; [|done].
  rw /= /UnpackRefresh. by erewrite abi_decode_encode; [| |exact E].
Qed.
End contracts.

Section witnesses.
Import Toy ToyJson.

(** A codec: values as trees, trees as numbers, numbers as bits. *)
Fixpoint to_tree (v : abi_value) : gen_tree (nat * Z * bytes) :=
  match v with
  | VUint z => GenLeaf (0, z, [])
  | VFixedBytes b => GenLeaf (1, 0%Z, b)
  | VAddress a => GenLeaf (2, 0%Z, a)
  | VBool b => GenLeaf (3, Z.b2z b, [])
  | VBytes b => GenLeaf (4, 0%Z, b)
  | VString s => GenLeaf (5, 0%Z, bytes_of s)
  | VTuple vs => GenNode 0 (to_tree <$> vs)
  | VSlice vs => GenNode 1 (to_tree <$> vs)
  end.

Fixpoint of_tree (t : gen_tree (nat * Z * bytes)) : abi_value :=
  match t with
  | GenLeaf (0, z, _) => VUint z
  | GenLeaf (1, _, b) => VFixedBytes b
  | GenLeaf (2, _, a) => VAddress a
  | GenLeaf (3, z, _) => VBool (bool_decide (z = 1%Z))
  | GenLeaf (4, _, b) => VBytes b
  | GenLeaf (_, _, b) => VString (string_of b)
  | GenNode 0 ts => VTuple (of_tree <$> ts)
  | GenNode _ ts => VSlice (of_tree <$> ts)
  end.

Lemma of_to_tree v : of_tree (to_tree v) = v.
Proof.
  revert v. fix IH 1. intros [z|b|a|b|b|s|vs|vs]; simpl; try done.
  - by destruct b.
  - f_equal. by rewrite /string_of /bytes_of String.string_of_list_byte_of_string.
  - f_equal. induction vs as [|v vs IHvs]; [done|]. simpl. f_equal; [apply IH|exact IHvs].
  - f_equal. induction vs as [|v vs IHvs]; [done|]. simpl. f_equal; [apply IH|exact IHvs].
Qed.

Fixpoint bits_of (p : positive) : bytes :=
  match p with xH => [] | xO p => x00 :: bits_of p | xI p => x01 :: bits_of p end.
Fixpoint of_bits (b : bytes) : positive :=
  match b with [] => xH | x00 :: b => xO (of_bits b) | _ :: b => xI (of_bits b) end.
Lemma of_bits_of p : of_bits (bits_of p) = p.
Proof. induction p; simpl; congruence. Qed.

Definition demo_encode (vs : list abi_value) : bytes := bits_of (countable.encode (to_tree (VTuple vs))).
Definition demo_decode (ts : list abi_type) (b : bytes) : result (list abi_value) :=
  match countable.decode (of_bits b) with
  | Some t => match of_tree t with
              | VTuple vs => if all_typed ts vs then Ok vs else Err (Errorf "no values")
              | _ => Err (Errorf "no values")
              end
  | None => Err (Errorf "no values")
  end.

#[local, refine] Instance demo_codec : AbiCodec := {|
  abi_encode _ vs := Ok (demo_encode vs);
  abi_decode := demo_decode;
  ToCamelCase s := match s with EmptyString => EmptyString | String c s' => String (upper c) s' end;
|}.
Proof.
  - done.
  - intros ts vs b Ht [= <-]. by rewrite /demo_decode /demo_encode of_bits_of decode_encode of_to_tree Ht.
  - intros ts b vs. rewrite /demo_decode. destruct (countable.decode _) as [t|]; [|done].
    destruct (of_tree t); try done. destruct (all_typed ts _) eqn:E; [|done]. by intros [= <-].
  - done.
Defined.

Definition demo_deposited : AcrossDeposit := {|
  InputToken := replicate 12 x00 ++ demo_token; OutputToken := replicate 32 x02; InputAmount := 5000000;
  OutputAmount := 4900000; DestinationChainId := 10; dep_DepositId := 77; QuoteTimestamp := 1;
  ExclusivityDeadline := 2; FillDeadline := 9; Depositor := replicate 32 x04; Recipient := replicate 32 x03;
  ExclusiveRelayer := replicate 32 x00; Message := [x06] |}.

Lemma demo_deposited_wf : deposit_wf demo_deposited.
Proof. by split. Qed.

Definition demo_emitted : option Log := emitted FundsDeposited (AcrossDeposit_fields demo_deposited) demo_token 10.

Lemma deposit_event_fetched_witness :
  ∃ l, demo_emitted = Some l ∧
    fetchDepositByHash Across.demo_fetcher (λ _, Ok [l]) [] (Some 77%Z) = Done (Ok demo_deposited).
Proof.
  eexists. split; [reflexivity|].
  exact (deposit_event_fetched Across.demo_fetcher _ [] demo_deposited demo_token 10 _ [] [] demo_deposited_wf
    ltac:(done) eq_refl eq_refl (List.Forall_nil _)).
Defined.

Lemma refresh_event_read_witness :
  ∃ l, emitted KeyRefresh [("Hash", VString "ab")] [] 5 = Some l ∧
    FetchRefreshEvents (filter_logs [l]) UnpackRefresh = Ok (Some ({| Hash_ := "ab" |}, l)).
Proof.
  eexists. split; [reflexivity|]. exact (refresh_event_read "ab" [] 5 _ [] [] eq_refl (List.Forall_nil _)).
Defined.

(** The request of [Across], for the deposit that the spoke pool logged. *)
Definition demo_receipt : Hash → result (list Log) := λ _, Ok (option_list demo_emitted).
#[local] Instance demo_watched : ConfirmationWatcher :=
  watcher_interface demo_watcher demo_price
    (λ _, [{| poll_done := false; poll_receipt := Ok (Some 10%Z); poll_latest := Ok 12%Z |}]).
Definition demo_signed : list (Z * string * PeerID) :=
  omap (λ a, match a with ExecuteSigning m sid c => Some (m, sid, c) | _ => None end)
    (events (Across.HandleMessage (H5 := contract_deposits Across.demo_fetcher demo_receipt)
      Across.demo_handler Across.demo_relayer Across.demo_request)).

Lemma signed_fill_decodes_witness :
  ∃ m sid c d repayment calldata, (m, sid, c) ∈ demo_signed ∧
    call_args fillRelay calldata = Ok (fill_args d 1 10 repayment).
Proof.
  assert (length demo_signed = 1) as Hl by (vm_compute; reflexivity).
  destruct demo_signed as [|[[m sid] c] rest] eqn:E; [done|].
  assert ((m, sid, c) ∈ demo_signed) as Hin by (rewrite E; by left). clear Hl E.
  assert (Hs := Hin). apply list_elem_of_omap in Hs as (a & Ha & Heq). destruct a; simplify_eq.
  destruct (signed_fill_decodes Across.demo_fetcher demo_receipt Across.demo_handler Across.demo_relayer
    Across.demo_request m sid c) as (d & repayment & amount & calldata & hash & _ & _ & _ & Hargs & _); try done.
  - intros hash logs l t [= <-] Hl Ht.
    assert (forallb (λ l, forallb (λ t, bool_decide (length t = 32)) (log_Topics l)) (option_list demo_emitted) = true)
      as Hok by (vm_compute; reflexivity).
    rewrite forallb_forall in Hok. apply list_elem_of_In, Hok in Hl. rewrite forallb_forall in Hl.
    by apply list_elem_of_In, Hl, bool_decide_eq_true in Ht.
  - intros chain repayer Hrep. change (({[10%Z := demo_token]} : gmap Z Address) !! chain = Some repayer) in Hrep.
    apply lookup_singleton_Some in Hrep as [_ <-]. reflexivity.
  - exists m, sid, c, d, repayment, calldata. by split; [left|].
Defined.
End witnesses.
