(* ===== verification/Relay.v ===== *)
(** * A request passed from one relayer to the others
      (src/chains/evm/message, src/chains/lighter/message, src/comm/p2p)

    A request enters at one relayer, whose handler broadcasts it; the
    listeners of the others decode it and run the same handler.
    [RequestHandler] is what the protocols promise about that; the theorem
    that relayers sign the same is proved against it. *)
From Stdlib Require Import Ascii.
From S2P Require Import Prelude GoStd Encoding Json Libs JsonCodec Comm Subscriptions P2P.
From S2P Require Import Tokens Confirmations Eip712 Keyshare TssCommon Signing Handlers.
From S2P Require Import Lighter Sprinter Lifi Across.

(** ** The interface *)
Class RequestHandler (SaveData D : Type) `{PeerLib, HasCoordinator D, Json D} := {
  rh_type : MessageType;
  rh_session : string;
  rh_handle : relayer SaveData → D → io handler_action (option error);
  rh_listen : relayer SaveData → bytes → io handler_action unit;
  (** the message type and session can be sent *)
  rh_sendable : (0 ≤ rh_type < 2 ^ 63)%Z ∧ utf8.Valid rh_session = true;
  (** a request is broadcast before anything is signed for it *)
  rh_notifies r d : coordinator_of d = "" → executes (events (rh_handle r d)) ≠ [] →
    (peerstore r, json_Marshal (with_coordinator (host_ID r) d), rh_type, rh_session)
      ∈ notified (events (rh_handle r d));
  (** what is signed does not depend on the relayer *)
  rh_agrees r1 r2 d : coordinator_of d = "" → host_ID r1 ≠ "" →
    is_ok (keyshare r1) = true → is_ok (keyshare r2) = true →
    executes (events (rh_handle r1 d)) =
    executes (events (rh_handle r2 (with_coordinator (host_ID r1) d)));
  (** the sessions are led by the coordinator of the request *)
  rh_coordinator r d : coordinator_of d ≠ "" →
    Forall (λ e, e.2 = coordinator_of d) (executes (events (rh_handle r d)));
  (** messages of other relayers are handled like requests *)
  rh_listens r payload :
    executes (events (rh_listen r payload)) =
    match Unmarshal payload with Ok d => executes (events (rh_handle r d)) | Err _ => [] end;
}.

Lemma ASCII_fmt_d z : utf8.ASCII (fmt_d z) = true.
Proof.
  assert (∀ s, strconv.all_digits s = true → utf8.ASCII s = true) as Hd.
  { induction s as [|c s IH]; [done|]. simpl. intros [[_ Hc%Z.leb_le]%andb_true_iff Hs]%andb_true_iff.
    rw IH // andb_true_r /utf8.code. apply N.ltb_lt. lia. }
  assert (∀ p, utf8.ASCII (fmt_d (Z.pos p)) = true) as Hp.
  { intros p. apply Hd. by rw strconv.fmt_d_pos strconv.pretty_N_go_all_digits. }
  destruct z as [|p|p]; [done|by apply Hp|].
  assert (fmt_d (Z.neg p) = String "-" (fmt_d (Z.pos p))) as -> by done. simpl. apply Hp.
Qed.

Lemma ASCII_app s t : utf8.ASCII s = true → utf8.ASCII t = true → utf8.ASCII (s +:+ t) = true.
Proof. intros Hs Ht. induction s as [|c s IH]; [done|]. simpl in Hs |- *. by apply andb_true_iff in Hs as [-> ?%IH]. Qed.

Lemma Valid_session z s : utf8.ASCII s = true → utf8.Valid (fmt_d z +:+ "-" +:+ s) = true.
Proof. intros Hs. apply utf8.Valid_ASCII, ASCII_app; [apply ASCII_fmt_d|by apply ASCII_app]. Qed.

(** ** The protocols *)
Lemma executes_listen {D} `{PeerLib, Json D} (payload : bytes)
    (handle : D → io handler_action (option error)) :
  executes (events (match Unmarshal (A := D) payload with
                    | Err _ => (mret tt : io handler_action unit)
                    | Ok d => handle d ≫= λ _, mret tt
                    end)) =
  match Unmarshal payload with Ok d => executes (events (handle d)) | Err _ => [] end.
Proof.
  destruct (Unmarshal payload) as [d|]; [|done]. rw executes_bind.
  by destruct (returned (handle d)); rw app_nil_r.
Qed.

Section protocols.
Context {SaveData : Type}.
Context `{PeerLib, EthCommon, Keccak, MapRange, Apitypes, EthJson}.

#[export, refine] Instance sprinter_handler (h : SprinterCreditMessageHandler) : RequestHandler SaveData SprinterCreditData := {|
  rh_type := SprinterCreditMsg;
  rh_session := sprinter_session (sh_chainID h);
  rh_handle := Sprinter.HandleMessage h;
  rh_listen := Sprinter.ListenMessage h;
|}.
Proof.
  - split; [done|]. by apply Valid_session.
  - intros r d Hd _. apply notified_bind. erewrite notified_notify; [by left|done|done].
  - intros r1 r2 d Hd Hhost Hk1 Hk2. apply executes_notify; [done..|]. intros _ _. cbn beta iota. same_executes.
  - intros r d Hc. rw /Sprinter.HandleMessage notify_relayed // io_bind_ret. all_executes.
  - intros r payload. apply executes_listen.
Defined.

#[export, refine] Instance lighter_handler `{LighterABI} (h : LighterMessageHandler)
    (GetTx : string → result LighterTx) : RequestHandler SaveData LighterData := {|
  rh_type := LighterMsg;
  rh_session := LighterSessionID;
  rh_handle := λ r, Lighter.HandleMessage h r GetTx;
  rh_listen := λ r, Lighter.ListenMessage h r GetTx;
|}.
Proof.
  - split; [done|]. done.
  - intros r d Hd _. apply notified_bind. erewrite notified_notify; [by left|done|done].
  - intros r1 r2 d Hd Hhost Hk1 Hk2. apply executes_notify; [done..|]. intros _ _. cbn beta iota. same_executes.
  - intros r d Hc. rw /Lighter.HandleMessage notify_relayed // io_bind_ret. all_executes.
  - intros r payload. apply executes_listen.
Defined.

#[export, refine] Instance escrow_handler `{LifiLib, OrderFetcher, ConfirmationWatcher}
    (h : LifiEscrowMessageHandler) : RequestHandler SaveData LifiEscrowData := {|
  rh_type := LifiEscrowMsg;
  rh_session := escrow_session (lh_chainID h);
  rh_handle := HandleEscrow h;
  rh_listen := ListenEscrow h;
|}.
Proof.
  - split; [done|]. by apply Valid_session.
  - intros r d Hd _. apply notified_bind. erewrite notified_notify; [by left|done|done].
  - intros r1 r2 d Hd Hhost Hk1 Hk2. apply executes_notify; [done..|]. intros _ _. cbn beta iota. same_executes.
  - intros r d Hc. rw /HandleEscrow notify_relayed // io_bind_ret. all_executes.
  - intros r payload. apply executes_listen.
Defined.

#[export, refine] Instance unlock_handler (h : LifiUnlockHandler) : RequestHandler SaveData LifiUnlockData := {|
  rh_type := LifiUnlockMsg;
  rh_session := unlock_session (uh_chainID h);
  rh_handle := HandleUnlock h;
  rh_listen := ListenUnlock h;
|}.
Proof.
  - split; [done|]. by apply Valid_session.
  - intros r d Hd _. apply notified_bind. erewrite notified_notify; [by left|done|done].
  - intros r1 r2 d Hd Hhost Hk1 Hk2. apply executes_notify; [done..|]. intros _ _. cbn beta iota. same_executes.
  - intros r d Hc. rw /HandleUnlock notify_relayed // io_bind_ret. all_executes.
  - intros r payload. apply executes_listen.
Defined.

#[export, refine] Instance across_handler `{SpokePoolABI, DepositFetcher, ConfirmationWatcher}
    (h : AcrossMessageHandler) : RequestHandler SaveData AcrossData := {|
  rh_type := AcrossMsg;
  rh_session := across_session (ah_chainID h);
  rh_handle := Across.HandleMessage h;
  rh_listen := Across.ListenMessage h;
|}.
Proof.
  - split; [done|]. by apply Valid_session.
  - intros r d Hd. rw /Across.HandleMessage. destruct (ah_repayers h !! _); [|done]. intros _.
    apply notified_bind. erewrite notified_notify; [by left|done|done].
  - intros r1 r2 d Hd Hhost Hk1 Hk2. rw /Across.HandleMessage.
    change (RepaymentChainID (with_coordinator (host_ID r1) d)) with (RepaymentChainID d).
    destruct (ah_repayers h !! _); [|done].
    apply executes_notify; [done..|]. intros _ _. cbn beta iota. rw /sign_fill. same_executes.
  - intros r d Hc. rw /Across.HandleMessage. destruct (ah_repayers h !! _); [|constructor].
    rw notify_relayed // io_bind_ret /sign_fill. all_executes.
  - intros r payload. apply executes_listen.
Defined.

End protocols.

(** ** From one relayer to another *)

Section relayed.
Context {SaveData D chan : Type} `{PeerLib, HasCoordinator D, Json D}.
Context `{!RequestHandler SaveData D}.

(** C35: relayers sign the same.  When a relayer starts signing sessions for a
    request that came from outside, it has broadcast that request with itself
    as the coordinator; a broadcast that succeeds has written it to the
    stream of every peer; the peer hands it to the channels that listen to
    the session and type of the protocol; and its listener runs, on the same
    chain state and configuration, exactly the same sessions: the same
    messages, under the same session IDs, led by the relayer that got the
    request. *)
Theorem request_relayed (here there : relayer SaveData) (d : D) :
  coordinator_of d = "" → host_ID here ≠ "" →
  json_wf (with_coordinator (host_ID here) d) →
  is_ok (keyshare here) = true → is_ok (keyshare there) = true →
  executes (events (rh_handle here d)) ≠ [] →
  ∃ payload frame,
    (peerstore here, payload, rh_type, rh_session) ∈ notified (events (rh_handle here d)) ∧
    (∀ env sm schedule acts sm' p,
       P2P.Broadcast env sm payload rh_type rh_session schedule = (acts, sm', None) → p ∈ schedule →
       ∃ stream, NetWrite stream (WriteStream frame) ∈ acts) ∧
    (∀ ms : @SessionSubscriptionManager chan,
       ProcessMessagesFromStream (host_ID here) (λ _, ms) (WriteStream frame) =
       [(GetSubscribers ms rh_session rh_type,
         {| wm_MessageType := rh_type; wm_SessionID := rh_session; wm_Payload := payload;
            wm_From := host_ID here |})]) ∧
    executes (events (rh_listen there payload)) = executes (events (rh_handle here d)) ∧
    Forall (λ e, e.2 = host_ID here) (executes (events (rh_handle here d))).
Proof.
  intros Hd Hhost Hwf Hk1 Hk2 Hex.
  set (payload := json_Marshal (with_coordinator (host_ID here) d)).
  set (w := {| message_type := rh_type; message_id := rh_session; payload := payload |}).
  assert (json_wf w) as Hw by (destruct rh_sendable as [? ?]; wf_fields; simpl; lia).
  exists payload, (json_Marshal w). split_and!.
  - by apply rh_notifies.
  - intros env sm schedule acts sm' p Hb Hp. eapply run_sends_writes; [exact Hb|done].
  - intros ms. by rw one_message_delivered.
  - rw rh_listens /payload /= json_Unmarshal_Marshal //. symmetry. by apply rh_agrees.
  - rw (rh_agrees here there) //. rw -{1}(coordinator_with (host_ID here) d). apply rh_coordinator.
    by rw coordinator_with.
Qed.
End relayed.

Section witnesses.
Import Toy ToyJson.

Definition demo_outside : SprinterCreditData := set_sc_Coordinator "" Sprinter.demo_request.
Definition demo_there : relayer unit :=
  {| host_ID := "b"; peerstore := ["a"; "b"]; broadcast_error := None;
     keyshare := keyshare Sprinter.demo_relayer; execute_error := None |}.

Lemma request_relayed_witness :
  executes (events (Sprinter.HandleMessage Sprinter.demo_handler Sprinter.demo_relayer demo_outside)) ≠ [] ∧
  ∃ payload,
    executes (events (Sprinter.ListenMessage Sprinter.demo_handler demo_there payload)) =
    executes (events (Sprinter.HandleMessage Sprinter.demo_handler Sprinter.demo_relayer demo_outside)).
Proof.
  assert (executes (events (Sprinter.HandleMessage Sprinter.demo_handler Sprinter.demo_relayer demo_outside)) ≠ [])
    as Hex by by vm_compute.
  split; [done|].
  destruct (request_relayed (chan := nat) (RequestHandler0 := sprinter_handler Sprinter.demo_handler)
    Sprinter.demo_relayer demo_there demo_outside) as (payload & _ & _ & _ & _ & He & _); [done|done| |done|done|done|].
  - wf_fields; by vm_compute.
  - by exists payload.
Defined.
End witnesses.
