(* ===== verification/Requests.v ===== *)
(** * From a request to the parties that sign it
      (src/chains/evm/message, src/chains/lighter/message, src/tss)

    The handlers of [Handlers] decide what a relayer signs, [Relay] carries a
    request from one relayer to the others, and [Session] runs what they
    decided on the network.  Here they are put together: the sessions of the
    network are those that the handlers of its relayers execute. *)
From S2P Require Import Prelude GoStd Encoding Json Libs JsonCodec Comm PeerSort Subscriptions P2P.
From S2P Require Import Tokens Confirmations Eip712 Keyshare TssCommon TssCoordinator Signing Network Session Handlers.
From S2P Require Import Lighter Sprinter Lifi Across Relay.

Section requests.
Context {SaveData : Type}.
Context `{PeerLib, Keccak, TssLib, EthCommon}.

(** The signing process a handler makes, and the coordinator it passes to
    [Execute]. *)
Definition session_of (r : relayer SaveData) (acts : list handler_action)
    : option (Signing (SaveData := SaveData) * PeerID) :=
  match executes acts with
  | (msg, sid, c) :: _ =>
      match NewSigning msg sid (keyshare r) with Ok s => Some (s, c) | Err _ => None end
  | [] => None
  end.

Lemma session_of_spec r acts s c :
  session_of r acts = Some (s, c) →
  Started (sg_base s) = false ∧ keyshare r = Ok (sg_key s) ∧
  ∃ rest, executes acts = (sg_msg s, SID (sg_base s), c) :: rest.
Proof.
  rw /session_of. destruct (executes acts) as [|[[msg sid] c'] rest]; [done|].
  rw /NewSigning. destruct (keyshare r) as [k|]; [|done]. intros [= <- <-].
  split_and!; [done|done|]. by exists rest.
Qed.

Lemma executes_signs acts msg sid c : (msg, sid, c) ∈ executes acts → signs msg sid c acts.
Proof.
  rw /executes /signs list_elem_of_omap. intros (a & Ha & Heq). by destruct a; simplify_eq.
Qed.

Lemma session_of_signs r acts s c :
  session_of r acts = Some (s, c) → signs (sg_msg s) (SID (sg_base s)) c acts.
Proof. intros (_ & _ & rest & He)%session_of_spec. apply executes_signs. rw He. by left. Qed.

(** ** One request *)
Section relayed.
Context {D : Type} `{HasCoordinator D, Json D} `{!RequestHandler SaveData D}.
(** The relayer that gets the request, and the others by their IDs. *)
Context (here : relayer SaveData) (others : gmap PeerID (relayer SaveData)) (d : D).

Definition broadcast_payload : bytes := json_Marshal (with_coordinator (host_ID here) d).

Definition request_sessions : gmap PeerID (Signing (SaveData := SaveData) * PeerID) :=
  map_imap (λ id r,
      if bool_decide (id = host_ID here) then session_of here (events (rh_handle here d))
      else session_of r (events (rh_listen r broadcast_payload)))
    (<[host_ID here := here]> others).

Definition request_peerstore (id : PeerID) : list PeerID :=
  default [] (peerstore <$> (<[host_ID here := here]> others) !! id).

Context (Hd : coordinator_of d = "") (Hhost : host_ID here ≠ "").
Context (Hwf : json_wf (with_coordinator (host_ID here) d)).
Context (Hkey : is_ok (keyshare here) = true).
Context (Hkeys : map_Forall (λ _ r, is_ok (keyshare r) = true) others).

(** Every session of the request is the one the first relayer executes. *)
Lemma request_sessions_same id s c :
  request_sessions !! id = Some (s, c) →
  ∃ rest, executes (events (rh_handle here d)) = (sg_msg s, SID (sg_base s), c) :: rest ∧
    c = host_ID here ∧ Started (sg_base s) = false.
Proof.
  rw /request_sessions map_lookup_imap. intros (r & Hr & Hs)%bind_Some.
  assert (∃ r' acts, session_of r' acts = Some (s, c) ∧ executes acts = executes (events (rh_handle here d)))
    as (r' & acts & Hses & Hex).
  { case_bool_decide as Hid; [by do 2 eexists|].
    rw lookup_insert_ne // in Hr. pose proof (Hkeys _ _ Hr) as Hk. do 2 eexists. split; [exact Hs|].
    rw rh_listens /broadcast_payload /= json_Unmarshal_Marshal //. symmetry. by apply rh_agrees. }
  apply session_of_spec in Hses as (Hst & _ & rest & He). exists rest. rw -Hex He.
  split_and!; [done| |done].
  assert (Forall (λ e, e.2 = host_ID here) (executes (events (rh_handle here d)))) as Hc.
  { rw (rh_agrees here here) // -{1}(coordinator_with (host_ID here) d). apply rh_coordinator.
    by rw coordinator_with. }
  rw -Hex He in Hc. by apply Forall_cons in Hc as [? _].
Qed.

Lemma request_one_session msg sid c rest :
  executes (events (rh_handle here d)) = (msg, sid, c) :: rest →
  one_session request_sessions request_peerstore (host_ID here) sid.
Proof.
  intros He. split; [done|]. split.
  - rw /request_sessions map_lookup_imap lookup_insert_eq /= bool_decide_true // /session_of He /NewSigning.
    destruct (keyshare here); [by eexists|done].
  - intros id s c' (rest' & He' & -> & Hst)%request_sessions_same. rw He in He'. injection He' as _ -> _ _.
    split_and!; [done|done|left]. rw /join /begin_execution /=.
    assert (bool_decide (peer_String (host_ID here) = "") = false) as ->.
    { apply bool_decide_eq_false. rw -peer_String_empty. by intros ?%(inj peer_String). }
    by destruct (bool_decide (peer_String (host_ID here) = peer_String id)).
Qed.

Lemma request_leader_key s c :
  request_sessions !! host_ID here = Some (s, c) → keyshare here = Ok (sg_key s).
Proof.
  rw /request_sessions map_lookup_imap lookup_insert_eq /= bool_decide_true //.
  by intros (_ & ? & _)%session_of_spec.
Qed.

(** C34: a request is signed alike everywhere.  A relayer that gets a request
    from outside and starts a session for it leads the one session that its
    broadcast makes the other relayers start; and in every state this session
    can reach on the network, any two relayers that have made a party made
    the same one, threshold + 1 relayers by the keyshare of the first, and
    sign the same message: the one that the handler of the first relayer
    executes for the request. *)
Theorem request_parties_agree (key : ECDSAKeyshare SaveData) (net : signing_network SaveData)
    (id1 id2 : PeerID) (m1 m2 : signing_member SaveData) (msg1 msg2 : Z)
    (parties1 parties2 : list PartyID) (me1 me2 : option PartyID) (n1 n2 t1 t2 num1 num2 : Z) :
  keyshare here = Ok key → (0 ≤ Threshold key)%Z → Forall peer_valid (Peers key) →
  network_reachable request_sessions request_peerstore net →
  members net !! id1 = Some m1 → members net !! id2 = Some m2 →
  NewLocalParty msg1 parties1 me1 n1 t1 num1 ∈ mb_actions m1 →
  NewLocalParty msg2 parties2 me2 n2 t2 num2 ∈ mb_actions m2 →
  parties1 = parties2 ∧ n1 = (Threshold key + 1)%Z ∧ msg1 = msg2 ∧
  ∃ sid, (msg1, sid, host_ID here) ∈ executes (events (rh_handle here d)) ∧
    num1 = big.SetBytes (bytes_of sid) ∧ num2 = num1.
Proof.
  intros Hk Ht Hv Hreach Hm1 Hm2 Hp1 Hp2.
  destruct (executes (events (rh_handle here d))) as [|[[msg sid] c] rest] eqn:He.
  { exfalso. destruct (party_own_message request_sessions request_peerstore net _ _ _ _ _ _ _ _ Hreach Hm1 Hp1) as (s & c & Hs & _).
    apply request_sessions_same in Hs as (rest & Hr & _). by rw He in Hr. }
  pose proof (request_one_session msg sid c rest He) as Hone.
  pose proof (network_reachable_inv request_sessions request_peerstore _ _ _ Hone Hreach) as Hinv.
  destruct (party_parties _ _ _ _ net _ _ _ _ _ _ _ _ Hone Hinv Hm1 Hp1) as
    (sub1 & s1 & c1 & Hch1 & _ & Hr1 & -> & _ & -> & -> & -> & _).
  destruct (party_parties _ _ _ _ net _ _ _ _ _ _ _ _ Hone Hinv Hm2 Hp2) as
    (sub2 & s2 & c2 & Hch2 & _ & Hr2 & -> & _ & -> & -> & -> & _).
  pose proof (chosen_unique _ _ _ _ Hch1 Hch2) as [= <-].
  destruct (request_sessions_same _ _ _ Hr1) as (rest1 & He1 & -> & _).
  destruct (request_sessions_same _ _ _ Hr2) as (rest2 & He2 & -> & _).
  destruct (chosen_subset _ _ _ _ net _ Hinv Hch1) as (subset & s & c0 & Hs & [= <-] & Hlen & _).
  { intros s c0 Hs%request_leader_key. rw Hk in Hs. by injection Hs as <-. }
  apply request_leader_key in Hs. rw Hk in Hs. injection Hs as ->.
  rw He in He1 He2. injection He1 as -> -> Hc _. injection He2 as Hmsg _ _ _.
  split_and!; [done|done|done|]. exists (SID (sg_base s1)). split_and!; [rw Hc; by left|done|done].
Qed.
End relayed.

(** ** What is checked *)

(** The chain as one relayer sees it. *)
Record chain_view := {
  view_deposits : DepositFetcher;
  view_confirmations : ConfirmationWatcher;
}.

Section across.
Context `{MapRange, Apitypes, SpokePoolABI, EthJson}.
(** The relayers, each with its configuration, its view of the chain and the
    request that it handles. *)
Context (node : PeerID → relayer SaveData) (handler : PeerID → AcrossMessageHandler).
Context (view : PeerID → chain_view) (request : PeerID → AcrossData).
Context (relayers : gmap PeerID (Signing (SaveData := SaveData) * PeerID)).
Context (stores : PeerID → list PeerID).

Definition handle (r : PeerID) : io handler_action (option error) :=
  Across.HandleMessage (H5 := view_deposits (view r)) (H6 := view_confirmations (view r))
    (handler r) (node r) (request r).

(** C2: the network signs only fills that every signer has checked.  However
    a session came about, whoever leads it and whatever it sends, and even if
    the relayers were given different requests, have different
    configurations and see different chains: when a relayer makes a party,
    the message it signs is the borrow hash of a fill that its own handler
    authorised, by its own view of the chain. *)
Theorem across_parties_checked (net : signing_network SaveData) (r : PeerID)
    (m : signing_member SaveData) (msg : Z) (parties : list PartyID) (me : option PartyID) (n t num : Z) :
  (∀ r s c, relayers !! r = Some (s, c) → session_of (node r) (events (handle r)) = Some (s, c)) →
  network_reachable relayers stores net → members net !! r = Some m →
  NewLocalParty msg parties me n t num ∈ mb_actions m →
  ∃ sid c, fill_authorised (H5 := view_deposits (view r)) (H6 := view_confirmations (view r))
    (handler r) (node r) (request r) msg sid c.
Proof.
  intros Hhandled Hreach Hm Hp.
  destruct (party_own_message relayers stores net _ _ _ _ _ _ _ _ Hreach Hm Hp) as (s & c & Hs & ->).
  apply Hhandled, session_of_signs, signs_authorised in Hs. by do 2 eexists.
Qed.
End across.
End requests.

Section witnesses.
Import Toy ToyJson.
#[local] Existing Instance Across.demo_abi.

Definition is_some {A} (x : option A) : bool := match x with Some _ => true | None => false end.

(** A liquidation request that [a] gets and passes on to [b]. *)
Definition demo_sessions : gmap PeerID (Signing (SaveData := unit) * PeerID) :=
  request_sessions (RequestHandler0 := sprinter_handler Sprinter.demo_handler)
    Sprinter.demo_relayer {["b" := demo_there]} demo_outside.
Definition demo_stores : PeerID → list PeerID :=
  request_peerstore (SaveData := unit) Sprinter.demo_relayer {["b" := demo_there]}.

(** [follower] answers [leader], and both make their party. *)
Definition demo_run (sessions : gmap PeerID (Signing (SaveData := unit) * PeerID)) (leader follower : PeerID)
    : list choice :=
  [Join follower; Join leader; Receive follower (EvWait (WaitInit leader));
   Receive leader (EvInitiate (InitReady follower)); RunNext leader demo_answers "sub" true;
   Receive follower (EvWait (WaitStart leader
     match sessions !! leader with
     | Some (s, _) => json_Marshal {| Params := StartParams s [leader; follower] |}
     | None => []
     end));
   RunNext follower demo_answers "sub" true].

Lemma request_parties_agree_witness :
  ∃ (net : signing_network unit) (ps : list PartyID),
    network_reachable demo_sessions demo_stores net ∧
    parties_of (Some net) "a" = Some (party_Id <$> ps) ∧ parties_of (Some net) "b" = Some (party_Id <$> ps).
Proof.
  assert (is_some (parties_of (play demo_sessions demo_stores empty_network (demo_run demo_sessions "a" "b")) "a") = true) as Ha
    by (vm_compute; reflexivity).
  assert (is_some (parties_of (play demo_sessions demo_stores empty_network (demo_run demo_sessions "a" "b")) "b") = true) as Hb
    by (vm_compute; reflexivity).
  destruct (play demo_sessions demo_stores empty_network (demo_run demo_sessions "a" "b")) as [net|] eqn:E; [|done].
  apply play_steps in E.
  destruct (parties_of (Some net) "a") as [ids1|] eqn:Ha'; [|done].
  destruct (parties_of (Some net) "b") as [ids2|] eqn:Hb'; [|done].
  destruct (parties_of_spec _ _ _ Ha') as (m1 & msg1 & ps1 & me1 & n1 & t1 & num1 & Hm1 & Hp1 & Hi1).
  destruct (parties_of_spec _ _ _ Hb') as (m2 & msg2 & ps2 & me2 & n2 & t2 & num2 & Hm2 & Hp2 & Hi2).
  destruct (request_parties_agree (RequestHandler0 := sprinter_handler Sprinter.demo_handler)
    Sprinter.demo_relayer {["b" := demo_there]} demo_outside) with (net := net) (m1 := m1) (m2 := m2)
    (msg1 := msg1) (msg2 := msg2) (parties1 := ps1) (parties2 := ps2) (me1 := me1) (me2 := me2)
    (n1 := n1) (n2 := n2) (t1 := t1) (t2 := t2) (num1 := num1) (num2 := num2)
    (id1 := "a") (id2 := "b") (key := {| Key := tt; Threshold := 1; Peers := ["a"; "b"] |}) as (Heq & _); try done.
  - wf_fields; by vm_compute.
  - intros i r Hr. apply lookup_singleton_Some in Hr as [_ <-]. done.
  - by repeat constructor.
  - exists net, ps1. split_and!; [done|by rewrite Ha' Hi1|by rewrite Hb' Hi2 Heq].
Defined.

(** Two relayers handle an Across request that names [b]. *)
#[local] Existing Instance Across.demo_deposits.
#[local] Existing Instance Across.demo_confirmations.

Definition demo_node (r : PeerID) : relayer unit :=
  {| host_ID := r; peerstore := ["a"; "b"]; broadcast_error := None;
     keyshare := keyshare Across.demo_relayer; execute_error := None |}.
Definition demo_view (r : PeerID) : chain_view :=
  {| view_deposits := Across.demo_deposits; view_confirmations := Across.demo_confirmations |}.
Definition demo_handled (r : PeerID) : option (Signing (SaveData := unit) * PeerID) :=
  session_of (demo_node r) (events (handle demo_node (λ _, Across.demo_handler) demo_view (λ _, Across.demo_request) r)).
Definition demo_fills : gmap PeerID (Signing (SaveData := unit) * PeerID) :=
  map_imap (λ r _, demo_handled r) ({["a" := tt; "b" := tt]} : gmap PeerID unit).

Lemma across_parties_checked_witness :
  ∃ sid c msg, fill_authorised Across.demo_handler (demo_node "a") Across.demo_request msg sid c.
Proof.
  assert (is_some (parties_of (play demo_fills (λ _, ["a"; "b"]) empty_network (demo_run demo_fills "b" "a")) "a") = true) as Ha
    by (vm_compute; reflexivity).
  destruct (play demo_fills (λ _, ["a"; "b"]) empty_network (demo_run demo_fills "b" "a")) as [net|] eqn:E; [|done].
  apply play_steps in E. destruct (parties_of (Some net) "a") as [ids|] eqn:Ha'; [|done].
  destruct (parties_of_spec _ _ _ Ha') as (m & msg & ps & me & n & t & num & Hm & Hp & _).
  destruct (across_parties_checked demo_node (λ _, Across.demo_handler) demo_view (λ _, Across.demo_request)
    demo_fills (λ _, ["a"; "b"]) net "a" m msg ps me n t num) as (sid & c & Hf); [|done|done|done|].
  - intros r s c. rewrite map_lookup_imap. intros (? & _ & Hs)%bind_Some. exact Hs.
  - by exists sid, c, msg.
Defined.
End witnesses.
