(* ===== verification/Cache.v ===== *)
(** * The cache of signatures (src/cache/signature.go)

    A relayer that has run a signing session, or was sent the signature by
    one that has, keeps it for ten minutes; the API waits for it here. *)
From S2P Require Import Prelude GoStd Encoding Json Libs JsonCodec Comm Keyshare TssCommon Signing.

(** [time.Minute * 10] in nanoseconds *)
Definition SIGNATURE_TTL : Z := 10 * 60 * 10 ^ 9.

(** What the loop of [Watch] receives: a value of [sigChn], which panics if
    it is no signature, or a message of another relayer. *)
Inductive watch_event :=
  | OnResult (sig : option EcdsaSignature)
  | OnMessage (msg : WrappedMessage).

Section cache.
Context `{TtlCache}.

Definition NewSignatureCache : ttlcache bytes := cache_new SIGNATURE_TTL.

Definition Signature_ (now : Z) (c : ttlcache bytes) (id : string) : result bytes * ttlcache bytes :=
  let '(sig, c) := cache_get now id c in
  (result_of_option (Errorf ("no signature found with id " +:+ id)) sig, c).

(** One iteration of [Watch]: the sessions whose end is recorded, the cache. *)
Definition watch_step (now : Z) (ev : watch_event) (c : ttlcache bytes)
    : outcome (list string * ttlcache bytes) :=
  match ev with
  | OnResult None => Panic "interface conversion"
  | OnResult (Some sig) => Done ([es_ID sig], cache_set now (es_ID sig) (es_Signature sig) c)
  | OnMessage msg =>
      match UnmarshalSignatureMessage (wm_Payload msg) with
      | Err _ => Done ([], c)
      | Ok msg => Done ([sm_ID msg], cache_set now (sm_ID msg) (Signature msg) c)
      end
  end.

(** ** Subscribe

    While a subscriber waits, the loop of [Watch] goes on. *)
Inductive cache_step :=
  | Ping                       (** a tick of the subscriber *)
  | Stored (ev : watch_event)  (** an iteration of [Watch] *)
  | Finished.                  (** [ctx.Done()] *)

(** The value sent to the subscriber, if any. *)
Fixpoint subscribe_loop (id : string) (steps : list (Z * cache_step)) (c : ttlcache bytes)
    : outcome (option bytes) :=
  match steps with
  | [] => Done None
  | (_, Finished) :: _ => Done None
  | (now, Ping) :: steps' =>
      let '(sig, c) := cache_get now id c in
      match sig with Some sig => Done (Some sig) | None => subscribe_loop id steps' c end
  | (now, Stored ev) :: steps' =>
      '(_, c) ← watch_step now ev c; subscribe_loop id steps' c
  end.

(** The first look is made before the ticker starts. *)
Definition Subscribe (now : Z) (id : string) (steps : list (Z * cache_step)) (c : ttlcache bytes)
    : outcome (option bytes) :=
  subscribe_loop id ((now, Ping) :: steps) c.

(** ** What is stored *)

(** The signature an event stores, and under which ID. *)
Definition stores (ev : watch_event) : option (string * bytes) :=
  match ev with
  | OnResult sig => (λ sig, (es_ID sig, es_Signature sig)) <$> sig
  | OnMessage msg =>
      match UnmarshalSignatureMessage (wm_Payload msg) with
      | Ok msg => Some (sm_ID msg, Signature msg)
      | Err _ => None
      end
  end.

Lemma watch_step_stores now ev c ends c' :
  watch_step now ev c = Done (ends, c') →
  ttl_of c' = ttl_of c ∧
  ∀ id, live c' id = match stores ev with
                     | Some (id', sig) => if decide (id' = id) then Some (sig, now + ttl_of c)%Z else live c id
                     | None => live c id
                     end.
Proof.
  destruct ev as [[sig|]|msg]; simpl; [| |destruct (UnmarshalSignatureMessage _) as [m|]]; try done.
  - intros [= <- <-]. split; [apply ttl_set|]. intros id. by rw live_set.
  - intros [= <- <-]. split; [apply ttl_set|]. intros id. by rw live_set.
  - by intros [= <- <-].
Qed.

Fixpoint run_watch (evs : list (Z * watch_event)) (c : ttlcache bytes) : outcome (ttlcache bytes) :=
  match evs with
  | [] => Done c
  | (now, ev) :: evs' => '(_, c) ← watch_step now ev c; run_watch evs' c
  end.

(** The last signature stored under an ID, with its time. *)
Definition last_stored (id : string) (evs : list (Z * watch_event)) : option (Z * bytes) :=
  last (omap (λ '(now, ev),
    '(id', sig) ← stores ev; if decide (id' = id) then Some (now, sig) else None) evs).

Lemma last_stored_cons id now ev evs :
  last_stored id ((now, ev) :: evs) =
  match last_stored id evs with
  | Some x => Some x
  | None => '(id', sig) ← stores ev; if decide (id' = id) then Some (now, sig) else None
  end.
Proof.
  rw /last_stored. simpl. destruct (stores ev) as [[id' sig]|]; simpl; [|by destruct (last _)].
  destruct (decide (id' = id)); [|by destruct (last _)]. rw last_cons. by destruct (last _).
Qed.

Lemma run_watch_live id evs c c' :
  run_watch evs c = Done c' →
  ttl_of c' = ttl_of c ∧
  live c' id = match last_stored id evs with
               | Some (t, sig) => Some (sig, t + ttl_of c)%Z
               | None => live c id
               end.
Proof.
  revert c. induction evs as [|[now ev] evs IH]; intros c; [by intros [= <-]|].
  rw last_stored_cons. simpl. destruct (watch_step now ev c) as [[ends c1]|] eqn:Ew; [|done].
  apply watch_step_stores in Ew as [Ht1 Hl1]. intros [Ht Hl]%IH. rw Ht1 in Ht Hl.
  split; [done|]. rw Hl. destruct (last_stored id evs) as [[t sig]|]; [done|].
  rw Hl1. destruct (stores ev) as [[id' sig]|]; [|done]. simpl. by case_decide.
Qed.

(** The cache answers with the signature that was stored last under the
    ID, for ten minutes after it was stored, whether it came from this
    relayer's own session or from a message, and whoever sent that. *)
Theorem signature_last_written (evs : list (Z * watch_event)) (c : ttlcache bytes)
    (id : string) (sig : bytes) (t now : Z) :
  run_watch evs NewSignatureCache = Done c →
  last_stored id evs = Some (t, sig) → (now ≤ t + SIGNATURE_TTL)%Z →
  (Signature_ now c id).1 = Ok sig.
Proof.
  intros Hrun Hlast Hnow. apply (run_watch_live id) in Hrun as [_ Hl].
  rw Hlast ttl_new in Hl. rw /Signature_.
  destruct (get_hit now id c sig _ Hl Hnow) as [Hg _].
  by destruct (cache_get now id c) as [v c'], v; simplify_eq/=.
Qed.

(** A message of any peer replaces the signature this relayer computed: the
    sender is not looked at and the signature is not verified. *)
Theorem peer_signature_unchecked (evs : list (Z * watch_event)) (c : ttlcache bytes)
    (t : Z) (from : PeerID) (payload : bytes) (msg : SignatureMessage) :
  run_watch evs NewSignatureCache = Done c → UnmarshalSignatureMessage payload = Ok msg →
  ∃ c', run_watch (evs ++ [(t, OnMessage {| wm_MessageType := SignatureMsg;
      wm_SessionID := SignatureSessionID; wm_Payload := payload; wm_From := from |})])
      NewSignatureCache = Done c' ∧
    (Signature_ t c' (sm_ID msg)).1 = Ok (Signature msg).
Proof.
  intros Hrun Hu. set (ev := OnMessage _).
  assert (∀ evs c0, run_watch evs c0 = Done c →
    run_watch (evs ++ [(t, ev)]) c0 = Done (cache_set t (sm_ID msg) (Signature msg) c)) as Happ.
  { clear evs Hrun. induction evs as [|[now ev'] evs IH]; intros c0; simpl.
    - intros [= ->]. by rw Hu.
    - destruct (watch_step now ev' c0) as [[ends c1]|]; [|done]. apply IH. }
  eexists. split; [by apply Happ|].
  pose proof (run_watch_live (sm_ID msg) evs _ _ Hrun) as [Ht _]. rw ttl_new in Ht.
  rw /Signature_.
  assert (live (cache_set t (sm_ID msg) (Signature msg) c) (sm_ID msg) =
    Some (Signature msg, t + SIGNATURE_TTL)%Z) as Hl by by rw live_set decide_True // Ht.
  destruct (get_hit t _ _ _ _ Hl) as [Hg _]; [rw /SIGNATURE_TTL; lia|].
  by destruct (cache_get t (sm_ID msg) _) as [v c'], v; simplify_eq/=.
Qed.

(** Every item was stored by one of the events. *)
Definition accounted (hist : list (string * bytes)) (c : ttlcache bytes) : Prop :=
  ∀ id sig e, live c id = Some (sig, e) → (id, sig) ∈ hist.

Lemma cache_get_accounted hist now id c :
  accounted hist c →
  accounted hist (cache_get now id c).2 ∧
  ∀ sig, (cache_get now id c).1 = Some sig → (id, sig) ∈ hist.
Proof.
  intros Ha. assert ((∃ sig e, live c id = Some (sig, e) ∧ (now ≤ e)%Z) ∨
    ∀ sig e, live c id = Some (sig, e) → (e < now)%Z) as [(sig & e & Hl & He)|Hm].
  { destruct (live c id) as [[sig e]|]; [|by right].
    destruct (Z.le_gt_cases now e); [left; by exists sig, e|right; intros ? ? [= <- <-]; lia]. }
  - destruct (get_hit now id c sig e Hl He) as [-> Hlive]. split; [|intros ? [= <-]; by eapply Ha].
    intros id' sig' e'. rw Hlive. case_decide as Hk; [|apply Ha]. subst id'.
    intros [= <- _]. by eapply Ha.
  - destruct (get_miss now id c Hm) as [-> Hlive]. split; [|done].
    intros id' sig' e' Hl. destruct (Hlive id') as [Heq|[_ Hn]]; rewrite ?Heq in Hl; [by eapply Ha|].
    by rw Hn in Hl.
Qed.

Lemma watch_step_accounted hist now ev c ends c' :
  watch_step now ev c = Done (ends, c') → accounted hist c →
  accounted (hist ++ option_list (stores ev)) c'.
Proof.
  intros [_ Hl]%watch_step_stores Ha id sig e. rw Hl elem_of_app.
  destruct (stores ev) as [[id' sig']|]; simpl; [|left; by eapply Ha].
  case_decide as Hk; [|left; by eapply Ha]. subst id'. intros [= -> _]. right. by left.
Qed.

(** The signatures stored before the subscriber is done. *)
Definition stored_in (steps : list (Z * cache_step)) : list (string * bytes) :=
  omap (λ s, match s.2 with Stored ev => stores ev | _ => None end) steps.

Lemma subscribe_loop_stored hist id steps c sig :
  accounted hist c → subscribe_loop id steps c = Done (Some sig) →
  (id, sig) ∈ hist ++ stored_in steps.
Proof.
  revert hist c. induction steps as [|[now s] steps IH]; intros hist c Ha; [done|].
  destruct s as [|ev|]; simpl; [| |done].
  - destruct (cache_get_accounted hist now id c Ha) as [Ha' Hg].
    destruct (cache_get now id c) as [[v|] c1]; simpl in Ha', Hg; [|by apply IH].
    intros [= <-]. rw elem_of_app. left. by apply Hg.
  - destruct (watch_step now ev c) as [[ends c1]|] eqn:Ew; [|done].
    apply (watch_step_accounted hist) in Ew; [|done]. intros Hs%(IH _ _ Ew).
    rw /stored_in /=. destruct (stores ev); simpl in Hs; by rewrite -?app_assoc in Hs |- *.
Qed.

(** Steps that neither end the subscription nor store under the ID. *)
Definition quiet (id : string) (s : Z * cache_step) : Prop :=
  match s.2 with
  | Ping => True
  | Stored ev => ev ≠ OnResult None ∧ (fst <$> stores ev) ≠ Some id
  | Finished => False
  end.

Lemma watch_step_quiet now ev c id :
  ev ≠ OnResult None → (fst <$> stores ev) ≠ Some id →
  ∃ ends c', watch_step now ev c = Done (ends, c') ∧ ttl_of c' = ttl_of c ∧ live c' id = live c id.
Proof.
  intros Hev Hid. destruct (watch_step now ev c) as [[ends c']|] eqn:Ew.
  - exists ends, c'. apply watch_step_stores in Ew as [? Hl]. split_and!; [done..|].
    rw Hl. destruct (stores ev) as [[id' sig]|]; [|done]. simpl in Hid.
    case_decide; [by subst|done].
  - destruct ev as [[sig|]|m]; simpl in Ew; [done..|]. by destruct (UnmarshalSignatureMessage _).
Qed.

Lemma subscribe_loop_quiet id pre rest c :
  Forall (quiet id) pre → live c id = None →
  ∃ c', subscribe_loop id (pre ++ rest) c = subscribe_loop id rest c' ∧
    ttl_of c' = ttl_of c ∧ live c' id = None.
Proof.
  intros Hq. revert c. induction Hq as [|[now s] pre Hs _ IH]; intros c Hl; [by exists c|].
  rw /quiet /= in Hs. simpl. destruct s as [|ev|]; [| |done].
  - destruct (get_miss now id c) as [Hg Hlive]; [by rw Hl|].
    pose proof (ttl_get now id c) as Ht. destruct (cache_get now id c) as [v c1]. simpl in Hg, Hlive, Ht.
    subst v. destruct (IH c1) as (c' & -> & ? & ?).
    + destruct (Hlive id) as [->|[_ ->]]; done.
    + exists c'. by rw -Ht.
  - destruct Hs as [Hev Hid].
    destruct (watch_step_quiet now ev c id Hev Hid) as (ends & c1 & -> & Ht & Hl1).
    simpl. destruct (IH c1) as (c' & -> & ? & ?); [by rw Hl1|]. exists c'. by rw -Ht.
Qed.

Lemma subscribe_loop_waiting id mid rest c :
  Forall (λ s, quiet id s ∧ s.2 ≠ Ping) mid →
  ∃ c', subscribe_loop id (mid ++ rest) c = subscribe_loop id rest c' ∧ live c' id = live c id.
Proof.
  intros Hq. revert c. induction Hq as [|[now s] mid [Hs Hp] _ IH]; intros c; [by exists c|].
  rw /quiet /= in Hs. destruct s as [|ev|]; [done| |done]. destruct Hs as [Hev Hid].
  destruct (watch_step_quiet now ev c id Hev Hid) as (ends & c1 & Hw & Ht & Hl1).
  simpl. rw Hw. simpl. destruct (IH c1) as (c' & -> & ?). exists c'. by rw -Hl1.
Qed.

(** The first signature that is stored while a subscriber waits is sent to it
    at the next tick. *)
Lemma Subscribe_sends id now pre t ev sig mid t' post :
  Forall (quiet id) pre → stores ev = Some (id, sig) →
  Forall (λ s, quiet id s ∧ s.2 ≠ Ping) mid → (t' ≤ t + SIGNATURE_TTL)%Z →
  Subscribe now id (pre ++ (t, Stored ev) :: mid ++ (t', Ping) :: post) NewSignatureCache = Done (Some sig).
Proof.
  intros Hpre Hev Hmid Ht. rw /Subscribe.
  change ((now, Ping) :: pre ++ ?l) with (((now, Ping) :: pre) ++ l).
  destruct (subscribe_loop_quiet id ((now, Ping) :: pre)
    ((t, Stored ev) :: mid ++ (t', Ping) :: post) NewSignatureCache) as (c & -> & Hc & _);
    [by constructor|apply live_new|]. rw ttl_new in Hc. cbn [subscribe_loop].
  destruct (watch_step t ev c) as [[ends c1]|] eqn:Ew.
  - apply watch_step_stores in Ew as [_ Hl1]. specialize (Hl1 id).
    rw Hev decide_True // Hc in Hl1. cbn [mbind outcome_bind].
    destruct (subscribe_loop_waiting id mid ((t', Ping) :: post) c1 Hmid) as (c2 & -> & Hl2).
    rw Hl1 in Hl2. simpl. destruct (get_hit t' id c2 sig _ Hl2 Ht) as [Hg _].
    by destruct (cache_get t' id c2) as [v c3], v; simplify_eq/=.
  - destruct ev as [[?|]|m]; simpl in Ew, Hev; [done..|]. by destruct (UnmarshalSignatureMessage _).
Qed.

(** A subscriber is only ever sent a signature that was stored under its
    ID, and it is sent the first one stored while it waits, at the next tick
    (within ten minutes). *)
Theorem Subscribe_stored (id : string) (now : Z) (steps : list (Z * cache_step)) :
  (∀ sig, Subscribe now id steps NewSignatureCache = Done (Some sig) → (id, sig) ∈ stored_in steps) ∧
  (∀ pre t ev sig mid t' post,
     steps = pre ++ (t, Stored ev) :: mid ++ (t', Ping) :: post →
     Forall (quiet id) pre → stores ev = Some (id, sig) →
     Forall (λ s, quiet id s ∧ s.2 ≠ Ping) mid → (t' ≤ t + SIGNATURE_TTL)%Z →
     Subscribe now id steps NewSignatureCache = Done (Some sig)).
Proof.
  split.
  - intros sig Hs. apply (subscribe_loop_stored [] id ((now, Ping) :: steps) NewSignatureCache); [|done].
    intros id' sig' e. by rw live_new.
  - intros pre t ev sig mid t' post -> Hpre Hev Hmid Ht. by apply Subscribe_sends.
Qed.
End cache.

Section witnesses.
Import Toy.

Definition demo_sig : EcdsaSignature := {| es_Signature := [Byte.x01]; es_ID := "1-7" |}.
Definition demo_message : WrappedMessage := {|
  wm_MessageType := SignatureMsg; wm_SessionID := SignatureSessionID;
  wm_Payload := match MarshalSignatureMessage "1-8" [Byte.x02] with Ok b => b | Err _ => [] end;
  wm_From := "b" |}.

Lemma signature_last_written_witness :
  ∃ c, run_watch [(0%Z, OnResult (Some demo_sig)); (5%Z, OnMessage demo_message)] NewSignatureCache = Done c ∧
       (Signature_ 9 c "1-7").1 = Ok [Byte.x01].
Proof.
  eexists. split; [vm_compute; reflexivity|].
  eapply (signature_last_written [(0%Z, OnResult (Some demo_sig)); (5%Z, OnMessage demo_message)] _ _ _ 0);
    [vm_compute; reflexivity|vm_compute; reflexivity|by vm_compute].
Defined.
End witnesses.
