(* ===== verification/Delivery.v ===== *)
(** * What a relayer's party sends, at the other relayers
      (src/tss/ecdsa/common/base.go, src/comm/p2p, src/tss/ecdsa/signing, src/cache)

    A message of a party leaves through [ProcessOutboundMessage], a stream and
    the subscription of the session, and enters the party of another relayer;
    a signature leaves through [processEndMessage] and enters the caches of
    the other relayers. *)
From S2P Require Import Prelude GoStd Encoding Json Libs JsonCodec Comm Subscriptions P2P.
From S2P Require Import Keyshare TssCommon Signing Cache.

Section delivery.
Context `{PeerLib} {chan : Type}.

(** The one message of a frame, at a relayer where [ch] is the last channel
    that was subscribed to its session and type. *)
Lemma frame_delivered remote (ms : SessionSubscriptionManager chan) ch now (w : WireMessage) frame :
  (- 2 ^ 63 ≤ message_type w < 2 ^ 63)%Z → utf8.Valid (message_id w) = true → Marshal w = Ok frame →
  ∃ chans, ch ∈ chans ∧
    ProcessMessagesFromStream remote (λ _, (SubscribeTo ms (message_id w) (message_type w) ch now).2)
      (WriteStream frame) = [(chans, from_wire w remote)].
Proof.
  intros Ht Hid [= <-]. eexists. rw one_message_delivered; [|by wf_fields].
  split; [|done]. apply SubscribeTo_subscribes.
Qed.

Context `{Keccak, TssLib, EthCommon}.

(** C18: what the party of one relayer sends, the party of another gets, as
    sent by the first.  For any two relayers of a committee and any message
    of the first one's party that is a broadcast or names the party of the
    second among its addressees: it is broadcast to a list with the second
    relayer, the frame that is written to the stream is read there as one
    message, which goes to the channel that the second relayer has
    subscribed for the session, and updates its party with the bytes that
    the first party produced, from the party that stands for the first
    relayer, with the same broadcast flag. *)
Theorem party_message_delivered (committee : list PeerID) (q r : PeerID) (sid : string) (t : MessageType)
    (msg : TssOutMsg) (wire : bytes) (store : gmap string PartyID)
    (ms : SessionSubscriptionManager chan) (ch : chan) (now : Z) :
  Forall peer_valid committee → q ∈ committee → r ∈ committee → utf8.Valid sid = true →
  (- 2 ^ 63 ≤ t < 2 ^ 63)%Z → out_WireBytes msg = Ok wire →
  out_GetTo msg ⊆ PartiesFromPeers committee →
  out_IsBroadcast msg = true ∨ peer_String r ∈ party_Id <$> out_GetTo msg →
  ∃ peers b frame chans w party,
    ProcessOutboundMessage committee sid t msg = [TssCommon.Broadcast peers b t sid] ∧ r ∈ peers ∧
    Marshal {| message_type := t; message_id := sid; payload := b |} = Ok frame ∧
    ProcessMessagesFromStream q (λ _, (SubscribeTo ms sid t ch now).2) (WriteStream frame) = [(chans, w)] ∧
    ch ∈ chans ∧
    ProcessInboundMessage (PopulatePartyStore store (PartiesFromPeers committee)) w =
      [UpdateFromBytes wire (Some party) (out_IsBroadcast msg)] ∧
    party ∈ PartiesFromPeers committee ∧ party_Id party = peer_String q.
Proof.
  intros Hv Hq Hr Hsid Ht Hwire Hto Hfor.
  set (b := json_Marshal {| MsgBytes := wire; IsBroadcast := out_IsBroadcast msg |}).
  assert (∃ peers, BroadcastPeers committee msg = Ok peers ∧ r ∈ peers) as (peers & Hpeers & Hrp).
  { rw /BroadcastPeers. destruct (out_IsBroadcast msg); [by exists committee|].
    destruct Hfor as [?|Hin]; [done|]. rw /PeersFromParties.
    assert (∃ ps, party_Id <$> out_GetTo msg = peer_String <$> ps ∧ Forall peer_valid ps) as (ps & Heq & Hps).
    { clear -Hto Hv. induction (out_GetTo msg) as [|p l IH]; [by exists []|].
      destruct IH as (ps & Heq & Hps); [by intros x Hx; apply Hto; right|].
      assert (party_Id p ∈ peer_String <$> committee) as (x & Hx & Hxc)%list_elem_of_fmap.
      { rw -PartiesFromPeers_Ids. apply list_elem_of_fmap_2, Hto. by left. }
      exists (x :: ps). rw !fmap_cons Hx Heq. split; [done|]. constructor; [by eapply Forall_forall in Hv|done]. }
    rw Heq in Hin |- *. rw decode_all_String //. exists ps. split; [done|].
    apply list_elem_of_fmap in Hin as (x & Hx%(inj peer_String) & Hxp). by rw Hx. }
  destruct (frame_delivered q ms ch now {| message_type := t; message_id := sid; payload := b |}
    (json_Marshal {| message_type := t; message_id := sid; payload := b |})) as (chans & Hch & Hd); [done..|].
  destruct (PopulatePartyStore_peers store committee q Hq) as (party & Hparty & Hin & Hid).
  exists peers, b, (json_Marshal {| message_type := t; message_id := sid; payload := b |}), chans,
    (from_wire {| message_type := t; message_id := sid; payload := b |} q), party.
  split_and!; try done.
  - by rw /ProcessOutboundMessage Hwire /= Hpeers.
  - rw /ProcessInboundMessage /UnmarshalTssMessage /= /b json_Unmarshal_Marshal; [|auto with go].
    by rw /= Hparty.
Qed.

Context `{TtlCache}.

(** C19: a signature reaches whoever waits for it.  A relayer that has
    computed a signature and does not coordinate the session broadcasts it;
    at any relayer that gets the frame, and listens for signatures, the
    message is one that makes the cache send exactly these bytes to every
    subscriber of the session's ID that waits, at its next tick within ten
    minutes, when nothing was stored under that ID before; and the result
    that the relayer hands to its own cache does the same there. *)
Theorem signature_distributed {SaveData : Type} (peerstore : list PeerID) (s : Signing (SaveData := SaveData))
    (sig : SignatureData) (q : PeerID) (ms : SessionSubscriptionManager chan) (ch : chan) (now : Z) :
  sg_coordinator s = false → utf8.Valid (SID (sg_base s)) = true →
  let id := SID (sg_base s) in
  let es := encode_signature sig in
  ∃ m frame chans w,
    processEndMessage peerstore s (Some sig) =
      [SendResult {| es_Signature := es; es_ID := id |};
       BroadcastSignature peerstore m SignatureMsg SignatureSessionID; CancelTss] ∧
    Marshal {| message_type := SignatureMsg; message_id := SignatureSessionID; payload := m |} = Ok frame ∧
    ProcessMessagesFromStream q (λ _, (SubscribeTo ms SignatureSessionID SignatureMsg ch now).2)
      (WriteStream frame) = [(chans, w)] ∧ ch ∈ chans ∧
    ∀ ev start pre t mid t' post,
      ev = OnMessage w ∨ ev = OnResult (Some {| es_Signature := es; es_ID := id |}) →
      Forall (quiet id) pre → Forall (λ s, quiet id s ∧ s.2 ≠ Ping) mid → (t' ≤ t + SIGNATURE_TTL)%Z →
      Subscribe start id (pre ++ (t, Stored ev) :: mid ++ (t', Ping) :: post) NewSignatureCache =
        Done (Some es).
Proof.
  intros Hco Hid id es. set (m := json_Marshal {| Signature := es; sm_ID := id |}).
  set (wm := {| message_type := SignatureMsg; message_id := SignatureSessionID; payload := m |}).
  destruct (frame_delivered q ms ch now wm (json_Marshal wm)) as (chans & Hch & Hd); [done..|].
  exists m, (json_Marshal wm), chans, (from_wire wm q). split_and!; try done.
  - by rw /processEndMessage /distributeSignature Hco.
  - intros ev start pre t mid t' post Hev Hpre Hmid Ht. apply Subscribe_sends; [done| |done..].
    destruct Hev as [->| ->]; [|done].
    rw /stores /UnmarshalSignatureMessage /= /m.
    by rw (json_Unmarshal_Marshal {| Signature := es; sm_ID := id |}); [|auto with go].
Qed.
End delivery.

Section witnesses.
Import Toy ToyJson.

(** [a] sends one message to the party of [b]. *)
Definition demo_out : TssOutMsg :=
  {| out_WireBytes := Ok [Byte.x07]; out_IsBroadcast := false;
     out_GetTo := filter (λ p, party_Id p = "b") (PartiesFromPeers ["a"; "b"]) |}.

Lemma party_message_delivered_witness :
  ∃ w party, ProcessInboundMessage (PopulatePartyStore ∅ (PartiesFromPeers ["a"; "b"])) w =
    [UpdateFromBytes [Byte.x07] (Some party) false] ∧ party_Id party = "a".
Proof.
  destruct (party_message_delivered (chan := nat) ["a"; "b"] "a" "b" "s" TssKeySignMsg demo_out [Byte.x07] ∅
    NewSessionSubscriptionManager 3 10) as (peers & b & frame & chans & w & party & _ & _ & _ & _ & _ & Hin & _ & Hid).
  - by repeat constructor.
  - by left.
  - right. by left.
  - done.
  - done.
  - done.
  - intros p [_ Hp]%list_elem_of_filter. exact Hp.
  - right. by vm_compute; left.
  - by exists w, party.
Defined.

Lemma signature_distributed_witness :
  ∃ w : WrappedMessage, Subscribe 0 (SID (sg_base demo_signing)) [(5%Z, Stored (OnMessage w)); (6%Z, Ping)] NewSignatureCache =
    Done (Some (encode_signature {| sd_R := [Byte.x05]; sd_S := [Byte.x07]; SignatureRecovery := [Byte.x01] |})).
Proof.
  destruct (signature_distributed (chan := nat) ["a"; "b"] demo_signing
    {| sd_R := [Byte.x05]; sd_S := [Byte.x07]; SignatureRecovery := [Byte.x01] |} "a"
    NewSessionSubscriptionManager 3 10) as (m & frame & chans & w & _ & _ & _ & _ & Hsub).
  - reflexivity.
  - reflexivity.
  - exists w. apply (Hsub (OnMessage w) 0%Z [] 5%Z [] 6%Z []); [by left|constructor|constructor|].
    rw /SIGNATURE_TTL. lia.
Defined.
End witnesses.
