(* ===== verification/Metrics.v ===== *)
(** * Metrics (src/metrics)

    What the relayer measures: the relayers that can be reached, and the
    times of sessions, of their initiation and of messages.  The instruments
    of OpenTelemetry are lists of what was recorded in them, in the order of
    recording; durations are in nanoseconds. *)
From S2P Require Import Prelude GoStd Libs Comm P2P.

(** [time.Minute * 10] *)
Definition SESSION_TTL : Z := 10 * 60 * 10 ^ 9.

Section metrics.
Context `{TtlCache}.

Record MpcMetrics := {
  totalRelayerCount : Z;
  availableRelayerCount : Z;
  sessionTimeHistogram : list Z;
  initiateTimeHistogram : list Z;
  commSendTimeHistogram : list (Z * string);  (** with the label [peer] *)
  commDnsResolveTimeHistogram : list Z;
  sessionStartTimeCache : ttlcache Z;
}.

(** ** Construction

    [instrument] is what the meter answers for a name. *)
Section construction.
Context (instrument : string → option error).

Fixpoint create (names : list string) : option error :=
  match names with
  | [] => None
  | name :: names' => match instrument name with Some e => Some e | None => create names' end
  end.

Definition NewMpcMetrics : result MpcMetrics :=
  match create ["relayer.TotalRelayers"; "relayer.AvailableRelayers"; "relayer.SessionTime";
                "relayer.InitiateTime"; "relayer.CommSendTime"; "relayer.CommDnsResolveTime"] with
  | Some e => Err e
  | None => Ok {| totalRelayerCount := 0; availableRelayerCount := 0; sessionTimeHistogram := [];
                  initiateTimeHistogram := []; commSendTimeHistogram := [];
                  commDnsResolveTimeHistogram := []; sessionStartTimeCache := cache_new SESSION_TTL |}
  end.

(** The start time of the relayer, in seconds. *)
Definition NewHostMetrics (now : Z) : result Z :=
  match create ["relayer.StartTimeSeconds"] with Some e => Err e | None => Ok now end.

(** [relayerMetrics] is what [observability.NewRelayerMetrics] answers. *)
Definition NewSprinterMetrics (relayerMetrics : option error) (now : Z) : result (MpcMetrics * Z) :=
  match relayerMetrics with
  | Some e => Err e
  | None => mpcMetrics ← NewMpcMetrics; hostMetrics ← NewHostMetrics now; Ok (mpcMetrics, hostMetrics)
  end.
End construction.

(** ** Operations *)

(** What the callbacks of the two gauges observe. *)
Definition observe (m : MpcMetrics) : Z * Z := (totalRelayerCount m, availableRelayerCount m).

Definition set_counts (counts : Z * Z) (m : MpcMetrics) : MpcMetrics := {|
  totalRelayerCount := counts.1; availableRelayerCount := counts.2;
  sessionTimeHistogram := sessionTimeHistogram m; initiateTimeHistogram := initiateTimeHistogram m;
  commSendTimeHistogram := commSendTimeHistogram m;
  commDnsResolveTimeHistogram := commDnsResolveTimeHistogram m;
  sessionStartTimeCache := sessionStartTimeCache m |}.

Definition set_sessions (times : list Z) (c : ttlcache Z) (m : MpcMetrics) : MpcMetrics := {|
  totalRelayerCount := totalRelayerCount m; availableRelayerCount := availableRelayerCount m;
  sessionTimeHistogram := times; initiateTimeHistogram := initiateTimeHistogram m;
  commSendTimeHistogram := commSendTimeHistogram m;
  commDnsResolveTimeHistogram := commDnsResolveTimeHistogram m;
  sessionStartTimeCache := c |}.

Definition StartProcess (now : Z) (sessionID : string) (m : MpcMetrics) : MpcMetrics :=
  set_sessions (sessionTimeHistogram m) (cache_set now sessionID now (sessionStartTimeCache m)) m.

(** Nothing is recorded when the start is not known; the start is kept. *)
Definition EndProcess (now : Z) (sessionID : string) (m : MpcMetrics) : MpcMetrics :=
  let '(startTime, c) := cache_get now sessionID (sessionStartTimeCache m) in
  match startTime with
  | None => set_sessions (sessionTimeHistogram m) c m
  | Some startTime => set_sessions (sessionTimeHistogram m ++ [now - startTime]%Z) c m
  end.

Definition RecordInitiateDuration (d : Z) (m : MpcMetrics) : MpcMetrics := {|
  totalRelayerCount := totalRelayerCount m; availableRelayerCount := availableRelayerCount m;
  sessionTimeHistogram := sessionTimeHistogram m; initiateTimeHistogram := initiateTimeHistogram m ++ [d];
  commSendTimeHistogram := commSendTimeHistogram m;
  commDnsResolveTimeHistogram := commDnsResolveTimeHistogram m;
  sessionStartTimeCache := sessionStartTimeCache m |}.

Definition RecordCommSend (peerID : string) (d : Z) (m : MpcMetrics) : MpcMetrics := {|
  totalRelayerCount := totalRelayerCount m; availableRelayerCount := availableRelayerCount m;
  sessionTimeHistogram := sessionTimeHistogram m; initiateTimeHistogram := initiateTimeHistogram m;
  commSendTimeHistogram := commSendTimeHistogram m ++ [(d, peerID)];
  commDnsResolveTimeHistogram := commDnsResolveTimeHistogram m;
  sessionStartTimeCache := sessionStartTimeCache m |}.

Definition RecordCommDnsResolve (d : Z) (m : MpcMetrics) : MpcMetrics := {|
  totalRelayerCount := totalRelayerCount m; availableRelayerCount := availableRelayerCount m;
  sessionTimeHistogram := sessionTimeHistogram m; initiateTimeHistogram := initiateTimeHistogram m;
  commSendTimeHistogram := commSendTimeHistogram m;
  commDnsResolveTimeHistogram := commDnsResolveTimeHistogram m ++ [d];
  sessionStartTimeCache := sessionStartTimeCache m |}.

Inductive metric_op :=
  | MTrack (unavailable all : list PeerID)
  | MStart (sessionID : string)
  | MEnd (sessionID : string)
  | MInitiate (d : Z)
  | MSend (peerID : string) (d : Z)
  | MResolve (d : Z).

Definition metric_step (m : MpcMetrics) (x : Z * metric_op) : MpcMetrics :=
  let '(now, op) := x in
  match op with
  | MTrack unavailable all => set_counts (TrackRelayerStatus unavailable all) m
  | MStart sessionID => StartProcess now sessionID m
  | MEnd sessionID => EndProcess now sessionID m
  | MInitiate d => RecordInitiateDuration d m
  | MSend peerID d => RecordCommSend peerID d m
  | MResolve d => RecordCommDnsResolve d m
  end.

(** ** Session times *)
Definition starts_session (sid : string) (x : Z * metric_op) : bool :=
  match x.2 with MStart s => bool_decide (s = sid) | _ => false end.

(** When the session was last started. *)
Fixpoint last_start (sid : string) (ops : list (Z * metric_op)) (acc : option Z) : option Z :=
  match ops with
  | [] => acc
  | x :: ops' => last_start sid ops' (if starts_session sid x then Some x.1 else acc)
  end.

Lemma last_start_snoc sid ops x acc :
  last_start sid (ops ++ [x]) acc = if starts_session sid x then Some x.1 else last_start sid ops acc.
Proof. revert acc. by induction ops as [|y ops IH]; intros acc; simpl. Qed.

Lemma last_start_split sid ops t :
  last_start sid ops None = Some t →
  ∃ pre mid, ops = pre ++ (t, MStart sid) :: mid ∧ Forall (λ x, starts_session sid x = false) mid.
Proof.
  revert t. induction ops as [|x ops IH] using rev_ind; intros t; [done|]. rw last_start_snoc.
  destruct (starts_session sid x) eqn:Ex.
  - intros [= <-]. destruct x as [now []]; try done. rw /starts_session /= in Ex.
    apply bool_decide_eq_true in Ex as ->. by exists ops, [].
  - intros (pre & mid & -> & Hmid)%IH. exists pre, (mid ++ [x]). rw -app_assoc. split; [done|].
    apply Forall_app. split; [done|]. by constructor.
Qed.

Lemma last_start_quiet sid pre t mid acc :
  Forall (λ x, starts_session sid x = false) mid →
  last_start sid (pre ++ (t, MStart sid) :: mid) acc = Some t.
Proof.
  intros Hm. revert acc. induction pre as [|y pre IH]; intros acc; simpl; [|by apply IH].
  rw /starts_session /= bool_decide_true //. clear -Hm.
  induction Hm as [|x mid Hx _ IH]; [done|]. by rw /= Hx.
Qed.

(** One use of the cache of start times, by what the cache then holds. *)
Lemma cache_get_cases {V} now k (c : ttlcache V) :
  (∃ v e, live c k = Some (v, e) ∧ (now ≤ e)%Z ∧ (cache_get now k c).1 = Some v ∧
     ∀ k', live (cache_get now k c).2 k' = if decide (k = k') then Some (v, now + ttl_of c)%Z else live c k') ∨
  ((∀ v e, live c k = Some (v, e) → (e < now)%Z) ∧ (cache_get now k c).1 = None ∧
     ∀ k', live (cache_get now k c).2 k' = live c k' ∨ k = k' ∧ live (cache_get now k c).2 k' = None).
Proof.
  destruct (live c k) as [[v e]|] eqn:E; [destruct (Z.le_gt_cases now e)|].
  - left. exists v, e. destruct (get_hit now k c v e E) as [? ?]; [done|]. by split_and!.
  - right. assert (∀ v' e', live c k = Some (v', e') → (e' < now)%Z) as Hm by (rw E; intros ? ? [= <- <-]; lia).
    destruct (get_miss now k c Hm) as [? ?]. split_and!; [|done..]. intros ? ? [= <- <-]. lia.
  - right. assert (∀ v' e', live c k = Some (v', e') → (e' < now)%Z) as Hm by by rw E.
    destruct (get_miss now k c Hm) as [? ?]. by split_and!.
Qed.

(** A start time in the cache is that of the last start. *)
Definition starts_known (ops : list (Z * metric_op)) (m : MpcMetrics) : Prop :=
  ttl_of (sessionStartTimeCache m) = SESSION_TTL ∧
  ∀ sid start e, live (sessionStartTimeCache m) sid = Some (start, e) → last_start sid ops None = Some start.

Lemma metric_step_known ops m x :
  starts_known ops m → starts_known (ops ++ [x]) (metric_step m x).
Proof.
  intros [Ht Hl]. destruct x as [now op]. split.
  - destruct op as [|s|s| | |]; simpl; try done; [by rw ttl_set|]. rw /EndProcess.
    pose proof (ttl_get now s (sessionStartTimeCache m)) as Hg.
    destruct (cache_get now s _) as [[v|] c]; simpl in *; by rw Hg.
  - intros sid start e. rw last_start_snoc /starts_session /=.
    destruct op as [|s|s| | |]; simpl; try apply Hl.
    + rw live_set. destruct (decide (s = sid)) as [->|].
      * rw bool_decide_true //. by intros [= -> _].
      * rw bool_decide_false //. apply Hl.
    + rw /EndProcess. destruct (cache_get_cases now s (sessionStartTimeCache m)) as
        [(v & e' & Hv & _ & Hg & Hc)|(_ & Hg & Hc)];
        destruct (cache_get now s _) as [r c]; simpl in Hg, Hc; subst r; simpl.
      * rw Hc. destruct (decide (s = sid)) as [->|]; [|apply Hl]. intros [= <- _]. by eapply Hl.
      * destruct (Hc sid) as [->|[_ ->]]; [apply Hl|done].
Qed.

Lemma metric_run_known m0 ops :
  starts_known [] m0 → starts_known ops (foldl metric_step m0 ops).
Proof.
  intros H0. induction ops as [|x ops IH] using rev_ind; [done|].
  rw foldl_snoc. by apply metric_step_known.
Qed.

(** ... and the last start is in the cache for as long as it lives. *)
Definition starts_kept (ops : list (Z * metric_op)) (T : Z) (m : MpcMetrics) : Prop :=
  ∀ sid start, last_start sid ops None = Some start → (start ≤ T)%Z ∧
    ∀ now, (T ≤ now ≤ start + SESSION_TTL)%Z →
      ∃ e, live (sessionStartTimeCache m) sid = Some (start, e) ∧ (now ≤ e)%Z.

Lemma metric_step_kept ops T m now op :
  starts_known ops m → starts_kept ops T m → (T ≤ now)%Z →
  starts_kept (ops ++ [(now, op)]) now (metric_step m (now, op)).
Proof.
  intros [Ht _] Hk Hn sid start. rw last_start_snoc /starts_session /=.
  assert (∀ start, last_start sid ops None = Some start → (start ≤ now)%Z ∧
    ∀ t, (now ≤ t ≤ start + SESSION_TTL)%Z →
      ∃ e, live (sessionStartTimeCache m) sid = Some (start, e) ∧ (t ≤ e)%Z) as Hold.
  { intros st [Hst Hl]%Hk. split; [lia|]. intros t ?. apply Hl. lia. }
  destruct op as [|s|s| | |]; simpl; try apply Hold.
  - rw live_set. destruct (decide (s = sid)) as [->|].
    + rw bool_decide_true //. intros [= <-]. split; [done|]. intros t ?. eexists. split; [done|]. rw Ht. lia.
    + rw bool_decide_false //. apply Hold.
  - intros [Hst Hl]%Hold. split; [done|]. intros t Hrange. destruct (Hl t Hrange) as (e & He & Hte).
    rw /EndProcess. destruct (cache_get_cases now s (sessionStartTimeCache m)) as
      [(v & e' & Hv & _ & Hg & Hc)|(Hm & Hg & Hc)];
      destruct (cache_get now s _) as [r c]; simpl in Hg, Hc; subst r; simpl.
    + rw Hc. destruct (decide (s = sid)) as [->|]; [|by exists e].
      rw He in Hv. injection Hv as <- <-. eexists. split; [done|]. rw Ht. lia.
    + destruct (Hc sid) as [->|[-> _]]; [by exists e|]. specialize (Hm _ _ He). lia.
Qed.

(** The operations are called at these times, none before [T]. *)
Fixpoint in_order (T : Z) (ops : list (Z * metric_op)) : Prop :=
  match ops with [] => True | (now, _) :: ops' => (T ≤ now)%Z ∧ in_order now ops' end.

Lemma metric_run_kept ops0 T m ops now op post :
  starts_known ops0 m → starts_kept ops0 T m → in_order T (ops ++ (now, op) :: post) →
  ∃ T', (T' ≤ now)%Z ∧ starts_kept (ops0 ++ ops) T' (foldl metric_step m ops).
Proof.
  revert ops0 T m. induction ops as [|[t o] ops IH]; intros ops0 T m Hkn Hk Ho.
  - destruct Ho as [? _]. exists T. split; [done|]. by rw app_nil_r.
  - destruct Ho as [Ht Ho]. destruct (IH (ops0 ++ [(t, o)]) t (metric_step m (t, o))) as (T' & ? & Hkept).
    + by apply metric_step_known.
    + by apply (metric_step_kept ops0 T).
    + done.
    + exists T'. split; [done|]. by rw -app_assoc in Hkept.
Qed.

Lemma session_times_grow m ops : sessionTimeHistogram m `prefix_of` sessionTimeHistogram (foldl metric_step m ops).
Proof.
  revert m. induction ops as [|[now op] ops IH]; intros m; [done|]. simpl.
  trans (sessionTimeHistogram (metric_step m (now, op))); [|apply IH].
  destruct op as [| |s| | |]; try done. rw /= /EndProcess.
  destruct (cache_get now s _) as [[v|] c]; simpl; [by apply prefix_app_r|done].
Qed.

(** The time that the end of a session records. *)
Lemma EndProcess_records ops m now s :
  starts_known ops m →
  sessionTimeHistogram (EndProcess now s m) = sessionTimeHistogram m ∨
  ∃ start, last_start s ops None = Some start ∧
    sessionTimeHistogram (EndProcess now s m) = sessionTimeHistogram m ++ [now - start]%Z.
Proof.
  intros [_ Hl]. rw /EndProcess. destruct (cache_get_cases now s (sessionStartTimeCache m)) as
    [(v & e & Hv & _ & Hg & _)|(_ & Hg & _)]; destruct (cache_get now s _) as [r c]; simpl in Hg; subst r.
  - right. exists v. split; [by eapply Hl|done].
  - by left.
Qed.

(** The session times that are recorded are the times of sessions.
    Over any sequence of measurements: a time in the histogram is the time
    from the last start of some session to an end of it; and every end within
    ten minutes of the last start of its session is recorded.  There is one
    record for each end, and a session ends at a relayer with every copy of
    its signature that arrives there. *)
Theorem session_times (instrument : string → option error) (m0 : MpcMetrics) (T : Z)
    (ops : list (Z * metric_op)) :
  NewMpcMetrics instrument = Ok m0 → in_order T ops →
  let m := foldl metric_step m0 ops in
  (∀ d, d ∈ sessionTimeHistogram m → ∃ pre start sid mid stop post,
     ops = pre ++ (start, MStart sid) :: mid ++ (stop, MEnd sid) :: post ∧
     Forall (λ x, starts_session sid x = false) mid ∧ d = (stop - start)%Z) ∧
  (∀ pre start sid mid stop post,
     ops = pre ++ (start, MStart sid) :: mid ++ (stop, MEnd sid) :: post →
     Forall (λ x, starts_session sid x = false) mid → (stop ≤ start + SESSION_TTL)%Z →
     (stop - start)%Z ∈ sessionTimeHistogram m).
Proof.
  intros Hnew Hord m. assert (starts_known [] m0 ∧ starts_kept [] T m0 ∧ sessionTimeHistogram m0 = []) as (Hkn & Hkp & Hnil).
  { rw /NewMpcMetrics in Hnew. destruct (create _ _); [done|]. injection Hnew as <-.
    split_and!; [|done|done]. split; [by rw /= ttl_new|]. intros sid start e. by rw /= live_new. }
  split.
  - rw /m. clear m Hord Hkp. induction ops as [|[now op] ops IH] using rev_ind; intros d.
    { rw /= Hnil. by intros ?%not_elem_of_nil. }
    rw foldl_snoc. set (m := foldl metric_step m0 ops) in *. pose proof (metric_run_known m0 ops Hkn) as Hk.
    assert (d ∈ sessionTimeHistogram m → ∃ pre start sid mid stop post,
      ops ++ [(now, op)] = pre ++ (start, MStart sid) :: mid ++ (stop, MEnd sid) :: post ∧
      Forall (λ x, starts_session sid x = false) mid ∧ d = (stop - start)%Z) as Hold.
    { intros (pre & start & sid & mid & stop & post & -> & Hmid & ->)%IH.
      exists pre, start, sid, mid, stop, (post ++ [(now, op)]). by rw -!app_assoc /= -app_assoc. }
    destruct op as [|s|s| | |]; try exact Hold. simpl.
    destruct (EndProcess_records ops m now s Hk) as [->|(start & Hs & ->)]; [done|].
    intros [?| ->%list_elem_of_singleton]%elem_of_app; [by apply Hold|].
    apply last_start_split in Hs as (pre & mid & -> & Hmid). exists pre, start, s, mid, now, [].
    by rw -app_assoc.
  - intros pre start sid mid stop post Heq Hmid Hstop.
    assert (ops = (pre ++ (start, MStart sid) :: mid) ++ (stop, MEnd sid) :: post) as Hops by by rw Heq -app_assoc.
    rw /m Hops foldl_app. rw Hops in Hord.
    destruct (metric_run_kept [] T m0 _ _ _ _ Hkn Hkp Hord) as (T' & HT & Hk).
    set (ops1 := pre ++ (start, MStart sid) :: mid) in *. set (m1 := foldl metric_step m0 ops1) in *.
    destruct (Hk sid start) as [_ Hl]; [by apply last_start_quiet|].
    destruct (Hl stop) as (e & He & Hse); [done|]. simpl.
    destruct (session_times_grow (EndProcess stop sid m1) post) as [rest ->]. apply elem_of_app. left.
    rw /EndProcess. destruct (get_hit stop sid _ _ _ He Hse) as [Hg _].
    destruct (cache_get stop sid _) as [r c]. simpl in Hg. subst r. apply elem_of_app. right. by left.
Qed.
End metrics.

Section witnesses.
Import Toy.

(** Two signatures of one session arrive. *)
Definition demo_ops : list (Z * metric_op) := [(0%Z, MStart "1-7"); (3%Z, MEnd "1-7"); (5%Z, MEnd "1-7")].

Lemma session_times_witness :
  ∃ m0, NewMpcMetrics (λ _, None) = Ok m0 ∧ 5%Z ∈ sessionTimeHistogram (foldl metric_step m0 demo_ops).
Proof.
  eexists. split; [reflexivity|].
  apply (session_times (λ _, None) _ 0 demo_ops eq_refl ltac:(by vm_compute)) with
    (pre := []) (start := 0%Z) (sid := "1-7") (mid := [(3%Z, MEnd "1-7")]) (stop := 5%Z) (post := []).
  - reflexivity.
  - by repeat constructor.
  - rw /SESSION_TTL. lia.
Defined.
End witnesses.
