(* ===== verification/RelayerConfig.v ===== *)
(** * Configuration of the relayer (src/config/relayer/config.go,
      src/config/env.go, src/config/config.go)

    Texts are parsed into durations, ports and levels; environment variables
    are mounted into a tree; chain configurations are completed from shared
    ones. *)
From Stdlib Require Import Ascii.
From S2P Require Import Prelude GoStd Libs Confirmations.

(** ** time.ParseDuration *)
Module time.
Definition is_digit (c : ascii) : bool :=
  let n := Z.of_N (N_of_ascii c) in ((48 <=? n) && (n <=? 57))%Z.

(** The leading digits; [None] when they exceed 2^63. *)
Fixpoint leadingInt (x : Z) (s : string) : option (Z * string) :=
  match s with
  | String c s' =>
      if is_digit c then
        let x' := (x * 10 + (Z.of_N (N_of_ascii c) - 48))%Z in
        if (2 ^ 63 / 10 <? x)%Z then None
        else if (2 ^ 63 <? x')%Z then None
        else leadingInt x' s'
      else Some (x, s)
  | EmptyString => Some (x, s)
  end.

(** The digits after the point as [x / scale]; digits that do not fit are
    skipped. *)
Fixpoint leadingFraction (x scale : Z) (overflow : bool) (s : string) : Z * Z * string :=
  match s with
  | String c s' =>
      if is_digit c then
        let y := (x * 10 + (Z.of_N (N_of_ascii c) - 48))%Z in
        if overflow then leadingFraction x scale overflow s'
        else if ((2 ^ 63 - 1) / 10 <? x)%Z then leadingFraction x scale true s'
        else if (2 ^ 63 <? y)%Z then leadingFraction x scale true s'
        else leadingFraction y (scale * 10) false s'
      else (x, scale, s)
  | EmptyString => (x, scale, s)
  end.

(** The unit: up to the next digit or point. *)
Fixpoint span_unit (s : string) : string * string :=
  match s with
  | String c s' =>
      if is_digit c || bool_decide (c = "."%char) then ("", s)
      else let '(u, rest) := span_unit s' in (String c u, rest)
  | EmptyString => ("", s)
  end.

Definition unitMap (u : string) : option Z :=
  if bool_decide (u = "ns") then Some 1%Z
  else if bool_decide (u = "us") then Some 1000%Z
  else if bool_decide (u = "µs") then Some 1000%Z   (* U+00B5 *)
  else if bool_decide (u = "μs") then Some 1000%Z   (* U+03BC *)
  else if bool_decide (u = "ms") then Some (10 ^ 6)%Z
  else if bool_decide (u = "s") then Some (10 ^ 9)%Z
  else if bool_decide (u = "m") then Some (60 * 10 ^ 9)%Z
  else if bool_decide (u = "h") then Some (3600 * 10 ^ 9)%Z
  else None.

(** [uint64(float64(f) * (float64(unit) / scale))]: [scale] is a power of
    ten that a float64 holds exactly. *)
Definition fraction (f scale unit : Z) : Z :=
  match bigfloat.Quo (bigfloat.Fin 53 unit 0) (bigfloat.Fin 53 scale 0) with
  | Done q =>
      match bigfloat.Mul (bigfloat.round 53 f 0) q with
      | Done p => default 0%Z (bigfloat.Int p)
      | Panic _ => 0%Z
      end
  | Panic _ => 0%Z
  end.

(** One number with its unit: its value, and the rest of the text. *)
Definition parse_unit (s : string) : option (Z * string) :=
  match s with
  | String c _ =>
      if negb (bool_decide (c = "."%char) || is_digit c) then None else
      '(v, s1) ← leadingInt 0 s;
      let pre := negb (String.length s =? String.length s1)%nat in
      let '(f, scale, s2, post) :=
        match s1 with
        | String "." s' =>
            let '(f, scale, s2) := leadingFraction 0 1 false s' in
            (f, scale, s2, negb (String.length s' =? String.length s2)%nat)
        | _ => (0%Z, 1%Z, s1, false)
        end in
      if negb (pre || post) then None else
      let '(u, rest) := span_unit s2 in
      if bool_decide (u = "") then None else
      unit ← unitMap u;
      if (2 ^ 63 / unit <? v)%Z then None else
      let v := (v * unit)%Z in
      let v' := if (0 <? f)%Z then u64 (v + fraction f scale unit) else v in
      if (2 ^ 63 <? v')%Z then None else Some (v', rest)
  | EmptyString => None
  end.

(** The loop of [ParseDuration]; it adds up at most [fuel] numbers. *)
Fixpoint sum_units (fuel : nat) (d : Z) (s : string) : option Z :=
  match fuel, s with
  | _, EmptyString => Some d
  | O, _ => None
  | S fuel', _ =>
      '(v, rest) ← parse_unit s;
      let d' := u64 (d + v) in
      if (2 ^ 63 <? d')%Z then None else sum_units fuel' d' rest
  end.

(** Nanoseconds; each number takes at least one character. *)
Definition ParseDuration (orig : string) : option Z :=
  let '(neg, s) :=
    match orig with
    | String "-" s => (true, s)
    | String "+" s => (false, s)
    | _ => (false, orig)
    end in
  if bool_decide (s = "0") then Some 0%Z
  else if bool_decide (s = "") then None
  else
    d ← sum_units (String.length s) 0 s;
    if neg then Some (i64 (- d))
    else if (2 ^ 63 - 1 <? d)%Z then None else Some d.

Example parse_5m : ParseDuration "5m" = Some 300000000000%Z.
Proof. reflexivity. Qed.
Example parse_mixed : ParseDuration "-1h1.5s250us" = Some (-3601500250000)%Z.
Proof. reflexivity. Qed.
Example parse_unitless : ParseDuration "12" = None.
Proof. reflexivity. Qed.
End time.

(** ** relayer/config.go *)
Record TopologyConfiguration := { EncryptionKey : string; tc_Url : string; tc_Path : string }.
Record CoinmarketcapConfig := { cmc_Url : string; cmc_ApiKey : string }.
Record SolverKeys := { SecretKey : string; AccessKey : string }.

Record MpcRelayerConfig := {
  mpc_TopologyConfiguration : TopologyConfiguration;
  Port : Z;
  KeysharePath : string;
  FrostKeysharePath : string;
  mpc_Key : string;
  CommHealthCheckInterval : Z;
}.

Record BullyConfig := {
  PingWaitTime : Z;
  PingBackOff : Z;
  PingInterval : Z;
  ElectionWaitTime : Z;
  BullyWaitTime : Z;
}.

Record RawMpcRelayerConfig := {
  raw_KeysharePath : string;
  raw_FrostKeysharePath : string;
  raw_Key : string;
  raw_Port : string;
  raw_TopologyConfiguration : TopologyConfiguration;
  raw_CommHealthCheckInterval : string;
}.

Record RawBullyConfig := {
  raw_PingWaitTime : string;
  raw_PingBackOff : string;
  raw_PingInterval : string;
  raw_ElectionWaitTime : string;
  raw_BullyWaitTime : string;
}.

Record RawRelayerConfig := {
  raw_OpenTelemetryCollectorURL : string;
  raw_LogLevel : string;
  raw_LogFile : string;
  raw_HealthPort : string;
  raw_Env : string;
  raw_Id : string;
  raw_MpcConfig : RawMpcRelayerConfig;
  raw_BullyConfig : RawBullyConfig;
  raw_CoinmarketcapConfig : CoinmarketcapConfig;
  raw_SolverConfig : SolverKeys;
  raw_ApiAddr : string;
}.

(** A log level is an int8 of zerolog. *)
Record RelayerConfig := {
  OpenTelemetryCollectorURL : string;
  LogLevel : Z;
  LogFile : string;
  HealthPort : Z;
  Env : string;
  Id : string;
  MpcConfig : MpcRelayerConfig;
  Bully : BullyConfig;
  Coinmarketcap : CoinmarketcapConfig;
  Solver : SolverKeys;
  ApiAddr : string;
}.

Definition Validate (c : RawRelayerConfig) : option error :=
  let t := raw_TopologyConfiguration (raw_MpcConfig c) in
  if bool_decide (EncryptionKey t = "")
  then Some (Errorf "topology configuration encryption key not provided")
  else if bool_decide (tc_Url t = "")
  then Some (Errorf "topology configuration url not provided")
  else if bool_decide (tc_Path t = "")
  then Some (Errorf "topology configuration path not provided")
  else None.

(** [ParseInt(s, 0, 16)] and the range test, as both ports are read. *)
Definition parse_port (what s : string) : result Z :=
  match strconv.ParseInt s 0 16 with
  | None => Err (Errorf ("unable to parse " +:+ what))
  | Some port =>
      if (port <? 0)%Z || (65535 <? port)%Z
      then Err (Errorf ("mpc port " +:+ fmt_d port +:+ " is out of valid range for uint16"))
      else Ok (u16 port)
  end.

Definition parse_duration (what s : string) : result Z :=
  result_of_option (Errorf ("unable to parse " +:+ what)) (time.ParseDuration s).

Definition parseMpcConfig (rawConfig : RawRelayerConfig) : result MpcRelayerConfig :=
  let c := raw_MpcConfig rawConfig in
  port ← parse_port "mpc port from config" (raw_Port c);
  duration ← parse_duration "communication health check interval time" (raw_CommHealthCheckInterval c);
  Ok {| mpc_TopologyConfiguration := raw_TopologyConfiguration c; Port := port;
        KeysharePath := raw_KeysharePath c; FrostKeysharePath := raw_FrostKeysharePath c;
        mpc_Key := raw_Key c; CommHealthCheckInterval := duration |}.

Definition parseBullyConfig (rawConfig : RawRelayerConfig) : result BullyConfig :=
  let c := raw_BullyConfig rawConfig in
  electionWaitTime ← parse_duration "bully election wait time" (raw_ElectionWaitTime c);
  pingWaitTime ← parse_duration "bully ping wait time" (raw_PingWaitTime c);
  pingInterval ← parse_duration "bully ping interval time" (raw_PingInterval c);
  pingBackOff ← parse_duration "bully ping back off time" (raw_PingBackOff c);
  bullyWaitTime ← parse_duration "bully wait time" (raw_BullyWaitTime c);
  Ok {| PingWaitTime := pingWaitTime; PingBackOff := pingBackOff; PingInterval := pingInterval;
        ElectionWaitTime := electionWaitTime; BullyWaitTime := bullyWaitTime |}.

Section relayer_config.
(** [zerolog.ParseLevel] *)
Context (ParseLevel : string → result Z).

Definition NewRelayerConfig (rawConfig : RawRelayerConfig) : result RelayerConfig :=
  match Validate rawConfig with
  | Some e => Err e
  | None =>
      match ParseLevel (raw_LogLevel rawConfig) with
      | Err _ => Err (Errorf ("unknown log level: " +:+ raw_LogLevel rawConfig))
      | Ok logLevel =>
          healthPort ← parse_port "health port" (raw_HealthPort rawConfig);
          mpcConfig ← parseMpcConfig rawConfig;
          bullyConfig ← parseBullyConfig rawConfig;
          Ok {| OpenTelemetryCollectorURL := raw_OpenTelemetryCollectorURL rawConfig;
                LogLevel := logLevel; LogFile := raw_LogFile rawConfig; HealthPort := healthPort;
                Env := raw_Env rawConfig; Id := raw_Id rawConfig; MpcConfig := mpcConfig;
                Bully := bullyConfig; Coinmarketcap := raw_CoinmarketcapConfig rawConfig;
                Solver := raw_SolverConfig rawConfig; ApiAddr := raw_ApiAddr rawConfig |}
      end
  end.

Lemma parse_port_fmt_d what p :
  (0 ≤ p)%Z → parse_port what (fmt_d p) =
    if (p <? 32768)%Z then Ok p else Err (Errorf ("unable to parse " +:+ what)).
Proof.
  intros Hp. rw /parse_port strconv.ParseInt_fmt_d_base0; [|lia|lia].
  change (2 ^ (16 - 1))%Z with 32768%Z. destruct (Z.ltb_spec p 32768); [|done].
  rw (proj2 (Z.ltb_ge p 0)); [|lia]. rw (proj2 (Z.ltb_ge 65535 p)); [|lia].
  f_equal. apply Z.mod_small. lia.
Qed.

Lemma parse_port_bounds what s p : parse_port what s = Ok p → (0 ≤ p < 32768)%Z.
Proof.
  rw /parse_port. destruct (strconv.ParseInt s 0 16) as [port|] eqn:E; [|done].
  apply strconv.ParseInt_bounds in E; [|lia]. change (2 ^ (16 - 1))%Z with 32768%Z in E.
  destruct (Z.ltb_spec port 0); [done|]. destruct (Z.ltb_spec 65535 port); [done|].
  intros [= <-]. rw /u16 Z.mod_small; lia.
Qed.

Lemma NewRelayerConfig_fields raw c :
  NewRelayerConfig raw = Ok c →
  Validate raw = None ∧ parse_port "health port" (raw_HealthPort raw) = Ok (HealthPort c) ∧
  parseMpcConfig raw = Ok (MpcConfig c) ∧ parseBullyConfig raw = Ok (Bully c).
Proof.
  rw /NewRelayerConfig. destruct (Validate raw); [done|]. destruct (ParseLevel _); [|done].
  destruct (parse_port _ _) as [hp|]; [|done]. destruct (parseMpcConfig raw) as [mpc|]; [|done].
  destruct (parseBullyConfig raw) as [bully|]; [|done]. by intros [= <-].
Qed.

Lemma parseMpcConfig_Port raw c :
  parseMpcConfig raw = Ok c → parse_port "mpc port from config" (raw_Port (raw_MpcConfig raw)) = Ok (Port c).
Proof.
  rw /parseMpcConfig. destruct (parse_port _ _) as [p|]; [|done].
  destruct (parse_duration _ _); [|done]. by intros [= <-].
Qed.

(** The configuration with another MPC port. *)
Definition with_port (port : string) (raw : RawRelayerConfig) : RawRelayerConfig :=
  let m := raw_MpcConfig raw in {|
  raw_OpenTelemetryCollectorURL := raw_OpenTelemetryCollectorURL raw;
  raw_LogLevel := raw_LogLevel raw; raw_LogFile := raw_LogFile raw;
  raw_HealthPort := raw_HealthPort raw; raw_Env := raw_Env raw; raw_Id := raw_Id raw;
  raw_MpcConfig := {|
    raw_KeysharePath := raw_KeysharePath m; raw_FrostKeysharePath := raw_FrostKeysharePath m;
    raw_Key := raw_Key m; raw_Port := port;
    raw_TopologyConfiguration := raw_TopologyConfiguration m;
    raw_CommHealthCheckInterval := raw_CommHealthCheckInterval m |};
  raw_BullyConfig := raw_BullyConfig raw; raw_CoinmarketcapConfig := raw_CoinmarketcapConfig raw;
  raw_SolverConfig := raw_SolverConfig raw; raw_ApiAddr := raw_ApiAddr raw |}.

(** C40: only half of the ports can be configured: although the parser tests
    for the range of uint16, it reads 16-bit signed integers, so a
    configuration that is accepted stays accepted with another port exactly
    if that port is below 32768. *)
Theorem ports_below_32768 (raw : RawRelayerConfig) (c : RelayerConfig) (port : Z) :
  NewRelayerConfig raw = Ok c → (0 ≤ port < 65536)%Z →
  (Port (MpcConfig c) < 32768)%Z ∧ (HealthPort c < 32768)%Z ∧
  match NewRelayerConfig (with_port (fmt_d port) raw) with
  | Ok c' => (port < 32768)%Z ∧ Port (MpcConfig c') = port
  | Err e => (32768 ≤ port)%Z ∧ e = Errorf "unable to parse mpc port from config"
  end.
Proof.
  intros Hc Hp. pose proof (NewRelayerConfig_fields _ _ Hc) as (_ & Hhp & Hmpc & _).
  apply parseMpcConfig_Port in Hmpc.
  split; [apply parse_port_bounds in Hmpc; lia|]. split; [apply parse_port_bounds in Hhp; lia|].
  revert Hc. rw /NewRelayerConfig.
  assert (Validate (with_port (fmt_d port) raw) = Validate raw) as -> by done.
  destruct (Validate raw); [done|].
  rw [raw_LogLevel (with_port _ _)]/=. destruct (ParseLevel _); [|done].
  rw [raw_HealthPort (with_port _ _)]/=. destruct (parse_port "health port" _); [|done].
  rw /parseMpcConfig. simpl. rw parse_port_fmt_d; [|lia].
  destruct (parse_port _ _); [|done]. destruct (parse_duration _ _); [|done]. simpl.
  assert (parseBullyConfig (with_port (fmt_d port) raw) = parseBullyConfig raw) as -> by done.
  destruct (Z.ltb_spec port 32768); simpl; [|by intros _]. by destruct (parseBullyConfig raw).
Qed.
End relayer_config.

Section witnesses.
Definition demo_raw : RawRelayerConfig := {|
  raw_OpenTelemetryCollectorURL := ""; raw_LogLevel := "info"; raw_LogFile := "out.log";
  raw_HealthPort := "9001"; raw_Env := ""; raw_Id := "";
  raw_MpcConfig := {|
    raw_KeysharePath := "k"; raw_FrostKeysharePath := ""; raw_Key := ""; raw_Port := "0x2328";
    raw_TopologyConfiguration := {| EncryptionKey := "e"; tc_Url := "u"; tc_Path := "p" |};
    raw_CommHealthCheckInterval := "5m" |};
  raw_BullyConfig := {|
    raw_PingWaitTime := "1s"; raw_PingBackOff := "1s"; raw_PingInterval := "1s";
    raw_ElectionWaitTime := "2s"; raw_BullyWaitTime := "3m" |};
  raw_CoinmarketcapConfig := {| cmc_Url := ""; cmc_ApiKey := "" |};
  raw_SolverConfig := {| SecretKey := ""; AccessKey := "" |}; raw_ApiAddr := "0.0.0.0:3000" |}.

Lemma ports_below_32768_witness :
  match NewRelayerConfig (λ _, Ok 1%Z) demo_raw with
  | Ok c => Port (MpcConfig c) = 9000%Z ∧ (HealthPort c < 32768)%Z
  | Err _ => False
  end.
Proof.
  destruct (NewRelayerConfig (λ _, Ok 1%Z) demo_raw) as [c|e] eqn:E; [|by vm_compute in E].
  split; [by vm_compute in E; simplify_eq|].
  exact (proj1 (proj2 (ports_below_32768 (λ _, Ok 1%Z) demo_raw c 40000 E ltac:(lia)))).
Defined.
End witnesses.
