(* ===== verification/Config.v ===== *)
(** * Reading the configuration (src/config/env.go, src/config/config.go)

    Environment variables are mounted into a tree of maps along the parts of
    their names; the chain configurations of the relayer are completed from
    the ones that were fetched. *)
From Stdlib Require Import Ascii.
From S2P Require Import Prelude GoStd Encoding Json Libs JsonCodec Confirmations RelayerConfig.

(** ** env.go *)

(** A [map[string]interface{}] whose values are such maps or texts. *)
Inductive tree :=
  | Leaf (v : string)
  | Node (m : gmap string tree).

(** [mountMap(m, i, v)]: the nested maps are mutated in place; a text in
    the way stops it. *)
Fixpoint mountMap (m : gmap string tree) (i : list string) (v : tree) : gmap string tree :=
  match i with
  | [] => m
  | [k] => <[k := v]> m
  | k :: i' =>
      match default (Node ∅) (m !! k) with
      | Leaf _ => m
      | Node asMap => <[k := Node (mountMap asMap i' v)]> m
      end
  end.

Definition EnvPrefix : string := "SYG".

(** [strings.Contains] *)
Fixpoint Contains (s sub : string) : bool :=
  String.prefix sub s || match s with
                         | EmptyString => false
                         | String _ s' => Contains s' sub
                         end.

(** [strings.SplitN(e, "=", 2)]; [None] when there is no "=". *)
Fixpoint split_env (e : string) : option (string * string) :=
  match e with
  | EmptyString => None
  | String c e' =>
      if bool_decide (c = "="%char) then Some ("", e')
      else '(k, v) ← split_env e'; Some (String c k, v)
  end.

Definition mount_env (structure : gmap string tree) (e : string) : outcome (gmap string tree) :=
  if Contains e EnvPrefix then
    match split_env e with
    | None => Panic "index out of range"
    | Some (name, value) => Done (mountMap structure (strings.Split name "_") (Leaf value))
    end
  else Done structure.

(** [loadENVToJsonStructure] before the JSON encoding. *)
Fixpoint mount_environ (structure : gmap string tree) (environ : list string)
    : outcome (gmap string tree) :=
  match environ with
  | [] => Done structure
  | e :: environ' => structure ← mount_env structure e; mount_environ structure environ'
  end.

(** Reading the tree. *)
Fixpoint tree_lookup (m : gmap string tree) (i : list string) : option tree :=
  match i with
  | [] => None
  | [k] => m !! k
  | k :: i' => match m !! k with Some (Node m') => tree_lookup m' i' | _ => None end
  end.

(** A text on the way to [i], before its end. *)
Fixpoint blocked (m : gmap string tree) (i : list string) : bool :=
  match i with
  | [] | [_] => false
  | k :: i' =>
      match m !! k with
      | Some (Leaf _) => true
      | Some (Node m') => blocked m' i'
      | None => false
      end
  end.

Lemma blocked_empty i : blocked ∅ i = false.
Proof. by destruct i as [|k [|k' i]]. Qed.

Lemma tree_lookup_empty i : tree_lookup ∅ i = None.
Proof. by destruct i as [|k [|k' i]]. Qed.

Lemma lookup_mountMap m i v :
  i ≠ [] → blocked m i = false → tree_lookup (mountMap m i v) i = Some v.
Proof.
  revert m. induction i as [|k i IH]; intros m Hi Hb; [done|].
  destruct i as [|k' i]; [by rw /= lookup_insert_eq|].
  assert (∀ m', blocked m' (k' :: i) = false →
    tree_lookup (<[k := Node (mountMap m' (k' :: i) v)]> m) (k :: k' :: i) = Some v) as Hnode.
  { intros m' Hb'. change (match <[k := Node (mountMap m' (k' :: i) v)]> m !! k with
      Some (Node m'') => tree_lookup m'' (k' :: i) | _ => None end = Some v).
    rw lookup_insert_eq. by apply IH. }
  change (blocked m (k :: k' :: i)) with
    (match m !! k with Some (Leaf _) => true | Some (Node m') => blocked m' (k' :: i)
     | None => false end) in Hb.
  change (mountMap m (k :: k' :: i) v) with
    (match default (Node ∅) (m !! k) with Leaf _ => m
     | Node asMap => <[k := Node (mountMap asMap (k' :: i) v)]> m end).
  destruct (m !! k) as [[|m']|]; [done|by apply Hnode|]. apply Hnode, blocked_empty.
Qed.

(** Neither name is the beginning of the other. *)
Definition unrelated (i j : list string) : Prop := ¬ i `prefix_of` j ∧ ¬ j `prefix_of` i.

Lemma unrelated_cons k i j : unrelated (k :: i) (k :: j) → unrelated i j.
Proof. intros [H1 H2]. split; intros ?; [apply H1|apply H2]; by apply prefix_cons. Qed.

(** Mounting leaves what is not under the same name as it was. *)
Lemma mountMap_unrelated m i j v :
  unrelated i j →
  tree_lookup (mountMap m i v) j = tree_lookup m j ∧ blocked (mountMap m i v) j = blocked m j.
Proof.
  revert m j. induction i as [|k i IH]; intros m j Hij; [done|].
  destruct j as [|l j]; [by destruct Hij as [_ []]; apply prefix_nil|].
  destruct (decide (k = l)) as [<-|Hne].
  - apply unrelated_cons in Hij.
    destruct i as [|k' i]; [by destruct Hij as [[] _]; apply prefix_nil|].
    destruct j as [|l' j]; [by destruct Hij as [_ []]; apply prefix_nil|].
    change (mountMap m (k :: k' :: i) v) with
      (match default (Node ∅) (m !! k) with Leaf _ => m
       | Node asMap => <[k := Node (mountMap asMap (k' :: i) v)]> m end).
    assert (∀ m', (tree_lookup (<[k := Node m']> m) (k :: l' :: j) = tree_lookup m' (l' :: j)) ∧
      blocked (<[k := Node m']> m) (k :: l' :: j) = blocked m' (l' :: j)) as Hnode.
    { intros m'. cbn [tree_lookup blocked]. by rw lookup_insert_eq. }
    destruct (m !! k) as [[w|m']|] eqn:Em; simpl default; [done|..].
    + destruct (Hnode (mountMap m' (k' :: i) v)) as [-> ->].
      destruct (IH m' (l' :: j) Hij) as [-> ->]. cbn [tree_lookup blocked]. by rw Em.
    + destruct (Hnode (mountMap ∅ (k' :: i) v)) as [-> ->].
      destruct (IH ∅ (l' :: j) Hij) as [-> ->]. rw tree_lookup_empty blocked_empty.
      cbn [tree_lookup blocked]. by rw Em.
  - assert (∀ t, tree_lookup (<[k := t]> m) (l :: j) = tree_lookup m (l :: j) ∧
      blocked (<[k := t]> m) (l :: j) = blocked m (l :: j)) as Hins.
    { intros t. cbn [tree_lookup blocked]. by rw lookup_insert_ne. }
    destruct i as [|k' i]; [apply Hins|].
    change (mountMap m (k :: k' :: i) v) with
      (match default (Node ∅) (m !! k) with Leaf _ => m
       | Node asMap => <[k := Node (mountMap asMap (k' :: i) v)]> m end).
    destruct (default _ _); [done|apply Hins].
Qed.

Definition mount_all (vars : list (list string * string)) : gmap string tree → gmap string tree :=
  λ m, foldl (λ m '(i, v), mountMap m i (Leaf v)) m vars.

Lemma mount_all_found (vars : list (list string * string)) (i : list string) (v : string) :
  Forall (λ x, x.1 ≠ []) vars →
  (∀ a b x y, vars !! a = Some x → vars !! b = Some y → a ≠ b → unrelated x.1 y.1) →
  (i, v) ∈ vars → tree_lookup (mount_all vars ∅) i = Some (Leaf v).
Proof.
  intros Hne Hun Hin.
  assert (∀ x, x ∈ vars → blocked ∅ x.1 = false) as Hbl by by intros; apply blocked_empty.
  revert Hbl. generalize (∅ : gmap string tree).
  induction vars as [|[j w] vars IH]; intros m Hbl; [by apply not_elem_of_nil in Hin|].
  apply Forall_cons in Hne as [Hj Hne]. cbn [mount_all foldl].
  assert (∀ x, x ∈ vars → unrelated j x.1) as Hju.
  { intros x [b Hb]%list_elem_of_lookup_1. by apply (Hun 0 (S b) (j, w) x). }
  apply elem_of_cons in Hin as [Heq|Hin].
  - injection Heq as -> ->. pose proof (lookup_mountMap m j (Leaf w) Hj (Hbl _ ltac:(by left))) as Hl.
    clear -Hl Hju. revert Hl. generalize (mountMap m j (Leaf w)).
    induction vars as [|[k u] vars IH]; intros m' Hl; [done|]. cbn [foldl].
    apply IH; [by intros x Hx; apply Hju; right|].
    destruct (Hju (k, u) ltac:(by left)) as [H1 H2].
    by destruct (mountMap_unrelated m' k j (Leaf u) (conj H2 H1)) as [-> _].
  - apply IH; [done| |done|].
    + intros a b x y Ha Hb Hab. by apply (Hun (S a) (S b)); [..|lia].
    + intros x Hx. destruct (mountMap_unrelated m j x.1 (Leaf w) (Hju x Hx)) as [_ ->].
      apply Hbl. by right.
Qed.

(** The variables that are mounted, with the parts of their names. *)
Definition env_vars (environ : list string) : list (list string * string) :=
  omap (λ e, if Contains e EnvPrefix
             then '(name, value) ← split_env e; Some (strings.Split name "_", value)
             else None) environ.

Lemma mount_environ_all environ m m' :
  mount_environ m environ = Done m' → m' = mount_all (env_vars environ) m.
Proof.
  revert m. induction environ as [|e environ IH]; intros m; [by intros [= <-]|].
  cbn [mount_environ]. rw /mount_env /env_vars. simpl.
  destruct (Contains e EnvPrefix); [|apply IH].
  destruct (split_env e) as [[name value]|]; [|done]. apply IH.
Qed.

(** Every environment variable that holds the prefix is found in the
    configuration tree under the parts of its name, in whatever order the
    environment lists them, as long as no name is the beginning of another. *)
Theorem variables_found (environ : list string) (m : gmap string tree) (i : list string) (v : string) :
  mount_environ ∅ environ = Done m →
  (∀ a b x y, env_vars environ !! a = Some x → env_vars environ !! b = Some y → a ≠ b →
     unrelated x.1 y.1) →
  (i, v) ∈ env_vars environ → tree_lookup m i = Some (Leaf v).
Proof.
  intros ->%mount_environ_all Hun Hin. apply mount_all_found; [|done|done].
  apply Forall_forall. intros x (e & _ & He)%list_elem_of_omap. revert He.
  destruct (Contains e EnvPrefix); [|done]. destruct (split_env e) as [[name value]|]; [|done].
  intros [= <-]. apply strings.Split_nonempty.
Qed.

(** ** config.go *)

(** A decoded JSON value: numbers of a file are float64s. *)
Inductive any :=
  | AInt (z : Z)
  | AFloat (x : float64)
  | AString (s : string)
  | AOther (json : string).

#[export] Instance float64_eq_dec : EqDecision float64.
Proof. solve_decision. Defined.
#[export] Instance any_eq_dec : EqDecision any.
Proof. solve_decision. Defined.

Abbreviation ChainConfig := (gmap string any).

Record RawConfig := {
  rc_RelayerConfig : RawRelayerConfig;
  rc_ChainConfigs : list ChainConfig;
}.

Record AppConfig := {
  ac_RelayerConfig : RelayerConfig;
  ac_ChainConfigs : list ChainConfig;
}.

(** [x == y] for float64s of value. *)
Definition float_eq (x y : float64) : bool :=
  match x, y with
  | Finite m e, Finite m' e' =>
      let k := Z.min e e' in (m * 2 ^ (e - k) =? m' * 2 ^ (e' - k))%Z
  | Inf a, Inf b => Bool.eqb a b
  | _, _ => false
  end.

(** [float64(a)] of an int, rounded to 53 bits. *)
Definition float_of_int (a : Z) : float64 :=
  match bigfloat.round 53 a 0 with
  | bigfloat.Fin _ m e => Finite m e
  | bigfloat.FInf _ neg => Inf neg
  end.

(** A missing key is a nil interface, of no type. *)
Definition compareDomainID (a b : option any) : bool :=
  match a, b with
  | Some (AInt a), Some (AInt b) => (a =? b)%Z
  | Some (AInt a), Some (AFloat b) => float_eq (float_of_int a) b
  | Some (AFloat a), Some (AInt b) => float_eq a (float_of_int b)
  | Some (AFloat a), Some (AFloat b) => float_eq a b
  | _, _ => false
  end.

Fixpoint findChainConfig (id : option any) (configs : list ChainConfig) : result ChainConfig :=
  match configs with
  | [] => Err (Errorf "missing chain")
  | config :: configs' =>
      if compareDomainID id (config !! "id") then Ok config else findChainConfig id configs'
  end.

Section process.
(** [defaults.Set], [zerolog.ParseLevel] and [mergo.Merge(&dst, src)]. *)
Context (defaults_Set : RawConfig → result RawConfig) (ParseLevel : string → result Z).
Context (mergo_Merge : ChainConfig → ChainConfig → result ChainConfig).

(** The zero of the tests is an int, the empty text a string. *)
Definition complete_chain (configs : list ChainConfig) (i : nat) (chain : ChainConfig)
    : result ChainConfig :=
  if bool_decide (chain !! "id" = Some (AInt 0)) || bool_decide (chain !! "id" = None)
  then Err (Errorf ("chain 'id' not configured for chain " +:+ fmt_d (Z.of_nat i)))
  else if bool_decide (chain !! "type" = Some (AString "")) || bool_decide (chain !! "type" = None)
  then Err (Errorf "chain 'type' must be provided for every configured chain")
  else
    match findChainConfig (chain !! "id") configs with
    | Err e => Err e
    | Ok chainConfig => mergo_Merge chain chainConfig
    end.

Fixpoint complete_chains (configs : list ChainConfig) (i : nat) (chains : list ChainConfig)
    : result (list ChainConfig) :=
  match chains with
  | [] => Ok []
  | chain :: chains' =>
      chain ← complete_chain configs i chain;
      rest ← complete_chains configs (S i) chains';
      Ok (chain :: rest)
  end.

(** With the error the configuration given is returned unchanged. *)
Definition processRawConfig (rawConfig : RawConfig) (config : option AppConfig)
    : result AppConfig :=
  match defaults_Set rawConfig with
  | Err e => Err e
  | Ok rawConfig =>
      match NewRelayerConfig ParseLevel (rc_RelayerConfig rawConfig) with
      | Err e => Err e
      | Ok relayerConfig =>
          match config with
          | None =>
              Ok {| ac_RelayerConfig := relayerConfig; ac_ChainConfigs := rc_ChainConfigs rawConfig |}
          | Some config =>
              chainConfigs ← complete_chains (ac_ChainConfigs config) 0 (rc_ChainConfigs rawConfig);
              Ok {| ac_RelayerConfig := relayerConfig; ac_ChainConfigs := chainConfigs |}
          end
      end
  end.

(** [loadFromEnv]: [decode] is the JSON of the tree decoded into the
    configuration, [decode_chains] that of the text of [SYG_CHAINS]. *)
Definition loadFromEnv (decode : gmap string tree → result RawConfig)
    (decode_chains : string → result (list ChainConfig)) (Getenv : string → string)
    (environ : list string) : outcome (result RawConfig) :=
  structure ← mount_environ ∅ environ;
  match decode structure with
  | Err e => Done (Err e)
  | Ok rawConfig =>
      match Validate (rc_RelayerConfig rawConfig) with
      | Some e => Done (Err e)
      | None =>
          let rawDomainConfig := Getenv "SYG_CHAINS" in
          if bool_decide (rawDomainConfig = "") then Done (Ok rawConfig)
          else match decode_chains rawDomainConfig with
               | Err e => Done (Err e)
               | Ok cc => Done (Ok {| rc_RelayerConfig := rc_RelayerConfig rawConfig; rc_ChainConfigs := cc |})
               end
      end
  end.

Definition GetConfigFromENV decode decode_chains Getenv environ (config : option AppConfig)
    : outcome (result AppConfig) :=
  raw ← loadFromEnv decode decode_chains Getenv environ;
  match raw with
  | Err e => Done (Err e)
  | Ok rawConfig => Done (processRawConfig rawConfig config)
  end.

(** [read] is what viper reads from the file. *)
Definition GetConfigFromFile (read : result RawConfig) (config : option AppConfig) : result AppConfig :=
  match read with
  | Err e => Err e
  | Ok rawConfig => processRawConfig rawConfig config
  end.

(** The test for chain 0 compares with an int, the numbers of a JSON file
    are float64s: such a chain passes. *)
Lemma json_chain_zero_passes configs i chain base :
  chain !! "id" = Some (AFloat (Finite 0 0)) →
  chain !! "type" = Some (AString "evm") →
  findChainConfig (chain !! "id") configs = Ok base →
  complete_chain configs i chain = mergo_Merge chain base.
Proof. intros Hid Hty Hf. by rw /complete_chain Hf Hid Hty. Qed.
End process.

(** ** watcher.go: whether the fetched configuration differs from the one the
    relayer started with *)
Section watcher.
Context {SolverConfig : Type} `{Sha256, Codec SolverConfig}.

Definition calculateConfigHash (config : SolverConfig) : result string :=
  match Marshal config with
  | Err e => Err (Wrapf "failed to marshal config: " e)
  | Ok jsonBytes => Ok (hex.EncodeToString (sha256 jsonBytes))
  end.

Definition hasConfigChanged (FetchSolverConfig : result SolverConfig) (initialHash : string)
    : result bool :=
  match FetchSolverConfig with
  | Err e => Err e
  | Ok solverConfig =>
      match calculateConfigHash solverConfig with
      | Err e => Err e
      | Ok newHash => Ok (negb (bool_decide (initialHash = newHash)))
      end
  end.

(** One tick of the watcher: whether it signals a change. *)
Definition watcher_tick (FetchSolverConfig : result SolverConfig) (configHash : string) : bool :=
  match hasConfigChanged FetchSolverConfig configHash with Ok b => b | Err _ => false end.

(** The watcher signals only another configuration, and always one whose
    hash differs. *)
Lemma watcher_tick_changed config fetched hash :
  calculateConfigHash config = Ok hash →
  (watcher_tick fetched hash = true → ∃ config', fetched = Ok config' ∧ config' ≠ config) ∧
  (∀ config' hash', fetched = Ok config' → calculateConfigHash config' = Ok hash' → hash' ≠ hash →
     watcher_tick fetched hash = true).
Proof.
  intros Hh. rw /watcher_tick /hasConfigChanged. split.
  - destruct fetched as [config'|]; [|done]. destruct (calculateConfigHash config') as [hash'|] eqn:E; [|done].
    case_bool_decide as Heq; [done|]. intros _. exists config'. split; [done|]. intros ->. congruence.
  - intros config' hash' -> -> Hne. by rw bool_decide_false.
Qed.
End watcher.

Section witnesses.
Lemma variables_found_witness :
  ∃ m, mount_environ ∅ ["SYG_RELAYER_ENV=test"; "HOME=/"; "SYG_RELAYER_MPCCONFIG_PORT=a=b"] = Done m ∧
       tree_lookup m ["SYG"; "RELAYER"; "MPCCONFIG"; "PORT"] = Some (Leaf "a=b").
Proof.
  eexists. split; [reflexivity|].
  eapply (variables_found ["SYG_RELAYER_ENV=test"; "HOME=/"; "SYG_RELAYER_MPCCONFIG_PORT=a=b"]).
  - reflexivity.
  - intros [|[|a]] [|[|b]] x y Ha Hb Hab; vm_compute in Ha, Hb; try done; simplify_eq;
      split; intros [k Hk]; by vm_compute in Hk.
  - vm_compute. repeat (apply list_elem_of_here || apply list_elem_of_further).
Defined.
End witnesses.
