(* ===== verification/Api.v ===== *)
(** * The HTTP API (src/api/handlers, src/chains/evm/message/message.go)

    A request becomes a message of the relayer; the answer is what the
    handler of the message reports.  [mux.Vars] are the variables of the
    route, a body is what is read from the connection. *)
From Stdlib Require Import Ascii.
From S2P Require Import Prelude GoStd Encoding Json Libs JsonCodec Comm Tokens Confirmations Eip712 Keyshare TssCommon Signing Handlers Cache.
From S2P Require Import Lighter Sprinter Lifi Across.

(** ** message.go *)
Inductive message_data :=
  | MAcross (d : AcrossData)
  | MLifiEscrow (d : LifiEscrowData)
  | MLighter (d : LighterData)
  | MSprinterCredit (d : SprinterCreditData)
  | MLifiUnlock (d : LifiUnlockData).

Record message := {
  msg_Source : Z;
  msg_Destination : Z;
  msg_Data : message_data;
  msg_Type : string;
}.

Definition NewAcrossMessage (source destination : Z) (d : AcrossData) : message :=
  {| msg_Source := source; msg_Destination := destination; msg_Data := MAcross d;
     msg_Type := MessageType_String AcrossMsg |}.
Definition NewLifiEscrowMessage (source destination : Z) (d : LifiEscrowData) : message :=
  {| msg_Source := source; msg_Destination := destination; msg_Data := MLifiEscrow d;
     msg_Type := MessageType_String LifiEscrowMsg |}.
Definition NewLighterMessage (source destination : Z) (d : LighterData) : message :=
  {| msg_Source := source; msg_Destination := destination; msg_Data := MLighter d;
     msg_Type := MessageType_String LighterMsg |}.
Definition NewSprinterCreditMessage (source destination : Z) (d : SprinterCreditData) : message :=
  {| msg_Source := source; msg_Destination := destination; msg_Data := MSprinterCredit d;
     msg_Type := MessageType_String SprinterCreditMsg |}.
Definition NewLifiUnlockMessage (source destination : Z) (d : LifiUnlockData) : message :=
  {| msg_Source := source; msg_Destination := destination; msg_Data := MLifiUnlock d;
     msg_Type := MessageType_String LifiUnlockMsg |}.

(** ** util.go *)

(** The value of [BigInt.UnmarshalJSON], which accepts a number or a text. *)
Definition BigInt_UnmarshalJSON (data : string) : result Z :=
  let s := strings.Trim data (ascii_of_nat 34) in
  match big.SetString s 10 with
  | Some z => Ok z
  | None => Err (Errorf ("failed to parse big.Int from " +:+ s))
  end.

Definition BigInt_MarshalJSON (z : Z) : string := fmt_d z.

Lemma BigInt_roundtrip z : BigInt_UnmarshalJSON (BigInt_MarshalJSON z) = Ok z.
Proof.
  rw /BigInt_UnmarshalJSON /BigInt_MarshalJSON.
  assert (strings.free (ascii_of_nat 34) (fmt_d z) = true) as Hf.
  { destruct z as [|p|p]; [done|by apply strconv.fmt_d_free|].
    by apply (strconv.fmt_d_free (ascii_of_nat 34) (Z.pos p)). }
  rw /strings.Trim strings.trim_right_free // strings.trim_left_free //.
  by rw big.SetString_fmt_d_any; [|right].
Qed.

Record response := {
  resp_Code : Z;
  resp_Reason : option error;   (** the body of [JSONError] *)
  resp_Body : string;
}.

Definition JSONError (e : error) (code : Z) : response :=
  {| resp_Code := code; resp_Reason := Some e; resp_Body := "" |}.

Definition StatusAccepted : Z := 202.
Definition StatusBadRequest : Z := 400.
Definition StatusNotFound : Z := 404.
Definition StatusInternalServerError : Z := 500.

(** ** signing.go *)
Definition AcrossProtocol : string := "across".
Definition LifiEscrowProtocol : string := "lifi-escrow".
Definition LighterProtocol : string := "lighter".
Definition SprinterCreditProtocol : string := "sprinter-credit".

(** A [*BigInt] that is not nil holds a number. *)
Record SigningBody := {
  sb_ChainId : Z;
  sb_DepositId : string;
  sb_Nonce : option Z;
  sb_Protocol : string;
  sb_LiquidityPool : string;
  sb_Caller : string;
  sb_Calldata : string;
  sb_DepositTxHash : string;
  sb_BorrowAmount : option Z;
  sb_RepaymentChainId : Z;
  sb_Deadline : Z;
  sb_TokenOut : string;
}.

(** A [*BigInt]: [UnmarshalJSON] is given the text of any value but null. *)
#[refine] Definition bigInt_type : gotype (option Z) := {|
  enc z := match z with None => json.Null | Some z => json.Num (BigInt_MarshalJSON z) end;
  decode old v := match v with
                  | json.Null => Ok None
                  | _ => z ← BigInt_UnmarshalJSON (json.print v); Ok (Some z)
                  end;
  wf _ := True;
  typed _ := True;
  level := 0;
|}.
Proof.
  - intros [z|]; [apply dec.number_ok_fmt_d|done].
  - by intros [].
  - by intros [].
  - intros old [z|] _; [|done]. cbn [json.print]. by rw BigInt_roundtrip.
  - done.
Defined.

#[export] Instance SigningBody_json : Json SigningBody := {|
  json_zero := Build_SigningBody 0 "" None "" "" "" "" "" None 0 0 "";
  json_type := go.struct
    [go.field_of "ChainId" (go.uint 64) sb_ChainId;
     go.field_of "depositId" go.string_ sb_DepositId;
     go.field_of "nonce" bigInt_type sb_Nonce;
     go.field_of "protocol" go.string_ sb_Protocol;
     go.field_of "liquidityPool" go.string_ sb_LiquidityPool;
     go.field_of "caller" go.string_ sb_Caller;
     go.field_of "calldata" go.string_ sb_Calldata;
     go.field_of "depositTxHash" go.string_ sb_DepositTxHash;
     go.field_of "borrowAmount" bigInt_type sb_BorrowAmount;
     go.field_of "repaymentChainId" (go.uint 64) sb_RepaymentChainId;
     go.field_of "deadline" (go.uint 64) sb_Deadline;
     go.field_of "tokenOut" go.string_ sb_TokenOut] eq_refl ltac:(all_fields_set) ltac:(all_sets_typed);
  json_level := ltac:(done);
  json_zero_typed := ltac:(zero_typed);
|}.

Definition set_ChainId (chainId : Z) (b : SigningBody) : SigningBody := {|
  sb_ChainId := chainId; sb_DepositId := sb_DepositId b; sb_Nonce := sb_Nonce b;
  sb_Protocol := sb_Protocol b; sb_LiquidityPool := sb_LiquidityPool b; sb_Caller := sb_Caller b;
  sb_Calldata := sb_Calldata b; sb_DepositTxHash := sb_DepositTxHash b;
  sb_BorrowAmount := sb_BorrowAmount b; sb_RepaymentChainId := sb_RepaymentChainId b;
  sb_Deadline := sb_Deadline b; sb_TokenOut := sb_TokenOut b |}.

(** The variable of a route; a missing one is empty. *)
Definition var (vars : gmap string string) (k : string) : string := default "" (vars !! k).

(** The body with its chain ID, or the error. *)
Definition validate (chains : gset Z) (b : SigningBody) (vars : gmap string string)
    : result SigningBody :=
  match big.SetString (var vars "chainId") 10 with
  | None => Err (Errorf "field 'chainId' invalid")
  | Some chainId =>
      let b := set_ChainId (big_Uint64 chainId) b in
      if bool_decide (sb_DepositId b = "") then Err (Errorf "missing field 'depositId'")
      else if bool_decide (sb_LiquidityPool b = "") then Err (Errorf "missing field 'liquidityPool'")
      else if bool_decide (sb_Caller b = "") then Err (Errorf "missing field 'caller'")
      else if bool_decide (sb_Nonce b = None) then Err (Errorf "missing field 'nonce'")
      else if (sb_ChainId b =? 0)%Z then Err (Errorf "missing field 'chainId'")
      else if (sb_Deadline b =? 0)%Z then Err (Errorf "missing field 'deadline'")
      else if negb (bool_decide (sb_ChainId b ∈ chains))
      then Err (Errorf ("chain '" +:+ fmt_d (sb_ChainId b) +:+ "' not supported"))
      else Ok b
  end.

Section api.
Context `{EthCommon}.

(** [b.BorrowAmount.Int] of a nil pointer panics. *)
Definition deref_big (z : option Z) : outcome (option Z) :=
  match z with Some z => Done (Some z) | None => Panic "nil pointer dereference" end.

(** The message of a request, by its protocol. *)
Definition signing_message (b : SigningBody) : outcome (option message) :=
  let pool := HexToAddress (sb_LiquidityPool b) in
  let caller := HexToAddress (sb_Caller b) in
  if bool_decide (sb_Protocol b = AcrossProtocol) then
    nonce ← deref_big (sb_Nonce b);
    borrowAmount ← deref_big (sb_BorrowAmount b);
    Done (Some (NewAcrossMessage 0 (sb_ChainId b) {|
      DepositTxHash := HexToHash (sb_DepositTxHash b); DepositId := big.SetString (sb_DepositId b) 10;
      Nonce := nonce; BorrowAmount := borrowAmount; LiquidityPool := pool;
      RepaymentChainID := sb_RepaymentChainId b; Caller := caller; ad_Coordinator := "";
      Deadline := sb_Deadline b; Source := 0; Destination := sb_ChainId b |}))
  else if bool_decide (sb_Protocol b = LifiEscrowProtocol) then
    nonce ← deref_big (sb_Nonce b);
    borrowAmount ← deref_big (sb_BorrowAmount b);
    Done (Some (NewLifiEscrowMessage 0 (sb_ChainId b) {|
      le_OrderID := sb_DepositId b; le_Coordinator := ""; le_LiquidityPool := pool;
      le_Caller := caller; le_DepositTxHash := sb_DepositTxHash b; le_BorrowAmount := borrowAmount;
      le_Deadline := sb_Deadline b; le_Nonce := nonce; le_Source := 0;
      le_Destination := sb_ChainId b |}))
  else if bool_decide (sb_Protocol b = LighterProtocol) then
    nonce ← deref_big (sb_Nonce b);
    Done (Some (NewLighterMessage 0 (sb_ChainId b) {|
      ld_OrderHash := sb_DepositId b; ld_Coordinator := ""; ld_LiquidityPool := pool;
      ld_DepositTxHash := sb_DepositTxHash b; ld_Calldata := ""; ld_Nonce := nonce;
      ld_Deadline := sb_Deadline b; ld_Source := 0; ld_Destination := sb_ChainId b |}))
  else if bool_decide (sb_Protocol b = SprinterCreditProtocol) then
    nonce ← deref_big (sb_Nonce b);
    borrowAmount ← deref_big (sb_BorrowAmount b);
    Done (Some (NewSprinterCreditMessage 0 (sb_ChainId b) {|
      sc_DepositID := sb_DepositId b; sc_BorrowAmount := borrowAmount; sc_Calldata := sb_Calldata b;
      sc_Deadline := sb_Deadline b; sc_LiquidityPool := pool; sc_Caller := caller; sc_Nonce := nonce;
      sc_Coordinator := ""; sc_Source := 0; sc_Destination := sb_ChainId b;
      sc_TokenOut := sb_TokenOut b |}))
  else Done None.

(** What the handler emits: the messages put on [msgChan]; and the response,
    or [None] if the request waits for ever.  [report] is the first value
    that arrives on the [ErrChn] of the message. *)
Definition HandleSigning (chains : gset Z) (body : result bytes) (vars : gmap string string)
    (report : message → option (option error)) : io message (option response) :=
  match json_Decode (A := SigningBody) body with
  | Err e => mret (Some (JSONError (Wrapf "invalid request body: " e) StatusBadRequest))
  | Ok b =>
      match validate chains b vars with
      | Err e => mret (Some (JSONError (Wrapf "invalid request body: " e) StatusBadRequest))
      | Ok b =>
          m ← lift (signing_message b);
          match m with
          | None => mret (Some (JSONError (Errorf ("invalid protocol " +:+ sb_Protocol b)) StatusBadRequest))
          | Some m =>
              emit m ≫= λ _,
              match report m with
              | None => mret None
              | Some (Some e) => mret (Some (JSONError (Wrapf "signing failed: " e) StatusInternalServerError))
              | Some None => mret (Some {| resp_Code := StatusAccepted; resp_Reason := None; resp_Body := "" |})
              end
          end
      end
  end.

(** ** unlock.go *)
Record UnlockBody := {
  ub_ChainId : Z;
  ub_Protocol : string;
  ub_OrderID : string;
  ub_Settler : string;
}.

#[export] Instance UnlockBody_json : Json UnlockBody := {|
  json_zero := Build_UnlockBody 0 "" "" "";
  json_type := go.struct
    [go.field_of "ChainId" (go.uint 64) ub_ChainId; go.field_of "protocol" go.string_ ub_Protocol;
     go.field_of "orderId" go.string_ ub_OrderID; go.field_of "settler" go.string_ ub_Settler]
    eq_refl ltac:(all_fields_set) ltac:(all_sets_typed);
  json_level := ltac:(done);
  json_zero_typed := ltac:(zero_typed);
|}.

Record UnlockResponse := { ur_Signature : string; ur_ID : string }.

#[export] Instance UnlockResponse_json : Json UnlockResponse := {|
  json_zero := {| ur_Signature := ""; ur_ID := "" |};
  json_type := go.struct [go.field_of "signature" go.string_ ur_Signature;
                          go.field_of "id" go.string_ ur_ID] eq_refl ltac:(all_fields_set) ltac:(all_sets_typed);
  json_level := ltac:(done);
  json_zero_typed := ltac:(zero_typed);
|}.

Definition validate_unlock (chains : gset Z) (b : UnlockBody) (vars : gmap string string)
    : result UnlockBody :=
  match big.SetString (var vars "chainId") 10 with
  | None => Err (Errorf "field 'chainId' invalid")
  | Some chainId =>
      let b := {| ub_ChainId := big_Uint64 chainId; ub_Protocol := ub_Protocol b;
                  ub_OrderID := ub_OrderID b; ub_Settler := ub_Settler b |} in
      if (ub_ChainId b =? 0)%Z then Err (Errorf "missing field 'chainId'")
      else if negb (bool_decide (ub_ChainId b ∈ chains))
      then Err (Errorf ("chain '" +:+ fmt_d (ub_ChainId b) +:+ "' not supported"))
      else Ok b
  end.

(** What arrives on [SigChn] within fifteen seconds. *)
Inductive unlock_answer :=
  | Timeout
  | NotASignature
  | ASignature (sig : EcdsaSignature).

Definition HandleUnlockRequest (chains : gset Z) (body : result bytes) (vars : gmap string string)
    (answer : message → unlock_answer) : io message response :=
  match json_Decode (A := UnlockBody) body with
  | Err e => mret (JSONError (Wrapf "invalid request body: " e) StatusBadRequest)
  | Ok b =>
      match validate_unlock chains b vars with
      | Err e => mret (JSONError (Wrapf "invalid request body: " e) StatusBadRequest)
      | Ok b =>
          if negb (bool_decide (ub_Protocol b = LifiEscrowProtocol))
          then mret (JSONError (Errorf ("invalid protocol " +:+ ub_Protocol b)) StatusBadRequest)
          else
            let m := NewLifiUnlockMessage 0 (ub_ChainId b) {|
              lu_OrderID := ub_OrderID b; lu_Settler := HexToAddress (ub_Settler b);
              lu_Coordinator := ""; lu_Source := 0; lu_Destination := ub_ChainId b |} in
            emit m ≫= λ _,
            match answer m with
            | Timeout => mret (JSONError (Errorf "timeout") StatusInternalServerError)
            | NotASignature => mret (JSONError (Errorf "invalid signature") StatusInternalServerError)
            | ASignature sig =>
                mret {| resp_Code := 200; resp_Reason := None;
                        resp_Body := string_of (json_Marshal {|
                          ur_Signature := hex.EncodeToString (es_Signature sig);
                          ur_ID := es_ID sig |}) |}
            end
      end
  end.
End api.

(** ** StatusHandler *)
Definition newline_str : string := String (ascii_of_nat 10) "".

(** [subscribe] is [SignatureCache.Subscribe] for as long as the client
    stays; without a signature only the headers are written. *)
Definition HandleStatus (chains : gset Z) (vars : gmap string string)
    (subscribe : string → outcome (option bytes)) : outcome response :=
  match big.SetString (var vars "chainId") 0 with
  | None => Done (JSONError (Errorf "chain id invalid") StatusBadRequest)
  | Some chainId =>
      if negb (bool_decide (big_Uint64 chainId ∈ chains))
      then Done (JSONError (Errorf ("chain " +:+ fmt_d (i64 chainId) +:+ " not supported")) StatusNotFound)
      else
        match vars !! "depositId" with
        | None => Done (JSONError (Errorf "missing 'depositId") StatusBadRequest)
        | Some depositId =>
            sig ← subscribe (fmt_d chainId +:+ "-" +:+ depositId);
            Done {| resp_Code := 200; resp_Reason := None;
                    resp_Body := match sig with
                                 | Some sig => "data: " +:+ hex.EncodeToString sig +:+ newline_str +:+ newline_str
                                 | None => ""
                                 end |}
        end
  end.

(** ** confirmations.go *)

(** [json.Marshal] of a map with integer keys: the keys as texts, in their
    order as texts. *)
Definition confirmations_to_json (m : gmap Z Z) : json.value :=
  json.Obj ((λ kv, (kv.1, json.Num kv.2)) <$>
    merge_sort (λ a b, String.le a.1 b.1) ((λ kv, (fmt_d kv.1, fmt_d kv.2)) <$> map_to_list m)).

Definition HandleConfirmations (confirmationsByChain : gmap Z (gmap Z Z)) (vars : gmap string string) : response :=
  match big.SetString (var vars "chainId") 10 with
  | None => JSONError (Errorf "invalid chainId") StatusBadRequest
  | Some chainId =>
      match confirmationsByChain !! big_Uint64 chainId with
      | None => JSONError (Errorf ("no confirmations for chainID: " +:+ fmt_d (big_Uint64 chainId))) StatusNotFound
      | Some confirmations => {| resp_Code := 200; resp_Reason := None; resp_Body := json.print (confirmations_to_json confirmations) |}
      end
  end.

(** ** Properties *)
(** A request that passes [validate]. *)
Record valid_request (chains : gset Z) (b : SigningBody) (vars : gmap string string) (b' : SigningBody)
    : Prop := {
  vr_chain : ∃ chainId, big.SetString (var vars "chainId") 10 = Some chainId ∧
               b' = set_ChainId (big_Uint64 chainId) b;
  vr_supported : sb_ChainId b' ∈ chains;
  vr_chain_nonzero : sb_ChainId b' ≠ 0%Z;
  vr_nonce : is_Some (sb_Nonce b);
  vr_deadline : sb_Deadline b ≠ 0%Z;
  vr_texts : sb_DepositId b ≠ "" ∧ sb_LiquidityPool b ≠ "" ∧ sb_Caller b ≠ "";
}.

Lemma validate_ok chains b vars b' : validate chains b vars = Ok b' ↔ valid_request chains b vars b'.
Proof.
  rw /validate. split.
  - destruct (big.SetString _ _) as [chainId|] eqn:Ec; [|done].
    repeat case_bool_decide; try done; destruct (Z.eqb_spec (sb_ChainId (set_ChainId (big_Uint64 chainId) b)) 0);
      try done; destruct (Z.eqb_spec (sb_Deadline (set_ChainId (big_Uint64 chainId) b)) 0); try done.
    intros [= <-]. split; [by exists chainId|done|done| |done|done].
    by apply not_eq_None_Some.
  - intros [(chainId & -> & ->) Hs Hc [n Hn] Hd (Hdep & Hp & Hca)].
    simpl in Hs, Hc. simpl. rw (bool_decide_false _ Hdep) (bool_decide_false _ Hp) (bool_decide_false _ Hca).
    rw (bool_decide_false (sb_Nonce b = None)); [|by rw Hn].
    rw (proj2 (Z.eqb_neq _ _) Hc) (proj2 (Z.eqb_neq _ _) Hd). by rw (bool_decide_true _ Hs).
Qed.

(** A request is accepted exactly if it is valid, has a message and its
    handler reports nil. *)
Lemma HandleSigning_accepted `{EthCommon} chains body vars report resp :
  returned (HandleSigning chains body vars report) = Done (Some resp) →
  resp_Code resp = StatusAccepted →
  ∃ b b' m, json_Decode body = Ok b ∧
    valid_request chains b vars b' ∧ signing_message b' = Done (Some m) ∧
    events (HandleSigning chains body vars report) = [m] ∧ report m = Some None.
Proof.
  rw /HandleSigning. destruct (json_Decode body) as [b|e]; [|by intros [= <-]].
  destruct (validate chains b vars) as [b'|e] eqn:Ev; [|by intros [= <-]].
  apply validate_ok in Ev. rw /mbind /io_bind.
  destruct (signing_message b') as [[m|]|p] eqn:Em; simpl; [|by intros [= <-]|done].
  destruct (report m) as [[e|]|] eqn:Er; simpl; [by intros [= <-]| |done].
  intros _ _. by exists b, b', m.
Qed.

(** The message of an Across request. *)
Lemma signing_message_across `{EthCommon} b m :
  sb_Protocol b = AcrossProtocol → signing_message b = Done (Some m) →
  msg_Destination m = sb_ChainId b ∧ msg_Type m = MessageType_String AcrossMsg ∧
  ∃ d amount, msg_Data m = MAcross d ∧ sb_BorrowAmount b = Some amount ∧ BorrowAmount d = Some amount ∧
    DepositTxHash d = HexToHash (sb_DepositTxHash b) ∧ DepositId d = big.SetString (sb_DepositId b) 10 ∧
    RepaymentChainID d = sb_RepaymentChainId b.
Proof.
  intros Hp. rw /signing_message bool_decide_true //.
  destruct (sb_Nonce b); [|done]. destruct (sb_BorrowAmount b) as [amount|]; [|done].
  intros [= <-]. split_and!; [done..|]. by eexists _, amount.
Qed.

(** ** Messages are well typed *)
Section well_typed.
Context `{PeerLib, EthCommon, EthJson}.

(** The data of a message as the relayer [host] broadcasts it is of its Go
    type, so that its peers decode what was sent. *)
Definition sendable (host : PeerID) (data : message_data) : Prop :=
  match data with
  | MAcross d => json_wf (with_coordinator host d)
  | MLifiEscrow d => json_wf (with_coordinator host d)
  | MLighter d => json_wf (with_coordinator host d)
  | MSprinterCredit d => json_wf (with_coordinator host d)
  | MLifiUnlock d => json_wf (with_coordinator host d)
  end.

Abbreviation uint64_ok z := (0 ≤ z < 2 ^ 64)%Z.

Definition well_typed (host : PeerID) (m : message) : Prop :=
  uint64_ok (msg_Destination m) ∧ sendable host (msg_Data m).

(** The fields of the request a message is made of. *)
Record body_typed (b : SigningBody) : Prop := {
  bt_ChainId : uint64_ok (sb_ChainId b);
  bt_DepositId : utf8.Valid (sb_DepositId b) = true;
  bt_Calldata : utf8.Valid (sb_Calldata b) = true;
  bt_DepositTxHash : utf8.Valid (sb_DepositTxHash b) = true;
  bt_RepaymentChainId : uint64_ok (sb_RepaymentChainId b);
  bt_Deadline : uint64_ok (sb_Deadline b);
  bt_TokenOut : utf8.Valid (sb_TokenOut b) = true;
}.

Lemma decoded_body_typed body b : json_Decode (A := SigningBody) body = Ok b → body_typed b.
Proof.
  intros Hb%json_Decode_typed. revert Hb. simpl. rw /go.fields_typed.
  repeat setoid_rewrite List.Forall_cons_iff. simpl. intros Hb. destruct_and! Hb. by split.
Qed.

Lemma validated_body_typed chains b vars b' :
  body_typed b → valid_request chains b vars b' → body_typed b'.
Proof. intros [] [(chainId & _ & ->) _ _ _ _ _]. split; try done. apply u64_bounds. Qed.

Lemma validate_unlock_typed chains body b vars b' :
  json_Decode (A := UnlockBody) body = Ok b → validate_unlock chains b vars = Ok b' →
  uint64_ok (ub_ChainId b') ∧ utf8.Valid (ub_OrderID b') = true.
Proof.
  intros Hb%json_Decode_typed. revert Hb. simpl. rw /go.fields_typed.
  repeat setoid_rewrite List.Forall_cons_iff. simpl. intros (_ & _ & Ho & _).
  rw /validate_unlock. repeat case_match; try done. intros [= <-]. split; [apply u64_bounds|done].
Qed.

Ltac all_fields_wf :=
  simpl; repeat (apply List.Forall_cons; [simpl;
    first [done | by apply address_wf, HexToAddress_length | by apply hash_wf, HexToHash_length | lia]|]);
  apply List.Forall_nil.

Lemma signing_message_typed host b m :
  peer_valid host → body_typed b → signing_message b = Done (Some m) → well_typed host m.
Proof.
  intros Hhost [] . rw /signing_message. repeat case_bool_decide; try done;
    (destruct (sb_Nonce b); [|done]); try (destruct (sb_BorrowAmount b); [|done]);
    intros [= <-]; (split; [done|]); all_fields_wf.
Qed.

(** C24: what the HTTP API sends is well typed: whatever body a client posts to
    either route, for whatever chain and protocol, the message that is handed
    to the relayer has a chain ID of 64 bits, texts of valid UTF-8, numbers
    of 64 bits and addresses and hashes of their lengths, so the request that
    the relayer broadcasts for it, with itself as the coordinator, is decoded
    by its peers as it was sent. *)
Theorem api_messages_typed (host : PeerID) (chains : gset Z) (body : result bytes)
    (vars : gmap string string) (report : message → option (option error))
    (answer : message → unlock_answer) (m : message) :
  peer_valid host →
  m ∈ events (HandleSigning chains body vars report) ++ events (HandleUnlockRequest chains body vars answer) →
  well_typed host m.
Proof.
  intros Hhost [Hm|Hm]%elem_of_app.
  - revert Hm. rw /HandleSigning. destruct (json_Decode body) as [b|e] eqn:Eb; [|by intros ?%not_elem_of_nil].
    destruct (validate chains b vars) as [b'|e] eqn:Ev; [|by intros ?%not_elem_of_nil].
    apply validate_ok in Ev. apply decoded_body_typed in Eb.
    rw /mbind /io_bind. destruct (signing_message b') as [[m'|]|p] eqn:Em; simpl; [|by intros ?%not_elem_of_nil..].
    intros Hm. assert (m = m') as ->.
    { by destruct (report m') as [[]|]; apply list_elem_of_singleton in Hm. }
    apply (signing_message_typed host b'); [done| |done]. by eapply validated_body_typed.
  - revert Hm. rw /HandleUnlockRequest. destruct (json_Decode body) as [b|e] eqn:Eb; [|by intros ?%not_elem_of_nil].
    destruct (validate_unlock chains b vars) as [b'|e] eqn:Ev; [|by intros ?%not_elem_of_nil].
    destruct (validate_unlock_typed chains body b vars b' Eb Ev) as [Hc Ho].
    destruct (bool_decide (ub_Protocol b' = LifiEscrowProtocol)); [|by intros ?%not_elem_of_nil]. simpl.
    intros Hm. assert (m = NewLifiUnlockMessage 0 (ub_ChainId b') {|
      lu_OrderID := ub_OrderID b'; lu_Settler := HexToAddress (ub_Settler b');
      lu_Coordinator := ""; lu_Source := 0; lu_Destination := ub_ChainId b' |}) as ->.
    { by destruct (answer _); apply list_elem_of_singleton in Hm. }
    split; [done|]. by all_fields_wf.
Qed.
End well_typed.

Section end_to_end.
Context {SaveData : Type}.
Context `{PeerLib, EthCommon, Keccak, MapRange, Apitypes, SpokePoolABI, DepositFetcher,
          ConfirmationWatcher, EthJson, TtlCache}.
Context (h : AcrossMessageHandler) (r : relayer SaveData).

(** The first report of the Across handler to the request. *)
Definition across_report (m : message) : option (option error) :=
  match msg_Data m with
  | MAcross d => head (reports (events (Across.HandleMessage h r d)))
  | _ => None
  end.

(** When an Across request is accepted (202), the deposit of the
    transaction and ID it names was found, the borrow is no more than what was
    deposited, the repayment chain is known and the deposit had its
    confirmations; the request was complete and exactly one message was sent. *)
Theorem accepted_request_is_covered (chains : gset Z) (body : result bytes) (b : SigningBody)
    (vars : gmap string string) (resp : response) :
  json_Decode body = Ok b → sb_Protocol b = AcrossProtocol →
  returned (HandleSigning chains body vars across_report) = Done (Some resp) →
  resp_Code resp = StatusAccepted →
  ∃ b' m amount d, valid_request chains b vars b' ∧
    events (HandleSigning chains body vars across_report) = [m] ∧
    msg_Destination m = sb_ChainId b' ∧ sb_BorrowAmount b = Some amount ∧
    fill_checked h (HexToHash (sb_DepositTxHash b)) (big.SetString (sb_DepositId b) 10)
      (sb_RepaymentChainId b) amount d.
Proof.
  intros Hb Hproto Hr Hc.
  destruct (HandleSigning_accepted _ _ _ _ _ Hr Hc) as (b0 & b' & m & Hb0 & Hv & Hm & Hev & Hrep).
  rw Hb in Hb0. injection Hb0 as <-.
  destruct (Hv) as [(chainId & _ & Hb') _ _ _ _ _].
  assert (sb_Protocol b' = AcrossProtocol) as Hp by by rw Hb'.
  destruct (signing_message_across b' m Hp Hm) as (Hd & _ & data & amount & Hdata & Hba & Ha & E1 & E2 & E3).
  rw /across_report Hdata in Hrep. apply head_Some_elem_of, across_nil_checked in Hrep as (amount' & d & Ha' & Hchk).
  rw Ha in Ha'. injection Ha' as <-. rw E1 E2 E3 in Hchk.
  exists b', m, amount, d. split_and!; [done|exact Hev|done|by rw Hb' in Hba|by rw Hb' in Hchk].
Qed.

(** The status of a deposit streams its signature: if both texts of the
    route are written in decimal as numbers are printed, the client that asks
    for the status of a deposit is sent the signature of the fill that the
    Across handler of that chain had signed for it, once it is stored. *)
Lemma status_streams_fill (chains : gset Z) (vars : gmap string string) (data : AcrossData)
    (deposit : Z) (m : Z) (sid : string) (c : PeerID)
    (now t t' : Z) (pre mid post : list (Z * cache_step)) (ev : watch_event) (sig : bytes) :
  (0 < ah_chainID h < 2 ^ 64)%Z → ah_chainID h ∈ chains → (0 ≤ deposit)%Z →
  vars !! "chainId" = Some (fmt_d (ah_chainID h)) → vars !! "depositId" = Some (fmt_d deposit) →
  DepositId data = Some deposit → signs m sid c (events (Across.HandleMessage h r data)) →
  stores ev = Some (sid, sig) →
  Forall (quiet sid) pre → Forall (λ s, quiet sid s ∧ s.2 ≠ Ping) mid → (t' ≤ t + SIGNATURE_TTL)%Z →
  HandleStatus chains vars (λ id, Subscribe now id
      (pre ++ (t, Stored ev) :: mid ++ (t', Ping) :: post) NewSignatureCache) =
  Done {| resp_Code := 200; resp_Reason := None;
          resp_Body := "data: " +:+ hex.EncodeToString sig +:+ newline_str +:+ newline_str |}.
Proof.
  intros Hchain Hsup Hdep Hvc Hvd Hid Hs Hev Hpre Hmid Ht.
  apply across_session_id in Hs. rw Hid /= in Hs.
  rw /HandleStatus /var Hvc. simpl default. rw big.SetString_fmt_d_base0; [|lia].
  rw big_Uint64_id; [|lia]. rewrite bool_decide_true // Hvd -Hs.
  by rw (Subscribe_sends sid now pre t ev sig mid t' post).
Qed.
End end_to_end.

(** A chain ID with a leading zero means different chains to the two routes. *)
Lemma leading_zero_chain :
  big.SetString "010" 10 = Some 10%Z ∧ big.SetString "010" 0 = Some 8%Z.
Proof. split; reflexivity. Qed.

(** Without a borrow amount the request panics instead of being rejected. *)
Theorem missing_borrow_amount_panics `{EthCommon} (chains : gset Z) (body : result bytes)
    (b b' : SigningBody) (vars : gmap string string) report :
  json_Decode body = Ok b → valid_request chains b vars b' → sb_BorrowAmount b = None →
  sb_Protocol b ∈ [AcrossProtocol; LifiEscrowProtocol; SprinterCreditProtocol] →
  returned (HandleSigning chains body vars report) = Panic "nil pointer dereference".
Proof.
  intros Hb Hv Hnone Hp. rw /HandleSigning Hb (proj2 (validate_ok _ _ _ _) Hv).
  destruct Hv as [(chainId & _ & ->) _ _ [nonce Hnonce] _ _].
  rw /signing_message /= Hnone Hnonce. elem_cases Hp; by rw Hp.
Qed.

Section witnesses.
Import Toy ToyJson.
#[local] Existing Instance Across.demo_abi.
#[local] Existing Instance Across.demo_deposits.
#[local] Existing Instance Across.demo_confirmations.

Definition demo_body : SigningBody := {|
  sb_ChainId := 0; sb_DepositId := "77"; sb_Nonce := Some 1%Z; sb_Protocol := "across";
  sb_LiquidityPool := "pool"; sb_Caller := "caller"; sb_Calldata := ""; sb_DepositTxHash := "ab";
  sb_BorrowAmount := Some 5000000%Z; sb_RepaymentChainId := 10; sb_Deadline := 9; sb_TokenOut := "" |}.
Definition demo_vars : gmap string string := {["chainId" := "1"; "depositId" := "77"]}.

Lemma accepted_request_is_covered_witness :
  ∃ resp, returned (HandleSigning {[1%Z]} (Ok (json_Marshal demo_body)) demo_vars
      (across_report Across.demo_handler Across.demo_relayer)) = Done (Some resp) ∧
    ∃ amount, sb_BorrowAmount demo_body = Some amount ∧ amount = 5000000%Z.
Proof.
  eexists. split; [vm_compute; reflexivity|].
  destruct (accepted_request_is_covered Across.demo_handler Across.demo_relayer {[1%Z]}
    (Ok (json_Marshal demo_body)) demo_body demo_vars
    {| resp_Code := 202; resp_Reason := None; resp_Body := "" |}) as (b' & m & amount & d & _ & _ & _ & Ha & _);
    [vm_compute; reflexivity|reflexivity|vm_compute; reflexivity|reflexivity|].
  exists amount. split; [exact Ha|]. by injection Ha.
Defined.

Lemma api_messages_typed_witness :
  match events (HandleSigning {[1%Z]} (Ok (json_Marshal demo_body)) demo_vars (λ _, None)) with
  | m :: _ => well_typed "12D3a" m
  | [] => False
  end.
Proof.
  destruct (events (HandleSigning {[1%Z]} (Ok (json_Marshal demo_body)) demo_vars (λ _, None))) as [|m l] eqn:E.
  { by vm_compute in E. }
  apply (api_messages_typed "12D3a" {[1%Z]} (Ok (json_Marshal demo_body)) demo_vars (λ _, None) (λ _, Timeout)).
  { by split. }
  rw E. apply elem_of_app. left. apply list_elem_of_here.
Defined.

Definition demo_steps : list (Z * cache_step) :=
  [] ++ (5%Z, Stored (OnResult (Some {| es_Signature := [Byte.xab]; es_ID := "1-77" |}))) ::
  [] ++ (50%Z, Ping) :: [].

End witnesses.
