(* ===== verification/Server.v ===== *)
(** * The server (src/api/server.go, src/health/health.go)

    The routes of the API and what a request is answered with: the handlers
    of [Api] with the variables that the router found in the path.  The
    router is gorilla/mux. *)
From Stdlib Require Import Ascii.
From S2P Require Import Prelude GoStd Encoding Json Libs JsonCodec Comm Tokens Confirmations Eip712 Keyshare TssCommon Signing Handlers.
From S2P Require Import Across Cache Api.

(** ** Path templates

    A variable matches a text of the class of characters, not empty;
    [{depositId}] is short for a text without a slash. *)
Inductive piece :=
  | Lit (text : string)
  | Var (name : string) (class : ascii → bool).

Definition digit (c : ascii) : bool :=
  let n := Z.of_N (N_of_ascii c) in ((48 <=? n) && (n <=? 57))%Z.
Definition no_slash (c : ascii) : bool := bool_decide (c ≠ "/"%char).

Fixpoint all_of (class : ascii → bool) (s : string) : bool :=
  match s with EmptyString => true | String c s' => class c && all_of class s' end.

Inductive matches : list piece → string → gmap string string → Prop :=
  | matches_nil : matches [] "" ∅
  | matches_lit t ps s vars : matches ps s vars → matches (Lit t :: ps) (t +:+ s) vars
  | matches_var n class ps v s vars :
      v ≠ "" → all_of class v = true → matches ps s vars →
      matches (Var n class :: ps) (v +:+ s) (<[n := v]> vars).

(** github.com/gorilla/mux: a request that is dispatched matches the path and
    the method of its route. *)
Class Mux := {
  dispatch {E} : list (list piece * string * E) → string → string → option (E * gmap string string);
  dispatch_matches {E} (routes : list (list piece * string * E)) method path e vars :
    dispatch routes method path = Some (e, vars) →
    ∃ template, (template, method, e) ∈ routes ∧ matches template path vars;
}.

(** ** Serve *)
Inductive endpoint := Unlocks | Signatures | Status | Confirmations | Health.

Definition chain_routes (rest : list piece) : list piece := Lit "/v1/chains/" :: Var "chainId" digit :: rest.

Definition routes : list (list piece * string * endpoint) :=
  [(chain_routes [Lit "/unlocks"], "POST", Unlocks);
   (chain_routes [Lit "/signatures"], "POST", Signatures);
   (chain_routes [Lit "/signatures/"; Var "depositId" no_slash], "GET", Status);
   (chain_routes [Lit "/confirmations"], "GET", Confirmations);
   ([Lit "/health"], "GET", Health)].

Definition HealthHandler : response := {| resp_Code := 200; resp_Reason := None; resp_Body := "ok" |}.

Section server.
Context `{EthCommon, Mux}.

(** What the handlers are built with and what their messages are answered. *)
Record server_env := {
  se_chains : gset Z;
  se_confirmations : gmap Z (gmap Z Z);
  se_report : message → option (option error);
  se_unlock : message → unlock_answer;
  se_subscribe : string → outcome (option bytes);
}.

(** The messages that a request puts on the channel and the response; [None]
    if it waits for ever, or if the router answers it. *)
Definition serve (env : server_env) (method path : string) (body : result bytes)
    : io message (option response) :=
  match dispatch routes method path with
  | None => mret None
  | Some (Unlocks, vars) => HandleUnlockRequest (se_chains env) body vars (se_unlock env) ≫= λ resp, mret (Some resp)
  | Some (Signatures, vars) => HandleSigning (se_chains env) body vars (se_report env)
  | Some (Status, vars) => lift (HandleStatus (se_chains env) vars (se_subscribe env)) ≫= λ resp, mret (Some resp)
  | Some (Confirmations, vars) => mret (Some (HandleConfirmations (se_confirmations env) vars))
  | Some (Health, _) => mret (Some HealthHandler)
  end.

(** ** What reaches the handlers *)
Lemma all_of_digits s : all_of digit s = strconv.all_digits s.
Proof. induction s as [|c s IH]; [done|]. by rw /= IH. Qed.

Lemma matches_chain rest path vars :
  matches (chain_routes rest) path vars →
  ∃ text tail vars', path = "/v1/chains/" +:+ text +:+ tail ∧ text ≠ "" ∧ strconv.all_digits text = true ∧
    matches rest tail vars' ∧ vars = <["chainId" := text]> vars'.
Proof.
  rw /chain_routes. inversion 1 as [|? ? ? ? Hm|]; subst. inversion Hm; subst.
  eexists _, _, _. split_and!; [done|done|by rw -all_of_digits|done|done].
Qed.

Lemma fmt_d_all_digits z : (0 ≤ z)%Z → strconv.all_digits (fmt_d z) = true.
Proof.
  intros Hz. destruct z as [|p|p]; [done| |lia]. by rw strconv.fmt_d_pos strconv.pretty_N_go_all_digits.
Qed.

(** The text of a chain ID is a number in base 10. *)
Lemma SetString_all_digits text :
  text ≠ "" → strconv.all_digits text = true → ∃ n, big.SetString text 10 = Some n ∧ (0 ≤ n)%Z.
Proof.
  intros Hne Hd. assert (∀ s acc, strconv.all_digits s = true → (0 ≤ acc)%Z →
    ∃ n, strconv.digits 10 false acc s = Some n) as Hdig.
  { clear. induction s as [|c s IH]; intros acc Hs Ha; [by exists acc|]. simpl in Hs.
    apply andb_true_iff in Hs as [[H1%Z.leb_le H2%Z.leb_le]%andb_true_iff Hs]. simpl.
    rw /strconv.digit_val (proj2 (Z.leb_le _ _) H1) (proj2 (Z.leb_le _ _) H2) /=.
    rw (proj2 (Z.ltb_lt _ _)); [|lia]. apply IH; [done|lia]. }
  destruct (Hdig text 0%Z Hd) as [n Hn]; [done|]. exists n.
  split; [|by eapply strconv.digits_nonneg, Hn].
  destruct text as [|c s]; [done|]. rw /big.SetString.
  assert (strconv.is_sign c = false) as ->.
  { simpl in Hd. apply andb_true_iff in Hd as [Hc _]. by apply orb_false_iff; split; apply bool_decide_eq_false; intros ->. }
  rw /big.scan_magnitude [(10 =? 0)%Z]/= (big.scan_digits _ _ _ _ _ _ Hn) //.
Qed.

(** The route of a request that is dispatched. *)
Lemma dispatched method path e vars :
  dispatch routes method path = Some (e, vars) → e ≠ Health →
  ∃ text n, vars !! "chainId" = Some text ∧ big.SetString text 10 = Some n ∧ (0 ≤ n)%Z ∧
    (e = Status → is_Some (vars !! "depositId")).
Proof.
  intros (t & Hin & Hm)%dispatch_matches Hne.
  assert (∀ rest, t = chain_routes rest → ∃ text n vars', vars = <["chainId" := text]> vars' ∧
    big.SetString text 10 = Some n ∧ (0 ≤ n)%Z ∧ ∃ tail, matches rest tail vars') as Hchain.
  { intros rest ->. apply matches_chain in Hm as (text & tail & vars' & _ & Ht & Hd & Hm & ->).
    destruct (SetString_all_digits text Ht Hd) as (n & ? & ?). exists text, n, vars'. split_and!; [done..|by exists tail]. }
  repeat (apply elem_of_cons in Hin as [Hin|Hin]; [injection Hin as Ht Hmeth He|]); try by apply not_elem_of_nil in Hin.
  all: try (by subst e); destruct (Hchain _ Ht) as (text & n & vars' & -> & Hs & Hn & tail & Hm').
  all: subst e; exists text, n; rw lookup_insert_eq; split_and!; try done.
  intros _. rw lookup_insert_ne //. inversion Hm' as [|? ? ? ? Hm2|]; subst. inversion Hm2; subst.
  rw lookup_insert_eq. by eexists.
Qed.

(** A text of digits before a slash is read off in one way. *)
Lemma split_at_slash v1 v2 s1 s2 :
  strconv.all_digits v1 = true → strconv.all_digits v2 = true →
  v1 +:+ String "/" s1 = v2 +:+ String "/" s2 → v1 = v2 ∧ s1 = s2.
Proof.
  revert v2. induction v1 as [|c v1 IH]; intros [|c2 v2] H1 H2; simpl; intros Heq; injection Heq.
  - by intros ->.
  - intros _ <-. done.
  - intros _ ->. done.
  - intros Heq' <-. simpl in H1, H2. apply andb_true_iff in H1 as [_ H1], H2 as [_ H2].
    by destruct (IH v2 H1 H2 Heq') as [-> ->].
Qed.

(** What a request for the status of a deposit is dispatched to. *)
Lemma dispatched_status text deposit e vars :
  text ≠ "" → strconv.all_digits text = true → 
  dispatch routes "GET" ("/v1/chains/" +:+ text +:+ "/signatures/" +:+ deposit) = Some (e, vars) →
  e = Status ∧ vars !! "chainId" = Some text ∧ vars !! "depositId" = Some deposit.
Proof.
  intros Hne Hd (t & Hin & Hm)%dispatch_matches.
  repeat (apply elem_of_cons in Hin as [Hin|Hin]; [apply pair_equal_spec in Hin as [[Ht Hmeth]%pair_equal_spec He]|]);
    try by apply not_elem_of_nil in Hin.
  all: try (by discriminate Hmeth).
  all: subst e t; try apply matches_chain in Hm as (text' & tail & vars' & Heq & Ht & Hd' & Hm & ->).
  - inversion Hm as [|? ? ? ? Hm2|]; subst. inversion Hm2 as [| |? ? ? ? ? ? _ _ Hm3]; subst. inversion Hm3; subst.
    injection Heq as Heq. apply split_at_slash in Heq as [<- Heq]; [|done..].
    injection Heq as Heq. rw strings.append_nil_r in Heq. subst.
    by rw lookup_insert_eq lookup_insert_ne // lookup_insert_eq.
  - inversion Hm as [|? ? ? ? Hm2|]; subst. injection Heq as Heq.
    apply split_at_slash in Heq as [_ Heq]; [|done..]. discriminate Heq.
  - by inversion Hm.
Qed.
End server.

Section end_to_end.
Context {SaveData : Type}.
Context `{PeerLib, EthCommon, Keccak, MapRange, Apitypes, SpokePoolABI, DepositFetcher,
          ConfirmationWatcher, EthJson, TtlCache, Mux}.
Context (h : AcrossMessageHandler) (r : relayer SaveData).

(** C20: the status of a deposit streams its signature.  A client that asks
    for /v1/chains/{chain}/signatures/{deposit}, both written in decimal as
    numbers are printed, is sent the signature of the fill that the Across
    handler of that chain had signed for the deposit, once it is stored, if
    the router dispatches the request at all: there is no other route it
    could take, and no other reading of the path. *)
Theorem status_request_streams (env : server_env) (body : result bytes) (data : AcrossData)
    (deposit m : Z) (sid : string) (c : PeerID)
    (now t t' : Z) (pre mid post : list (Z * cache_step)) (ev : watch_event) (sig : bytes) :
  let path := "/v1/chains/" +:+ fmt_d (ah_chainID h) +:+ "/signatures/" +:+ fmt_d deposit in
  is_Some (dispatch routes "GET" path) →
  (0 < ah_chainID h < 2 ^ 64)%Z → ah_chainID h ∈ se_chains env → (0 ≤ deposit)%Z →
  DepositId data = Some deposit → signs m sid c (events (Across.HandleMessage h r data)) →
  stores ev = Some (sid, sig) →
  Forall (quiet sid) pre → Forall (λ s, quiet sid s ∧ s.2 ≠ Ping) mid → (t' ≤ t + SIGNATURE_TTL)%Z →
  se_subscribe env = (λ id, Subscribe now id
    (pre ++ (t, Stored ev) :: mid ++ (t', Ping) :: post) NewSignatureCache) →
  serve env "GET" path body =
    ([], Done (Some {| resp_Code := 200; resp_Reason := None;
                       resp_Body := "data: " +:+ hex.EncodeToString sig +:+ newline_str +:+ newline_str |})).
Proof.
  intros path [[e vars] Hdisp] Hc Hin Hdep Hid Hs Hst Hpre Hmid Ht Hsub.
  pose proof (strconv.fmt_d_nonempty (ah_chainID h)) as Hne.
  destruct (dispatched_status _ _ _ _ Hne (fmt_d_all_digits _ (Z.lt_le_incl _ _ (proj1 Hc))) Hdisp)
    as (-> & Hvc & Hvd).
  rw /serve Hdisp Hsub.
  by rw (status_streams_fill h r (se_chains env) vars data deposit m sid c now t t' pre mid post ev sig).
Qed.
End end_to_end.

Section witnesses.
Import Toy ToyJson.
#[local] Existing Instance Across.demo_abi.
#[local] Existing Instance Across.demo_deposits.
#[local] Existing Instance Across.demo_confirmations.

(** A router that takes the first route whose template matches. *)
Fixpoint strip (t s : string) : option string :=
  match t, s with
  | EmptyString, _ => Some s
  | String c t', String d s' => if bool_decide (c = d) then strip t' s' else None
  | _, _ => None
  end.

Fixpoint span (class : ascii → bool) (s : string) : string * string :=
  match s with
  | EmptyString => ("", "")
  | String c s' => if class c then let '(v, rest) := span class s' in (String c v, rest) else ("", s)
  end.

Fixpoint match_template (ps : list piece) (s : string) : option (gmap string string) :=
  match ps with
  | [] => if bool_decide (s = "") then Some ∅ else None
  | Lit t :: ps' => rest ← strip t s; match_template ps' rest
  | Var n class :: ps' =>
      let '(v, rest) := span class s in
      if bool_decide (v = "") then None
      else vars ← match_template ps' rest; Some (<[n := v]> vars)
  end.

Lemma strip_spec t s rest : strip t s = Some rest → s = t +:+ rest.
Proof.
  revert s. induction t as [|c t IH]; intros s; simpl; [by intros [= ->]|].
  destruct s as [|d s]; [done|]. case_bool_decide; [subst|done]. intros Hs. by rewrite (IH s Hs).
Qed.

Lemma span_spec class s : let '(v, rest) := span class s in s = v +:+ rest ∧ all_of class v = true.
Proof.
  induction s as [|c s IH]; [done|]. simpl. destruct (class c) eqn:Ec; [|done].
  destruct (span class s) as [v rest]. destruct IH as [-> Hv]. by rw /= Ec Hv.
Qed.

Lemma match_template_matches ps s vars : match_template ps s = Some vars → matches ps s vars.
Proof.
  revert s vars. induction ps as [|[t|n class] ps IH]; intros s vars; simpl.
  - case_bool_decide; [|done]. intros [= <-]. subst. constructor.
  - destruct (strip t s) as [rest|] eqn:Es; [|done]. apply strip_spec in Es as ->. intros Hm. by constructor; apply IH.
  - pose proof (span_spec class s) as Hs. destruct (span class s) as [v rest]. destruct Hs as [-> Hv].
    case_bool_decide; [done|]. destruct (match_template ps rest) as [vars'|] eqn:Em; [|done].
    intros [= <-]. by constructor; [..|apply IH].
Qed.

Fixpoint first_route {E} (routes : list (list piece * string * E)) (method path : string)
    : option (E * gmap string string) :=
  match routes with
  | [] => None
  | (t, m, e) :: routes' =>
      match (if bool_decide (m = method) then match_template t path else None) with
      | Some vars => Some (e, vars)
      | None => first_route routes' method path
      end
  end.

#[local, refine] Instance demo_mux : Mux := {| dispatch E := first_route |}.
Proof.
  intros E l method path e vars. induction l as [|[[t m] e'] l IH]; [done|]. simpl.
  case_bool_decide as Hm; [destruct (match_template t path) as [vars'|] eqn:Et|].
  - intros [= <- <-]. exists t. subst. split; [by left|by apply match_template_matches].
  - intros (t' & ? & ?)%IH. exists t'. split; [by right|done].
  - intros (t' & ? & ?)%IH. exists t'. split; [by right|done].
Defined.

Definition demo_env : server_env := {|
  se_chains := {[1%Z]}; se_confirmations := ∅; se_report _ := None; se_unlock _ := Timeout;
  se_subscribe id := Subscribe 0 id demo_steps NewSignatureCache |}.

Lemma status_request_streams_witness :
  serve demo_env "GET" "/v1/chains/1/signatures/77" (Ok []) =
  ([], Done (Some {| resp_Code := 200; resp_Reason := None;
          resp_Body := "data: " +:+ hex.EncodeToString [Byte.xab] +:+ newline_str +:+ newline_str |})).
Proof.
  apply (status_request_streams Across.demo_handler Across.demo_relayer demo_env (Ok []) Across.demo_request 77
    (big.SetBytes Across.demo_hash) "1-77" "b" 0 5 50 [] [] []
    (OnResult (Some {| es_Signature := [Byte.xab]; es_ID := "1-77" |})) [Byte.xab]).
  - vm_compute. by eexists.
  - done.
  - apply (bool_decide_unpack _). by vm_compute.
  - done.
  - reflexivity.
  - vm_compute. repeat (apply list_elem_of_here || apply list_elem_of_further).
  - reflexivity.
  - constructor.
  - constructor.
  - by vm_compute.
  - reflexivity.
Defined.
End witnesses.
