(* ===== verification/App.v ===== *)
(** * The application (src/app/app.go, src/chains/lighter/chain.go)

    [Run] reads the configuration, the topology and the keyshare, and builds
    one domain for every configured chain, with the handlers that the solver
    configuration asks for; the routes of the API are told which chains are
    supported.  What the calls of third-party code answer is in [app_env];
    the relayer of sygma-core, which brings a message to the domain of its
    destination and there to the handler of its type, is [SygmaCore]. *)
From Stdlib Require Import Ascii.
From S2P Require Import Prelude GoStd Encoding Json Libs JsonCodec Comm Tokens ChainConfig Confirmations Price Eip712.
From S2P Require Import Topology P2P Keyshare TssCommon Signing Handlers Lighter Sprinter Lifi Across RelayerConfig Config Api.

(** ** Handlers and domains

    A handler with the fetcher and the watcher it was built with. *)
Inductive handler :=
  | HAcross (h : AcrossMessageHandler) (fetcher : DepositFetcher) (watcher : ConfirmationWatcher)
  | HEscrow (h : LifiEscrowMessageHandler) (orders : OrderFetcher) (watcher : ConfirmationWatcher)
  | HSprinter (h : SprinterCreditMessageHandler)
  | HUnlock (h : LifiUnlockHandler)
  | HLighter (h : LighterMessageHandler).

(** The listener of a chain with an admin contract: the keygen and the
    refresh event handler. *)
Record EventListener := {
  el_adminAddress : Address;
  el_threshold : Z;
  el_startBlock : Z;
  el_blockRetryInterval : Z;
  el_blockConfirmations : Z;
  el_blockInterval : Z;
}.

(** What the relayer routes messages to: the message handlers of an EVM
    chain by message type, or [LighterChain], which has one handler. *)
Inductive domain :=
  | EVMChain (handlers : gmap string handler) (listener : option EventListener)
  | LighterChain (h : handler).

Class SygmaCore := {
  (** [Relayer.route]: the domain of a message *)
  route : gmap Z domain → message → option domain;
  route_destination ds m : route ds m = ds !! msg_Destination m;
  (** [MessageHandler.HandleMessage]: the handler registered for its type *)
  registered : gmap string handler → message → option handler;
  registered_type hs m : registered hs m = hs !! msg_Type m;
}.

Section receive.
Context {SaveData : Type}.
Context `{PeerLib, EthCommon, Keccak, MapRange, Apitypes, SpokePoolABI, LifiLib, LighterABI, EthJson}.
Context `{SygmaCore} (r : relayer SaveData) (GetTx : string → result LighterTx).

(** The [HandleMessage] methods of the handlers begin with an assertion of
    the type of the data. *)
Definition HandleMessage (x : handler) (m : message) : io handler_action (option error) :=
  match x, msg_Data m with
  | HAcross h fetcher watcher, MAcross d => Across.HandleMessage h r d
  | HEscrow h orders watcher, MLifiEscrow d => HandleEscrow h r d
  | HSprinter h, MSprinterCredit d => Sprinter.HandleMessage h r d
  | HUnlock h, MLifiUnlock d => HandleUnlock h r d
  | HLighter h, MLighter d => Lighter.HandleMessage h r GetTx d
  | _, _ => panic "interface conversion"
  end.

(** What becomes of a message from the API; [None] if it is dropped with a
    log entry. *)
Definition ReceiveMessage (ds : gmap Z domain) (m : message) : option (io handler_action (option error)) :=
  match route ds m with
  | None => None
  | Some (EVMChain handlers _) => x ← registered handlers m; Some (HandleMessage x m)
  | Some (LighterChain x) => Some (HandleMessage x m)
  end.

(** The first value on the [ErrChn] of the message. *)
Definition report (ds : gmap Z domain) (m : message) : option (option error) :=
  acts ← ReceiveMessage ds m; head (reports (events acts)).
End receive.

(** ** The environment *)
Record chain_client := {
  cl_TransactionReceipt : Hash → result (list Log);
  cl_polls : Hash → list poll;
  cl_poolRebalanceRoute : Address → Z → Address → result Address;
  cl_LatestBlock : result Z;
}.

Record app_env := {
  env_configFlag : string;
  env_blockstoreFlag : string;
  (** configuration *)
  env_defaults : RawConfig → result RawConfig;
  env_ParseLevel : string → result Z;
  env_merge : Config.ChainConfig → Config.ChainConfig → result Config.ChainConfig;
  env_decode : gmap string tree → result RawConfig;
  env_decode_chains : string → result (list Config.ChainConfig);
  env_Getenv : string → string;
  env_Environ : list string;
  env_file : string → result RawConfig;
  env_decode_chain : Config.ChainConfig → result RawEVMConfig;
  env_defaults_chain : RawEVMConfig → result RawEVMConfig;
  env_FetchSolverConfig : result SolverConfig;
  (** files and network *)
  env_topology : result (result bytes);
  env_fs : fs_answers;
  env_topology_file : option bytes;
  env_keyshare : ECDSAKeyshareStore;
  env_decode_key : string → result bytes;
  env_new_host : string → bytes → NetworkTopology → result (PeerID * list PeerID);  (** [libp2p.New] *)
  env_metrics : option error;
  env_NewLvlDB : string → option error;
  env_dial : string → result chain_client;
  env_TokenPrice : string → result float64;
  env_pricer_start : option error;
  env_lifi_solver_config : option error;
}.

Inductive app_action :=
  | StoredTopology (file : option bytes)
  | LoadedPeer (a : peerstore_action)
  | GoWatchSignatures
  | GoListen (x : handler)
  | GoHealthCheck (interval : Z)
  | GoRelayer (domains : gmap Z domain)
  | GoServe (addr : string) (supportedChains : gset Z) (confirmationsPerChain : gmap Z (gmap Z Z)).

(** ** Run *)
Section app.
Context {SaveData : Type}.
Context `{PeerLib, EthCommon, Keccak, MapRange, Apitypes, SpokePoolABI, LifiLib, LighterABI, EthJson}.
Context `{AesBlock, Sha256, AddrLib, AddrInfoJson, SaveDataJson SaveData, Codec SolverConfig}.
(** [crypto.PubkeyToAddress] of the public key of a keyshare. *)
Context (PubkeyToAddress : SaveData → Address).
Context (env : app_env).

Definition panicOnError {A} (r : result A) : io app_action A :=
  match r with Ok a => mret a | Err _ => panic "panicOnError" end.

Definition no_error (err : option error) : result unit :=
  match err with Some e => Err e | None => Ok tt end.

(** [strings.ToLower(configFlag) == "env"]: no other letter is in lower case
    one of these three. *)
Definition is_env (configFlag : string) : bool :=
  bool_decide (configFlag ∈ (a ← ["e"; "E"]; n ← ["n"; "N"]; v ← ["v"; "V"]; [a +:+ n +:+ v])).

Definition configuration : outcome (result AppConfig) :=
  if is_env (env_configFlag env)
  then GetConfigFromENV (env_defaults env) (env_ParseLevel env) (env_merge env) (env_decode env)
         (env_decode_chains env) (env_Getenv env) (env_Environ env) None
  else Done (GetConfigFromFile (env_defaults env) (env_ParseLevel env) (env_merge env)
               (env_file env (env_configFlag env)) None).

(** The topology of the file, or the one that is fetched and stored. *)
Definition read_topology (key : bytes) : io app_action NetworkTopology :=
  match LoadTopology (env_fs env) (env_topology_file env) with
  | Ok networkTopology => mret networkTopology
  | Err _ =>
      fetched ← lift (FetchTopology key (env_topology env) "");
      networkTopology ← panicOnError fetched;
      let '(err, file) := StoreTopology (env_fs env) (env_topology_file env) networkTopology in
      emit (StoredTopology file) ≫= λ _,
      panicOnError (no_error err) ≫= λ _, mret networkTopology
  end.

(** The host, whose gate has the topology that its peers are loaded from. *)
Definition new_host (key : bytes) (port : Z) (topology : NetworkTopology) : io app_action PeerID :=
  let host := NewHost (env_new_host env) (Some key) topology topology port in
  (LoadedPeer <$> events host, returned host) ≫= panicOnError.

Section chains.
Context (solverConfig : SolverConfig) (mpcAddress : Address) (threshold : Z).

Definition evm_config (chainConfig : Config.ChainConfig) : result EVMConfig :=
  NewEVMConfig (env_decode_chain env chainConfig) (env_defaults_chain env)
    (env_blockstoreFlag env) solverConfig.

(** [*c.GeneralChainConfig.Id] *)
Definition chain_id (c : EVMConfig) : outcome Z :=
  match gc_Id (ec_GeneralChainConfig c) with
  | Some id => Done id
  | None => Panic "nil pointer dereference"
  end.

(** *** The first loop: what the handlers of all chains share *)
Record registry := {
  hubPoolContract : option (Z → string → result Address);
  acrossPools : gmap Z Address;
  lifiOutputSettlers : gmap Z Address;
  repayerAddresses : gmap Z Address;
  tokens : gmap Z (gmap string TokenConfig);
}.

Definition set_text (text : string) (id : Z) (m : gmap Z Address) : gmap Z Address :=
  if bool_decide (text = "") then m else <[id := HexToAddress text]> m.

Definition collect_chain (rg : registry) (chainConfig : Config.ChainConfig) : io app_action registry :=
  if negb (bool_decide (chainConfig !! "type" = Some (AString "evm")))
  then panic "type not recognized"
  else match evm_config chainConfig with
  | Err _ => mret rg
  | Ok c =>
      client ← panicOnError (env_dial env (gc_Endpoint (ec_GeneralChainConfig c)));
      id ← lift (chain_id c);
      mret {|
        hubPoolContract :=
          if bool_decide (ec_AcrossHubPool c = "") then hubPoolContract rg
          else Some (DestinationToken (ec_Tokens c)
                       (cl_poolRebalanceRoute client (HexToAddress (ec_AcrossHubPool c))));
        acrossPools := set_text (ec_AcrossPool c) id (acrossPools rg);
        lifiOutputSettlers := set_text (ec_LifiOutputSettler c) id (lifiOutputSettlers rg);
        repayerAddresses := set_text (ec_Repayer c) id (repayerAddresses rg);
        tokens := <[id := ec_Tokens c]> (tokens rg) |}
  end.

Fixpoint collect_chains (rg : registry) (chainConfigs : list Config.ChainConfig)
    : io app_action registry :=
  match chainConfigs with
  | [] => mret rg
  | c :: chainConfigs' => rg ← collect_chain rg c; collect_chains rg chainConfigs'
  end.

(** *** The second loop: the handlers and the domain of each chain *)
Record wiring := {
  supportedChains : gset Z;
  confirmationsPerChain : gmap Z (gmap Z Z);
  domains : gmap Z domain;
}.

Definition support (id : Z) (c : EVMConfig) (w : wiring) : wiring := {|
  supportedChains := {[id]} ∪ supportedChains w;
  confirmationsPerChain := <[id := ec_ConfirmationsByValue c]> (confirmationsPerChain w);
  domains := domains w |}.

Context (rg : registry).

Definition NewWatcher (c : EVMConfig) (client : chain_client) : ConfirmationWatcher :=
  watcher_interface
    {| w_tokenStore := {| Tokens := tokens rg |}; w_confirmations := ec_ConfirmationsByValue c;
       w_blocktime := i64 (i64 (gc_Blocktime (ec_GeneralChainConfig c)) * 10 ^ 9) |}
    (env_TokenPrice env) (cl_polls client).

Definition across_handler (id : Z) (c : EVMConfig) (client : chain_client) : handler :=
  HAcross
    (NewAcrossMessageHandler id {| Tokens := tokens rg |} (acrossPools rg) (repayerAddresses rg))
    (across_fetcher (NewAcrossDepositFetcher id {| Tokens := tokens rg |} (hubPoolContract rg))
       (cl_TransactionReceipt client))
    (NewWatcher c client).

Definition escrow_handler (id : Z) (c : EVMConfig) (client : chain_client) : handler :=
  HEscrow
    (NewLifiEscrowMessageHandler id mpcAddress (lifiOutputSettlers rg) {| Tokens := tokens rg |})
    (event_orders (NewLifiEventFetcher (cl_TransactionReceipt client) (HexToAddress (ec_LifiInputSettlerEscrow c))))
    (NewWatcher c client).

(** The message handler that is being filled, with the maps. *)
Abbreviation building := (gmap string handler * wiring)%type.

Definition register (t : MessageType) (x : handler) (mh : gmap string handler)
    : io app_action (gmap string handler) :=
  emit (GoListen x) ≫= λ _, mret (<[MessageType_String t := x]> mh).

Definition register_across (id : Z) (c : EVMConfig) (client : chain_client) (b : building)
    : io app_action building :=
  if bool_decide (ec_AcrossPool c = "") then mret b else
  mh ← register AcrossMsg (across_handler id c client) b.1;
  mret (mh, support id c b.2).

Definition register_escrow (id : Z) (c : EVMConfig) (client : chain_client) (b : building)
    : io app_action building :=
  if bool_decide (ec_LifiOutputSettler c = "") then mret b else
  panicOnError (no_error (env_pricer_start env)) ≫= λ _,
  panicOnError (no_error (env_lifi_solver_config env)) ≫= λ _,
  mh ← register LifiEscrowMsg (escrow_handler id c client) b.1;
  mret (mh, support id c b.2).

Definition register_sprinter (id : Z) (c : EVMConfig) (b : building) : io app_action building :=
  if bool_decide (ec_Liquidators c = ∅) then mret b else
  mh ← register SprinterCreditMsg (HSprinter (NewSprinterCreditMessageHandler id (ec_Liquidators c))) b.1;
  mret (mh, b.2).

Definition register_unlock (id : Z) (b : building) : io app_action building :=
  mh ← register LifiUnlockMsg (HUnlock (NewLifiUnlockHandler id (repayerAddresses rg))) b.1;
  mret (mh, b.2).

Definition new_listener (c : EVMConfig) (client : chain_client) : io app_action (option EventListener) :=
  if bool_decide (ec_Admin c = "") then mret None else
  head ← panicOnError (cl_LatestBlock client);
  mret (Some {| el_adminAddress := HexToAddress (ec_Admin c); el_threshold := threshold;
                el_startBlock := head; el_blockRetryInterval := ec_BlockRetryInterval c;
                el_blockConfirmations := gc_BlockConfirmations (ec_GeneralChainConfig c);
                el_blockInterval := ec_BlockInterval c |}).

Definition register_chain (w : wiring) (chainConfig : Config.ChainConfig) : io app_action wiring :=
  if negb (bool_decide (chainConfig !! "type" = Some (AString "evm")))
  then panic "type not recognized"
  else match evm_config chainConfig with
  | Err _ => mret w
  | Ok c =>
      client ← panicOnError (env_dial env (gc_Endpoint (ec_GeneralChainConfig c)));
      id ← lift (chain_id c);
      b ← register_across id c client (∅, w);
      b ← register_escrow id c client b;
      b ← register_sprinter id c b;
      b ← register_unlock id b;
      listener ← new_listener c client;
      mret {| supportedChains := supportedChains b.2;
              confirmationsPerChain := confirmationsPerChain b.2;
              domains := <[id := EVMChain b.1 listener]> (domains b.2) |}
  end.

Fixpoint register_chains (w : wiring) (chainConfigs : list Config.ChainConfig)
    : io app_action wiring :=
  match chainConfigs with
  | [] => mret w
  | c :: chainConfigs' => w ← register_chain w c; register_chains w chainConfigs'
  end.
End chains.

Definition lighter_handler (c : LighterConfig) : handler :=
  HLighter (NewLighterMessageHandler (WithdrawalAddress c) (UsdcAddress c) (RepaymentAddress c) (ConfirmationsByValue c)).

Definition register_lighter (c : LighterConfig) (w : wiring) : io app_action wiring :=
  emit (GoListen (lighter_handler c)) ≫= λ _,
  mret {| supportedChains := {[LIGHTER_DOMAIN_ID]} ∪ supportedChains w;
          confirmationsPerChain := confirmationsPerChain w;
          domains := <[LIGHTER_DOMAIN_ID := LighterChain (lighter_handler c)]> (domains w) |}.

(** Without a keyshare the address is that of the solver configuration. *)
Definition mpc_address (solverConfig : SolverConfig) : Address :=
  match GetKeyshare (env_fs env) (env_keyshare env) with
  | Ok keyshare => PubkeyToAddress (Key keyshare)
  | Err _ => HexToAddress (MpcAddress solverConfig)
  end.

Definition empty_registry : registry := {|
  hubPoolContract := None; acrossPools := ∅; lifiOutputSettlers := ∅; repayerAddresses := ∅; tokens := ∅ |}.
Definition empty_wiring : wiring :=
  {| supportedChains := ∅; confirmationsPerChain := ∅; domains := ∅ |}.

(** Both loops. *)
Definition wire_chains (solverConfig : SolverConfig) (threshold : Z)
    (chainConfigs : list Config.ChainConfig) : io app_action (registry * wiring) :=
  rg ← collect_chains solverConfig empty_registry chainConfigs;
  w ← register_chains solverConfig (mpc_address solverConfig) threshold rg empty_wiring chainConfigs;
  mret (rg, w).

(** The configuration, the topology and the host. *)
Definition start_host : io app_action (AppConfig * NetworkTopology * PeerID) :=
  configuration ← lift configuration;
  configuration ← panicOnError configuration;
  let mpc := MpcConfig (ac_RelayerConfig configuration) in
  key ← panicOnError (NewNetworkTopologyProvider (EncryptionKey (mpc_TopologyConfiguration mpc)));
  networkTopology ← read_topology key;
  priv ← panicOnError (env_decode_key env (mpc_Key mpc));
  host ← new_host priv (Port mpc) networkTopology;
  mret (configuration, networkTopology, host).

(** The metrics, the block store, the solver configuration and the chains. *)
Definition start_chains (configuration : AppConfig) (networkTopology : NetworkTopology)
    : io app_action wiring :=
  panicOnError (no_error (env_metrics env)) ≫= λ _,
  panicOnError (no_error (env_NewLvlDB env (env_blockstoreFlag env))) ≫= λ _,
  emit GoWatchSignatures ≫= λ _,
  solverConfig ← panicOnError (env_FetchSolverConfig env);
  configHash ← panicOnError (calculateConfigHash solverConfig);
  wired ← wire_chains solverConfig (nt_Threshold networkTopology) (ac_ChainConfigs configuration);
  lighterConfig ← panicOnError (NewLighterConfig solverConfig);
  register_lighter lighterConfig wired.2.

(** Until the relayer waits for a signal or a change of the configuration,
    at either of which it returns nil. *)
Definition Run : io app_action wiring :=
  '(configuration, networkTopology, _) ← start_host;
  w ← start_chains configuration networkTopology;
  emit (GoHealthCheck (CommHealthCheckInterval (MpcConfig (ac_RelayerConfig configuration)))) ≫= λ _,
  emit (GoRelayer (domains w)) ≫= λ _,
  emit (GoServe (ApiAddr (ac_RelayerConfig configuration)) (supportedChains w) (confirmationsPerChain w)) ≫= λ _,
  mret w.

(** ** Properties *)

(** *** What the configuration of a chain decides *)
Lemma evm_config_same solverConfig e1 e2 c1 c2 :
  evm_config solverConfig e1 = Ok c1 → evm_config solverConfig e2 = Ok c2 →
  gc_Id (ec_GeneralChainConfig c1) = gc_Id (ec_GeneralChainConfig c2) →
  ec_AcrossPool c1 = ec_AcrossPool c2 ∧ ec_LifiOutputSettler c1 = ec_LifiOutputSettler c2 ∧
  ec_Tokens c1 = ec_Tokens c2 ∧ ec_ConfirmationsByValue c1 = ec_ConfirmationsByValue c2.
Proof.
  rw /evm_config /NewEVMConfig. intros He1 He2.
  destruct (env_decode_chain env e1) as [r1|]; [|done]. destruct (env_decode_chain env e2) as [r2|]; [|done].
  simpl in He1, He2. destruct (env_defaults_chain env r1) as [d1|]; [|done].
  destruct (env_defaults_chain env r2) as [d2|]; [|done]. simpl in He1, He2.
  destruct (ChainConfig.Validate (re_GeneralChainConfig d1)), (gc_Id (re_GeneralChainConfig d1)) as [id1|] eqn:E1; try done.
  destruct (ChainConfig.Validate (re_GeneralChainConfig d2)), (gc_Id (re_GeneralChainConfig d2)) as [id2|] eqn:E2; try done.
  destruct (Chains solverConfig !! _) as [s1|] eqn:Es1; [|done].
  destruct (Chains solverConfig !! ("eip155:" +:+ fmt_d id2)) as [s2|] eqn:Es2; [|done].
  injection He1 as <-. injection He2 as <-. simpl.
  assert (∀ b g, gc_Id (ParseFlags b g) = gc_Id g) as Hid by (intros b g; rw /ParseFlags; by case_bool_decide).
  rw !Hid E1 E2. intros [= ->]. rw Es1 in Es2. by injection Es2 as <-.
Qed.

(** The chains of the configuration that could be registered. *)
Definition configured (solverConfig : SolverConfig) (chainConfigs : list Config.ChainConfig)
    (c : EVMConfig) (id : Z) : Prop :=
  gc_Id (ec_GeneralChainConfig c) = Some id ∧
  ∃ e, e ∈ chainConfigs ∧ evm_config solverConfig e = Ok c.

(** *** The registry *)
Record known (rg : registry) (c : EVMConfig) (id : Z) : Prop := {
  known_tokens : tokens rg !! id = Some (ec_Tokens c);
  known_pool : ec_AcrossPool c ≠ "" → acrossPools rg !! id = Some (HexToAddress (ec_AcrossPool c));
  known_settler : ec_LifiOutputSettler c ≠ "" →
    lifiOutputSettlers rg !! id = Some (HexToAddress (ec_LifiOutputSettler c));
}.

Lemma set_text_ne text id m id' : id' ≠ id → set_text text id m !! id' = m !! id'.
Proof. intros. rw /set_text. case_bool_decide; [done|]. by rw lookup_insert_ne. Qed.

Lemma set_text_eq text id m : text ≠ "" → set_text text id m !! id = Some (HexToAddress text).
Proof. intros. rw /set_text bool_decide_false //. apply lookup_insert_eq. Qed.

Lemma collect_chain_step solverConfig rg e rg' :
  returned (collect_chain solverConfig rg e) = Done rg' →
  (∃ err, evm_config solverConfig e = Err err) ∧ rg' = rg ∨
  ∃ c id, evm_config solverConfig e = Ok c ∧ gc_Id (ec_GeneralChainConfig c) = Some id ∧
    acrossPools rg' = set_text (ec_AcrossPool c) id (acrossPools rg) ∧
    lifiOutputSettlers rg' = set_text (ec_LifiOutputSettler c) id (lifiOutputSettlers rg) ∧
    tokens rg' = <[id := ec_Tokens c]> (tokens rg).
Proof.
  rw /collect_chain. destruct (negb _); [done|].
  destruct (evm_config solverConfig e) as [c|err]; [|intros [= <-]; left; by split; [eexists|]].
  intros (client & _ & (id & Hid & Hrg)%returned_bind)%returned_bind. right. exists c, id.
  rw /chain_id in Hid. destruct (gc_Id _); [|done]. by injection Hrg as <-; injection Hid as ->.
Qed.

Lemma collect_chain_known solverConfig rg e rg' e0 c id :
  returned (collect_chain solverConfig rg e) = Done rg' →
  evm_config solverConfig e0 = Ok c → gc_Id (ec_GeneralChainConfig c) = Some id →
  (known rg c id ∨ e = e0) → known rg' c id.
Proof.
  intros [[[err He] ->]|(c' & id' & He & Hid' & Hp & Hl & Ht)]%collect_chain_step Hc Hid Hk.
  { destruct Hk as [?| ->]; [done|congruence]. }
  destruct (decide (id = id')) as [->|Hne].
  - destruct (evm_config_same solverConfig e e0 c' c) as (E1 & E2 & E3 & _); [done|done|congruence|].
    constructor; rw ?Ht ?Hp ?Hl ?lookup_insert_eq -?E1 -?E2 -?E3 //; apply set_text_eq.
  - destruct Hk as [[Kt Kp Kl]| ->]; [|congruence].
    constructor; rw ?Ht ?Hp ?Hl ?lookup_insert_ne // set_text_ne //.
Qed.

Lemma collect_chains_known solverConfig rg es rg' e0 c id :
  returned (collect_chains solverConfig rg es) = Done rg' →
  evm_config solverConfig e0 = Ok c → gc_Id (ec_GeneralChainConfig c) = Some id →
  (known rg c id ∨ e0 ∈ es) → known rg' c id.
Proof.
  revert rg. induction es as [|e es IH]; intros rg.
  { intros [= <-] _ _ [?|?%not_elem_of_nil]; done. }
  intros (rg1 & Hs & Hr)%returned_bind Hc Hid Hk. apply (IH rg1 Hr Hc Hid).
  destruct Hk as [Hk|[->|?]%elem_of_cons]; [left..|by right]; eapply collect_chain_known; eauto.
Qed.

(** *** The domains *)

(** The handlers of the domain of a chain. *)
Record chain_served (mpcAddress : Address) (rg : registry) (c : EVMConfig) (id : Z)
    (client : chain_client) (handlers : gmap string handler) : Prop := {
  served_across : handlers !! MessageType_String AcrossMsg =
    if bool_decide (ec_AcrossPool c = "") then None else Some (across_handler rg id c client);
  served_escrow : handlers !! MessageType_String LifiEscrowMsg =
    if bool_decide (ec_LifiOutputSettler c = "") then None
    else Some (escrow_handler mpcAddress rg id c client);
  served_sprinter : handlers !! MessageType_String SprinterCreditMsg =
    if bool_decide (ec_Liquidators c = ∅) then None
    else Some (HSprinter (NewSprinterCreditMessageHandler id (ec_Liquidators c)));
  served_unlock : handlers !! MessageType_String LifiUnlockMsg =
    Some (HUnlock (NewLifiUnlockHandler id (repayerAddresses rg)));
  served_lighter : handlers !! MessageType_String LighterMsg = None;
}.

Definition supports (c : EVMConfig) : bool :=
  negb (bool_decide (ec_AcrossPool c = "") && bool_decide (ec_LifiOutputSettler c = "")).

Lemma register_chain_step solverConfig mpcAddress threshold rg w e w' :
  returned (register_chain solverConfig mpcAddress threshold rg w e) = Done w' →
  (∃ err, evm_config solverConfig e = Err err) ∧ w' = w ∨
  ∃ c id client handlers listener,
    evm_config solverConfig e = Ok c ∧ gc_Id (ec_GeneralChainConfig c) = Some id ∧
    chain_served mpcAddress rg c id client handlers ∧
    domains w' = <[id := EVMChain handlers listener]> (domains w) ∧
    supportedChains w' = (if supports c then {[id]} ∪ supportedChains w else supportedChains w) ∧
    (∀ chain, confirmationsPerChain w' !! chain =
       if decide (chain = id ∧ supports c = true) then Some (ec_ConfirmationsByValue c)
       else confirmationsPerChain w !! chain).
Proof.
  rw /register_chain. destruct (negb _); [done|].
  destruct (evm_config solverConfig e) as [c|err]; [|intros [= <-]; left; by split; [eexists|]].
  intros (client & _ & (id & Hid & (b1 & H1' & (b2 & H2' & (b3 & H3' & (b4 & H4' & (listener & _ & Hw)
    %returned_bind)%returned_bind)%returned_bind)%returned_bind)%returned_bind)%returned_bind)%returned_bind.
  right. exists c, id, client, b4.1, listener.
  rw /chain_id in Hid. destruct (gc_Id _) as [id0|]; [|done]. injection Hid as ->.
  assert (b1 = if bool_decide (ec_AcrossPool c = "") then (∅, w)
    else (<[MessageType_String AcrossMsg := across_handler rg id c client]> ∅, support id c w)) as Hb1.
  { revert H1'. rw /register_across. case_bool_decide; by intros [= <-]. }
  assert (b2 = if bool_decide (ec_LifiOutputSettler c = "") then b1
    else (<[MessageType_String LifiEscrowMsg := escrow_handler mpcAddress rg id c client]> b1.1,
          support id c b1.2)) as Hb2.
  { revert H2'. rw /register_escrow. destruct (bool_decide (ec_LifiOutputSettler c = "")); [cbn; congruence|].
    intros (? & _ & (? & _ & Hb)%returned_bind)%returned_bind. by injection Hb as <-. }
  assert (b3 = if bool_decide (ec_Liquidators c = ∅) then b2
    else (<[MessageType_String SprinterCreditMsg :=
             HSprinter (NewSprinterCreditMessageHandler id (ec_Liquidators c))]> b2.1, b2.2)) as Hb3.
  { revert H3'. rw /register_sprinter. destruct (bool_decide (ec_Liquidators c = ∅)); cbn; congruence. }
  injection H4' as <-. injection Hw as <-. simpl. clear H1' H2' H3'.
  rw /supports. destruct (bool_decide (ec_AcrossPool c = "")) eqn:Ep,
    (bool_decide (ec_LifiOutputSettler c = "")) eqn:El, (bool_decide (ec_Liquidators c = ∅)) eqn:Eq;
    subst b1 b2 b3; simpl;
    (split_and!; [done|done|constructor; rw ?Ep ?El ?Eq; rewrite ?lookup_insert_eq;
       repeat (rewrite lookup_insert_ne; [|done]); by rewrite ?lookup_insert_eq ?lookup_empty
     |done|set_solver|intros chain; rewrite ?lookup_insert;
      repeat case_decide; naive_solver]).
Qed.

(** Every supported chain is served by the domain of a configured chain. *)
Definition wired (solverConfig : SolverConfig) (mpcAddress : Address) (rg : registry)
    (chainConfigs : list Config.ChainConfig) (w : wiring) : Prop :=
  ∀ chain, chain ∈ supportedChains w →
    ∃ c client handlers listener,
      configured solverConfig chainConfigs c chain ∧ supports c = true ∧
      domains w !! chain = Some (EVMChain handlers listener) ∧
      chain_served mpcAddress rg c chain client handlers ∧
      confirmationsPerChain w !! chain = Some (ec_ConfirmationsByValue c).

Lemma register_chain_wired solverConfig mpcAddress threshold rg chainConfigs w e w' :
  wired solverConfig mpcAddress rg chainConfigs w → e ∈ chainConfigs →
  returned (register_chain solverConfig mpcAddress threshold rg w e) = Done w' →
  wired solverConfig mpcAddress rg chainConfigs w'.
Proof.
  intros Hw He [[_ ->]|(c & id & client & handlers & listener & Hc & Hid & Hserved & Hd & Hs & Hconf)]
    %register_chain_step; [done|].
  intros chain Hin. destruct (decide (chain = id)) as [->|Hne].
  - assert (supports c = true) as Hsup.
    { rw Hs in Hin. destruct (supports c) eqn:E; [done|].
      destruct (Hw id Hin) as (c0 & ? & ? & ? & (Hid0 & e0 & _ & He0) & Hsup0 & _).
      destruct (evm_config_same solverConfig e e0 c c0) as (E1 & E2 & _ & _); [done|done|congruence|].
      by rewrite /supports E1 E2 -/(supports c0) Hsup0 in E. }
    exists c, client, handlers, listener. split_and!; [split; [done|by exists e]|done| |done|].
    + by rw Hd lookup_insert_eq.
    + by rw Hconf decide_True.
  - assert (chain ∈ supportedChains w) as Hin' by (rewrite Hs in Hin; destruct (supports c); set_solver).
    destruct (Hw chain Hin') as (c0 & client0 & handlers0 & listener0 & ? & ? & ? & ? & ?).
    exists c0, client0, handlers0, listener0. split_and!; [done|done| |done|].
    + by rw Hd lookup_insert_ne.
    + rw Hconf decide_False //. naive_solver.
Qed.

Lemma register_chains_wired solverConfig mpcAddress threshold rg chainConfigs es w w' :
  es ⊆ chainConfigs → wired solverConfig mpcAddress rg chainConfigs w →
  returned (register_chains solverConfig mpcAddress threshold rg w es) = Done w' →
  wired solverConfig mpcAddress rg chainConfigs w'.
Proof.
  revert w. induction es as [|e es IH]; intros w Hes Hw; [by intros [= <-]|].
  intros (w1 & H1' & H2')%returned_bind. apply (IH w1); [set_solver| |done].
  eapply register_chain_wired; [done| |done]. set_solver.
Qed.

Lemma wire_chains_wired solverConfig threshold chainConfigs rg w :
  returned (wire_chains solverConfig threshold chainConfigs) = Done (rg, w) →
  wired solverConfig (mpc_address solverConfig) rg chainConfigs w ∧
  ∀ c id, configured solverConfig chainConfigs c id → known rg c id.
Proof.
  rw /wire_chains. intros (rg0 & Hrg & (w0 & Hw & [= <- <-])%returned_bind)%returned_bind. split.
  - eapply register_chains_wired; [reflexivity| |exact Hw]. intros chain Hin. by apply not_elem_of_empty in Hin.
  - intros c id (Hid & e & He & Hc). eapply collect_chains_known; [exact Hrg|done..|by right].
Qed.

Lemma panicOnError_Done {A} (r : result A) (a : A) : returned (panicOnError r) = Done a → r = Ok a.
Proof. destruct r; [by intros [= ->]|done]. Qed.

Lemma Run_wired w :
  returned Run = Done w →
  ∃ cfg solverConfig networkTopology rg w0 lighterConfig,
    configuration = Done (Ok cfg) ∧ env_FetchSolverConfig env = Ok solverConfig ∧
    returned (wire_chains solverConfig (nt_Threshold networkTopology) (ac_ChainConfigs cfg)) =
      Done (rg, w0) ∧
    NewLighterConfig solverConfig = Ok lighterConfig ∧
    returned (register_lighter lighterConfig w0) = Done w.
Proof.
  rw /Run /start_host /start_chains.
  intros ([[? ?] ?] & (c0 & Hc0 & (cfg & ->%panicOnError_Done & (? & _ & (top & _ & (? & _ & (? & _ & [= <- <- <-])
    %returned_bind)%returned_bind)%returned_bind)%returned_bind)%returned_bind)%returned_bind & Hrest)%returned_bind.
  cbn beta iota in Hrest. revert Hrest. intros (w' & (? & _ & (? & _ & (? & _ & (solverConfig & Hs%panicOnError_Done &
    (? & _ & ([rg w0] & Hwire & (lc & Hl%panicOnError_Done & Hreg)%returned_bind)%returned_bind)%returned_bind)
    %returned_bind)%returned_bind)%returned_bind)%returned_bind & Hend)%returned_bind.
  exists cfg, solverConfig, top, rg, w0, lc. split_and!; try done. by injection Hend as <-.
Qed.

(** C36: the routes of the API are served: a supported chain is the Lighter
    domain or a chain of the configuration whose domain has a handler for
    every protocol that the solver configuration asks for, made for that
    chain, with the confirmations that the API shows for it; and the handlers
    know the tokens, the pool and the settler of the chain. *)
Theorem supported_chains_served (w : wiring) (chain : Z) :
  returned Run = Done w → chain ∈ supportedChains w →
  (chain = LIGHTER_DOMAIN_ID ∧ ∃ c, domains w !! chain = Some (LighterChain (lighter_handler c))) ∨
  ∃ cfg solverConfig rg c client handlers listener,
    configuration = Done (Ok cfg) ∧ env_FetchSolverConfig env = Ok solverConfig ∧
    configured solverConfig (ac_ChainConfigs cfg) c chain ∧ supports c = true ∧
    domains w !! chain = Some (EVMChain handlers listener) ∧
    chain_served (mpc_address solverConfig) rg c chain client handlers ∧ known rg c chain ∧
    confirmationsPerChain w !! chain = Some (ec_ConfirmationsByValue c).
Proof.
  intros (cfg & solverConfig & top & rg & w0 & lc & Hcfg & Hs & [Hw Hk]%wire_chains_wired & _ & Hreg)%Run_wired Hin.
  injection Hreg as <-. simpl in *.
  destruct (decide (chain = LIGHTER_DOMAIN_ID)) as [->|Hne].
  - left. split; [done|]. exists lc. apply lookup_insert_eq.
  - right. destruct (Hw chain) as (c & client & handlers & listener & Hc & Hsup & Hd & Hserved & Hconf); [set_solver|].
    exists cfg, solverConfig, rg, c, client, handlers, listener.
    split_and!; [done..|by rw lookup_insert_ne|done|by apply Hk|done].
Qed.

(** ** Requests that reach a handler *)
Section requests.
Context `{SygmaCore, TtlCache} (r : relayer SaveData) (GetTx : string → result LighterTx).

Lemma report_across w b m d :
  returned Run = Done w → sb_ChainId b ∈ supportedChains w →
  msg_Destination m = sb_ChainId b → msg_Type m = MessageType_String AcrossMsg → msg_Data m = MAcross d →
  match report r GetTx (domains w) m with
  | None => True
  | Some err => ∃ cfg solverConfig rg c client h fetcher watcher,
      configuration = Done (Ok cfg) ∧ env_FetchSolverConfig env = Ok solverConfig ∧
      configured solverConfig (ac_ChainConfigs cfg) c (sb_ChainId b) ∧ ec_AcrossPool c ≠ "" ∧
      across_handler rg (sb_ChainId b) c client = HAcross h fetcher watcher ∧ known rg c (sb_ChainId b) ∧
      head (reports (events (Across.HandleMessage h r d))) = Some err
  end.
Proof.
  intros Hrun Hin Hdest Htype Hdata.
  pose proof (supported_chains_served w (sb_ChainId b) Hrun Hin) as Hserved.
  rw /report /ReceiveMessage route_destination Hdest.
  destruct Hserved as [(_ & c & ->)|(cfg & solverConfig & rg & c & client & handlers & listener & ? & ? & ? & _ & -> & Hs & Hk & _)].
  { by rw /HandleMessage Hdata. }
  rw registered_type Htype (served_across _ _ _ _ _ _ Hs).
  case_bool_decide; [done|]. cbn [option_bind mbind]. rw /across_handler /HandleMessage Hdata.
  destruct (head _) as [err|] eqn:Eh; [|done].
  eexists cfg, solverConfig, rg, c, client, _, _, _. by split_and!.
Qed.


(** C39: a request for the Lighter domain that names another protocol passes
    the validation of the API, and the handler panics on the type of its
    data. *)
Theorem lighter_domain_panics (w : wiring) (b : SigningBody) (vars : gmap string string) :
  returned Run = Done w →
  var vars "chainId" = fmt_d LIGHTER_DOMAIN_ID →
  sb_DepositId b ≠ "" → sb_LiquidityPool b ≠ "" → sb_Caller b ≠ "" → is_Some (sb_Nonce b) →
  is_Some (sb_BorrowAmount b) → sb_Deadline b ≠ 0%Z →
  sb_Protocol b ∈ [AcrossProtocol; LifiEscrowProtocol; SprinterCreditProtocol] →
  ∃ b' m acts, validate (supportedChains w) b vars = Ok b' ∧ signing_message b' = Done (Some m) ∧
    ReceiveMessage r GetTx (domains w) m = Some acts ∧ returned acts = Panic "interface conversion".
Proof.
  intros (cfg & solverConfig & top & rg & w0 & lc & _ & _ & _ & _ & Hreg)%Run_wired Hvar Hd Hp Hc [n Hn] [a Ha] Hdl Hproto.
  assert (LIGHTER_DOMAIN_ID ∈ supportedChains w ∧
    domains w !! LIGHTER_DOMAIN_ID = Some (LighterChain (lighter_handler lc))) as [Hin Hdom].
  { injection Hreg as <-. split; [by apply elem_of_union_l, elem_of_singleton|apply lookup_insert_eq]. }
  set (b' := set_ChainId LIGHTER_DOMAIN_ID b). exists b'.
  assert (∃ m, signing_message b' = Done (Some m) ∧ msg_Destination m = LIGHTER_DOMAIN_ID ∧
    (∀ d, msg_Data m ≠ MLighter d)) as (m & Hm & Hdest & Hdata).
  { rw /signing_message /= Hn Ha. elem_cases Hproto; rw Hproto; eexists; (split; [reflexivity|by split]). }
  exists m. eexists. split_and!; [|done| |].
  - apply validate_ok. constructor; simpl; try done. exists LIGHTER_DOMAIN_ID. rw Hvar. by vm_compute.
  - by rw /ReceiveMessage route_destination Hdest Hdom.
  - rw /HandleMessage /lighter_handler. destruct (msg_Data m) as [| |d| |]; try done. by destruct (Hdata d).
Qed.

(** A request whose protocol has no handler on its chain waits for ever: on
    a chain without a spoke pool that is supported for its settler, an Across
    request passes the validation and is never answered. *)
Lemma unserved_protocol_waits (w : wiring) (body : result bytes) (b b' : SigningBody)
    (vars : gmap string string) :
  json_Decode body = Ok b → valid_request (supportedChains w) b vars b' →
  sb_Protocol b = AcrossProtocol → is_Some (sb_BorrowAmount b) →
  (∃ handlers listener, domains w !! sb_ChainId b' = Some (EVMChain handlers listener) ∧
     handlers !! MessageType_String AcrossMsg = None) →
  returned (HandleSigning (supportedChains w) body vars (report r GetTx (domains w))) = Done None.
Proof.
  intros Hb Hv Hp [amount Ha] (handlers & listener & Hd & Hno).
  rw /HandleSigning Hb (proj2 (validate_ok _ _ _ _) Hv).
  destruct Hv as [(chainId & _ & Hb') _ _ [nonce Hn] _ _].
  rw /signing_message bool_decide_true; [|by rw Hb']. rw Hb' /= Hn Ha /=. rw Hb' /= in Hd.
  by rw /report /ReceiveMessage route_destination /= Hd registered_type Hno.
Qed.
End requests.
End app.

Section witnesses.
Import Toy ToyJson.
#[local] Existing Instance Across.demo_abi.
#[local] Existing Instance Lifi.demo_lifi.
#[local] Existing Instance Lighter.demo_abi.

#[export] Instance core : SygmaCore :=
  {| route ds m := ds !! msg_Destination m; route_destination _ _ := eq_refl;
     registered hs m := hs !! msg_Type m; registered_type _ _ := eq_refl |}.

#[local, refine] Instance solver_codec : Codec SolverConfig :=
  {| Marshal _ := Ok []; Unmarshal _ := Err (Errorf ""); codec_wf _ := False |}.
Proof. all: by intros. Defined.

Definition demo_relayer_config : RawRelayerConfig :=
  let c := RelayerConfig.demo_raw in
  let m := raw_MpcConfig c in {|
  raw_OpenTelemetryCollectorURL := ""; raw_LogLevel := "info"; raw_LogFile := "out.log";
  raw_HealthPort := "9001"; raw_Env := ""; raw_Id := "";
  raw_MpcConfig := {|
    raw_KeysharePath := "k"; raw_FrostKeysharePath := ""; raw_Key := ""; raw_Port := "9000";
    raw_TopologyConfiguration := {| EncryptionKey := "0123456789abcdef"; tc_Url := "u"; tc_Path := "p" |};
    raw_CommHealthCheckInterval := "5m" |};
  raw_BullyConfig := raw_BullyConfig c; raw_CoinmarketcapConfig := raw_CoinmarketcapConfig c;
  raw_SolverConfig := raw_SolverConfig c; raw_ApiAddr := "0.0.0.0:3000" |}.

(** Two EVM chains, of which the first has a spoke pool, and Arbitrum's entry
    for Lighter. *)
Definition demo_solver : SolverConfig :=
  let usdc := {| st_Address := string_of demo_token; st_Decimals := 6 |} in
  let chain := {| ch_Tokens := {["USDC" := usdc; "usdc" := usdc]}; ch_NativeTokenSymbol := "ETH";
                  ch_Decimals := 18; ch_Confirmations := [(100, 2); (1000, 12)]%Z |} in {|
  Chains := {["eip155:1" := chain; "eip155:10" := chain; "eip155:42161" := chain]};
  SprinterCredit := ∅; SprinterRepayer := {["eip155:10" := "repayer"]};
  SpokePools := {["eip155:1" := "pool"]}; HubPools := ∅; OutputSettler := ""; InputSettlerEscrow := "";
  FastWithdrawalContract := {["eip155:42161" := "withdrawal"]}; LighterRepaymentAddress := "1";
  MpcAddress := "mpc" |}.

Definition demo_chain (id : Z) (chainConfig : Config.ChainConfig) : RawEVMConfig := {|
  re_GeneralChainConfig := {|
    gc_Name := "chain"; gc_Id := Some id; gc_Endpoint := "http://"; gc_Type := "evm";
    gc_BlockstorePath := ""; gc_Blocktime := 12; gc_BlockConfirmations := 5; gc_Key := "";
    gc_Insecure := false |};
  re_Admin := ""; re_Repayer := ""; re_BlockInterval := 5; re_BlockRetryInterval := 5 |}.

Definition demo_entry (id : Z) : Config.ChainConfig := {["id" := AInt id; "type" := AString "evm"]}.

Definition demo_env : app_env := {|
  env_configFlag := "env"; env_blockstoreFlag := "store";
  env_defaults := Ok; env_ParseLevel _ := Ok 1%Z; env_merge a _ := Ok a;
  env_decode _ := Ok {| rc_RelayerConfig := demo_relayer_config;
                        rc_ChainConfigs := [demo_entry 1; demo_entry 10] |};
  env_decode_chains _ := Ok []; env_Getenv _ := ""; env_Environ := []; env_file _ := Err (Errorf "");
  env_decode_chain c := match c !! "id" with Some (AInt id) => Ok (demo_chain id c) | _ => Err (Errorf "") end;
  env_defaults_chain := Ok; env_FetchSolverConfig := Ok demo_solver;
  env_topology := Err (Errorf ""); env_fs := {| open_error := None; write_error := None; read_error := None |};
  env_topology_file := Some (json_Marshal Topology.demo_topology);
  env_keyshare := {| mu := false; file := None |};
  env_decode_key _ := Ok []; env_new_host _ _ _ := Ok ("a", ["a"; "b"]); env_metrics := None;
  env_NewLvlDB _ := None;
  env_dial _ := Ok {|
    cl_TransactionReceipt _ := Ok [Across.demo_log];
    cl_polls _ := [{| poll_done := false; poll_receipt := Ok (Some 10%Z); poll_latest := Ok 12%Z |}];
    cl_poolRebalanceRoute _ _ _ := Err (Errorf ""); cl_LatestBlock := Ok 12%Z |};
  env_TokenPrice := demo_price; env_pricer_start := None; env_lifi_solver_config := None |}.

Abbreviation demo_run := (Run (SaveData := unit) (λ _, []) demo_env).
Definition demo_wiring : wiring :=
  match returned demo_run with Done w => w | Panic _ => empty_wiring end.

Lemma demo_runs : returned demo_run = Done demo_wiring.
Proof.
  assert (match returned demo_run with Done _ => true | Panic _ => false end = true) as Hd.
  { vm_compute. reflexivity. }
  rw /demo_wiring. by destruct (returned demo_run).
Qed.

Lemma demo_supports : 1%Z ∈ supportedChains demo_wiring.
Proof. apply (bool_decide_eq_true_1 _). vm_compute. reflexivity. Qed.

Lemma supported_chains_served_witness :
  ∃ handlers listener, domains demo_wiring !! 1%Z = Some (EVMChain handlers listener).
Proof.
  destruct (supported_chains_served (λ _ : unit, []) demo_env demo_wiring 1 demo_runs) as [[Heq _]|
    (_ & _ & _ & _ & _ & handlers & listener & _ & _ & _ & _ & Hd & _)].
  - exact demo_supports.
  - discriminate Heq.
  - exists handlers, listener. exact Hd.
Defined.

Definition demo_vars : gmap string string := {["chainId" := "1"]}.


Lemma lighter_domain_panics_witness :
  ∃ m acts, ReceiveMessage Across.demo_relayer (λ _, Err (Errorf "")) (domains demo_wiring) m = Some acts ∧
    returned acts = Panic "interface conversion".
Proof.
  destruct (lighter_domain_panics (λ _ : unit, []) demo_env Across.demo_relayer (λ _, Err (Errorf ""))
    demo_wiring Api.demo_body {["chainId" := "1701984817"]} demo_runs) as (_ & m & acts & _ & _ & Hm & Hp);
    [reflexivity|done..|by eexists|by eexists|done|by left|].
  exists m, acts. split; [exact Hm|exact Hp].
Defined.
End witnesses.
