(* ===== verification/Cli.v ===== *)
(** * The command line (src/cli)

    The commands beside [run]: encrypting and testing a topology, generating
    keys, and printing what belongs to a key.  A command answers what it
    prints and the error it returns, or panics. *)
From S2P Require Import Prelude GoStd Encoding Json Libs JsonCodec Topology.

(** What a command prints until it returns or panics. *)
Definition command : Type := string * outcome (option error).

Definition returns (err : option error) : command := ("", Done err).

Definition newline : string := "
".

(** ** topology (src/cli/topology) *)
Section topology.
Context `{PeerLib, AesBlock, Sha256, AddrLib, AddrInfoJson}.

(** The body of [encryptTopology] after the file was opened; the error of
    [NewAESEncryption] is dropped, and encrypting without a cipher
    dereferences nil once the IV was read. *)
Definition encrypt_file (encryptionKey : string) (read iv : result bytes) : command :=
  match read with
  | Err e => returns (Some e)
  | Ok byteValue =>
      match Unmarshal (A := RawTopology) byteValue with
      | Err e => returns (Some (Errorf ("topology was wrong formed " +:+ error_string e)))
      | Ok _ =>
          match NewAESEncryption (bytes_of encryptionKey), iv with
          | _, Err e => returns (Some e)
          | Err _, Ok _ => ("", Panic "nil pointer dereference")
          | Ok key, Ok _ =>
              match Encrypt key iv byteValue with
              | Err e => returns (Some e)
              | Ok ct =>
                  ("Encrypted topology is: " +:+ hex.EncodeToString ct +:+ " " +:+ newline +:+
                   "Hash of the topology " +:+ hex.EncodeToString (sha256 ct), Done None)
              end
          end
      end
  end.

(** [opened] is what [os.Open] and then [io.ReadAll] answer, [closed] what
    the deferred [Close] answers; closing the nil file of a failed [os.Open]
    is an error. *)
Definition encryptTopology (encryptionKey : string) (opened : result (result bytes))
    (closed : option error) (iv : result bytes) : command :=
  match opened with
  | Err e => ("", Panic "invalid argument")
  | Ok read =>
      let '(out, res) := encrypt_file encryptionKey read iv in
      (out, match closed with Some e => Panic (error_string e) | None => res end)
  end.

(** [format] is [%+v]. *)
Definition testTopology (format : NetworkTopology → string) (decryptionKey hash : string)
    (get : result (result bytes)) : command :=
  match NewNetworkTopologyProvider decryptionKey with
  | Err e => returns (Some e)
  | Ok key =>
      match FetchTopology key get hash with
      | Panic msg => ("", Panic msg)
      | Done (Err e) => returns (Some e)
      | Done (Ok nt) =>
          ("Everything is fine your topology is " +:+ newline +:+ format nt, Done None)
      end
  end.

Lemma encrypt_file_prints encryptionKey read iv out :
  encrypt_file encryptionKey read iv = (out, Done None) →
  ∃ data iv' raw, read = Ok data ∧ iv = Ok iv' ∧ Unmarshal data = Ok raw ∧
    NewAESEncryption (bytes_of encryptionKey) = Ok (bytes_of encryptionKey) ∧
    let ct := iv' ++ XORKeyStream (bytes_of encryptionKey) iv' data in
    out = "Encrypted topology is: " +:+ hex.EncodeToString ct +:+ " " +:+ newline +:+
          "Hash of the topology " +:+ hex.EncodeToString (sha256 ct).
Proof.
  rw /encrypt_file. destruct read as [data|]; [|done].
  destruct (Unmarshal (A := RawTopology) data) as [raw|] eqn:Eu; [|done].
  rw /NewAESEncryption. destruct iv as [iv'|]; [|by case_bool_decide].
  case_bool_decide; [|done]. intros [= <-]. exists data, iv', raw. by split_and!.
Qed.

(** C21: what [topology encrypt] prints can be published.  Whenever the
    command succeeds on a file, the first text it prints is a ciphertext such
    that, published with or without a trailing newline, every relayer that
    has the same key, and expects the hash that the command prints or none,
    reads the topology of the file; and so does [topology test].  Whether
    that topology is valid is not checked by the command: where the file has
    a bad address or threshold, it is the relayers that refuse it. *)
Theorem encrypted_topology_read (encryptionKey : string) (file : bytes) (closed : option error)
    (iv : result bytes) (out : string) (nl : bool) (format : NetworkTopology → string) :
  (∀ b, iv = Ok b → length b = 16) →
  encryptTopology encryptionKey (Ok (Ok file)) closed iv = (out, Done None) →
  ∃ ct hash raw, out = "Encrypted topology is: " +:+ ct +:+ " " +:+ newline +:+ "Hash of the topology " +:+ hash ∧
    Unmarshal file = Ok raw ∧
    let get := Ok (Ok (bytes_of (ct +:+ (if nl then newline else "")))) in
    ∀ expected, expected = "" ∨ expected = hash →
      FetchTopology (bytes_of encryptionKey) get expected = Done (ProcessRawTopology raw) ∧
      testTopology format encryptionKey expected get =
        match ProcessRawTopology raw with
        | Ok nt => ("Everything is fine your topology is " +:+ newline +:+ format nt, Done None)
        | Err e => returns (Some e)
        end.
Proof.
  intros Hiv. rw /encryptTopology. destruct (encrypt_file encryptionKey (Ok file) iv) as [out' res] eqn:E.
  destruct closed; [done|]. intros [= -> ->].
  apply encrypt_file_prints in E as (data & iv' & raw & [= <-] & -> & Hu & Hkey & ->).
  set (ct := iv' ++ _). exists (hex.EncodeToString ct), (hex.EncodeToString (sha256 ct)), raw.
  split; [done|]. split; [done|]. intros expected Hexp.
  set (get := Ok (Ok _)).
  assert (FetchTopology (bytes_of encryptionKey) get expected = Done (ProcessRawTopology raw)) as Hf.
  { rw /get FetchTopology_published; [|by apply Hiv|done]. by rw Hu. }
  split; [done|]. rw /testTopology /NewNetworkTopologyProvider Hkey Hf. by destruct (ProcessRawTopology raw).
Qed.

(** [topology encrypt] crashes where it means to fail: a file that cannot
    be opened is reported by a panic of the deferred [Close] of a nil file,
    and a key of the wrong size, whose error is dropped, by a nil
    dereference, after the file was found well-formed. *)
Theorem encryptTopology_panics (encryptionKey : string) (opened : result (result bytes))
    (closed : option error) (iv : result bytes) :
  (is_ok opened = false → ∃ msg, encryptTopology encryptionKey opened closed iv = ("", Panic msg)) ∧
  (∀ file b, opened = Ok (Ok file) → is_ok (Unmarshal (A := RawTopology) file) = true → iv = Ok b →
     is_ok (NewAESEncryption (bytes_of encryptionKey)) = false →
     ∃ msg, encryptTopology encryptionKey opened closed iv = ("", Panic msg)).
Proof.
  rw /encryptTopology. split; [destruct opened; [done|by eexists]|].
  intros file b -> Hu -> Hk. rw /encrypt_file. destruct (Unmarshal (A := RawTopology) file); [|done].
  destruct (NewAESEncryption (bytes_of encryptionKey)); [done|]. by destruct closed; eexists.
Qed.
End topology.

(** ** peer (src/cli/peer) *)

(** github.com/libp2p/go-libp2p/core/crypto and peer *)
Class Libp2pCrypto := {
  PrivKey : Type;
  PubKey : Type;
  MarshalPrivateKey : PrivKey → result bytes;
  UnmarshalPrivateKey : bytes → result PrivKey;
  GetPublic : PrivKey → PubKey;
  IDFromPublicKey : PubKey → result PeerID;
  Unmarshal_MarshalPrivateKey k b : MarshalPrivateKey k = Ok b → UnmarshalPrivateKey b = Ok k;
}.

Section peer.
Context `{PeerLib, Libp2pCrypto}.

(** [crypto.ConfigDecodeKey] and [peer.IDFromPrivateKey] *)
Definition ConfigDecodeKey (b : string) : result bytes :=
  result_of_option (Errorf "illegal base64 data") (base64.DecodeString b).
Definition IDFromPrivateKey (sk : PrivKey) : result PeerID := IDFromPublicKey (GetPublic sk).

(** [pair] is what [crypto.GenerateKeyPair] answers.  In the raw string of
    the format, [\n] is a backslash and an n. *)
Definition peer_generateKey (pair : result (PrivKey * PubKey)) : command :=
  match pair with
  | Err e => returns (Some e)
  | Ok (priv, pub) =>
      match IDFromPublicKey pub with
      | Err e => returns (Some e)
      | Ok peerID =>
          match MarshalPrivateKey priv with
          | Err e => returns (Some e)
          | Ok marshPriv =>
              (newline +:+ "LibP2P peer identity: " +:+ peer_String peerID +:+ " \n" +:+ newline +:+
               "LibP2P private key: " +:+ base64.EncodeToString marshPriv +:+ newline, Done None)
          end
      end
  end.

Definition peerInfo (privateKey : string) : command :=
  match ConfigDecodeKey privateKey with
  | Err e => returns (Some e)
  | Ok privBytes =>
      match UnmarshalPrivateKey privBytes with
      | Err e => returns (Some e)
      | Ok priv =>
          match IDFromPrivateKey priv with
          | Err e => returns (Some e)
          | Ok peerID => (newline +:+ "LibP2P peer identity: " +:+ peer_String peerID +:+ newline, Done None)
          end
      end
  end.

(** A generated key is the one that is read back.  What [peer gen-key]
    prints as the private key of an identity is decoded to that private key
    by the relayer, and [peer info] prints the same identity for it. *)
Theorem generated_identity (priv : PrivKey) (out : string) :
  peer_generateKey (Ok (priv, GetPublic priv)) = (out, Done None) →
  ∃ peerID key b, out = newline +:+ "LibP2P peer identity: " +:+ peer_String peerID +:+ " \n" +:+ newline +:+
                        "LibP2P private key: " +:+ key +:+ newline ∧
    IDFromPublicKey (GetPublic priv) = Ok peerID ∧
    ConfigDecodeKey key = Ok b ∧ UnmarshalPrivateKey b = Ok priv ∧
    peerInfo key = (newline +:+ "LibP2P peer identity: " +:+ peer_String peerID +:+ newline, Done None).
Proof.
  rw /peer_generateKey. destruct (IDFromPublicKey (GetPublic priv)) as [peerID|] eqn:Eid; [|done].
  destruct (MarshalPrivateKey priv) as [b|] eqn:Em; [|done]. intros [= <-].
  exists peerID, (base64.EncodeToString b), b.
  assert (ConfigDecodeKey (base64.EncodeToString b) = Ok b) as Hd.
  { by rw /ConfigDecodeKey base64.DecodeString_base64. }
  pose proof (Unmarshal_MarshalPrivateKey _ _ Em) as Hu. split_and!; [done..|].
  by rw /peerInfo Hd Hu /IDFromPrivateKey Eid.
Qed.
End peer.

(** ** keygen (src/cli/keygen) and utils (src/cli/utils) *)

(** [kp] is what [secp256k1.GenerateKeypair] answers: the encoding of the
    private key and the public key as text. *)
Definition keygen_generateKey (kp : result (bytes * string)) : command :=
  match kp with
  | Err e => returns (Some e)
  | Ok (encoded, publicKey) =>
      ("Public key: " +:+ publicKey +:+ newline +:+
       "Private key: 0x" +:+ hex.EncodeToString encoded +:+ newline, Done None)
  end.

(** [signature.KeyringPairFromSecret], then its address. *)
Definition derivateSS58 (KeyringPairFromSecret : string → Z → result string)
    (privateKey : string) (networkID : Z) : command :=
  match KeyringPairFromSecret privateKey networkID with
  | Err e => returns (Some e)
  | Ok address => (address +:+ newline, Done None)
  end.

(** ** The tree of commands (src/cli/cli.go) *)
Inductive function := FRun | FPeerInfo | FPeerGenKey | FEncryptTopology | FTestTopology | FDerivateSS58 | FGenKey.

Inductive Command :=
  | Leaf (Use : string) (RunE : function)
  | Group (Use : string) (commands : list Command).

Definition runCMD : Command := Leaf "run" FRun.
Definition PeerCLI : Command := Group "peer" [Leaf "info" FPeerInfo; Leaf "gen-key" FPeerGenKey].
Definition TopologyCLI : Command :=
  Group "topology" [Leaf "encrypt" FEncryptTopology; Leaf "test" FTestTopology].
Definition UtilsCLI : Command := Group "utils" [Leaf "derivateSS58" FDerivateSS58].
Definition KeygenCLI : Command := Group "keygen" [Leaf "gen-key" FGenKey].
Definition rootCMD : Command := Group "" [runCMD; PeerCLI; TopologyCLI; UtilsCLI; KeygenCLI].

(** [Execute]: the exit code, by what [rootCMD.Execute] answers. *)
Definition Execute (err : option error) : Z := match err with Some _ => 1 | None => 0 end.

Section witnesses.
Import Toy ToyJson.

Definition demo_encryptionKey : string := string_of demo_key.
Definition demo_file : bytes := json_Marshal demo_raw.

Lemma encrypted_topology_read_witness :
  ∃ ct raw, Unmarshal demo_file = Ok raw ∧
    FetchTopology demo_key (Ok (Ok (bytes_of (ct +:+ newline)))) "" = Done (ProcessRawTopology raw).
Proof.
  destruct (encrypted_topology_read demo_encryptionKey demo_file None (Ok demo_iv)
    (encryptTopology demo_encryptionKey (Ok (Ok demo_file)) None (Ok demo_iv)).1 true (λ _, ""))
    as (ct & hash & raw & _ & Hu & Hread).
  - by intros b [= <-].
  - by vm_compute.
  - exists ct, raw. split; [exact Hu|]. destruct (Hread "") as [Hf _]; [by left|].
    assert (bytes_of demo_encryptionKey = demo_key) as Hk by (vm_compute; reflexivity).
    rewrite Hk in Hf. exact Hf.
Defined.

(** Keys that are their own encoding. *)
#[local] Instance demo_crypto : Libp2pCrypto := {|
  PrivKey := bytes; PubKey := bytes;
  MarshalPrivateKey := Ok; UnmarshalPrivateKey := Ok; GetPublic k := k;
  IDFromPublicKey k := Ok (string_of k);
  Unmarshal_MarshalPrivateKey k b H := eq_sym H;
|}.

Definition demo_priv : PrivKey := bytes_of "relayer".

Lemma generated_identity_witness :
  ∃ key, peerInfo key = (newline +:+ "LibP2P peer identity: " +:+ "relayer" +:+ newline, Done None).
Proof.
  destruct (generated_identity demo_priv (peer_generateKey (Ok (demo_priv, demo_priv))).1)
    as (peerID & key & b & _ & Hid & _ & _ & Hinfo).
  - reflexivity.
  - exists key. by injection Hid as <-.
Defined.
End witnesses.
